(* ===== verification/_CoqProject ===== *)
-Q . S2P
Prelude.v
BitSet.v
Rle.v
RleCorrect.v
RleTotal.v
Cbor.v
CborRef.v
Decimal.v
F64.v
Text.v
Json.v
Serde.v
SerdeLaws.v
Address.v
AddressRef.v
Wrappers.v
BitField.v
Piece.v
Sector.v
Crypto.v
Vrf.v
Hashing.v
Message.v
Block.v
Tipset.v
Key.v
Query.v
DataStore.v
StoreWrappers.v
StoreTheorems.v
StoreStacks.v
StoreBatches.v
RocksStats.v
Rocks.v
RocksLaws.v
RocksStore.v
RocksTheorems.v
RocksTxn.v
Ipld.v
IpldRef.v
IpldTheorems.v
IpldMacro.v
Wallet.v
WalletTheorems.v
WalletHandle.v
Fc.v
BlockStore.v
Params.v
PrimJson.v
Actors.v
JsonRef.v
ValueWrappers.v
SectorJson.v
ActorCbor.v
ApiTypes.v
Gas.v
PeerMgr.v
Chain.v
RpcHandler.v
RpcTheorems.v
RpcCodec.v
Network.v
NetworkTheorems.v
Startup.v
Cli.v
JsonRpc.v
JsonRpcTheorems.v
JsonRpcBatch.v
Api.v
ApiRequests.v
ApiTheorems.v
ApiSessions.v
