(* ===== verification/Prelude.v ===== *)
(** * Plum: a verification development

    Plum is a Filecoin node in Rust: a workspace of small crates.  This library
    models the crates that carry its logic as Rocq functions and proves what
    makes them correct.  Every definition is a translation of a function, a
    method or a type of the sources; the doc comments name them.

    ** The program

    - [primitives/*]: the data of the chain.  Addresses, big integers, bit
      fields (RLE+), pieces, sectors, signatures, messages, blocks and tipsets,
      each with its CBOR form ([minicbor]) and its text or JSON form.
    - [ipfs/datastore], [ipfs/datastore-memory], [ipfs/datastore-rocksdb]:
      hierarchical keys, the key-value store interface, its implementations
      (map, dummy, memory, RocksDB), batches, transactions and queries, and
      wrappers that transform keys, fail on demand, delay, log or synchronise.
    - [ipld], [ipfs/block], [primitives/fc]: dynamic values with CBOR and JSON
      forms, blocks named by their CID, commitments as CIDs.
    - [wallet]: keys, key stores and the wallet, on top of addresses and
      signatures.
    - [actor]: the records of the builtin actors.
    - [vm], [chain], [peermgr], [params]: gas prices, randomness, the set of
      peers, the constants of a network.
    - [libp2p], [network]: the RPC protocol (codec, upgrades, the handler of one
      connection), the node's behaviour, the service that runs it and the
      handler of its messages.
    - [api-client]: a JSON-RPC client over HTTP and WebSocket, and the remote
      methods of a node.
    - [cli]: the commands, the logger, and the start of a node.

    ** The files

    - Prelude: outcomes of Rust code (value, error, panic), machine integers
      with and without overflow checks, bytes; notation [x <- m ;; k].
    - BitSet, Rle, RleCorrect, RleTotal: [primitives/bitfield/rle].  [DynamicBitSet]
      with [push], [bit] and [find_next]; [encode] and [decode] for items of any
      width.  Decoding inverts encoding; decoding any input ends, with
      increasing output; oversized input is refused.
    - Cbor, CborRef: the interface of [minicbor], [num-bigint] and [cid]
      (classes [Minicbor], [NumBigint], [CidLib] and their laws), and an
      instance of each that satisfies the laws.
    - Decimal, F64, Text, Json: numbers and texts as the standard library
      prints and parses them, 64-bit floats, and JSON trees.
    - Serde, SerdeLaws: what the derives of [serde] read and write, as codecs
      between values and JSON trees; a codec is [lawful] when it reads back what
      it wrote.  The database [codec] proves it for structs field by field.
    - Address, AddressRef: [primitives/address], over the crates for
      varints, base32 and blake2b (class [AddressDeps]).  Text and byte forms
      are read back; the constructors make valid addresses.
    - Wrappers, BitField, Piece, Sector: CBOR wrappers of [primitives/bigint],
      [bytes], [hash], [peerid]; [primitives/bitfield]; piece sizes with 64-bit
      arithmetic; registered proofs and sector records.
    - Crypto, Vrf: [primitives/crypto], over the curve libraries (class [Curves]).
      What a key signs verifies; CryptoRef is an instance of the interface.
      Vrf: keys and proofs of the VRF as bytes.
    - Hashing: [hashing], over the hash crates: the size of each digest, and
      which lengths panic.
    - Message, Block, Tipset: the chain's records.  Round trips, the check for
      block inclusion, and [Tipset::new]: what it accepts, its order, and that
      the order of the input does not matter.
    - Key, Query: [ipfs/datastore/src/key.rs] and [query]: normal form,
      hierarchy and order of keys, over the crate [path_clean]; filters and
      orders of a query.
    - DataStore, StoreWrappers, StoreTheorems: the store traits as classes, the
      stores and wrappers as instances.  The class [StoreSpec] is the contract
      of a store: an abstract map that each operation reads or updates.  Every
      wrapper's instance of it is proved from the instance of the store below,
      and the theorems are proved against the contract, so they hold for every
      stack of wrappers.  Shared cells behind a lock are cells of a heap, so
      that clones alias.
    - StoreStacks: stores put together by their constructors.  A stack is a value,
      [assemble] builds it, and every stack of prefixes, delays, loggers and locks
      over a map store is a map.
    - StoreBatches: how a store opens a batch or a transaction.  The class
      [TxnSpec] is the contract of a transaction, recorded writes beside a map.
      Basic transactions on the stacks of StoreStacks meet it and commit into the
      store they were taken from; the transforming and synchronized wrappers keep
      it, and the logging one never returns from a commit.
    - RocksStats, Rocks, RocksLaws, RocksStore, RocksTheorems, RocksTxn:
      [ipfs/datastore-rocksdb].  The database with its columns, statistics and
      options over the crate [rocksdb] (class [RocksLib]), and the store made of
      it, which satisfies [StoreSpec]; batches, reopening, closing, which fresh
      databases open, and what a store without the default column does.
      RocksTxn: its transactions meet [TxnSpec].
    - Ipld, IpldRef, IpldTheorems: [ipld].  Values, the order of map keys, and
      both forms: CBOR is read back or refused, depending on the integers in the
      value; JSON is read back exactly when no map imitates a link, and what was
      read from JSON is in a normal form.
    - IpldMacro: the macro [ipld!] as a parser of token trees; it accepts a
      grammar given by rules, and every value is spelled by some literal.
    - Wallet, WalletTheorems, WalletHandle: [wallet].  The calls that change a wallet are
      the steps of a transition system; memory and key store agree in every
      reachable wallet, what is imported can be used to sign, and the
      addresses listed are those held.  WalletHandle: the wallet behind its lock,
      which never loses a key whatever calls come after.
    - Fc, BlockStore, Params: commitments and IPFS blocks; the block store, an
      interface with its documented contract; the constants of a network, which
      the first call settles.
    - PrimJson, Actors, JsonRef, ActorCbor, ApiTypes: the JSON forms of the
      primitives, of the actors' records and of the types of the API, the CBOR
      forms of the miner, and instances of the libraries they use.  Each codec
      is lawful.
    - ValueWrappers, SectorJson: the remaining forms of the wrappers, of keys, and
      of the proof records; sums of piece sizes.
    - Gas, PeerMgr, Chain: the price table and its search by epoch, the bounded
      peer set as a refinement of a set, domain separation of randomness.
    - RpcHandler, RpcTheorems: [libp2p/src/rpc].  The handler's methods over
      substreams and timers given by the class [RpcEnv]; a system is a handler
      with the dials its swarm has in flight.  No call panics in a reachable
      system, substreams only move towards their end, nothing follows a closing
      response, and the fate of the dial slots.
    - RpcCodec: what the codecs do to their buffers, and the two upgrades.
    - Network, NetworkTheorems: the RPC behaviour's queue, the node's behaviour,
      the service's loops and the message handler, over a swarm given by a
      class: which events are answered, and which message ends the handler.
    - Startup, Cli: the configuration of a node, its service and subscriptions,
      over what a swarm shows of itself; the commands of [plum], what each does,
      and what the logger writes.  [cli::run] runs a node in two ways and panics
      otherwise, and the program's [main] does not call it; the node so started and
      the first gossip it receives; log lines without colours.
    - JsonRpc, JsonRpcTheorems, JsonRpcBatch: the messages and both transports.
      The WebSocket's tables of calls and subscriptions are a transition system:
      a reply goes to the call with its id, and every call whose response comes
      is answered; batches and streams.
    - Api, ApiRequests, ApiTheorems, ApiSessions: one definition per remote method;
      what each method sends, and that no two calls send the same; version numbers;
      whole sessions of calls, which get the same answers from a node over HTTP and
      over a WebSocket.

    ** Conventions

    A Rust [Result] is [Ok] or [Err]; [Panic] is a panic, so that "does not
    panic" is a statement one can prove or refute; [OutOfFuel] marks the end of
    the fuel of a loop that is not structural.  The fuel of each such loop is a
    bound that its input gives (the bits left to decode, the width of an item,
    the length of a queue, the number of timers set), and the theorems state
    results, so they include that the fuel is enough.  Decoding an IPLD
    value takes as many units as it nests levels, a turn of the service two more
    than the swarm has events; the calls that recurse for ever take the size of
    the stack, of which nothing is assumed; an [ExecutionResult] of the API may
    nest 128 deep, which is where [serde_json] stops reading.  The functions of
    [ipld/src/lib.rs] that go through a JSON text have that limit ([Ipld.from_str]);
    the codecs between values and JSON trees have none.  A byte or integer is a
    [Z], its range a hypothesis where it matters; arithmetic that can overflow
    goes through [u_add], [u_sub] and [u_shl], whose flag [ck] is the overflow
    check of the build profile.  A string is the list of its bytes.  Code of
    other crates is a class of operations with a class of laws that state what
    its documentation promises; each has an instance, which the witnesses use.
    Globals, random secrets, the clock and the iteration order of hash maps are
    arguments.

    ** Not modelled

    Implementations of the block store and of stores with a time to live, of which
    the sources have none; the transport of libp2p, which its libraries build; the
    random source, whose secrets and identifiers are arguments; the parser of
    the arguments of the command line, which the crate [structopt] derives and
    which is a parameter; the recursion limit of the compiler for the macro
    [ipld!]; conversions ([From], [Deref], [AsRef]) that only wrap or unwrap a
    value, which are the identity here.  Sockets, files and tasks are behind the
    classes of the libraries that own them, and a task that waits is a function
    of the messages that arrive. *)

From Stdlib Require Import ZArith Lia String Ascii.
From stdpp Require Import base numbers list.

Local Open Scope Z_scope.

(** ** Outcomes of Rust code

    [Ok]/[Err] are the two constructors of [Result]; [Panic] is an unwinding
    panic (a failed [assert!], an index out of range, an [expect] on [None], a
    checked arithmetic overflow); [OutOfFuel] only marks the exhaustion of the
    fuel of a fuelled definition and is shown unreachable for each of them. *)
Inductive outcome (E A : Type) : Type :=
| Ok (a : A)
| Err (e : E)
| Panic
| OutOfFuel.
Arguments Ok {E A} a.
Arguments Err {E A} e.
Arguments Panic {E A}.
Arguments OutOfFuel {E A}.

Definition bind {E A B} (m : outcome E A) (k : A -> outcome E B) : outcome E B :=
  match m with
  | Ok a => k a
  | Err e => Err e
  | Panic => Panic
  | OutOfFuel => OutOfFuel
  end.

Definition map_err {E F A} (f : E -> F) (m : outcome E A) : outcome F A :=
  match m with
  | Ok a => Ok a
  | Err e => Err (f e)
  | Panic => Panic
  | OutOfFuel => OutOfFuel
  end.

(** [r.expect(..)] and [r.unwrap()]. *)
Definition expect {E F A} (m : outcome E A) : outcome F A :=
  match m with
  | Ok a => Ok a
  | Err _ => Panic
  | Panic => Panic
  | OutOfFuel => OutOfFuel
  end.

Definition of_option {E A} (e : E) (o : option A) : outcome E A :=
  match o with Some a => Ok a | None => Err e end.

(** [v[i]]: an index out of range panics. *)
Definition index_or_panic {E A} (o : option A) : outcome E A :=
  match o with Some a => Ok a | None => Panic end.

Definition is_ok {E A} (m : outcome E A) : bool :=
  match m with Ok _ => true | _ => false end.

Declare Scope plum_scope.
Delimit Scope plum_scope with plum.

Notation "x <- m ;; k" := (bind m (fun x => k))
  (at level 20, m at level 99, k at level 200) : plum_scope.
Notation "' p <- m ;; k" := (bind m (fun p => k))
  (at level 20, p pattern, m at level 99, k at level 200) : plum_scope.
Notation "m ;;; k" := (bind m (fun _ => k))
  (at level 100, k at level 200, right associativity) : plum_scope.
Global Open Scope plum_scope.

Create HintDb plum.

Lemma bind_ok {E A B} (m : outcome E A) (k : A -> outcome E B) b :
  bind m k = Ok b <-> exists a, m = Ok a /\ k a = Ok b.
Proof. destruct m; split; [by eauto|by intros (?&[= <-]&?)|done|by intros (?&?&?)|done|by intros (?&?&?)|done|by intros (?&?&?)]. Qed.

Lemma Ok_inj {E A} (a b : A) : @Ok E A a = Ok b -> a = b.
Proof. congruence. Qed.

Lemma bind_assoc {E A B C} (m : outcome E A) (k : A -> outcome E B) (h : B -> outcome E C) :
  bind (bind m k) h = bind m (fun a => bind (k a) h).
Proof. by destruct m. Qed.

(** ** Machine integers

    A value of an unsigned type of [w] bits is a [Z] in [0 .. 2^w).  The
    flag [ck] is the [overflow-checks] setting of the build profile: a checked
    operation panics where an unchecked one wraps around. *)
Definition in_width (w a : Z) : Prop := 0 <= a < 2 ^ w.

Definition u_add {E} (ck : bool) (w a b : Z) : outcome E Z :=
  if a + b <? 2 ^ w then Ok (a + b)
  else if ck then Panic else Ok ((a + b) mod 2 ^ w).

Definition u_sub {E} (ck : bool) (w a b : Z) : outcome E Z :=
  if b <=? a then Ok (a - b)
  else if ck then Panic else Ok ((a - b) mod 2 ^ w).

Definition u_shl {E} (ck : bool) (w a s : Z) : outcome E Z :=
  if s <? w then Ok (Z.shiftl a s mod 2 ^ w)
  else if ck then Panic else Ok (Z.shiftl a (s mod w) mod 2 ^ w).

(** [x as uN]: truncation. *)
Definition trunc (w a : Z) : Z := a mod 2 ^ w.

Lemma u_add_ok {E} ck w a b : a + b < 2 ^ w -> @u_add E ck w a b = Ok (a + b).
Proof. unfold u_add. by intros ->%Z.ltb_lt. Qed.

Lemma u_sub_ok {E} ck w a b : b <= a -> @u_sub E ck w a b = Ok (a - b).
Proof. unfold u_sub. by intros ->%Z.leb_le. Qed.

Lemma trunc_small w a : in_width w a -> trunc w a = a.
Proof. apply Z.mod_small. Qed.

#[export] Hint Resolve trunc_small : plum.

(** ** Bytes *)
Definition u8 (b : Z) : Prop := 0 <= b < 256.
Definition bytes_ok (bs : list Z) : Prop := Forall u8 bs.

(** The bytes of an ASCII literal, as [str::as_bytes] gives them. *)
Fixpoint str (s : string) : list Z :=
  match s with
  | EmptyString => []
  | String c s' => Z.of_N (N_of_ascii c) :: str s'
  end.

Lemma bytes_ok_app xs ys : bytes_ok (xs ++ ys) <-> bytes_ok xs /\ bytes_ok ys.
Proof. apply Forall_app. Qed.

Lemma str_bytes_ok s : bytes_ok (str s).
Proof.
  induction s as [|c s IH]; constructor; [|done].
  unfold u8. pose proof (N_ascii_bounded c). lia.
Qed.

#[export] Hint Resolve str_bytes_ok : plum.

(** Split the hypotheses and goals that conjunctions, outcomes and pairs
    leave behind. *)
Ltac crush_outcome :=
  repeat match goal with
  | H : bind _ _ = Ok _ |- _ => apply bind_ok in H as (? & ? & ?)
  | H : Ok _ = Ok _ |- _ => injection H as H
  | H : _ = Ok _ |- _ => discriminate H
  | H : (_, _) = (_, _) |- _ => injection H as ? ?
  | _ => progress simplify_eq/=
  end.
