(* ===== verification/BitSet.v ===== *)
(** * DynamicBitSet: the bit buffer of the RLE+ codec
      (primitives/bitfield/rle/src/bitset.rs)

    A growable sequence of bits packed least significant bit first into a
    [Vec<u8>].  [usize] positions are [nat]: a position is bounded by eight
    times the length of a vector in memory.  The one subtraction of the file
    that can underflow, [bit_count - 1], is written out. *)

From Stdlib Require Import ZArith Lia.
From stdpp Require Import base numbers list.
From S2P Require Import Prelude.

Local Open Scope nat_scope.

Definition BYTE_LEN : nat := 8.
Definition MASK : nat := BYTE_LEN - 1.

Record DynamicBitSet := mkBitSet { content : list Z; bit_count : nat }.

Definition index (pos : nat) : nat := pos / BYTE_LEN.
Definition offset (pos : nat) : nat := Nat.land pos MASK.
Definition bit_mask (pos : nat) : Z := Z.shiftl 1 (Z.of_nat (offset pos)) mod 2 ^ 8.

Definition new : DynamicBitSet := mkBitSet [] 0.

(** [Vec::insert(i, x)] panics when [i > len]. *)
Definition vec_insert {E} (i : nat) (x : Z) (v : list Z) : outcome E (list Z) :=
  if decide (i <= length v) then Ok (take i v ++ x :: drop i v) else Panic.

Definition push {E} (s : DynamicBitSet) (bit : bool) : outcome E DynamicBitSet :=
  let i := index (bit_count s) in
  c <- (match content s !! i with
        | None => vec_insert i 0%Z (content s)
        | Some _ => Ok (content s)
        end) ;;
  c' <- (if bit then
           cur <- index_or_panic (c !! i) ;;
           Ok (<[i := Z.lor cur (Z.shiftl 1 (Z.of_nat (offset (bit_count s))) mod 2 ^ 8)]> c)
         else Ok c) ;;
  Ok (mkBitSet c' (bit_count s + 1)).

Definition clear (s : DynamicBitSet) : DynamicBitSet := mkBitSet [] 0.

Definition size (s : DynamicBitSet) : nat := bit_count s.

Definition bit {E} (s : DynamicBitSet) (pos : nat) : outcome E bool :=
  if decide (pos < bit_count s) then
    cur <- index_or_panic (content s !! index pos) ;;
    Ok (negb (Z.land cur (bit_mask pos) =? 0)%Z)
  else Panic.

(** The inner [while (fore & mask) == 0] loop: [mask] is a [u8] shifted left
    until it meets a set bit of [fore]. *)
Fixpoint count_zeros {E} (fuel : nat) (fore mask : Z) (count : nat) : outcome E nat :=
  match fuel with
  | O => OutOfFuel
  | S fuel' =>
      if (Z.land fore mask =? 0)%Z
      then count_zeros fuel' fore (Z.shiftl mask 1 mod 2 ^ 8) (count + 1)
      else Ok count
  end.

(** [find_next] calls itself at the last position of the current byte, so the
    byte index grows by one per call. *)
Fixpoint find_next_fuel {E} (ck : bool) (fuel : nat) (s : DynamicBitSet) (pos : nat)
  : outcome E (option nat) :=
  match fuel with
  | O => OutOfFuel
  | S fuel' =>
      (* pos >= bit_count - 1 || bit_count == 0; with bit_count = 0 the
         subtraction underflows: checked it panics, unchecked the second
         disjunct returns None *)
      if decide (bit_count s = 0) then (if ck then Panic else Ok None)
      else if decide (bit_count s - 1 <= pos) then Ok None
      else
        let pos := pos + 1 in
        cur <- index_or_panic (content s !! index pos) ;;
        let fore := Z.shiftr cur (Z.of_nat (offset pos)) in
        if (0 <? fore)%Z
        then count <- count_zeros 9 fore 1 0 ;; Ok (Some (pos + count))
        else find_next_fuel ck fuel' s (index pos * BYTE_LEN + (BYTE_LEN - 1))
  end.

Definition find_next {E} (ck : bool) (s : DynamicBitSet) (pos : nat) : outcome E (option nat) :=
  find_next_fuel ck (S (length (content s))) s pos.

Definition into_vec (s : DynamicBitSet) : list Z := content s.
Definition from_vec (v : list Z) : DynamicBitSet := mkBitSet v (length v * BYTE_LEN).

(** ** Abstraction to a list of bits *)

Definition byte_bits (b : Z) : list bool :=
  map (fun i => Z.testbit b (Z.of_nat i)) (seq 0 8).

Definition all_bits (v : list Z) : list bool := concat (map byte_bits v).

(** [repr s l]: the bit set holds exactly the bits [l]; its content is as long
    as [l] needs, made of bytes, and zero after the last pushed bit. *)
Definition repr (s : DynamicBitSet) (l : list bool) : Prop :=
  bytes_ok (content s) /\ bit_count s = length l /\
  exists k, k < 8 /\ all_bits (content s) = l ++ replicate k false.

Lemma length_byte_bits b : length (byte_bits b) = 8.
Proof. done. Qed.

Lemma byte_bits_lookup b o : o < 8 -> byte_bits b !! o = Some (Z.testbit b (Z.of_nat o)).
Proof.
  intros H. unfold byte_bits. rewrite list_lookup_fmap, lookup_seq_lt; [done|lia].
Qed.

Lemma all_bits_cons b v : all_bits (b :: v) = byte_bits b ++ all_bits v.
Proof. done. Qed.

Lemma length_all_bits v : length (all_bits v) = length v * 8.
Proof.
  induction v as [|b v IH]; [done|].
  rewrite all_bits_cons, length_app, IH, length_byte_bits. cbn. lia.
Qed.

Lemma all_bits_app v w : all_bits (v ++ w) = all_bits v ++ all_bits w.
Proof. unfold all_bits. by rewrite map_app, concat_app. Qed.

Lemma offset_mod pos : offset pos = pos mod 8.
Proof. unfold offset. change MASK with (Nat.ones 3). by rewrite Nat.land_ones. Qed.

Lemma all_bits_lookup_split v i o :
  o < 8 -> all_bits v !! (i * 8 + o) = (fun b => Z.testbit b (Z.of_nat o)) <$> v !! i.
Proof.
  intros Ho. revert i. induction v as [|b v IH]; intros i; [done|].
  rewrite all_bits_cons.
  destruct i as [|i].
  - rewrite lookup_app_l by (rewrite length_byte_bits; lia). by rewrite byte_bits_lookup by lia.
  - rewrite lookup_app_r by (rewrite length_byte_bits; lia).
    rewrite length_byte_bits. cbn [lookup list_lookup].
    rewrite <- IH. f_equal. lia.
Qed.

Lemma all_bits_lookup v p :
  all_bits v !! p = (fun b => Z.testbit b (Z.of_nat (offset p))) <$> v !! index p.
Proof.
  rewrite offset_mod. unfold index, BYTE_LEN.
  rewrite <- all_bits_lookup_split by (apply Nat.mod_upper_bound; lia).
  f_equal. pose proof (Nat.div_mod_eq p 8). lia.
Qed.

Lemma index_offset p : p = index p * 8 + offset p /\ offset p < 8.
Proof.
  rewrite offset_mod. unfold index, BYTE_LEN. pose proof (Nat.div_mod_eq p 8).
  pose proof (Nat.mod_upper_bound p 8). lia.
Qed.

Lemma index_offset_inj i o : o < 8 -> index (i * 8 + o) = i /\ offset (i * 8 + o) = o.
Proof.
  intros Ho. rewrite offset_mod. unfold index, BYTE_LEN. split.
  - rewrite Nat.add_comm, Nat.div_add by lia. rewrite Nat.div_small; lia.
  - rewrite Nat.add_comm, Nat.Div0.mod_add. by apply Nat.mod_small.
Qed.

(** The mask [1 << offset] is a byte with one bit set. *)
Lemma shl_one_u8 o : o < 8 -> (Z.shiftl 1 (Z.of_nat o) mod 2 ^ 8 = 2 ^ Z.of_nat o)%Z.
Proof.
  intros Ho. rewrite Z.shiftl_1_l. apply Z.mod_small. split; [lia|].
  apply Z.pow_lt_mono_r; lia.
Qed.

Lemma testbit_pow2 o j : Z.testbit (2 ^ Z.of_nat o) (Z.of_nat j) = bool_decide (o = j).
Proof.
  rewrite Z.pow2_bits_eqb by lia. case_bool_decide; [subst; apply Z.eqb_refl|apply Z.eqb_neq; lia].
Qed.

Lemma u8_lor a b : u8 a -> u8 b -> u8 (Z.lor a b).
Proof.
  unfold u8. intros Ha Hb. split; [apply Z.lor_nonneg; lia|].
  destruct (decide (Z.lor a b = 0%Z)) as [->|]; [lia|].
  assert (0 <= Z.lor a b)%Z by (apply Z.lor_nonneg; lia).
  apply (Z.log2_lt_pow2 _ 8); [lia|]. rewrite Z.log2_lor by lia.
  apply Z.max_lub_lt.
  - destruct (decide (a = 0%Z)) as [->|]; [done|]. apply Z.log2_lt_pow2; lia.
  - destruct (decide (b = 0%Z)) as [->|]; [done|]. apply Z.log2_lt_pow2; lia.
Qed.

Lemma u8_pow2 o : o < 8 -> u8 (2 ^ Z.of_nat o).
Proof. intros. split; [lia|]. change 256%Z with (2 ^ 8)%Z. apply Z.pow_lt_mono_r; lia. Qed.

Lemma all_bits_set v i o cur :
  v !! i = Some cur -> o < 8 ->
  all_bits (<[i := Z.lor cur (2 ^ Z.of_nat o)]> v) = <[i * 8 + o := true]> (all_bits v).
Proof.
  intros Hi Ho. assert (Hlt := lookup_lt_Some _ _ _ Hi).
  apply list_eq. intros p. rewrite all_bits_lookup.
  destruct (index_offset p) as [Hp Hop].
  destruct (decide (index p = i)) as [He|He].
  - rewrite He, list_lookup_insert_eq by done. cbn [fmap option_fmap option_map].
    rewrite Z.lor_spec, testbit_pow2. case_bool_decide as Hd.
    + rewrite orb_true_r. replace p with (i * 8 + o) by lia.
      rewrite list_lookup_insert_eq; [done|]. rewrite length_all_bits. lia.
    + rewrite orb_false_r, list_lookup_insert_ne by lia. by rewrite all_bits_lookup, He, Hi.
  - rewrite list_lookup_insert_ne by done. rewrite <- all_bits_lookup.
    rewrite list_lookup_insert_ne; [done|]. lia.
Qed.

(** ** The operations on the abstraction *)

Lemma repr_new : repr new [].
Proof. split; [constructor|]. split; [done|]. exists 0. split; [lia|done]. Qed.

Lemma repr_clear s : repr (clear s) [].
Proof. apply repr_new. Qed.

Lemma repr_from_vec v : bytes_ok v -> repr (from_vec v) (all_bits v).
Proof.
  intros H. split; [done|]. split.
  - cbn. by rewrite length_all_bits.
  - exists 0. split; [lia|]. by rewrite app_nil_r.
Qed.

(** The first half of [push]: afterwards the byte at [index bit_count] exists
    and all its bits from [offset bit_count] on are zero. *)
Lemma push_room {E} s l :
  repr s l ->
  exists c k cur,
    (match content s !! index (bit_count s) with
     | None => @vec_insert E (index (bit_count s)) 0%Z (content s)
     | Some _ => Ok (content s)
     end) = Ok c /\
    bytes_ok c /\ k < 8 /\ all_bits c = l ++ replicate (S k) false /\
    c !! index (bit_count s) = Some cur.
Proof.
  intros (Hok & Hcnt & k & Hk & Hall).
  assert (Hlen := f_equal length Hall).
  rewrite length_all_bits, length_app, length_replicate in Hlen.
  destruct (index_offset (bit_count s)) as [Hio Hoff].
  destruct (content s !! index (bit_count s)) as [cur|] eqn:Hc.
  - apply lookup_lt_Some in Hc as Hlt. destruct k as [|k]; [lia|].
    exists (content s), k, cur. repeat split; try done; lia.
  - apply lookup_ge_None in Hc. assert (k = 0) as -> by lia.
    assert (Hi : index (bit_count s) = length (content s)) by lia.
    exists (content s ++ [0%Z]), 7, 0%Z. repeat split.
    + unfold vec_insert. rewrite Hi, decide_True by lia.
      by rewrite take_ge, drop_ge by lia.
    + apply bytes_ok_app. split; [done|]. repeat constructor; lia.
    + lia.
    + rewrite all_bits_app, Hall, app_nil_r. done.
    + by rewrite Hi, lookup_app_r, Nat.sub_diag by lia.
Qed.

Lemma push_repr {E} s l b :
  repr s l -> exists s', @push E s b = Ok s' /\ repr s' (l ++ [b]).
Proof.
  intros Hr. destruct (@push_room E s l Hr) as (c & k & cur & Hc & Hok & Hk & Hall & Hcur).
  destruct Hr as (_ & Hcnt & _). unfold push. rewrite Hc. cbn [bind].
  destruct (index_offset (bit_count s)) as [Hio Hoff].
  destruct b; cbn [bind].
  - rewrite Hcur. cbn [bind index_or_panic]. eexists. split; [done|].
    rewrite shl_one_u8 by done. split; [|split].
    + apply Forall_insert; [done|]. apply u8_lor; [|by apply u8_pow2].
      eapply Forall_lookup_1; [exact Hok|done].
    + cbn. rewrite length_app. cbn. lia.
    + exists k. split; [done|]. cbn [content]. rewrite (all_bits_set c _ _ cur) by done.
      rewrite <- Hio, Hcnt, Hall. rewrite insert_app_r_alt by lia.
      rewrite Nat.sub_diag. cbn. by rewrite <- app_assoc.
  - eexists. split; [done|]. split; [done|]. split.
    + cbn. rewrite length_app. cbn. lia.
    + exists k. split; [done|]. cbn [content]. rewrite Hall. cbn. by rewrite <- app_assoc.
Qed.

(** Pushing a list of bits one after the other. *)
Fixpoint push_all {E} (s : DynamicBitSet) (bs : list bool) : outcome E DynamicBitSet :=
  match bs with
  | [] => Ok s
  | b :: bs' => s' <- push s b ;; push_all s' bs'
  end.

Lemma push_all_repr {E} s l bs :
  repr s l -> exists s', @push_all E s bs = Ok s' /\ repr s' (l ++ bs).
Proof.
  revert s l. induction bs as [|b bs IH]; intros s l Hr.
  - exists s. by rewrite app_nil_r.
  - destruct (@push_repr E s l b Hr) as (s' & Hp & Hr'). cbn. rewrite Hp. cbn.
    destruct (IH s' _ Hr') as (s'' & Hp' & Hr''). exists s''.
    by rewrite <- app_assoc in Hr''.
Qed.

Lemma push_all_app {E} s xs ys :
  @push_all E s (xs ++ ys) = (s' <- push_all s xs ;; push_all s' ys).
Proof.
  revert s. induction xs as [|x xs IH]; intros s; [done|]. cbn.
  destruct (push s x); cbn; [apply IH|done..].
Qed.

Lemma repr_lookup s l p b :
  repr s l -> l !! p = Some b ->
  exists cur, content s !! index p = Some cur /\ Z.testbit cur (Z.of_nat (offset p)) = b.
Proof.
  intros (_ & _ & k & _ & Hall) Hl.
  assert (H : all_bits (content s) !! p = Some b) by (rewrite Hall; by apply lookup_app_l_Some).
  rewrite all_bits_lookup in H. by apply fmap_Some in H as (cur & Hcur & ->); exists cur.
Qed.

Lemma land_pow2_testbit a o :
  negb (Z.land a (2 ^ Z.of_nat o) =? 0)%Z = Z.testbit a (Z.of_nat o).
Proof.
  destruct (Z.testbit a (Z.of_nat o)) eqn:Ht.
  - apply negb_true_iff, Z.eqb_neq. intros H0.
    apply (f_equal (fun z => Z.testbit z (Z.of_nat o))) in H0.
    rewrite Z.land_spec, Ht, testbit_pow2, bool_decide_true, Z.bits_0 in H0; done.
  - apply negb_false_iff, Z.eqb_eq. apply Z.bits_inj'. intros n Hn.
    rewrite <- (Z2Nat.id n) by lia. rewrite Z.land_spec, testbit_pow2, Z.bits_0.
    case_bool_decide as Hd; [|apply andb_false_r]. by rewrite <- Hd, Ht.
Qed.

Lemma bit_repr {E} s l p b : repr s l -> l !! p = Some b -> @bit E s p = Ok b.
Proof.
  intros Hr Hl. destruct (repr_lookup _ _ _ _ Hr Hl) as (cur & Hc & <-).
  destruct Hr as (_ & Hcnt & _). apply lookup_lt_Some in Hl.
  unfold bit. rewrite decide_True by lia. rewrite Hc. cbn [bind index_or_panic].
  unfold bit_mask. rewrite shl_one_u8 by (apply index_offset). by rewrite land_pow2_testbit.
Qed.

(** A read at or past the end fails the [assert!]. *)
Lemma bit_out_of_range {E} s p : bit_count s <= p -> @bit E s p = Panic.
Proof. intros H. unfold bit. by rewrite decide_False by lia. Qed.

(** ** [find_next] against its specification

    The reference definition scans the list of bits. *)
Fixpoint first_set (l : list bool) (base : nat) : option nat :=
  match l with
  | [] => None
  | true :: _ => Some base
  | false :: l' => first_set l' (S base)
  end.

Definition next_set (l : list bool) (pos : nat) : option nat :=
  first_set (drop (pos + 1) l) (pos + 1).

Lemma first_set_app xs ys b :
  first_set (xs ++ ys) b =
  match first_set xs b with Some j => Some j | None => first_set ys (b + length xs) end.
Proof.
  revert b. induction xs as [|[] xs IH]; intros b; cbn.
  - by rewrite Nat.add_0_r.
  - done.
  - rewrite IH. by rewrite <- plus_n_Sm.
Qed.

Lemma first_set_replicate n b : first_set (replicate n false) b = None.
Proof. revert b. induction n; intros b; cbn; auto. Qed.

Lemma first_set_pad xs n b : first_set (xs ++ replicate n false) b = first_set xs b.
Proof. rewrite first_set_app, first_set_replicate. by destruct (first_set xs b). Qed.

Lemma first_set_shift xs b c : first_set xs (b + c) = (fun j => j + c) <$> first_set xs b.
Proof. revert b. induction xs as [|[] xs IH]; intros b; cbn; [done..|]. apply (IH (S b)). Qed.

Lemma first_set_None xs b : first_set xs b = None <-> Forall (eq false) xs.
Proof.
  revert b. induction xs as [|[] xs IH]; intros b; cbn.
  - split; [constructor|done].
  - split; [done|]. intros H. by inversion H.
  - rewrite IH. split; [by constructor|]. intros H. by inversion H.
Qed.

Lemma drop_byte_bits c b : c < 8 ->
  drop c (byte_bits b) = Z.testbit b (Z.of_nat c) :: drop (S c) (byte_bits b).
Proof. intros Hc. apply drop_S. by apply byte_bits_lookup. Qed.

Lemma count_zeros_spec {E} fuel fore c j :
  9 - c <= fuel -> first_set (drop c (byte_bits fore)) c = Some j ->
  @count_zeros E fuel fore (2 ^ Z.of_nat c) c = Ok j.
Proof.
  revert c. induction fuel as [|fuel IH]; intros c Hf Hs.
  - by rewrite drop_ge in Hs by (rewrite length_byte_bits; lia).
  - destruct (decide (c < 8)) as [Hc|Hc];
      [|by rewrite drop_ge in Hs by (rewrite length_byte_bits; lia)].
    rewrite drop_byte_bits in Hs by done.
    cbn [count_zeros]. rewrite <- (negb_involutive (_ =? _)%Z), land_pow2_testbit.
    destruct (Z.testbit fore (Z.of_nat c)) eqn:Ht; cbn in Hs |- *; [by simplify_eq|].
    rewrite Z.shiftl_mul_pow2 by lia. rewrite <- Z.pow_add_r by lia.
    replace (Z.of_nat c + 1)%Z with (Z.of_nat (c + 1)) by lia.
    destruct (decide (c = 7)) as [->|]; [done|].
    rewrite Z.mod_small by (apply (u8_pow2 (c + 1)); lia).
    apply IH; [lia|]. by rewrite Nat.add_1_r.
Qed.

Lemma byte_bits_shiftr cur o : u8 cur -> o <= 8 ->
  byte_bits (Z.shiftr cur (Z.of_nat o)) = drop o (byte_bits cur) ++ replicate o false.
Proof.
  intros Hu Ho. apply list_eq. intros i. destruct (decide (i < 8)) as [Hi|Hi].
  - rewrite byte_bits_lookup, Z.shiftr_spec by lia.
    destruct (decide (i < 8 - o)) as [Hio|Hio].
    + rewrite lookup_app_l by (rewrite length_drop, length_byte_bits; lia).
      rewrite lookup_drop, byte_bits_lookup by lia. repeat f_equal. lia.
    + rewrite lookup_app_r by (rewrite length_drop, length_byte_bits; lia).
      rewrite length_drop, length_byte_bits. rewrite lookup_replicate_2 by lia.
      f_equal. destruct (decide (cur = 0%Z)) as [->|]; [apply Z.bits_0|].
      apply Z.bits_above_log2; [unfold u8 in Hu; lia|].
      assert (Z.log2 cur < 8)%Z by (apply Z.log2_lt_pow2; unfold u8 in Hu; lia). lia.
  - rewrite !lookup_ge_None_2; [done| |];
      rewrite ?length_app, ?length_drop, ?length_replicate, ?length_byte_bits; lia.
Qed.

Lemma byte_bits_zero b : u8 b -> Forall (eq false) (byte_bits b) <-> b = 0%Z.
Proof.
  intros Hu. split; [|by intros ->; repeat constructor].
  intros H. apply Z.bits_inj'. intros n Hn. rewrite Z.bits_0.
  destruct (decide (n < 8)%Z).
  - rewrite Forall_lookup in H. rewrite <- (Z2Nat.id n) by lia.
    symmetry. apply (H (Z.to_nat n)). apply byte_bits_lookup. lia.
  - destruct (decide (b = 0%Z)) as [->|]; [apply Z.bits_0|].
    apply Z.bits_above_log2; [unfold u8 in Hu; lia|].
    assert (Z.log2 b < 8)%Z by (apply Z.log2_lt_pow2; unfold u8 in Hu; lia). lia.
Qed.

Lemma u8_shiftr b o : u8 b -> u8 (Z.shiftr b (Z.of_nat o)).
Proof.
  unfold u8. intros Hb. rewrite Z.shiftr_div_pow2 by lia.
  assert (0 < 2 ^ Z.of_nat o)%Z by (apply Z.pow_pos_nonneg; lia).
  split; [apply Z.div_pos; lia|]. apply Z.div_lt_upper_bound; nia.
Qed.

(** The bits from a position on: the rest of its byte, then the later bytes. *)
Lemma drop_all_bits v p cur :
  v !! index p = Some cur ->
  drop p (all_bits v) = drop (offset p) (byte_bits cur) ++ all_bits (drop (S (index p)) v).
Proof.
  intros Hc. destruct (index_offset p) as [Hp Ho].
  rewrite <- (take_drop_middle v (index p) cur) at 1 by done.
  apply lookup_lt_Some in Hc.
  rewrite all_bits_app, all_bits_cons, drop_app.
  rewrite drop_ge by (rewrite length_all_bits, length_take; lia).
  rewrite length_all_bits, length_take. cbn [app].
  replace (p - _) with (offset p) by lia.
  rewrite drop_app_le by (rewrite length_byte_bits; lia). done.
Qed.

Lemma next_set_pad l k q b :
  first_set (drop q (l ++ replicate k false)) b = first_set (drop q l) b.
Proof. rewrite drop_app, drop_replicate. apply first_set_pad. Qed.

Lemma find_next_fuel_spec {E} ck fuel s l pos :
  repr s l -> l <> [] -> length (content s) < index (pos + 1) + fuel -> 0 < fuel ->
  @find_next_fuel E ck fuel s pos = Ok (next_set l pos).
Proof.
  intros Hr Hl. revert pos. induction fuel as [|fuel IH]; intros pos Hf Hf0; [lia|].
  destruct Hr as (Hok & Hcnt & k & Hk & Hall) eqn:Hre.
  assert (0 < length l) by (destruct l; [done|cbn; lia]).
  cbn [find_next_fuel]. rewrite decide_False by lia.
  destruct (decide (bit_count s - 1 <= pos)).
  { unfold next_set. by rewrite drop_ge by lia. }
  destruct (lookup_lt_is_Some_2 l (pos + 1)) as [b Hb]; [lia|].
  destruct (repr_lookup _ _ _ _ Hr Hb) as (cur & Hc & _).
  rewrite Hc. cbn [bind index_or_panic].
  assert (Hu : u8 cur) by (eapply Forall_lookup_1; [exact Hok|done]).
  destruct (index_offset (pos + 1)) as [Hp Ho]. set (p := pos + 1) in *.
  unfold next_set. fold p. rewrite <- (next_set_pad l k), <- Hall, (drop_all_bits _ _ cur) by done.
  rewrite first_set_app.
  set (fore := Z.shiftr cur (Z.of_nat (offset p))).
  assert (Hfu : u8 fore) by (by apply u8_shiftr).
  assert (Hfore : first_set (drop (offset p) (byte_bits cur)) p =
                  (fun j => j + p) <$> first_set (byte_bits fore) 0).
  { rewrite <- first_set_shift. unfold fore. rewrite byte_bits_shiftr by (done || lia).
    by rewrite first_set_pad. }
  rewrite Hfore. destruct (Z.ltb_spec 0 fore) as [Hpos|Hneg].
  - destruct (first_set (byte_bits fore) 0) as [j|] eqn:Hj.
    + rewrite (count_zeros_spec 9 fore 0 j) by (done || lia). cbn. do 2 f_equal. lia.
    + apply first_set_None, byte_bits_zero in Hj; [lia|done].
  - assert (fore = 0%Z) as -> by (unfold u8 in Hfu; lia). cbn [first_set byte_bits fmap option_fmap option_map].
    rewrite length_drop, length_byte_bits.
    destruct (decide (fuel = 0)) as [->|].
    { apply lookup_lt_Some in Hc. lia. }
    assert (Hi : index (index p * BYTE_LEN + (BYTE_LEN - 1) + 1) = S (index p)).
    { replace (_ + 1) with (S (index p) * 8 + 0) by (unfold BYTE_LEN; lia).
      apply index_offset_inj. lia. }
    rewrite IH by lia. unfold next_set. f_equal.
    rewrite <- (next_set_pad l k), <- Hall.
    replace (index p * BYTE_LEN + (BYTE_LEN - 1) + 1) with (p + (8 - offset p)) by (unfold BYTE_LEN; lia).
    rewrite <- drop_drop, (drop_all_bits _ _ cur) by done.
    rewrite drop_app_ge by (rewrite length_drop, length_byte_bits; lia).
    rewrite length_drop, length_byte_bits, Nat.sub_diag. done.
Qed.

(** [find_next] returns the first set position after [pos], within its fuel. *)
Lemma find_next_repr {E} ck s l pos :
  repr s l -> l <> [] -> @find_next E ck s pos = Ok (next_set l pos).
Proof. intros. apply find_next_fuel_spec; [done..| |]; lia. Qed.
