(* ===== verification/Rle.v ===== *)
(** * The RLE+ codec (primitives/bitfield/rle/src)

    [encode] turns an increasing sequence of items into the lengths of its
    alternating runs and writes each run as a single, small or long block;
    [decode] reads the blocks back.  The trait [Number] of the item type is
    represented by the item's size in bytes [sz] (its width is [8 * sz] bits)
    and the build profile by [ck]. *)

From Stdlib Require Import ZArith Lia.
From stdpp Require Import base numbers list.
From S2P Require Import Prelude BitSet.

Local Open Scope Z_scope.

(** config.rs *)
Definition SMALL_BLOCK_LENGTH : nat := 4.
Definition PACK_BYTE_SHIFT : Z := 7.
Definition BYTE_BITS_COUNT : nat := 8.
Definition LONG_BLOCK_VALUE : Z := 16.
Definition UNPACK_BYTE_MASK : Z := 127.
Definition BYTE_SLICE_VALUE : Z := 128.
Definition OBJECT_MAX_SIZE : Z := 1048576.

(** error.rs *)
Inductive RleDecodeError :=
| VersionMismatch
| DataIndexFailure
| UnpackOverflow
| MaxSizeExceed.

Section Codec.
Context (ck : bool) (sz : Z).

(** The width of [Item]; [size_of::<Item>() * 8]. *)
Definition width : Z := 8 * sz.

(** [Cast]: [s as Item] and [self as u8]/[as usize]. *)
Definition cast_from (a : Z) : Z := trunc width a.
Definition cast_u8 (a : Z) : Z := trunc 8 a.
Definition cast_usize (a : Z) : Z := trunc 64 a.

(** ** encode.rs *)

Definition bump_last {E} (periods : list Z) : outcome E (list Z) :=
  match last periods with
  | Some x => y <- u_add ck width x 1 ;; Ok (removelast periods ++ [y])
  | None => Ok periods
  end.

Fixpoint periods_loop {E} (input : list Z) (prev : Z) (periods : list Z) : outcome E (list Z) :=
  match input with
  | [] => Ok periods
  | item :: rest =>
      diff <- u_sub ck width item prev ;;
      periods' <-
        (if diff =? 1 then bump_last periods
         else if 1 <? diff then d <- u_sub ck width diff 1 ;; Ok ((periods ++ [d]) ++ [1])
         else Ok periods) ;;
      periods_loop rest item periods'
  end.

Definition get_periods {E} (input : list Z) : outcome E (option Z * list Z) :=
  match input with
  | [] => Ok (None, [])
  | first :: rest =>
      let periods := if first =? 0 then [] else [first] in
      periods' <- periods_loop rest first (periods ++ [1]) ;;
      Ok (Some first, periods')
  end.

Definition init_content {E} (content : DynamicBitSet) : outcome E DynamicBitSet :=
  let content := clear content in
  content <- push content false ;;
  push content false.

Fixpoint push_small_loop {E} (n : nat) (i : Z) (content : DynamicBitSet) (block : Z)
  : outcome E DynamicBitSet :=
  match n with
  | O => Ok content
  | S n' =>
      m <- u_shl ck width 1 (cast_from i) ;;
      let c := Z.shiftr (Z.land block m) (cast_from i) =? 1 in
      content <- push content c ;;
      push_small_loop n' (i + 1) content block
  end.

Definition push_small_block {E} (content : DynamicBitSet) (block : Z) : outcome E DynamicBitSet :=
  content <- push content false ;;
  content <- push content true ;;
  push_small_loop SMALL_BLOCK_LENGTH 0 content block.

Fixpoint push_byte_loop {E} (n : nat) (i : Z) (content : DynamicBitSet) (byte : Z)
  : outcome E DynamicBitSet :=
  match n with
  | O => Ok content
  | S n' =>
      let bit := negb (Z.land (Z.shiftr byte i) 1 =? 0) in
      content <- push content bit ;;
      push_byte_loop n' (i + 1) content byte
  end.

Definition push_byte {E} (content : DynamicBitSet) (byte : Z) : outcome E DynamicBitSet :=
  push_byte_loop BYTE_LEN 0 content byte.

Fixpoint push_long_loop {E} (fuel : nat) (content : DynamicBitSet) (slice : Z)
  : outcome E DynamicBitSet :=
  match fuel with
  | O => OutOfFuel
  | S fuel' =>
      if cast_from BYTE_SLICE_VALUE <=? slice then
        let byte := cast_u8 (Z.lor slice (cast_from BYTE_SLICE_VALUE)) in
        content <- push_byte content byte ;;
        push_long_loop fuel' content (Z.shiftr slice (cast_from PACK_BYTE_SHIFT))
      else push_byte content (cast_u8 slice)
  end.

(** Each turn of the loop shifts the value right by seven bits. *)
Definition push_long_block {E} (content : DynamicBitSet) (block : Z) : outcome E DynamicBitSet :=
  content <- push content false ;;
  content <- push content false ;;
  push_long_loop (S (Z.to_nat width)) content block.

Fixpoint encode_loop {E} (periods : list Z) (content : DynamicBitSet) : outcome E DynamicBitSet :=
  match periods with
  | [] => Ok content
  | value :: rest =>
      content <-
        (if value =? 1 then push content true
         else if value <? cast_from LONG_BLOCK_VALUE then push_small_block content value
         else if cast_from LONG_BLOCK_VALUE <=? value then push_long_block content value
         else Ok content) ;;
      encode_loop rest content
  end.

Definition encode {E} (input : list Z) : outcome E (list Z) :=
  '(first, periods) <- get_periods input ;;
  content <- init_content new ;;
  let flag := match first with Some i => i =? 0 | None => false end in
  content <- push content flag ;;
  content <- encode_loop periods content ;;
  Ok (into_vec content).

(** ** decode.rs *)

Record BitSetHelper := mkHelper { bitset : DynamicBitSet; hindex : nat; magnitude : bool }.

Definition new_helper (b : DynamicBitSet) : BitSetHelper := mkHelper b 0 false.
Definition set_index (h : BitSetHelper) (i : nat) : BitSetHelper :=
  mkHelper (bitset h) i (magnitude h).
Definition set_magnitude (h : BitSetHelper) (m : bool) : BitSetHelper :=
  mkHelper (bitset h) (hindex h) m.

Fixpoint get_span_loop (n i : nat) (b : DynamicBitSet) (value shift : Z)
  : outcome RleDecodeError Z :=
  match n with
  | O => Ok value
  | S n' =>
      x <- bit b i ;;
      s <- u_shl ck width (if x then 1 else 0) shift ;;
      shift' <- u_add ck width shift 1 ;;
      get_span_loop n' (S i) b (Z.lor value s) shift'
  end.

Definition get_span (h : BitSetHelper) (count : nat)
  : outcome RleDecodeError (Z * BitSetHelper) :=
  if decide (size (bitset h) < hindex h + count)%nat then Err DataIndexFailure
  else
    value <- get_span_loop count (hindex h) (bitset h) 0 0 ;;
    Ok (value, set_index h (hindex h + count)).

(** The decoder's mutable locals: the helper, the current value, the output. *)
Record DecodeState := mkState { helper : BitSetHelper; value : Z; output : list Z }.

Definition decode_single_block (st : DecodeState) : outcome RleDecodeError DecodeState :=
  let out := if magnitude (helper st) then output st ++ [value st] else output st in
  v <- u_add ck width (value st) 1 ;;
  Ok (mkState (set_magnitude (helper st) (negb (magnitude (helper st)))) v out).

(** [for _ in 0..length { output.push(v); v += 1 }] *)
Fixpoint push_run {E} (n : nat) (v : Z) (out : list Z) : outcome E (Z * list Z) :=
  match n with
  | O => Ok (v, out)
  | S n' => v' <- u_add ck width v 1 ;; push_run n' v' (out ++ [v])
  end.

(** The common tail of [decode_small_block] and [decode_long_block]. *)
Definition apply_run (st : DecodeState) (length : Z) : outcome RleDecodeError DecodeState :=
  '(v, out) <-
    (if magnitude (helper st)
     then push_run (Z.to_nat (cast_usize length)) (value st) (output st)
     else v <- u_add ck width (value st) length ;; Ok (v, output st)) ;;
  Ok (mkState (set_magnitude (helper st) (negb (magnitude (helper st)))) v out).

Definition decode_small_block (st : DecodeState) : outcome RleDecodeError DecodeState :=
  '(length, h) <- get_span (helper st) SMALL_BLOCK_LENGTH ;;
  apply_run (mkState h (value st) (output st)) length.

Fixpoint read_bytes (fuel : nat) (h : BitSetHelper) (bytes : list Z)
  : outcome RleDecodeError (list Z * BitSetHelper) :=
  match fuel with
  | O => OutOfFuel
  | S fuel' =>
      '(item, h) <- get_span h BYTE_BITS_COUNT ;;
      let slice := cast_u8 item in
      let bytes := bytes ++ [slice] in
      if Z.land slice (cast_u8 BYTE_SLICE_VALUE) =? 0 then Ok (bytes, h)
      else read_bytes fuel' h bytes
  end.

Fixpoint unpack_loop (data : list Z) (max_shift shift value : Z) : outcome RleDecodeError Z :=
  match data with
  | [] => Ok value
  | byte :: rest =>
      if max_shift <? shift then Err UnpackOverflow
      else if byte <? BYTE_SLICE_VALUE then
        s <- u_shl ck 64 byte shift ;;
        Ok (Z.lor value (cast_from s))
      else
        s <- u_shl ck 64 (Z.land byte UNPACK_BYTE_MASK) shift ;;
        unpack_loop rest max_shift (shift + PACK_BYTE_SHIFT) (Z.lor value (cast_from s))
  end.

Definition unpack (data : list Z) : outcome RleDecodeError Z :=
  unpack_loop data (sz * Z.of_nat BYTE_BITS_COUNT) 0 0.

(** Every turn of the reading loop consumes eight bits. *)
Definition decode_long_block (st : DecodeState) : outcome RleDecodeError DecodeState :=
  '(bytes, h) <- read_bytes (S (size (bitset (helper st)))) (helper st) [] ;;
  length <- unpack bytes ;;
  apply_run (mkState h (value st) (output st)) length.

(** The [while helper.find_next(helper.index - 1).is_some()] loop. *)
Fixpoint decode_loop (fuel : nat) (st : DecodeState) : outcome RleDecodeError DecodeState :=
  match fuel with
  | O => OutOfFuel
  | S fuel' =>
      next <- find_next ck (bitset (helper st)) (hindex (helper st) - 1) ;;
      match next with
      | None => Ok st
      | Some _ =>
          '(header, h) <- get_span (helper st) 1 ;;
          let st := mkState h (value st) (output st) in
          st <-
            (if header =? 1 then decode_single_block st
             else if header =? 0 then
               '(block_header, h) <- get_span (helper st) 1 ;;
               let st := mkState h (value st) (output st) in
               if block_header =? 0 then decode_long_block st else decode_small_block st
             else Ok st) ;;
          decode_loop fuel' st
      end
  end.

(** Every turn of the loop consumes at least one bit. *)
Definition decode (data : list Z) : outcome RleDecodeError (list Z) :=
  let helper := new_helper (from_vec data) in
  '(two, helper) <- get_span helper 2 ;;
  if bool_decide (size (bitset helper) < SMALL_BLOCK_LENGTH)%nat || (two =? 1)
  then Err VersionMismatch
  else
    '(one, helper) <- get_span helper 1 ;;
    let helper := set_magnitude helper (one =? 1) in
    st <- decode_loop (S (size (bitset helper))) (mkState helper 0 []) ;;
    if OBJECT_MAX_SIZE / sz <? Z.of_nat (length (output st)) then Err MaxSizeExceed
    else Ok (output st).

End Codec.

(** The vectors of the crate's test module, for [u64] items. *)
Example test_roundtrip_1 : @encode true 8 unit [0; 100; 1000] = Ok [204; 88; 6; 15; 2].
Proof. vm_compute. reflexivity. Qed.
Example test_roundtrip_2 :
  @encode true 8 unit [1000; 10000000000] = Ok [0; 253; 32; 151; 192; 175; 160; 37; 1].
Proof. vm_compute. reflexivity. Qed.
Example test_roundtrip_3 :
  @encode true 8 unit [3; 2000000; 100000000000] =
  Ok [112; 194; 143; 168; 151; 127; 227; 112; 97; 122; 129].
Proof. vm_compute. reflexivity. Qed.
Example test_roundtrip_4 : decode true 8 [44; 149; 2] = Ok [0; 5; 10].
Proof. vm_compute. reflexivity. Qed.
