(* ===== verification/RleCorrect.v ===== *)
(** * Correctness of the RLE+ codec

    The packed buffers are related to lists of bits ([BitSet.repr]); on those
    the blocks written by [encode] are read back by [decode] one by one, and
    the runs of an increasing sequence expand to the sequence again. *)

From Stdlib Require Import ZArith Lia Sorted.
From stdpp Require Import base numbers list.
From S2P Require Import Prelude BitSet Rle.

Local Open Scope Z_scope.

(** ** Bits and integers *)

(** The value of a list of bits, least significant first. *)
Fixpoint of_bits (bs : list bool) : Z :=
  match bs with
  | [] => 0
  | b :: bs' => (if b then 1 else 0) + 2 * of_bits bs'
  end.

Definition lsb_bits (n : nat) (p : Z) : list bool :=
  map (fun i => Z.testbit p (Z.of_nat i)) (seq 0 n).

Lemma of_bits_bound bs : 0 <= of_bits bs < 2 ^ Z.of_nat (length bs).
Proof.
  induction bs as [|b bs IH]; [cbn; lia|].
  cbn [of_bits length]. rewrite Nat2Z.inj_succ, Z.pow_succ_r by lia. destruct b; lia.
Qed.

Lemma lsb_bits_S n p : lsb_bits (S n) p = Z.odd p :: lsb_bits n (Z.div2 p).
Proof.
  unfold lsb_bits. cbn [seq map]. f_equal.
  rewrite <- seq_shift, map_map. apply map_ext. intros i.
  rewrite Z.div2_spec, Z.shiftr_spec by lia. f_equal. lia.
Qed.

Lemma of_lsb_bits n p : 0 <= p -> of_bits (lsb_bits n p) = p mod 2 ^ Z.of_nat n.
Proof.
  revert p. induction n as [|n IH]; intros p Hp.
  - cbn. by rewrite Z.mod_1_r.
  - rewrite lsb_bits_S. cbn [of_bits]. rewrite IH by (apply Z.div2_nonneg; lia).
    rewrite Nat2Z.inj_succ, Z.pow_succ_r by lia.
    rewrite (Z.rem_mul_r p 2) by lia. rewrite <- Z.div2_div.
    pose proof (Zmod_odd p). destruct (Z.odd p); lia.
Qed.

Lemma of_byte_bits b : u8 b -> of_bits (byte_bits b) = b.
Proof.
  intros [??]. change (byte_bits b) with (lsb_bits 8 b).
  rewrite of_lsb_bits by lia. by apply Z.mod_small.
Qed.

(** Or-ing in bits above the ones already set is addition. *)
Lemma lor_shift_add a b s :
  0 <= s -> 0 <= a < 2 ^ s -> Z.lor a (b * 2 ^ s) = a + b * 2 ^ s.
Proof.
  intros Hs Ha. rewrite <- Z.shiftl_mul_pow2 by done.
  assert (Hl : Z.land a (Z.shiftl b s) = 0).
  { apply Z.bits_inj'. intros n Hn. rewrite Z.land_spec, Z.bits_0.
    destruct (decide (n < s)).
    - by rewrite (Z.shiftl_spec_low b s n), andb_false_r.
    - destruct (decide (a = 0)) as [->|]; [by rewrite Z.bits_0|].
      rewrite (Z.bits_above_log2 a n); [done|lia|].
      apply Z.lt_le_trans with s; [apply Z.log2_lt_pow2; lia|lia]. }
  rewrite <- Z.lxor_lor, <- Z.add_nocarry_lxor; done.
Qed.

(** ** Runs *)

(** The items a list of run lengths stands for, from value [v] on, with [mag]
    telling whether the first run is one of members. *)
Fixpoint expand (mag : bool) (v : Z) (periods : list Z) : list Z :=
  match periods with
  | [] => []
  | p :: ps => (if mag then seqZ v p else []) ++ expand (negb mag) (v + p) ps
  end.

Definition mag_after (mag : bool) (periods : list Z) : bool :=
  fold_left (fun m _ => negb m) periods mag.

Definition sum (periods : list Z) : Z := fold_right Z.add 0 periods.

Lemma sum_app xs ys : sum (xs ++ ys) = sum xs + sum ys.
Proof. induction xs as [|x xs IH]; cbn; [done|]. unfold sum in *. lia. Qed.

Lemma sum_nonneg xs : Forall (fun p => 1 <= p) xs -> 0 <= sum xs.
Proof. induction 1; cbn; unfold sum in *; lia. Qed.

Lemma expand_app mag v xs ys :
  expand mag v (xs ++ ys) = expand mag v xs ++ expand (mag_after mag xs) (v + sum xs) ys.
Proof.
  revert mag v. induction xs as [|x xs IH]; intros mag v; cbn.
  - by rewrite Z.add_0_r.
  - rewrite IH, app_assoc. do 2 f_equal. unfold sum. lia.
Qed.

Lemma mag_after_app mag xs ys : mag_after mag (xs ++ ys) = mag_after (mag_after mag xs) ys.
Proof. apply fold_left_app. Qed.

Section Correct.
Context (ck : bool) (sz : Z).
Hypothesis Hsz : 1 <= sz <= 8.
Local Abbreviation w := (width sz).

Lemma width_bounds : 8 <= w <= 64.
Proof. unfold width. lia. Qed.

Lemma pow_width_bounds : 2 ^ 8 <= 2 ^ w <= 2 ^ 64.
Proof. pose proof width_bounds. split; apply Z.pow_le_mono_r; lia. Qed.

Lemma cast_from_small a : 0 <= a < 256 -> cast_from sz a = a.
Proof.
  intros. unfold cast_from. apply trunc_small. pose proof pow_width_bounds.
  unfold in_width. change (2 ^ 8) with 256 in *. lia.
Qed.

Lemma cast_config :
  cast_from sz BYTE_SLICE_VALUE = 128 /\ cast_from sz PACK_BYTE_SHIFT = 7 /\
  cast_from sz LONG_BLOCK_VALUE = 16.
Proof.
  unfold BYTE_SLICE_VALUE, PACK_BYTE_SHIFT, LONG_BLOCK_VALUE.
  by rewrite !cast_from_small by lia.
Qed.

(** ** [get_periods] on increasing input *)

(** What the loop maintains: the periods so far expand to the items consumed,
    end with a run of members, and end just after the last item. *)
Record periods_inv (flag : bool) (done : list Z) (prev : Z) (periods : list Z) : Prop := {
  pi_expand : expand flag 0 periods = done;
  pi_sum : sum periods = prev + 1;
  pi_pos : Forall (fun p => 1 <= p) periods;
  pi_last : exists ps n, periods = ps ++ [n] /\ mag_after flag ps = true;
}.

Lemma seqZ_snoc v n : 0 <= n -> seqZ v (n + 1) = seqZ v n ++ [v + n].
Proof. intros Hn. by rewrite seqZ_app by lia. Qed.

Lemma periods_inv_bump flag items prev periods :
  periods_inv flag items prev periods -> prev + 2 < 2 ^ w ->
  exists periods',
    (forall E, @bump_last ck sz E periods = Ok periods') /\
    periods_inv flag (items ++ [prev + 1]) (prev + 1) periods'.
Proof.
  intros [He Hs Hp (ps & n & -> & Hm)] Hb.
  apply Forall_app in Hp as [Hp1 Hp2]. inversion Hp2; subst.
  rewrite sum_app in Hs. unfold sum in Hs at 2; cbn in Hs. pose proof (sum_nonneg _ Hp1).
  exists (ps ++ [n + 1]). split.
  - intros E. unfold bump_last. rewrite last_snoc, removelast_last.
    by rewrite u_add_ok by lia.
  - split.
    + rewrite !expand_app, Hm. cbn. rewrite seqZ_snoc by lia.
      rewrite !app_nil_r, app_assoc. do 2 f_equal. lia.
    + rewrite sum_app. unfold sum at 2; cbn. lia.
    + apply Forall_app. split; [done|]. repeat constructor; lia.
    + by exists ps, (n + 1).
Qed.

Lemma periods_inv_skip flag items prev periods item :
  periods_inv flag items prev periods -> prev + 1 < item ->
  periods_inv flag (items ++ [item]) item ((periods ++ [item - prev - 1]) ++ [1]).
Proof.
  intros [He Hs Hp (ps & n & Hper & Hm)] Hlt.
  assert (Hfalse : mag_after flag periods = false) by (by rewrite Hper, mag_after_app, Hm).
  split.
  - rewrite (expand_app _ _ (periods ++ _)), (expand_app _ _ periods), He.
    rewrite mag_after_app, Hfalse, sum_app, Hs. unfold sum. cbn.
    rewrite !app_nil_r. f_equal. rewrite seqZ_cons by lia. f_equal. lia.
  - rewrite !sum_app, Hs. unfold sum; cbn. lia.
  - rewrite !Forall_app. repeat split; try done; repeat constructor; lia.
  - exists (periods ++ [item - prev - 1]), 1. split; [done|].
    by rewrite mag_after_app, Hfalse.
Qed.

Lemma periods_loop_inv flag input items prev periods :
  periods_inv flag items prev periods ->
  Sorted Z.lt (prev :: input) -> Forall (fun x => 0 <= x /\ x + 1 < 2 ^ w) (prev :: input) ->
  exists periods' prev',
    (forall E, @periods_loop ck sz E input prev periods = Ok periods') /\
    periods_inv flag (items ++ input) prev' periods' /\ prev' + 1 < 2 ^ w.
Proof.
  revert items prev periods. induction input as [|item rest IH];
    intros items prev periods Hi Hsort Hb.
  - exists periods, prev. rewrite app_nil_r. apply Forall_inv in Hb as [_ Hb]. by split; [|split].

  - inversion Hsort as [|? ? Hsort' Hhd]; subst. inversion Hhd; subst.
    inversion Hb as [|? ? [Hp0 Hp1] Hb']; subst. inversion Hb' as [|? ? [Hi0 Hi1] Hb'']; subst.
    assert (exists periods1,
      (forall E, @periods_loop ck sz E (item :: rest) prev periods
                 = @periods_loop ck sz E rest item periods1) /\
      periods_inv flag (items ++ [item]) item periods1) as (periods1 & Heq & Hinv).
    { destruct (decide (item = prev + 1)) as [->|Hne].
      - destruct (periods_inv_bump _ _ _ _ Hi) as (p1 & Hb1 & Hi1'); [lia|].
        exists p1. split; [|done]. intros E. cbn [periods_loop]. rewrite u_sub_ok by lia. cbn [bind].
        replace (prev + 1 - prev =? 1) with true by (symmetry; apply Z.eqb_eq; lia).
        rewrite Hb1. done.
      - eexists. split; [|by apply periods_inv_skip; [exact Hi|lia]].
        intros E. cbn [periods_loop]. rewrite u_sub_ok by lia. cbn [bind].
        replace (item - prev =? 1) with false by (symmetry; apply Z.eqb_neq; lia).
        replace (1 <? item - prev) with true by (symmetry; apply Z.ltb_lt; lia).
        rewrite u_sub_ok by lia. done. }
    destruct (IH _ _ _ Hinv Hsort' Hb') as (p' & prev' & Hl & Hi' & Hlt).
    exists p', prev'. split; [|split; [|done]].
    + intros E. by rewrite Heq, Hl.
    + by rewrite <- app_assoc in Hi'.
Qed.

(** The runs of an increasing sequence expand to the sequence. *)
Lemma get_periods_expand input :
  Sorted Z.lt input -> Forall (fun x => 0 <= x /\ x + 1 < 2 ^ w) input ->
  exists first periods,
    (forall E, @get_periods ck sz E input = Ok (first, periods)) /\
    first = head input /\
    Forall (fun p => 1 <= p) periods /\ sum periods < 2 ^ w /\
    expand (match first with Some i => i =? 0 | None => false end) 0 periods = input.
Proof.
  intros Hs Hb. destruct input as [|first rest].
  - exists None, []. repeat split; [constructor|]. cbn. pose proof pow_width_bounds. lia.
  - assert (Hf := Forall_inv Hb). cbn in Hf.
    set (flag := first =? 0).
    assert (periods_inv flag [first] first ((if flag then [] else [first]) ++ [1])) as Hi.
    { unfold flag. destruct (Z.eqb_spec first 0) as [->|]; split; cbn; try lia.
      - done.
      - repeat constructor; lia.
      - by exists [], 1.
      - done.
      - repeat constructor; lia.
      - by exists [first], 1. }
    destruct (periods_loop_inv _ _ _ _ _ Hi Hs Hb) as (ps & prev' & Hl & [He Hsum Hp _] & Hlt).
    exists (Some first), ps. repeat split; try done.
    + intros E. unfold get_periods. fold flag. by rewrite Hl.
    + lia.
Qed.

(** ** The bits [encode] writes *)

Fixpoint long_bytes (fuel : nat) (slice : Z) : list Z :=
  match fuel with
  | O => []
  | S fuel' =>
      if 128 <=? slice then cast_u8 (Z.lor slice 128) :: long_bytes fuel' (Z.shiftr slice 7)
      else [cast_u8 slice]
  end.

Definition block_bits (p : Z) : list bool :=
  if p =? 1 then [true]
  else if p <? 16 then [false; true] ++ lsb_bits 4 p
  else [false; false] ++ all_bits (long_bytes (S (Z.to_nat w)) p).

Lemma push_byte_bits {E} s b : @push_byte E s b = push_all s (byte_bits b).
Proof.
  assert (Hb : forall i, negb (Z.land (Z.shiftr b (Z.of_nat i)) 1 =? 0) = Z.testbit b (Z.of_nat i)).
  { intros i. pose proof (land_pow2_testbit (Z.shiftr b (Z.of_nat i)) 0) as H.
    change (2 ^ Z.of_nat 0) with 1 in H. rewrite H, Z.shiftr_spec by lia. f_equal. }
  assert (Hl : forall n i s, @push_byte_loop E n (Z.of_nat i) s b =
    push_all s (map (fun i => Z.testbit b (Z.of_nat i)) (seq i n))).
  { induction n as [|n IH]; intros i s'; [done|]. cbn [push_byte_loop seq map push_all].
    rewrite Hb. destruct (push s' _) as [s''| | |]; cbn [bind]; [|done..].
    replace (Z.of_nat i + 1) with (Z.of_nat (S i)) by lia. apply IH. }
  apply (Hl 8%nat 0%nat).
Qed.

Lemma small_bit p i :
  (i < 8)%nat -> (Z.shiftr (Z.land p (2 ^ Z.of_nat i)) (Z.of_nat i) =? 1) = Z.testbit p (Z.of_nat i).
Proof.
  intros Hi. destruct (Z.testbit p (Z.of_nat i)) eqn:Ht.
  - apply Z.eqb_eq, Z.bits_inj'. intros n Hn. rewrite Z.shiftr_spec by lia.
    rewrite Z.land_spec, Z.pow2_bits_eqb by lia. change 1 with (2 ^ 0).
    rewrite Z.pow2_bits_eqb by lia. destruct (Z.eqb_spec 0 n) as [<-|].
    + by rewrite Z.add_0_l, Ht, Z.eqb_refl.
    + rewrite (proj2 (Z.eqb_neq _ _)) by lia. apply andb_false_r.
  - apply Z.eqb_neq. intros H1. apply (f_equal (fun z => Z.testbit z 0)) in H1.
    rewrite Z.shiftr_spec, Z.add_0_l, Z.land_spec, Ht in H1 by lia. done.
Qed.

Lemma push_small_bits {E} s p :
  @push_small_block ck sz E s p = push_all s ([false; true] ++ lsb_bits 4 p).
Proof.
  assert (Hl : forall n i s, (i + n <= 8)%nat ->
    @push_small_loop ck sz E n (Z.of_nat i) s p =
    push_all s (map (fun i => Z.testbit p (Z.of_nat i)) (seq i n))).
  { induction n as [|n IH]; intros i s' Hi; [done|]. cbn [push_small_loop seq map push_all].
    rewrite cast_from_small by lia. pose proof width_bounds. pose proof pow_width_bounds.
    unfold u_shl. rewrite (proj2 (Z.ltb_lt _ _)) by lia. cbn [bind].
    rewrite Z.shiftl_1_l, Z.mod_small
      by (split; [lia|apply Z.pow_lt_mono_r; lia]).
    rewrite small_bit by lia. destruct (push s' _) as [s''| | |]; cbn [bind]; [|done..].
    replace (Z.of_nat i + 1) with (Z.of_nat (S i)) by lia. apply IH. lia. }
  unfold push_small_block. cbn [push_all app].
  destruct (push s false) as [s1| | |]; cbn [bind]; [|done..].
  destruct (push s1 true) as [s2| | |]; cbn [bind]; [|done..].
  apply (Hl 4%nat 0%nat). lia.
Qed.

Lemma shiftr7_bound fuel p :
  0 <= p < 2 ^ (7 * Z.of_nat (S fuel)) -> 128 <= p ->
  0 <= Z.shiftr p 7 < 2 ^ (7 * Z.of_nat fuel) /\ (0 < fuel)%nat.
Proof.
  intros Hp Hge. split; [|destruct fuel; [cbn in Hp|]; lia].
  rewrite Z.shiftr_div_pow2 by lia. split; [apply Z.div_pos; lia|].
  apply Z.div_lt_upper_bound; [lia|]. rewrite <- Z.pow_add_r by lia.
  replace (7 + 7 * Z.of_nat fuel) with (7 * Z.of_nat (S fuel)) by lia. by destruct Hp.
Qed.

Lemma push_long_loop_bits {E} fuel s p :
  0 <= p < 2 ^ (7 * Z.of_nat fuel) -> (0 < fuel)%nat ->
  @push_long_loop sz E fuel s p = push_all s (all_bits (long_bytes fuel p)).
Proof.
  revert s p. induction fuel as [|fuel IH]; intros s p Hp Hf.
  - lia.
  - cbn [push_long_loop long_bytes].
    destruct cast_config as (-> & -> & _).
    destruct (Z.leb_spec 128 p).
    + rewrite all_bits_cons, push_all_app, push_byte_bits.
      destruct (push_all s _) as [s'| | |]; cbn [bind]; [|done..].
      by apply IH; eapply shiftr7_bound.
    + rewrite push_byte_bits, all_bits_cons. by rewrite app_nil_r.
Qed.

Lemma long_fuel p : p < 2 ^ w -> p < 2 ^ (7 * Z.of_nat (S (Z.to_nat w))).
Proof.
  intros. pose proof width_bounds. eapply Z.lt_le_trans; [done|].
  apply Z.pow_le_mono_r; lia.
Qed.

Lemma encode_loop_bits {E} periods s :
  Forall (fun p => 1 <= p < 2 ^ w) periods ->
  @encode_loop ck sz E periods s = push_all s (concat (map block_bits periods)).
Proof.
  intros H. revert s. induction H as [|p ps [Hp1 Hp2] _ IH]; intros s; [done|].
  cbn [encode_loop map concat]. rewrite push_all_app. unfold block_bits at 1.
  destruct cast_config as (_ & _ & ->).
  destruct (Z.eqb_spec p 1) as [->|Hne].
  - cbn [push_all]. destruct (push s true) as [s'| | |]; cbn [bind]; [apply IH|done..].
  - destruct (Z.ltb_spec p 16).
    + rewrite push_small_bits. by destruct (push_all s _); cbn [bind]; [apply IH|..].
    + rewrite (proj2 (Z.leb_le _ _)) by lia.
      assert (Hl : @push_long_block sz E s p =
        push_all s ([false; false] ++ all_bits (long_bytes (S (Z.to_nat w)) p))).
      { unfold push_long_block. rewrite push_all_app. cbn [push_all].
        destruct (push s false) as [s1| | |]; cbn [bind]; [|done..].
        destruct (push s1 false) as [s2| | |]; cbn [bind]; [|done..].
        apply push_long_loop_bits; [split; [lia|by apply long_fuel]|lia]. }
      rewrite Hl. by destruct (push_all s _); cbn [bind]; [apply IH|..].
Qed.

(** The whole output of [encode]: two version bits, the polarity of the first
    run, the blocks, and fewer than eight zero bits of padding. *)
Lemma encode_bits {E} input first periods :
  (forall E', @get_periods ck sz E' input = Ok (first, periods)) ->
  Forall (fun p => 1 <= p < 2 ^ w) periods ->
  let flag := match first with Some i => i =? 0 | None => false end in
  exists v k,
    @encode ck sz E input = Ok v /\ bytes_ok v /\
    all_bits v = [false; false; flag] ++ concat (map block_bits periods) ++ replicate k false.
Proof.
  intros Hg Hp flag.
  destruct (@push_all_repr E new [] ([false; false; flag] ++ concat (map block_bits periods)))
    as (s & Hs & Hok & Hcnt & k & Hk & Hall); [apply repr_new|].
  exists (content s), k. split; [|split; [done|]].
  - unfold encode. rewrite Hg. cbn [bind]. unfold init_content. change (clear new) with new.
    fold flag. cbn [push_all app] in Hs.
    destruct (@push E new false) as [s1| | |]; cbn [bind] in *; [|done..].
    destruct (@push E s1 false) as [s2| | |]; cbn [bind] in *; [|done..].
    destruct (@push E s2 flag) as [s3| | |]; cbn [bind] in *; [|done..].
    rewrite encode_loop_bits by done. by rewrite Hs.
  - rewrite Hall. by rewrite <- !app_assoc.
Qed.

(** ** Reading bits back *)

(** The helper stands in the bits [l] just before [rest]. *)
Definition at_bits (h : BitSetHelper) (l rest : list bool) : Prop :=
  repr (bitset h) l /\ (hindex h <= length l)%nat /\ drop (hindex h) l = rest.

Lemma at_bits_advance h l bs rest :
  at_bits h l (bs ++ rest) ->
  at_bits (set_index h (hindex h + length bs)) l rest /\
  (hindex h + length bs <= length l)%nat.
Proof.
  intros (Hr & Hle & Hd). assert (Hlen := f_equal length Hd).
  rewrite length_drop, length_app in Hlen.
  split; [|lia]. split; [done|]. split; [cbn; lia|].
  cbn [hindex set_index]. rewrite <- drop_drop, Hd, drop_app_length. done.
Qed.

Lemma get_span_loop_spec s l i bs rest value shift :
  repr s l -> drop i l = bs ++ rest ->
  0 <= shift -> shift + Z.of_nat (length bs) <= 8 -> 0 <= value < 2 ^ shift ->
  get_span_loop ck sz (length bs) i s value shift = Ok (value + of_bits bs * 2 ^ shift).
Proof.
  intros Hr. pose proof width_bounds. pose proof pow_width_bounds. change (2 ^ 8) with 256 in *.
  revert i value shift. induction bs as [|b bs IH]; intros i value shift Hd Hs0 Hs Hv.
  - cbn. f_equal. lia.
  - cbn [length get_span_loop] in *.
    assert (Hb : l !! i = Some b).
    { rewrite <- (Nat.add_0_r i), <- lookup_drop, Hd. done. }
    rewrite (bit_repr s l i b) by done. cbn [bind].
    unfold u_shl. rewrite (proj2 (Z.ltb_lt _ _)) by lia. cbn [bind].
    rewrite u_add_ok by lia. cbn [bind].
    assert (Hp : 0 < 2 ^ shift < 256).
    { split; [apply Z.pow_pos_nonneg; lia|]. change 256 with (2 ^ 8). apply Z.pow_lt_mono_r; lia. }
    assert (Hsh : Z.shiftl (if b then 1 else 0) shift mod 2 ^ w = (if b then 1 else 0) * 2 ^ shift).
    { rewrite Z.shiftl_mul_pow2 by lia. apply Z.mod_small. destruct b; lia. }
    rewrite Hsh, lor_shift_add by lia.
    assert (Hpow : 2 ^ (shift + 1) = 2 * 2 ^ shift) by (rewrite Z.pow_add_r by lia; lia).
    rewrite IH.
    + f_equal. cbn [of_bits]. rewrite Hpow. lia.
    + erewrite drop_S in Hd by done. by injection Hd.
    + lia.
    + lia.
    + rewrite Hpow. destruct b; lia.
Qed.

Lemma get_span_spec h l bs rest n :
  at_bits h l (bs ++ rest) -> length bs = n -> (n <= 8)%nat ->
  get_span ck sz h n = Ok (of_bits bs, set_index h (hindex h + n)) /\
  at_bits (set_index h (hindex h + n)) l rest.
Proof.
  intros Ha <- Hn. destruct (at_bits_advance _ _ _ _ Ha) as [Ha' Hle].
  split; [|done]. destruct Ha as ((Hok & Hcnt & Hk) & Hi & Hd).
  unfold get_span, size. rewrite decide_False by lia.
  rewrite (get_span_loop_spec _ l _ bs rest) by (done || lia).
  cbn [bind]. do 3 f_equal. lia.
Qed.

Lemma next_at_bits h l rest :
  at_bits h l rest -> (1 <= hindex h)%nat ->
  exists o, @find_next RleDecodeError ck (bitset h) (hindex h - 1) = Ok o /\
            (o = None <-> Forall (eq false) rest).
Proof.
  intros (Hr & Hle & <-) Hi. eexists. split.
  - apply find_next_repr; [done|]. intros ->. cbn in Hle. lia.
  - unfold next_set. replace (hindex h - 1 + 1)%nat with (hindex h) by lia. apply first_set_None.
Qed.

(** ** Long blocks *)

Lemma long_byte_cont slice :
  0 <= slice ->
  u8 (cast_u8 (Z.lor slice 128)) /\
  Z.land (cast_u8 (Z.lor slice 128)) 128 <> 0 /\
  128 <= cast_u8 (Z.lor slice 128) /\
  Z.land (cast_u8 (Z.lor slice 128)) 127 = slice mod 128.
Proof.
  intros Hs. unfold cast_u8, trunc.
  assert (Hu : u8 (Z.lor slice 128 mod 2 ^ 8)) by (apply Z.mod_pos_bound; lia).
  assert (Hbit : Z.testbit (Z.lor slice 128 mod 2 ^ 8) 7 = true).
  { rewrite Z.mod_pow2_bits_low, Z.lor_spec by lia. change (Z.testbit 128 7) with true.
    apply orb_true_r. }
  split; [done|]. split; [|split].
  - pose proof (land_pow2_testbit (Z.lor slice 128 mod 2 ^ 8) 7) as H.
    change (Z.of_nat 7) with 7 in H. rewrite Hbit in H.
    by apply negb_true_iff, Z.eqb_neq in H.
  - destruct (Z.lt_ge_cases (Z.lor slice 128 mod 2 ^ 8) 128) as [Hlt|]; [|done].
    exfalso. destruct (decide (Z.lor slice 128 mod 2 ^ 8 = 0)) as [H0|H0];
      [by rewrite H0, Z.bits_0 in Hbit|].
    rewrite Z.bits_above_log2 in Hbit; [done|unfold u8 in Hu; lia|].
    apply Z.log2_lt_pow2; [unfold u8 in Hu; lia|exact Hlt].
  - change 127 with (Z.ones 7).
    replace (slice mod 128) with (Z.land slice (Z.ones 7)) by (by rewrite Z.land_ones).
    apply Z.bits_inj'. intros n Hn. rewrite !Z.land_spec.
    destruct (decide (n < 7)).
    + rewrite Z.mod_pow2_bits_low, Z.lor_spec by lia. change 128 with (2 ^ 7).
      rewrite Z.pow2_bits_eqb by lia. rewrite (proj2 (Z.eqb_neq 7 n)) by lia.
      by rewrite orb_false_r.
    + rewrite Z.ones_spec_high by lia. by rewrite !andb_false_r.
Qed.

Lemma long_byte_last slice :
  0 <= slice < 128 ->
  cast_u8 slice = slice /\ u8 slice /\ Z.land slice 128 = 0.
Proof.
  intros Hs. unfold cast_u8, u8, trunc. rewrite Z.mod_small by lia. repeat split; [lia..|].
  pose proof (land_pow2_testbit slice 7) as H. change (2 ^ Z.of_nat 7) with 128 in H.
  destruct (decide (slice = 0)) as [->|]; [done|].
  rewrite Z.bits_above_log2 in H by (try lia; apply Z.log2_lt_pow2; cbn; lia).
  by apply negb_false_iff, Z.eqb_eq in H.
Qed.

Lemma long_bytes_ok fuel p : 0 <= p -> bytes_ok (long_bytes fuel p).
Proof.
  revert p. induction fuel as [|fuel IH]; intros p Hp; [constructor|]. cbn [long_bytes].
  destruct (Z.leb_spec 128 p).
  - constructor; [by apply long_byte_cont|]. apply IH. by apply Z.shiftr_nonneg.
  - destruct (long_byte_last p) as (-> & ? & _); [lia|]. by apply Forall_singleton.
Qed.

Lemma read_bytes_spec fuel rfuel p h l rest acc :
  0 <= p < 2 ^ (7 * Z.of_nat fuel) -> (0 < fuel)%nat ->
  at_bits h l (all_bits (long_bytes fuel p) ++ rest) ->
  (length (long_bytes fuel p) <= rfuel)%nat ->
  exists h',
    read_bytes ck sz rfuel h acc = Ok (acc ++ long_bytes fuel p, h') /\ at_bits h' l rest /\
    magnitude h' = magnitude h /\ (hindex h <= hindex h')%nat.
Proof.
  revert rfuel p h acc. induction fuel as [|fuel IH]; intros rfuel p h acc Hp Hf Ha Hlen; [lia|].
  cbn [long_bytes] in *. change (cast_u8 BYTE_SLICE_VALUE) with 128.
  destruct (Z.leb_spec 128 p).
  - destruct rfuel as [|rfuel]; [cbn in Hlen; lia|].
    destruct (long_byte_cont p) as (Hu & Hmsb & _ & _); [lia|].
    rewrite all_bits_cons, <- app_assoc in Ha.
    apply (get_span_spec _ _ _ _ 8) in Ha as [Hg Ha]; [|done..].
    cbn [read_bytes]. change BYTE_BITS_COUNT with 8%nat. rewrite Hg. cbn [bind].
    rewrite of_byte_bits by done.
    assert (Hc : cast_u8 (cast_u8 (Z.lor p 128)) = cast_u8 (Z.lor p 128)) by (apply Z.mod_small, Hu).
    rewrite Hc. change (cast_u8 BYTE_SLICE_VALUE) with 128.
    rewrite (proj2 (Z.eqb_neq _ _)) by done.
    destruct (shiftr7_bound fuel p) as [Hp' Hf']; [lia..|].
    destruct (IH rfuel (Z.shiftr p 7) _ (acc ++ [cast_u8 (Z.lor p 128)]) Hp' Hf' Ha)
      as (h' & -> & Ha' & Hm & Hi); [cbn in Hlen; lia|].
    exists h'. rewrite <- app_assoc. cbn in Hi. split; [done|]. split; [done|]. split; [done|]. lia.
  - destruct rfuel as [|rfuel]; [cbn in Hlen; lia|].
    destruct (long_byte_last p) as (Hc & Hu & Hmsb); [lia|]. rewrite Hc in *.
    rewrite all_bits_cons, app_nil_r in Ha.
    apply (get_span_spec _ _ _ _ 8) in Ha as [Hg Ha]; [|done..].
    cbn [read_bytes]. change BYTE_BITS_COUNT with 8%nat. rewrite Hg. cbn [bind].
    rewrite of_byte_bits, Hc by done. change (cast_u8 BYTE_SLICE_VALUE) with 128.
    rewrite (proj2 (Z.eqb_eq _ _)) by done.
    eexists. split; [done|]. split; [done|]. split; [done|]. cbn. lia.
Qed.

Lemma unpack_loop_spec fuel p shift value :
  0 <= p -> p < 2 ^ (7 * Z.of_nat fuel) -> (0 < fuel)%nat ->
  0 <= shift -> 0 <= value < 2 ^ shift -> p * 2 ^ shift < 2 ^ w -> 1 <= p ->
  unpack_loop ck sz (long_bytes fuel p) w shift value = Ok (value + p * 2 ^ shift).
Proof.
  revert p shift value. induction fuel as [|fuel IH]; intros p shift value Hp0 Hp Hf Hs Hv Hb H1; [lia|].
  cbn [long_bytes]. pose proof width_bounds. pose proof pow_width_bounds.
  assert (Hpos : 0 < 2 ^ shift) by (apply Z.pow_pos_nonneg; lia).
  assert (Hsw : shift < w).
  { apply (Z.pow_lt_mono_r_iff 2); [lia..|]. nia. }
  destruct (Z.leb_spec 128 p).
  - destruct (long_byte_cont p) as (Hu & _ & Hge & Hmask); [lia|].
    cbn [unpack_loop]. rewrite (proj2 (Z.ltb_ge _ _)) by lia.
    change BYTE_SLICE_VALUE with 128. rewrite (proj2 (Z.ltb_ge _ _)) by lia.
    change UNPACK_BYTE_MASK with 127. rewrite Hmask.
    unfold u_shl. rewrite (proj2 (Z.ltb_lt shift 64)) by lia. cbn [bind].
    rewrite Z.shiftl_mul_pow2 by lia.
    assert (Hm : 0 <= p mod 128 <= p) by (split; [apply Z.mod_pos_bound|apply Z.mod_le]; lia).
    assert (Hsmall : 0 <= p mod 128 * 2 ^ shift < 2 ^ w) by nia.
    rewrite Z.mod_small by lia. unfold cast_from. rewrite trunc_small by done.
    rewrite lor_shift_add by lia. change PACK_BYTE_SHIFT with 7.
    destruct (shiftr7_bound fuel p) as [Hp' Hf']; [lia..|].
    assert (Hdiv : p = 128 * Z.shiftr p 7 + p mod 128).
    { rewrite Z.shiftr_div_pow2 by lia. apply Z.div_mod. lia. }
    assert (Hpow : 2 ^ (shift + 7) = 128 * 2 ^ shift) by (rewrite Z.pow_add_r by lia; lia).
    assert (p mod 128 < 128) by (apply Z.mod_pos_bound; lia).
    set (q := Z.shiftr p 7) in *. set (m := p mod 128) in *. set (S2 := 2 ^ shift) in *.
    assert ((m + 1) * S2 <= 128 * S2) by (apply Z.mul_le_mono_nonneg_r; lia).
    assert (q * (128 * S2) + m * S2 = p * S2) by (rewrite Hdiv; ring).
    rewrite IH; rewrite ?Hpow; [f_equal; lia|lia|lia|done|lia|lia|lia|lia].
  - destruct (long_byte_last p) as (-> & _ & _); [lia|].
    cbn [unpack_loop]. rewrite (proj2 (Z.ltb_ge _ _)) by lia.
    change BYTE_SLICE_VALUE with 128. rewrite (proj2 (Z.ltb_lt p 128)) by lia.
    unfold u_shl. rewrite (proj2 (Z.ltb_lt shift 64)) by lia. cbn [bind].
    rewrite Z.shiftl_mul_pow2, Z.mod_small by nia.
    unfold cast_from. rewrite trunc_small by (unfold in_width; nia).
    by rewrite lor_shift_add by lia.
Qed.

(** ** Blocks and the main loop *)

Lemma push_run_spec {E} n v out :
  v + Z.of_nat n < 2 ^ w ->
  @push_run ck sz E n v out = Ok (v + Z.of_nat n, out ++ seqZ v (Z.of_nat n)).
Proof.
  revert v out. induction n as [|n IH]; intros v out Hv.
  - cbn. by rewrite Z.add_0_r, app_nil_r.
  - cbn [push_run]. rewrite u_add_ok by lia. cbn [bind]. rewrite IH by lia.
    rewrite (seqZ_cons v) by lia. rewrite <- app_assoc.
    replace (Z.pred (Z.of_nat (S n))) with (Z.of_nat n) by lia.
    do 2 f_equal. lia.
Qed.

Definition after_run (st : DecodeState) (h : BitSetHelper) (p : Z) : DecodeState :=
  mkState (set_magnitude h (negb (magnitude h))) (value st + p)
          (output st ++ (if magnitude h then seqZ (value st) p else [])).

Lemma apply_run_spec st h p :
  0 <= p -> 0 <= value st -> value st + p < 2 ^ w ->
  apply_run ck sz (mkState h (value st) (output st)) p = Ok (after_run st h p).
Proof.
  intros Hp Hv Hb. pose proof pow_width_bounds. unfold apply_run, after_run. cbn.
  destruct (magnitude h).
  - unfold cast_usize. rewrite trunc_small by (unfold in_width; lia).
    rewrite push_run_spec by lia. rewrite Z2Nat.id by lia. done.
  - rewrite u_add_ok by lia. cbn. by rewrite app_nil_r.
Qed.

(** The bits of a block are never all zero: the loop does not stop early. *)
Lemma block_bits_nonzero p rest :
  1 <= p < 2 ^ w -> ~ Forall (eq false) (block_bits p ++ rest).
Proof.
  intros Hp. rewrite Forall_app. intros [H _]. unfold block_bits in H.
  destruct (Z.eqb_spec p 1); [by inversion H|].
  destruct (Z.ltb_spec p 16).
  - rewrite Forall_app in H. destruct H as [H _]. inversion H as [|? ? _ H']. by inversion H'.
  - rewrite Forall_app in H. destruct H as [_ H]. cbn [long_bytes] in H.
    destruct (Z.leb_spec 128 p).
    + rewrite all_bits_cons, Forall_app in H. destruct H as [H _].
      destruct (long_byte_cont p) as (Hu & _ & Hge & _); [lia|].
      apply byte_bits_zero in H; [lia|done].
    + rewrite all_bits_cons, Forall_app in H. destruct H as [H _].
      destruct (long_byte_last p) as (Hc & Hu & _); [lia|]. rewrite Hc in H.
      apply byte_bits_zero in H; [lia|done].
Qed.

(** A bit read by [get_span(_, 1)] selects the branch. *)
Lemma get_span_bit h l b rest :
  at_bits h l (b :: rest) ->
  get_span ck sz h 1 = Ok (if b then 1 else 0, set_index h (hindex h + 1)) /\
  at_bits (set_index h (hindex h + 1)) l rest.
Proof.
  intros Ha. apply (get_span_spec h l [b] rest 1) in Ha as [Hg Ha]; [|done|lia].
  split; [|done]. rewrite Hg. cbn [of_bits]. do 3 f_equal. destruct b; lia.
Qed.

Lemma decode_long_spec st l h p rest :
  at_bits h l (all_bits (long_bytes (S (Z.to_nat w)) p) ++ rest) ->
  16 <= p -> 0 <= value st -> value st + p < 2 ^ w ->
  exists h', decode_long_block ck sz (mkState h (value st) (output st)) = Ok (after_run st h' p) /\
    at_bits h' l rest /\ magnitude h' = magnitude h /\ (hindex h <= hindex h')%nat.
Proof.
  intros Ha Hp Hv Hb. pose proof width_bounds. unfold decode_long_block. cbn [helper].
  destruct (read_bytes_spec (S (Z.to_nat w)) (S (size (bitset h))) p h l rest [])
    as (h' & -> & Ha' & Hm & Hi); [split; [lia|apply long_fuel; lia]|lia|done| |].
  { destruct Ha as ((_ & Hc & _) & _ & Hd). apply (f_equal length) in Hd.
    rewrite length_drop, length_app, length_all_bits in Hd. unfold size. lia. }
  exists h'. cbn [bind app]. unfold unpack. change (Z.of_nat BYTE_BITS_COUNT) with 8.
  rewrite (Z.mul_comm sz). change (8 * sz) with w.
  rewrite unpack_loop_spec; cbn; try lia.
  - rewrite Z.mul_1_r. rewrite apply_run_spec by lia. done.
  - apply long_fuel. lia.
Qed.

Lemma decode_block st l p rest fuel :
  at_bits (helper st) l (block_bits p ++ rest) -> (1 <= hindex (helper st))%nat ->
  1 <= p -> 0 <= value st -> value st + p < 2 ^ w ->
  exists h', decode_loop ck sz (S fuel) st = decode_loop ck sz fuel (after_run st h' p) /\
    at_bits h' l rest /\ magnitude h' = magnitude (helper st) /\ (1 <= hindex h')%nat.
Proof.
  intros Ha Hi Hp Hv Hb.
  destruct (next_at_bits _ _ _ Ha Hi) as (o & Hn & Hno).
  destruct o as [o|]; [|destruct (block_bits_nonzero p rest); [lia|by apply Hno]].
  cbn [decode_loop]. rewrite Hn. cbn [bind]. unfold block_bits in Ha.
  destruct (Z.eqb_spec p 1) as [->|].
  - apply get_span_bit in Ha as [-> Ha]. cbn [bind]. change (1 =? 1) with true. cbn [helper].
    eexists. split; [|split; [exact Ha|split; [done|cbn; lia]]].
    unfold decode_single_block. cbn. rewrite u_add_ok by lia. cbn. unfold after_run. cbn.
    by destruct (magnitude _); rewrite ?app_nil_r.
  - destruct (Z.ltb_spec p 16).
    + apply get_span_bit in Ha as [-> Ha]. cbn [bind]. change (0 =? 1) with false.
      change (0 =? 0) with true. cbn [helper value output].
      apply get_span_bit in Ha as [-> Ha]. cbn [bind]. change (1 =? 0) with false. cbn [value output].
      apply (get_span_spec _ _ _ _ 4) in Ha as [Hg Ha]; [|done|lia].
      unfold decode_small_block. cbn [helper value output]. change SMALL_BLOCK_LENGTH with 4%nat.
      rewrite Hg. cbn [bind]. rewrite of_lsb_bits, Z.mod_small by (change (2 ^ Z.of_nat 4) with 16; lia).
      rewrite apply_run_spec by lia. cbn [bind].
      eexists. split; [done|]. split; [exact Ha|]. split; [done|]. cbn. lia.
    + apply get_span_bit in Ha as [-> Ha]. cbn [bind]. change (0 =? 1) with false.
      change (0 =? 0) with true. cbn [helper value output].
      apply get_span_bit in Ha as [-> Ha]. cbn [bind]. change (0 =? 0) with true. cbn [value output].
      destruct (decode_long_spec st l _ p rest Ha) as (h' & -> & Ha' & Hm & Hi'); [lia..|].
      cbn [bind]. exists h'. split; [done|]. split; [done|]. split; [done|].
      cbn in Hi'. lia.
Qed.

Lemma decode_loop_spec periods st l k fuel :
  at_bits (helper st) l (concat (map block_bits periods) ++ replicate k false) ->
  (1 <= hindex (helper st))%nat ->
  Forall (fun p => 1 <= p) periods -> 0 <= value st -> value st + sum periods < 2 ^ w ->
  (length periods < fuel)%nat ->
  exists st', decode_loop ck sz fuel st = Ok st' /\
    output st' = output st ++ expand (magnitude (helper st)) (value st) periods.
Proof.
  intros Ha Hi Hp. revert st fuel Ha Hi. induction Hp as [|p ps Hp1 Hp IH];
    intros st fuel Ha Hi Hv Hb Hf.
  - destruct fuel as [|fuel]; [cbn in Hf; lia|].
    destruct (next_at_bits _ _ _ Ha Hi) as (o & Hn & Hno).
    rewrite (proj2 Hno) in Hn by (apply Forall_replicate; done).
    cbn [decode_loop]. rewrite Hn. exists st. cbn. by rewrite app_nil_r.
  - destruct fuel as [|fuel]; [cbn in Hf; lia|].
    cbn [map concat] in Ha. rewrite <- app_assoc in Ha.
    pose proof (sum_nonneg _ Hp). cbn in Hb. change (fold_right Z.add 0 ps) with (sum ps) in Hb.
    destruct (decode_block st l p _ fuel Ha Hi) as (h' & -> & Ha' & Hm & Hi'); [lia..|].
    destruct (IH (after_run st h' p) fuel) as (st' & -> & Ho); cbn; try done; try lia.
    + cbn in Hf. lia.
    + exists st'. split; [done|]. rewrite Ho. unfold after_run. cbn. rewrite Hm.
      by rewrite <- app_assoc.
Qed.

Lemma length_blocks periods :
  (length periods <= length (concat (map block_bits periods)))%nat.
Proof.
  induction periods as [|p ps IH]; [cbn; lia|]. cbn [map concat length].
  rewrite length_app. assert (1 <= length (block_bits p))%nat; [|lia].
  unfold block_bits. destruct (p =? 1); [done|]. destruct (p <? 16); cbn; lia.
Qed.

(** Decoding an encoding, up to the size limit. *)
Lemma decode_encode {E} input :
  Sorted Z.lt input -> Forall (fun x => 0 <= x /\ x + 1 < 2 ^ w) input ->
  exists v, @encode ck sz E input = Ok v /\ bytes_ok v /\
    decode ck sz v =
      (if OBJECT_MAX_SIZE / sz <? Z.of_nat (length input) then Err MaxSizeExceed else Ok input).
Proof.
  intros Hs Hb. destruct (get_periods_expand input Hs Hb)
    as (first & periods & Hg & _ & Hp & Hsum & Hexp).
  set (flag := match first with Some i => i =? 0 | None => false end) in *.
  assert (Hp' : Forall (fun p => 1 <= p < 2 ^ w) periods).
  { clear -Hp Hsum. induction Hp as [|p ps H1 Hp IH]; constructor.
    - pose proof (sum_nonneg _ Hp). cbn in Hsum. unfold sum in *. lia.
    - apply IH. cbn in Hsum. unfold sum in *. lia. }
  destruct (@encode_bits E input first periods Hg Hp') as (v & k & Henc & Hok & Hbits).
  fold flag in Hbits. exists v. split; [done|]. split; [done|].
  assert (Ha : at_bits (new_helper (from_vec v)) (all_bits v)
                 ([false; false] ++ flag :: concat (map block_bits periods) ++ replicate k false)).
  { split; [by apply repr_from_vec|]. split; [cbn; lia|]. by rewrite Hbits. }
  assert (Hsize : size (from_vec v) = length (all_bits v)).
  { cbn. by rewrite length_all_bits. }
  rewrite Hbits in Hsize. rewrite !length_app in Hsize. cbn [length] in Hsize.
  assert (Hlb := length_blocks periods).
  apply (get_span_spec _ _ _ _ 2) in Ha as [Hg2 Ha]; [|done|lia].
  unfold decode. rewrite Hg2. cbn [bind of_bits]. change (0 + 2 * (0 + 2 * 0) =? 1) with false.
  assert (4 <= length v * 8)%nat as Hlen.
  { pose proof (length_all_bits v) as Hl. rewrite Hbits, length_app in Hl. cbn in Hl. lia. }
  rewrite bool_decide_eq_false_2 by (cbn; unfold SMALL_BLOCK_LENGTH, BYTE_LEN; lia). cbn [orb].
  apply get_span_bit in Ha as [-> Ha]. cbn [bind].
  replace ((if flag then 1 else 0) =? 1) with flag by (by destruct flag).
  destruct (decode_loop_spec periods
    (mkState (set_magnitude (set_index (set_index (new_helper (from_vec v)) (0 + 2)) (0 + 2 + 1)) flag) 0 [])
    (all_bits v) k (S (size (from_vec v)))) as (st' & Hl & Ho);
    [exact Ha|cbn; lia|done|done|cbn; lia|lia|].
  cbn -[length decode_loop] in Hl, Ho. rewrite Hexp in Ho.
  cbn -[decode_loop OBJECT_MAX_SIZE Z.div]. rewrite Hl. cbn [bind]. by rewrite Ho.
Qed.

End Correct.
