(* ===== verification/RleTotal.v ===== *)
(** * The RLE+ decoder on arbitrary bytes

    What [decode] does on data that no encoder produced: it always terminates
    within its fuel, panics only on an arithmetic overflow of a checked build,
    reports a version mismatch on exactly one of the four version values, and
    in a checked build its output is always an increasing sequence of items. *)

From Stdlib Require Import ZArith Lia Sorted.
From stdpp Require Import base numbers list.
From S2P Require Import Prelude BitSet Rle RleCorrect.

Local Open Scope Z_scope.

(** Outcomes the decoder may produce after its header. *)
Definition good {A} (ck : bool) (m : outcome RleDecodeError A) : Prop :=
  match m with
  | Ok _ => True
  | Err e => e <> VersionMismatch
  | Panic => ck = true
  | OutOfFuel => False
  end.

Lemma good_bind {A B} ck (m : outcome RleDecodeError A) (k : A -> outcome RleDecodeError B) :
  good ck m -> (forall a, m = Ok a -> good ck (k a)) -> good ck (bind m k).
Proof. destruct m; cbn; auto. Qed.

Section Total.
Context (ck : bool) (sz : Z).
Hypothesis Hsz : 1 <= sz <= 8.
Local Abbreviation w := (width sz).

Lemma good_u_add w' a b : good ck (u_add ck w' a b).
Proof. unfold u_add. destruct (_ <? _); [done|]. by destruct ck. Qed.

Lemma good_u_shl w' a s : good ck (u_shl ck w' a s).
Proof. unfold u_shl. destruct (_ <? _); [done|]. by destruct ck. Qed.

Lemma good_get_span_loop n i s l value shift :
  repr s l -> (i + n <= length l)%nat -> good ck (get_span_loop ck sz n i s value shift).
Proof.
  intros Hr. revert i value shift. induction n as [|n IH]; intros i value shift Hi; [done|].
  cbn [get_span_loop]. destruct (lookup_lt_is_Some_2 l i) as [b Hb]; [lia|].
  rewrite (bit_repr _ _ _ _ Hr Hb). cbn [bind].
  apply good_bind; [apply good_u_shl|intros ? _].
  apply good_bind; [apply good_u_add|intros ? _]. apply IH. lia.
Qed.

(** A position within the bits [l] of the buffer. *)
Definition within (h : BitSetHelper) (l : list bool) : Prop :=
  repr (bitset h) l /\ (hindex h <= length l)%nat.

Lemma good_get_span h l n :
  within h l -> good ck (get_span ck sz h n).
Proof.
  intros [Hr Hi]. unfold get_span, size. destruct Hr as (Hok & Hc & Hk) eqn:Hre.
  destruct (decide _); [done|]. apply good_bind; [|done].
  eapply good_get_span_loop; [exact Hr|lia].
Qed.

Lemma get_span_within h l n v h' :
  within h l -> get_span ck sz h n = Ok (v, h') ->
  within h' l /\ hindex h' = (hindex h + n)%nat /\ bitset h' = bitset h.
Proof.
  intros [Hr Hi]. unfold get_span, size. destruct Hr as (Hok & Hc & Hk) eqn:Hre.
  destruct (decide _); [done|]. intros (x & _ & [= <- <-])%bind_ok. cbn.
  repeat split; try done. cbn. lia.
Qed.

Lemma good_push_run n v out : good ck (@push_run ck sz RleDecodeError n v out).
Proof.
  revert v out. induction n as [|n IH]; intros v out; [done|]. cbn [push_run].
  apply good_bind; [apply good_u_add|auto].
Qed.

Lemma good_apply_run st p : good ck (apply_run ck sz st p).
Proof.
  unfold apply_run. apply good_bind; [|by intros [v out] _].
  destruct (magnitude _); [apply good_push_run|].
  apply good_bind; [apply good_u_add|done].
Qed.

Lemma apply_run_helper st p st' :
  apply_run ck sz st p = Ok st' ->
  hindex (helper st') = hindex (helper st) /\ bitset (helper st') = bitset (helper st).
Proof. unfold apply_run. by intros ([v out] & _ & [= <-])%bind_ok. Qed.

Lemma good_read_bytes fuel h l acc :
  within h l -> (length l - hindex h < fuel)%nat -> good ck (read_bytes ck sz fuel h acc).
Proof.
  revert h acc. induction fuel as [|fuel IH]; intros h acc Hw Hf; [lia|]. cbn [read_bytes].
  apply good_bind; [by eapply good_get_span|]. intros [item h'] Hg.
  destruct (get_span_within _ _ _ _ _ Hw Hg) as (Hw' & Hi & _).
  destruct (_ =? 0); [done|]. apply IH; [done|].
  destruct Hw' as [_ Hle]. unfold BYTE_BITS_COUNT in Hi. lia.
Qed.

Lemma read_bytes_within fuel h l acc bs h' :
  within h l -> read_bytes ck sz fuel h acc = Ok (bs, h') ->
  within h' l /\ (hindex h <= hindex h')%nat /\ bitset h' = bitset h.
Proof.
  revert h acc. induction fuel as [|fuel IH]; intros h acc Hw; [done|]. cbn [read_bytes].
  intros ([item h1] & Hg & H)%bind_ok.
  destruct (get_span_within _ _ _ _ _ Hw Hg) as (Hw' & Hi & Hb).
  destruct (_ =? 0); [by simplify_eq; repeat split; try apply Hw'; try done; lia|].
  apply IH in H as (? & ? & Hb'); [|done]. rewrite Hb' , Hb. repeat split; try apply H; try done. lia.
Qed.

Lemma good_unpack_loop data m shift value : good ck (unpack_loop ck sz data m shift value).
Proof.
  revert shift value. induction data as [|b data IH]; intros shift value; [done|].
  cbn [unpack_loop]. destruct (m <? shift); [done|]. destruct (b <? _).
  - apply good_bind; [apply good_u_shl|done].
  - apply good_bind; [apply good_u_shl|auto].
Qed.

(** One block, whatever the bits are: a good outcome, and progress. *)
Definition block_body (st : DecodeState) : outcome RleDecodeError DecodeState :=
  '(header, h) <- get_span ck sz (helper st) 1 ;;
  let st := mkState h (value st) (output st) in
  if header =? 1 then decode_single_block ck sz st
  else if header =? 0 then
    '(block_header, h) <- get_span ck sz (helper st) 1 ;;
    let st := mkState h (value st) (output st) in
    if block_header =? 0 then decode_long_block ck sz st else decode_small_block ck sz st
  else Ok st.

Lemma decode_loop_body fuel st :
  decode_loop ck sz (S fuel) st =
  (next <- find_next ck (bitset (helper st)) (hindex (helper st) - 1) ;;
   match next with
   | None => Ok st
   | Some _ => st' <- block_body st ;; decode_loop ck sz fuel st'
   end).
Proof.
  cbn [decode_loop]. destruct (find_next _ _ _) as [[o|]| | |]; cbn [bind]; try done.
  unfold block_body. destruct (get_span ck sz (helper st) 1) as [[header h]| | |]; done.
Qed.

Lemma good_block_body st l : within (helper st) l -> good ck (block_body st).
Proof.
  intros Hw. unfold block_body. apply good_bind; [by eapply good_get_span|].
  intros [header h] Hg. destruct (get_span_within _ _ _ _ _ Hw Hg) as (Hw1 & Hi1 & Hb1).
  destruct (header =? 1).
  { unfold decode_single_block. apply good_bind; [apply good_u_add|done]. }
  destruct (header =? 0); [|done]. apply good_bind; [by eapply good_get_span|].
  intros [bh h2] Hg2. cbn [helper] in Hg2.
  destruct (get_span_within _ _ _ _ _ Hw1 Hg2) as (Hw2 & Hi2 & Hb2).
  destruct (bh =? 0).
  - unfold decode_long_block. cbn [helper]. apply good_bind.
    + eapply good_read_bytes; [done|]. destruct Hw2 as [(_ & Hc & _) _]. unfold size. lia.
    + intros [bs h3] _. apply good_bind; [apply good_unpack_loop|].
      intros ? _. apply good_apply_run.
  - unfold decode_small_block. cbn [helper]. apply good_bind; [by eapply good_get_span|].
    intros [len h3] _. apply good_apply_run.
Qed.

Lemma block_body_progress st l st' :
  within (helper st) l -> block_body st = Ok st' ->
  within (helper st') l /\ (hindex (helper st) < hindex (helper st'))%nat.
Proof.
  intros Hw. unfold block_body. intros ([header h] & Hg & H)%bind_ok.
  destruct (get_span_within _ _ _ _ _ Hw Hg) as (Hw1 & Hi1 & Hb1).
  destruct (header =? 1).
  { unfold decode_single_block in H. apply bind_ok in H as (v & _ & [= <-]). cbn.
    split; [exact Hw1|lia]. }
  destruct (header =? 0); [|by simplify_eq; cbn; split; [exact Hw1|lia]].
  apply bind_ok in H as ([bh h2] & Hg2 & H). cbn [helper] in Hg2.
  destruct (get_span_within _ _ _ _ _ Hw1 Hg2) as (Hw2 & Hi2 & Hb2).
  destruct (bh =? 0).
  - unfold decode_long_block in H. apply bind_ok in H as ([bs h3] & Hr & H). cbn [helper] in Hr.
    destruct (read_bytes_within _ _ _ _ _ _ Hw2 Hr) as ([Hr3 Hle3] & Hi3 & Hb3).
    apply bind_ok in H as (len & _ & H). apply apply_run_helper in H as [Hi4 Hb4]. cbn in Hi4, Hb4.
    unfold within. rewrite Hi4, Hb4. split; [done|lia].
  - unfold decode_small_block in H. apply bind_ok in H as ([len h3] & Hr & H). cbn [helper] in Hr.
    destruct (get_span_within _ _ _ _ _ Hw2 Hr) as ([Hr3 Hle3] & Hi3 & Hb3).
    apply apply_run_helper in H as [Hi4 Hb4]. cbn in Hi4, Hb4.
    unfold within. rewrite Hi4, Hb4. split; [done|lia].
Qed.

Lemma good_decode_loop fuel st l :
  within (helper st) l -> (1 <= hindex (helper st))%nat ->
  (length l - hindex (helper st) < fuel)%nat -> good ck (decode_loop ck sz fuel st).
Proof.
  revert st. induction fuel as [|fuel IH]; intros st Hw Hi Hf; [lia|].
  rewrite decode_loop_body.
  destruct (next_at_bits ck (helper st) l (drop (hindex (helper st)) l)) as (o & -> & _);
    [split; [apply Hw|split; [apply Hw|done]]|done|].
  cbn [bind]. destruct o as [o|]; [|done].
  apply good_bind; [by eapply good_block_body|]. intros st' Hb.
  destruct (block_body_progress _ _ _ Hw Hb) as [Hw' Hi'].
  apply IH; [done|lia|]. destruct Hw' as [_ Hle]. lia.
Qed.

(** ** The header *)

Lemma within_new data : bytes_ok data -> within (new_helper (from_vec data)) (all_bits data).
Proof. intros. split; [by apply repr_from_vec|cbn; lia]. Qed.

(** The two version bits are the low bits of the first byte. *)
Lemma version_bits b data :
  bytes_ok (b :: data) ->
  get_span ck sz (new_helper (from_vec (b :: data))) 2 =
    Ok (b mod 4, set_index (new_helper (from_vec (b :: data))) 2).
Proof.
  intros Hok. assert (Hu := Forall_inv Hok). unfold u8 in Hu.
  destruct (get_span_spec ck sz Hsz (new_helper (from_vec (b :: data))) (all_bits (b :: data))
              (take 2 (byte_bits b)) (drop 2 (byte_bits b) ++ all_bits data) 2) as [-> _].
  - split; [by apply repr_from_vec|]. split; [cbn; lia|].
    by rewrite app_assoc, take_drop.
  - done.
  - lia.
  - cbn [hindex new_helper Nat.add]. do 2 f_equal.
    change (take 2 (byte_bits b)) with (lsb_bits 2 b). by rewrite of_lsb_bits by lia.
Qed.

Lemma decode_outcome b data :
  bytes_ok (b :: data) ->
  (b mod 4 = 1 /\ decode ck sz (b :: data) = Err VersionMismatch) \/
  (b mod 4 <> 1 /\ good ck (decode ck sz (b :: data))).
Proof.
  intros Hok. unfold decode. rewrite version_bits by done. cbn [bind].
  assert (Hs : bool_decide (size (bitset (set_index (new_helper (from_vec (b :: data))) 2))
                             < SMALL_BLOCK_LENGTH)%nat = false).
  { apply bool_decide_eq_false_2. cbn. unfold SMALL_BLOCK_LENGTH, BYTE_LEN. lia. }
  rewrite Hs. cbn [orb]. destruct (Z.eqb_spec (b mod 4) 1); [by left|right; split; [done|]].
  set (h := set_index _ 2).
  assert (Hw : within h (all_bits (b :: data))).
  { split; [by apply repr_from_vec|]. rewrite length_all_bits. cbn. lia. }
  apply good_bind; [by eapply good_get_span|]. intros [one h'] Hg.
  destruct (get_span_within _ _ _ _ _ Hw Hg) as (Hw' & Hi & Hb).
  apply good_bind.
  - eapply good_decode_loop; [exact Hw'|cbn in Hi |- *; lia|].
    destruct Hw' as [(_ & Hc & _) _]. cbn [helper set_magnitude bitset hindex]. unfold size. lia.
  - intros st _. by destruct (_ <? _).
Qed.

Lemma decode_nil : decode ck sz [] = Err DataIndexFailure.
Proof. done. Qed.

End Total.

(** ** The output of a checked build *)

Section Increasing.
Context (sz : Z).
Hypothesis Hsz : 1 <= sz <= 8.
Local Abbreviation w := (width sz).

Record out_inv (st : DecodeState) : Prop := {
  oi_sorted : Sorted Z.lt (output st);
  oi_below : Forall (fun x => 0 <= x < value st) (output st);
  oi_value : 0 <= value st < 2 ^ w;
}.

Lemma u_add_checked a b v :
  @u_add RleDecodeError true w a b = Ok v -> v = a + b /\ a + b < 2 ^ w.
Proof. unfold u_add. destruct (Z.ltb_spec (a + b) (2 ^ w)); [|done]. by intros [= <-]. Qed.

Lemma Sorted_snoc l v : Sorted Z.lt l -> Forall (fun x => x < v) l -> Sorted Z.lt (l ++ [v]).
Proof.
  induction 1 as [|x l Hl IH Hhd]; intros Hf; [by repeat constructor|].
  inversion Hf; subst. cbn. constructor; [by apply IH|].
  destruct Hhd; cbn; by constructor.
Qed.

Lemma push_run_inv n h v out v' out' :
  out_inv (mkState h v out) -> @push_run true sz RleDecodeError n v out = Ok (v', out') ->
  out_inv (mkState h v' out').
Proof.
  revert v out. induction n as [|n IH]; intros v out Hi H.
  - cbn in H. by simplify_eq.
  - cbn [push_run] in H. apply bind_ok in H as (v1 & Ha & H).
    apply u_add_checked in Ha as [-> Hlt]. eapply IH; [|exact H].
    destruct Hi as [Hs Hb Hv]. cbn in *. split; cbn.
    + apply Sorted_snoc; [done|]. eapply Forall_impl; [exact Hb|]. cbn. lia.
    + apply Forall_app. split; [eapply Forall_impl; [exact Hb|]; cbn; lia|].
      repeat constructor; lia.
    + lia.
Qed.

Lemma out_inv_helper h h' v out : out_inv (mkState h v out) -> out_inv (mkState h' v out).
Proof. by intros [? ? ?]. Qed.

Lemma out_inv_skip h v out p :
  0 <= p -> v + p < 2 ^ w -> out_inv (mkState h v out) -> out_inv (mkState h (v + p) out).
Proof.
  intros Hp Hlt [Hs Hb Hv]. cbn in *. split; cbn; [done| |lia].
  eapply Forall_impl; [exact Hb|]. cbn. lia.
Qed.

Lemma apply_run_inv st p st' :
  0 <= p -> out_inv st -> apply_run true sz st p = Ok st' -> out_inv st'.
Proof.
  intros Hp Hi. destruct st as [h v out]. unfold apply_run. cbn.
  intros ([v' out'] & H & [= <-])%bind_ok. apply (out_inv_helper h).
  destruct (magnitude h); [by eapply push_run_inv|].
  apply bind_ok in H as (v1 & Ha & [= <- <-]). apply u_add_checked in Ha as [-> Hlt].
  by apply out_inv_skip.
Qed.

Lemma get_span_loop_nonneg n i s value shift v :
  0 <= value -> get_span_loop true sz n i s value shift = Ok v -> 0 <= v.
Proof.
  revert i value shift. induction n as [|n IH]; intros i value shift Hv H; [by simplify_eq/=|].
  cbn [get_span_loop] in H. apply bind_ok in H as (x & _ & H).
  apply bind_ok in H as (s1 & Hsh & H). apply bind_ok in H as (sh' & _ & H).
  eapply IH; [|exact H]. apply Z.lor_nonneg. split; [done|].
  unfold u_shl in Hsh. assert (0 < 2 ^ w) by (apply Z.pow_pos_nonneg; unfold width; lia).
  destruct (_ <? _); simplify_eq. by apply Z.mod_pos_bound.
Qed.

Lemma get_span_nonneg h n v h' : get_span true sz h n = Ok (v, h') -> 0 <= v.
Proof.
  unfold get_span. destruct (decide _); [done|]. intros (x & H & [= <- _])%bind_ok.
  by eapply get_span_loop_nonneg; [|exact H].
Qed.

Lemma unpack_loop_nonneg data m shift value v :
  0 <= value -> unpack_loop true sz data m shift value = Ok v -> 0 <= v.
Proof.
  assert (Hc : forall a, 0 <= cast_from sz a).
  { intros a. apply Z.mod_pos_bound, Z.pow_pos_nonneg; unfold width; lia. }
  revert shift value. induction data as [|b data IH]; intros shift value Hv H; [by simplify_eq/=|].
  cbn [unpack_loop] in H. destruct (_ <? _); [done|]. destruct (_ <? _).
  - apply bind_ok in H as (s & _ & [= <-]). apply Z.lor_nonneg. by split.
  - apply bind_ok in H as (s & _ & H). eapply IH; [|exact H]. apply Z.lor_nonneg. by split.
Qed.

Lemma block_body_inv st st' : out_inv st -> block_body true sz st = Ok st' -> out_inv st'.
Proof.
  destruct st as [h v out]. intros Hi. unfold block_body. cbn.
  intros ([header h1] & Hg & H)%bind_ok.
  destruct (header =? 1).
  { unfold decode_single_block in H. cbn in H. apply bind_ok in H as (v1 & Ha & [= <-]).
    apply u_add_checked in Ha as [-> Hlt].
    destruct (magnitude h1).
    - eapply (push_run_inv 1 _ v out); [by eapply out_inv_helper|]. cbn.
      by rewrite u_add_ok by lia.
    - apply out_inv_skip; [lia|lia|]. by eapply out_inv_helper. }
  destruct (header =? 0); [|by simplify_eq; eapply out_inv_helper].
  apply bind_ok in H as ([bh h2] & Hg2 & H). destruct (bh =? 0).
  - unfold decode_long_block in H. cbn in H.
    apply bind_ok in H as ([bs h3] & _ & H). apply bind_ok in H as (len & Hu & H).
    eapply apply_run_inv; [|by eapply out_inv_helper|exact H].
    by eapply unpack_loop_nonneg; [|exact Hu].
  - unfold decode_small_block in H. cbn in H. apply bind_ok in H as ([len h3] & Hg3 & H).
    eapply apply_run_inv; [|by eapply out_inv_helper|exact H]. by eapply get_span_nonneg.
Qed.

Lemma decode_loop_inv fuel st st' :
  out_inv st -> decode_loop true sz fuel st = Ok st' -> out_inv st'.
Proof.
  revert st. induction fuel as [|fuel IH]; intros st Hi; [done|].
  rewrite decode_loop_body. intros (o & _ & H)%bind_ok. destruct o; [|by simplify_eq].
  apply bind_ok in H as (st1 & Hb & H). eapply IH; [|exact H]. by eapply block_body_inv.
Qed.

End Increasing.

(** ** The properties *)

(** C1: for every item type, in both build profiles, encoding a strictly
    increasing sequence of items below the type's maximum (what iterating a
    [BTreeSet] yields) and decoding the bytes gives the sequence back, provided
    it fits the object size limit; both functions return without panicking. *)
Theorem rle_roundtrip (ck : bool) (sz : Z) (input : list Z) :
  1 <= sz <= 8 -> Sorted Z.lt input ->
  Forall (fun x => 0 <= x /\ x + 1 < 2 ^ width sz) input ->
  Z.of_nat (length input) <= OBJECT_MAX_SIZE / sz ->
  exists v, @encode ck sz RleDecodeError input = Ok v /\ decode ck sz v = Ok input.
Proof.
  intros Hsz Hs Hb Hl. destruct (@decode_encode ck sz Hsz RleDecodeError input Hs Hb) as (v & He & _ & Hd).
  exists v. split; [done|]. rewrite Hd. by rewrite (proj2 (Z.ltb_ge _ _)) by done.
Qed.

Lemma rle_roundtrip_witness :
  exists v, @encode true 8 RleDecodeError [0; 100; 101; 102; 1000] = Ok v /\
            decode true 8 v = Ok [0; 100; 101; 102; 1000].
Proof.
  apply (rle_roundtrip true 8 [0; 100; 101; 102; 1000]).
  - lia.
  - repeat constructor.
  - repeat constructor; vm_compute; done.
  - vm_compute. discriminate.
Defined.

(** Decoding an oversized set fails: more than [OBJECT_MAX_SIZE /
    size_of::<Item>()] members encode without error but decode to
    [MaxSizeExceed]. *)
Theorem rle_oversized_rejected (ck : bool) (sz : Z) (input : list Z) :
  1 <= sz <= 8 -> Sorted Z.lt input ->
  Forall (fun x => 0 <= x /\ x + 1 < 2 ^ width sz) input ->
  OBJECT_MAX_SIZE / sz < Z.of_nat (length input) ->
  exists v, @encode ck sz RleDecodeError input = Ok v /\ decode ck sz v = Err MaxSizeExceed.
Proof.
  intros Hsz Hs Hb Hl. destruct (@decode_encode ck sz Hsz RleDecodeError input Hs Hb) as (v & He & _ & Hd).
  exists v. split; [done|]. rewrite Hd. by rewrite (proj2 (Z.ltb_lt _ _)) by done.
Qed.

Lemma Sorted_seqZ n v : Sorted Z.lt (seqZ v (Z.of_nat n)).
Proof.
  revert v. induction n as [|n IH]; intros v; [constructor|].
  rewrite seqZ_cons by lia. replace (Z.pred _) with (Z.of_nat n) by lia.
  constructor; [apply IH|]. destruct n as [|n]; [constructor|].
  rewrite seqZ_cons by lia. constructor. lia.
Qed.

Lemma rle_oversized_rejected_witness :
  exists v, @encode false 8 RleDecodeError (seqZ 0 131073) = Ok v /\
            decode false 8 v = Err MaxSizeExceed.
Proof.
  apply (rle_oversized_rejected false 8 (seqZ 0 131073)).
  - lia.
  - change 131073 with (Z.of_nat (Z.to_nat 131073)). apply Sorted_seqZ.
  - apply Forall_forall. intros x Hx%elem_of_seqZ. unfold width.
    change (2 ^ (8 * 8)) with 18446744073709551616. lia.
  - rewrite length_seqZ. vm_compute. reflexivity.
Defined.

(** C21: on arbitrary bytes the decoder terminates (its loops never exhaust
    their fuel), panics only in a build with overflow checks, and answers
    [VersionMismatch] exactly when the two version bits of the first byte have
    the value 1: the versions 2 and 3 are accepted like version 0. *)
Theorem rle_decode_total (ck : bool) (sz b : Z) (data : list Z) :
  1 <= sz <= 8 -> bytes_ok (b :: data) ->
  decode ck sz (b :: data) <> OutOfFuel /\
  (decode ck sz (b :: data) = Panic -> ck = true) /\
  (decode ck sz (b :: data) = Err VersionMismatch <-> b mod 4 = 1).
Proof.
  intros Hsz Hok. destruct (decode_outcome ck sz Hsz b data Hok) as [[Hm ->]|[Hm Hg]].
  - done.
  - destruct (decode ck sz (b :: data)) as [a|e| |]; cbn in Hg; repeat split; try done.
    intros [= ->]. done.
Qed.

Lemma rle_decode_total_witness :
  decode false 8 [2] <> OutOfFuel /\ (decode false 8 [2] = Panic -> false = true) /\
  (decode false 8 [2] = Err VersionMismatch <-> 2 mod 4 = 1).
Proof. apply (rle_decode_total false 8 2 []); [lia|]. repeat constructor; lia. Defined.

(** Whatever the bytes are, a decoding that succeeds in a checked build
    yields a strictly increasing sequence of values of the item type. *)
Theorem rle_decode_increasing (sz : Z) (data output : list Z) :
  1 <= sz <= 8 -> decode true sz data = Ok output ->
  Sorted Z.lt output /\ Forall (fun x => 0 <= x < 2 ^ width sz) output.
Proof.
  intros Hsz. unfold decode. intros ([two h] & _ & H)%bind_ok.
  destruct (_ || _); [done|]. apply bind_ok in H as ([one h1] & _ & H).
  apply bind_ok in H as (st & Hl & H). destruct (_ <? _); [done|]. simplify_eq.
  apply (decode_loop_inv sz Hsz) in Hl as [Hs Hb Hv].
  - split; [done|]. eapply Forall_impl; [exact Hb|]. cbn. lia.
  - split; cbn; [constructor..|]. split; [done|]. apply Z.pow_pos_nonneg; unfold width; lia.
Qed.

Lemma rle_decode_increasing_witness :
  Sorted Z.lt [0; 5; 10] /\ Forall (fun x => 0 <= x < 2 ^ width 8) [0; 5; 10].
Proof. apply (rle_decode_increasing 8 [44; 149; 2] [0; 5; 10]); [lia|vm_compute; reflexivity]. Defined.

(** The largest [u64] cannot be read back in a checked build: the set
    {2^64 - 1} encodes, and decoding its encoding panics on the increment past
    the last member; an unchecked build returns it. *)
Theorem rle_max_item_panics :
  exists v, @encode true 8 RleDecodeError [2 ^ 64 - 1] = Ok v /\
            decode true 8 v = Panic /\ decode false 8 v = Ok [2 ^ 64 - 1].
Proof.
  exists [224; 255; 255; 255; 255; 255; 255; 255; 255; 63; 32].
  repeat split; vm_compute; reflexivity.
Qed.
