(* ===== verification/Cbor.v ===== *)
(** * The CBOR layer the primitives are written against

    The crates [minicbor], [num-bigint] and [cid] are not part of the
    repository: what the code calls of them is an interface here, with the
    laws their documentation promises.  A [Decoder] is the list of the bytes
    still to be read; an [Encoder] over a [Vec<u8>] is the bytes it appends
    (such a writer cannot fail).  The file CborRef.v has an implementation of
    the interfaces, written from the formats, that satisfies the laws. *)

From Stdlib Require Import ZArith Lia String.
From stdpp Require Import base numbers list.
From S2P Require Import Prelude.

Local Open Scope Z_scope.

(** [minicbor::decode::Error]: the two constructors the source builds, and the
    errors the crate raises itself. *)
Inductive decode_error :=
| Message (m : string)
| TypeMismatch (ty : Z) (m : string)
| Native (code : nat).

Definition decoder (A : Type) : Type := list Z -> outcome decode_error (A * list Z).

Definition dret {A} (a : A) : decoder A := fun bs => Ok (a, bs).
Definition dfail {A} (e : decode_error) : decoder A := fun _ => Err e.
Definition dpanic {A} : decoder A := fun _ => Panic.
Definition dbind {A B} (d : decoder A) (k : A -> decoder B) : decoder B :=
  fun bs => '(a, bs') <- d bs ;; k a bs'.

Notation "x <~ d ;; k" := (dbind d (fun x => k))
  (at level 20, d at level 99, k at level 200) : plum_scope.

(** [d] reads exactly the bytes [bs], whatever follows them, and yields [a]. *)
Definition reads {A} (d : decoder A) (bs : list Z) (a : A) : Prop :=
  forall rest, d (bs ++ rest) = Ok (a, rest).

Lemma reads_bind {A B} (d : decoder A) (k : A -> decoder B) bs bs' a b :
  reads d bs a -> reads (k a) bs' b -> reads (dbind d k) (bs ++ bs') b.
Proof. intros Hd Hk rest. unfold dbind. rewrite <- app_assoc, Hd. apply Hk. Qed.

Lemma reads_last {A B} (d : decoder A) (f : A -> B) bs a :
  reads d bs a -> reads (dbind d (fun x => dret (f x))) bs (f a).
Proof. intros Hd rest. unfold dbind. by rewrite Hd. Qed.

Lemma reads_inj {A} (d : decoder A) bs a b : reads d bs a -> reads d bs b -> a = b.
Proof. intros Ha Hb. specialize (Ha []). rewrite (Hb []) in Ha. congruence. Qed.

(** ** Machine values that occur in messages *)
Definition u64 (x : Z) : Prop := 0 <= x < 2 ^ 64.
Definition i64 (x : Z) : Prop := - 2 ^ 63 <= x < 2 ^ 63.
Definition len_u64 {A} (l : list A) : Prop := Z.of_nat (length l) < 2 ^ 64.
Definition vec_u8 (bs : list Z) : Prop := bytes_ok bs /\ len_u64 bs.

Lemma vec_u8_nil : vec_u8 [].
Proof. split; [apply Forall_nil_2|]. unfold len_u64. cbn. lia. Qed.

(** ** minicbor *)
Class Minicbor := {
  e_array : Z -> list Z;
  e_u8 : Z -> list Z;
  e_u64 : Z -> list Z;
  e_i64 : Z -> list Z;
  e_bytes : list Z -> list Z;
  e_str : list Z -> list Z;
  e_vec : forall {A}, (A -> list Z) -> list A -> list Z;
  d_array : decoder (option Z);  (* the length, [None] for an indefinite array *)
  d_u8 : decoder Z;
  d_u64 : decoder Z;
  d_i64 : decoder Z;
  d_bytes : decoder (list Z);
  d_str : decoder (list Z);
  d_vec : forall {A}, decoder A -> decoder (list A);
}.

(** What minicbor documents: a data item that was written is read back, and
    nothing after it is touched.  [Vec<T>] goes through the codec of [T]. *)
Class MinicborLaws (M : Minicbor) : Prop := {
  reads_array n : u64 n -> reads d_array (e_array n) (Some n);
  reads_u8 n : u8 n -> reads d_u8 (e_u8 n) n;
  reads_u64 n : u64 n -> reads d_u64 (e_u64 n) n;
  reads_i64 n : i64 n -> reads d_i64 (e_i64 n) n;
  reads_bytes bs : vec_u8 bs -> reads d_bytes (e_bytes bs) bs;
  reads_str bs : vec_u8 bs -> reads d_str (e_str bs) bs;
  reads_vec {A} (e : A -> list Z) (d : decoder A) l :
    len_u64 l -> Forall (fun a => reads d (e a) a) l -> reads (d_vec d) (e_vec e l) l;
}.

(** ** num-bigint *)
Inductive Sign := Minus | NoSign | Plus.

Definition sign_of (z : Z) : Sign :=
  match z with Z0 => NoSign | Zpos _ => Plus | Zneg _ => Minus end.

Class NumBigint := {
  bigint_to_bytes_be : Z -> Sign * list Z;
  bigint_from_bytes_be : Sign -> list Z -> Z;
  biguint_to_bytes_be : Z -> list Z;
  biguint_from_bytes_be : list Z -> Z;
}.

Class NumBigintLaws (N : NumBigint) : Prop := {
  bigint_sign z : fst (bigint_to_bytes_be z) = sign_of z;
  bigint_magnitude z : snd (bigint_to_bytes_be z) = biguint_to_bytes_be (Z.abs z);
  bigint_from_to z s bs : bigint_to_bytes_be z = (s, bs) -> bigint_from_bytes_be s bs = z;
  biguint_bytes_ok n : 0 <= n -> bytes_ok (biguint_to_bytes_be n);
  biguint_zero n : 0 <= n -> biguint_to_bytes_be n = [0] <-> n = 0;
  biguint_from_nil : biguint_from_bytes_be [] = 0;
  biguint_leading_zero bs : biguint_from_bytes_be (0 :: bs) = biguint_from_bytes_be bs;
  biguint_from_to n : 0 <= n -> biguint_from_bytes_be (biguint_to_bytes_be n) = n;
}.

(** ** cid and multihash *)
Class CidLib := {
  Cid : Type;
  Cid_eq_dec :: EqDecision Cid;
  Cid_cmp : Cid -> Cid -> comparison;
  e_cid : Cid -> list Z;
  d_cid : decoder Cid;
  (** [Cid::new_v1(Codec::DagCBOR, Blake2b256::digest(data).into_ext())] *)
  dag_cbor_cid : list Z -> Cid;
}.

Class CidLaws (C : CidLib) : Prop := {
  reads_cid c : reads d_cid (e_cid c) c;
  Cid_cmp_eq a b : Cid_cmp a b = Eq <-> a = b;
  Cid_cmp_antisym a b : Cid_cmp b a = CompOpp (Cid_cmp a b);
  Cid_cmp_trans a b c : Cid_cmp a b = Lt -> Cid_cmp b c = Lt -> Cid_cmp a c = Lt;
}.

(** ** The shape shared by the struct codecs of the repository

    [let array_len = d.array()?; assert_eq!(array_len, Some(n));] *)
Definition array_of `{Minicbor} {A} (n : Z) (k : decoder A) : decoder A :=
  array_len <~ d_array ;;
  if decide (array_len = Some n) then k else dpanic.

Lemma reads_array_of `{MinicborLaws} {A} n (k : decoder A) bs a :
  u64 n -> reads k bs a -> reads (array_of n k) (e_array n ++ bs) a.
Proof.
  intros Hn Hk. eapply reads_bind; [by apply reads_array|]. by rewrite decide_True.
Qed.

Lemma array_of_wrong_length `{MinicborLaws} {A} n m (k : decoder A) rest :
  u64 m -> m <> n -> array_of n k (e_array m ++ rest) = Panic.
Proof.
  intros Hm Hne. unfold array_of, dbind. rewrite reads_array by done. cbn [bind].
  rewrite decide_False; [done|congruence].
Qed.

Lemma reads_vec_of `{MinicborLaws} {A} (P : A -> Prop) (e : A -> list Z) (d : decoder A) l :
  (forall a, P a -> reads d (e a) a) -> len_u64 l -> Forall P l -> reads (d_vec d) (e_vec e l) l.
Proof. intros Hd Hl HP. apply reads_vec; [done|]. eapply Forall_impl; [exact HP|apply Hd]. Qed.

(** The proof search of the codec lemmas. *)
Create HintDb cbor.
#[export] Hint Resolve reads_u8 reads_u64 reads_i64 reads_bytes reads_str reads_cid : cbor.
#[export] Hint Extern 1 (u64 _) => (unfold u64; lia) : cbor.

#[export] Hint Extern 2 (reads (d_vec _) _ _) =>
  (eapply reads_vec_of; [solve [eauto 3 with cbor]|eassumption|eassumption]) : cbor.

Ltac read_fields :=
  repeat (eapply reads_bind; [by eauto 3 with cbor|]);
  eapply reads_last; by eauto 3 with cbor.

Ltac read_struct := eapply reads_array_of; [unfold u64; lia|read_fields].
