(* ===== verification/CborRef.v ===== *)
(** * An implementation of the CBOR, big integer and CID interfaces

    Written from RFC 7049 and the byte orders the crates document; it shows
    that the laws of Cbor.v can hold and lets the codecs be evaluated on the
    byte strings of the repository's tests. *)

From Stdlib Require Import ZArith Lia String.
From stdpp Require Import base numbers list.
From S2P Require Import Prelude Cbor.

Local Open Scope Z_scope.

(** ** Big-endian integers *)
Fixpoint be_split (n : nat) (z : Z) : list Z :=
  match n with
  | O => []
  | S n' => be_split n' (z / 256) ++ [z mod 256]
  end.

Definition be_combine (bs : list Z) : Z := fold_left (fun acc b => acc * 256 + b) bs 0.

Lemma be_combine_snoc bs b : be_combine (bs ++ [b]) = be_combine bs * 256 + b.
Proof. unfold be_combine. by rewrite fold_left_app. Qed.

Lemma length_be_split n z : length (be_split n z) = n.
Proof. revert z. induction n; intros z; cbn; [done|]. rewrite length_app, IHn. cbn. lia. Qed.

Lemma be_split_ok n z : bytes_ok (be_split n z).
Proof.
  revert z. induction n as [|n IH]; intros z; [constructor|]. cbn. apply bytes_ok_app.
  split; [apply IH|]. apply Forall_singleton. apply Z.mod_pos_bound. lia.
Qed.

Lemma be_combine_split n z : 0 <= z < 256 ^ Z.of_nat n -> be_combine (be_split n z) = z.
Proof.
  revert z. induction n as [|n IH]; intros z Hz.
  - cbn in Hz |- *. lia.
  - rewrite Nat2Z.inj_succ, Z.pow_succ_r in Hz by lia. cbn [be_split].
    rewrite be_combine_snoc, IH.
    + pose proof (Z.div_mod z 256). lia.
    + split; [apply Z.div_pos; lia|]. apply Z.div_lt_upper_bound; lia.
Qed.

(** ** Heads of data items *)
Definition head (major n : Z) : list Z :=
  if n <? 24 then [major * 32 + n]
  else if n <? 256 then (major * 32 + 24) :: be_split 1 n
  else if n <? 65536 then (major * 32 + 25) :: be_split 2 n
  else if n <? 4294967296 then (major * 32 + 26) :: be_split 4 n
  else (major * 32 + 27) :: be_split 8 n.

Definition take_bytes (n : nat) : decoder (list Z) := fun bs =>
  if decide (n <= length bs)%nat then Ok (take n bs, drop n bs) else Err (Native 0).

Definition read_head : decoder (Z * option Z) := fun bs =>
  match bs with
  | [] => Err (Native 0)
  | b :: rest =>
      let major := b / 32 in
      let info := b mod 32 in
      let arg n := (bytes <~ take_bytes n ;; dret (major, Some (be_combine bytes))) rest in
      if info <? 24 then Ok ((major, Some info), rest)
      else if info =? 24 then arg 1%nat
      else if info =? 25 then arg 2%nat
      else if info =? 26 then arg 4%nat
      else if info =? 27 then arg 8%nat
      else if info =? 31 then Ok ((major, None), rest)
      else Err (Native 1)
  end.

Lemma reads_take bs n : length bs = n -> reads (take_bytes n) bs bs.
Proof.
  intros <- rest. unfold take_bytes. rewrite decide_True by (rewrite length_app; lia).
  by rewrite take_app_length, drop_app_length.
Qed.

Lemma head_info major i : 0 <= i < 32 -> (major * 32 + i) / 32 = major /\ (major * 32 + i) mod 32 = i.
Proof.
  intros Hi. split.
  - rewrite Z.div_add_l by lia. rewrite Z.div_small by lia. lia.
  - rewrite Z.add_comm, Z.mod_add by lia. by apply Z.mod_small.
Qed.

Lemma reads_head major n : u64 n -> reads read_head (head major n) (major, Some n).
Proof.
  intros Hn rest. unfold u64 in Hn. change (2 ^ 64) with 18446744073709551616 in Hn.
  assert (Harg : forall k, 0 <= n < 256 ^ Z.of_nat k ->
    (bytes <~ take_bytes k ;; dret (major, Some (be_combine bytes))) (be_split k n ++ rest)
    = Ok ((major, Some n), rest)).
  { intros k Hk. rewrite (reads_last _ (fun bytes => (major, Some (be_combine bytes)))
      (be_split k n) (be_split k n)) by (apply reads_take, length_be_split).
    by rewrite be_combine_split. }
  unfold head. destruct (Z.ltb_spec n 24).
  { cbn [app read_head]. destruct (head_info major n) as [-> ->]; [lia|].
    by rewrite (proj2 (Z.ltb_lt _ _)) by lia. }
  repeat match goal with |- context [if ?c then _ else _] => destruct c eqn:? end;
    cbn [app read_head];
    match goal with |- context [major * 32 + ?i] => destruct (head_info major i) as [-> ->]; [lia|] end;
    cbn -[take_bytes be_combine be_split]; apply Harg; cbn; lia.
Qed.

(** ** The instance *)
Definition uint_below (bound : Z) : decoder Z :=
  h <~ read_head ;;
  match h with
  | (0, Some n) => if n <? bound then dret n else dfail (Native 2)
  | _ => dfail (Native 2)
  end.

Definition dec_i64 : decoder Z :=
  h <~ read_head ;;
  match h with
  | (0, Some n) => if n <? 2 ^ 63 then dret n else dfail (Native 2)
  | (1, Some n) => if n <? 2 ^ 63 then dret (-1 - n) else dfail (Native 2)
  | _ => dfail (Native 2)
  end.

Definition string_of (major : Z) : decoder (list Z) :=
  h <~ read_head ;;
  match h with
  | (m, Some n) => if m =? major then take_bytes (Z.to_nat n) else dfail (Native 2)
  | _ => dfail (Native 2)
  end.

Definition dec_array : decoder (option Z) :=
  h <~ read_head ;;
  match h with
  | (4, o) => dret o
  | _ => dfail (Native 2)
  end.

Fixpoint repeat_dec {A} (d : decoder A) (n : nat) : decoder (list A) :=
  match n with
  | O => dret []
  | S n' => a <~ d ;; l <~ repeat_dec d n' ;; dret (a :: l)
  end.

Definition dec_vec {A} (d : decoder A) : decoder (list A) :=
  o <~ dec_array ;;
  match o with
  | Some n => repeat_dec d (Z.to_nat n)
  | None => dfail (Native 3)
  end.

#[export] Instance minicbor_ref : Minicbor := {|
  e_array n := head 4 n;
  e_u8 n := head 0 n;
  e_u64 n := head 0 n;
  e_i64 n := if 0 <=? n then head 0 n else head 1 (-1 - n);
  e_bytes bs := head 2 (Z.of_nat (length bs)) ++ bs;
  e_str bs := head 3 (Z.of_nat (length bs)) ++ bs;
  e_vec A e l := head 4 (Z.of_nat (length l)) ++ concat (map e l);
  d_array := dec_array;
  d_u8 := uint_below 256;
  d_u64 := uint_below (2 ^ 64);
  d_i64 := dec_i64;
  d_bytes := string_of 2;
  d_str := string_of 3;
  d_vec A d := dec_vec d;
|}.

Lemma reads_uint bound n : 0 <= n < bound -> bound <= 2 ^ 64 -> reads (uint_below bound) (head 0 n) n.
Proof.
  intros Hn Hb rest. unfold uint_below, dbind. rewrite reads_head by (unfold u64; lia). cbn [bind].
  by rewrite (proj2 (Z.ltb_lt _ _)) by lia.
Qed.

Lemma reads_string_of major bs :
  vec_u8 bs -> reads (string_of major) (head major (Z.of_nat (length bs)) ++ bs) bs.
Proof.
  intros [_ Hl] rest. unfold string_of, dbind. rewrite <- app_assoc.
  rewrite reads_head by (unfold u64; unfold len_u64 in Hl; lia). cbn [bind].
  rewrite Z.eqb_refl, Nat2Z.id. by apply reads_take.
Qed.

Lemma reads_repeat {A} (e : A -> list Z) (d : decoder A) l :
  Forall (fun a => reads d (e a) a) l -> reads (repeat_dec d (length l)) (concat (map e l)) l.
Proof.
  induction 1 as [|a l Ha _ IH]; intros rest; [done|]. cbn. unfold dbind.
  rewrite <- app_assoc, Ha. cbn [bind]. by rewrite IH.
Qed.

Lemma reads_dec_array n : u64 n -> reads dec_array (head 4 n) (Some n).
Proof. intros Hn rest. unfold dec_array, dbind. by rewrite reads_head. Qed.

#[export] Instance minicbor_ref_laws : MinicborLaws minicbor_ref.
Proof.
  split; cbn [e_array e_u8 e_u64 e_i64 e_bytes e_str e_vec d_array d_u8 d_u64 d_i64 d_bytes d_str
              d_vec minicbor_ref].
  - apply reads_dec_array.
  - intros n Hn. apply reads_uint; [done|]. lia.
  - intros n Hn. by apply reads_uint.
  - intros n Hn rest. unfold dec_i64, dbind. unfold i64 in Hn.
    destruct (Z.leb_spec 0 n); rewrite reads_head by (unfold u64; lia); cbn [bind];
      rewrite (proj2 (Z.ltb_lt _ _)) by lia; [done|]. unfold dret. do 2 f_equal. lia.
  - apply reads_string_of.
  - apply reads_string_of.
  - intros A e d l Hl Hf. unfold dec_vec. eapply reads_bind.
    + apply reads_dec_array. unfold u64, len_u64 in *. lia.
    + cbn. rewrite Nat2Z.id. by apply reads_repeat.
Qed.

(** ** Big integers: sign and minimal big-endian magnitude *)
Definition num_bytes (n : Z) : nat := Z.to_nat (Z.log2 n / 8 + 1).
Definition magnitude_be (n : Z) : list Z := be_split (num_bytes n) n.

Lemma num_bytes_bound n : 0 <= n -> n < 256 ^ Z.of_nat (num_bytes n).
Proof.
  intros Hn. unfold num_bytes. assert (0 <= Z.log2 n) by apply Z.log2_nonneg.
  assert (0 <= Z.log2 n / 8) by (apply Z.div_pos; lia).
  rewrite Z2Nat.id by lia. change 256 with (2 ^ 8). rewrite <- Z.pow_mul_r by lia.
  destruct (decide (n = 0)) as [->|]; [apply Z.pow_pos_nonneg; lia|].
  eapply Z.lt_le_trans; [apply Z.log2_spec; lia|]. apply Z.pow_le_mono_r; [lia|].
  pose proof (Z.div_mod (Z.log2 n) 8). pose proof (Z.mod_pos_bound (Z.log2 n) 8). lia.
Qed.

Lemma be_combine_magnitude n : 0 <= n -> be_combine (magnitude_be n) = n.
Proof. intros Hn. apply be_combine_split. split; [done|by apply num_bytes_bound]. Qed.

#[export] Instance num_bigint_ref : NumBigint := {|
  bigint_to_bytes_be z := (sign_of z, magnitude_be (Z.abs z));
  bigint_from_bytes_be s bs :=
    match s with Plus => be_combine bs | Minus => - be_combine bs | NoSign => 0 end;
  biguint_to_bytes_be n := magnitude_be n;
  biguint_from_bytes_be bs := be_combine bs;
|}.

#[export] Instance num_bigint_ref_laws : NumBigintLaws num_bigint_ref.
Proof.
  split; cbn [bigint_to_bytes_be bigint_from_bytes_be biguint_to_bytes_be biguint_from_bytes_be
              num_bigint_ref fst snd]; try done.
  - intros z s bs [= <- <-]. rewrite be_combine_magnitude by lia. destruct z; cbn; lia.
  - intros n _. apply be_split_ok.
  - intros n Hn. split; [|by intros ->]. intros H.
    apply (f_equal be_combine) in H. by rewrite be_combine_magnitude in H.
  - apply be_combine_magnitude.
Qed.

(** ** CIDs: version 1, dag-cbor, a 32-byte sha2-256 multihash under tag 42 *)
Record cid_ref := mkCid {
  cid_hash : Z;
  cid_hash_ok : (0 <=? cid_hash) && (cid_hash <? 2 ^ 256) = true;
}.

Lemma cid_ref_eq a b : cid_hash a = cid_hash b -> a = b.
Proof.
  destruct a as [x Hx], b as [y Hy]. cbn. intros ->. f_equal. apply (Eqdep_dec.UIP_dec bool_dec).
Qed.

#[export] Instance cid_ref_dec : EqDecision cid_ref.
Proof.
  intros a b. destruct (decide (cid_hash a = cid_hash b)) as [H|H].
  - left. by apply cid_ref_eq.
  - right. congruence.
Defined.

Definition make_cid (h : Z) : option cid_ref :=
  match bool_dec ((0 <=? h) && (h <? 2 ^ 256)) true with
  | left H => Some (mkCid h H)
  | right _ => None
  end.

Definition cid_prefix : list Z := [216; 42; 88; 37; 0; 1; 113; 18; 32].

Definition dec_cid : decoder cid_ref :=
  p <~ take_bytes 9 ;;
  if decide (p = cid_prefix) then
    h <~ take_bytes 32 ;;
    match make_cid (be_combine h) with Some c => dret c | None => dfail (Native 4) end
  else dfail (Native 4).

Lemma make_cid_hash c : make_cid (cid_hash c) = Some c.
Proof.
  unfold make_cid. destruct (bool_dec _ _) as [H|H].
  - f_equal. by apply cid_ref_eq.
  - destruct c. done.
Qed.

#[export] Instance cid_lib_ref : CidLib := {|
  Cid := cid_ref;
  Cid_cmp a b := Z.compare (cid_hash a) (cid_hash b);
  e_cid c := cid_prefix ++ be_split 32 (cid_hash c);
  d_cid := dec_cid;
  dag_cbor_cid bs := mkCid (be_combine bs mod 2 ^ 256)
    ltac:(apply andb_true_intro; split; [apply Z.leb_le|apply Z.ltb_lt];
          apply (Z.mod_pos_bound (be_combine bs) (2 ^ 256)); reflexivity);
|}.

#[export] Instance cid_ref_laws : CidLaws cid_lib_ref.
Proof.
  split.
  - intros c. eapply reads_bind; [by apply reads_take|]. rewrite decide_True by done.
    intros rest. unfold dbind. rewrite reads_take by (apply length_be_split).
    cbn [bind]. rewrite be_combine_split; [by rewrite make_cid_hash|].
    pose proof (cid_hash_ok c) as H. apply andb_true_iff in H as [H1%Z.leb_le H2%Z.ltb_lt].
    split; [done|]. change (256 ^ Z.of_nat 32) with (2 ^ 256). done.
  - intros a b. cbn. rewrite Z.compare_eq_iff. split; [apply cid_ref_eq|by intros ->].
  - intros a b. apply Z.compare_antisym.
  - intros a b c. cbn. rewrite !Z.compare_lt_iff. lia.
Qed.
