(* ===== verification/Decimal.v ===== *)
(** * Decimal text of unsigned integers

    The standard library's [Display] and [FromStr] for [u64], used by the
    address and key formats. *)

From Stdlib Require Import ZArith Lia.
From stdpp Require Import base numbers list.
From S2P Require Import Prelude.

Local Open Scope Z_scope.

Fixpoint digits_fuel (fuel : nat) (n : Z) (acc : list Z) : list Z :=
  match fuel with
  | O => acc
  | S fuel' =>
      if n <? 10 then (48 + n) :: acc
      else digits_fuel fuel' (n / 10) ((48 + n mod 10) :: acc)
  end.

(** [format!("{}", n)]; every division by ten loses at least one bit. *)
Definition to_decimal (n : Z) : list Z := digits_fuel (S (Z.to_nat (Z.log2 n))) n [].

Fixpoint parse_loop (acc : Z) (s : list Z) : option Z :=
  match s with
  | [] => Some acc
  | c :: s' =>
      if (48 <=? c) && (c <=? 57) then
        let acc' := acc * 10 + (c - 48) in
        if acc' <? 2 ^ 64 then parse_loop acc' s' else None
      else None
  end.

(** [s.parse::<u64>()]: an empty string is an error, one leading ['+'] is
    skipped when something follows it. *)
Definition parse_u64 (s : list Z) : option Z :=
  match s with
  | [] => None
  | [43] => None
  | 43 :: s' => parse_loop 0 s'
  | _ => parse_loop 0 s
  end.

Definition digit (c : Z) : Prop := 48 <= c <= 57.

(** The fuel left after a division by ten. *)
Lemma fuel_div10 fuel n :
  10 <= n -> (Z.to_nat (Z.log2 n) < S fuel)%nat -> (Z.to_nat (Z.log2 (n / 10)) < fuel)%nat.
Proof.
  intros Hn Hf. assert (0 < n / 10) by (apply Z.div_str_pos; lia).
  assert (2 * (n / 10) <= n) by (pose proof (Z.mul_div_le n 10 ltac:(lia)); lia).
  assert (Hm := Z.log2_le_mono (2 * (n / 10)) n ltac:(lia)). rewrite Z.log2_double in Hm by lia.
  assert (0 <= Z.log2 (n / 10)) by apply Z.log2_nonneg. lia.
Qed.

Lemma parse_digits_fuel fuel n acc :
  0 <= n < 2 ^ 64 -> (Z.to_nat (Z.log2 n) < fuel)%nat ->
  parse_loop 0 (digits_fuel fuel n acc) = parse_loop n acc.
Proof.
  revert n acc. induction fuel as [|fuel IH]; intros n acc Hn Hf; [lia|].
  cbn [digits_fuel]. destruct (Z.ltb_spec n 10).
  - cbn [parse_loop]. rewrite (proj2 (Z.leb_le _ _)), (proj2 (Z.leb_le _ _)) by lia. cbn [andb].
    replace (0 * 10 + (48 + n - 48)) with n by lia. by rewrite (proj2 (Z.ltb_lt _ _)) by lia.
  - assert (0 <= n / 10 < n) by (split; [apply Z.div_pos|apply Z.div_lt]; lia).
    assert (Hlog := fuel_div10 fuel n H Hf).
    rewrite IH by lia. cbn [parse_loop].
    assert (0 <= n mod 10 < 10) by (apply Z.mod_pos_bound; lia).
    rewrite (proj2 (Z.leb_le _ _)), (proj2 (Z.leb_le _ _)) by lia. cbn [andb].
    replace (n / 10 * 10 + (48 + n mod 10 - 48)) with n by (pose proof (Z.div_mod n 10); lia).
    by rewrite (proj2 (Z.ltb_lt _ _)) by lia.
Qed.

Lemma digits_fuel_ok fuel n acc :
  0 <= n -> Forall digit acc -> Forall digit (digits_fuel fuel n acc).
Proof.
  revert n acc. induction fuel as [|fuel IH]; intros n acc Hn Ha; [done|]. cbn [digits_fuel].
  destruct (Z.ltb_spec n 10).
  - constructor; [unfold digit; lia|done].
  - apply IH; [apply Z.div_pos; lia|]. constructor; [|done].
    assert (0 <= n mod 10 < 10) by (apply Z.mod_pos_bound; lia). unfold digit. lia.
Qed.

Lemma length_digits_fuel fuel n acc k :
  0 <= n < 10 ^ Z.of_nat (S k) ->
  (length (digits_fuel fuel n acc) <= S k + length acc)%nat.
Proof.
  revert n acc k. induction fuel as [|fuel IH]; intros n acc k Hn; [cbn; lia|].
  cbn [digits_fuel]. destruct (Z.ltb_spec n 10); [cbn; lia|].
  destruct k as [|k]; [cbn in Hn; lia|].
  specialize (IH (n / 10) ((48 + n mod 10) :: acc) k). cbn [length] in IH.
  enough (0 <= n / 10 < 10 ^ Z.of_nat (S k)) by (apply IH in H0; lia).
  split; [apply Z.div_pos; lia|]. apply Z.div_lt_upper_bound; [lia|].
  rewrite <- Z.pow_succ_r by lia. rewrite <- Nat2Z.inj_succ. by destruct Hn.
Qed.

Lemma digits_fuel_nonempty fuel n acc : digits_fuel (S fuel) n acc <> [].
Proof.
  revert n acc. induction fuel as [|fuel IH]; intros n acc.
  - cbn. by destruct (n <? 10).
  - change (digits_fuel (S (S fuel)) n acc) with
      (if n <? 10 then (48 + n) :: acc
       else digits_fuel (S fuel) (n / 10) ((48 + n mod 10) :: acc)).
    destruct (n <? 10); [done|apply IH].
Qed.

(** The text of a [u64]: one to twenty digits. *)
Lemma to_decimal_ok n :
  0 <= n < 2 ^ 64 ->
  Forall digit (to_decimal n) /\ (1 <= length (to_decimal n) <= 20)%nat.
Proof.
  intros Hn. split; [apply digits_fuel_ok; [lia|constructor]|]. split.
  - pose proof (digits_fuel_nonempty (Z.to_nat (Z.log2 n)) n []) as H.
    unfold to_decimal. destruct (digits_fuel _ _ _); [done|cbn; lia].
  - pose proof (length_digits_fuel (S (Z.to_nat (Z.log2 n))) n [] 19) as H. cbn [length] in H.
    unfold to_decimal. enough (0 <= n < 10 ^ Z.of_nat 20) by (apply H in H0; lia).
    change (10 ^ Z.of_nat 20) with 100000000000000000000.
    change (2 ^ 64) with 18446744073709551616 in Hn. lia.
Qed.

Lemma parse_to_decimal n : 0 <= n < 2 ^ 64 -> parse_u64 (to_decimal n) = Some n.
Proof.
  intros Hn. destruct (to_decimal_ok n Hn) as [Hd Hl].
  assert (Hp : parse_loop 0 (to_decimal n) = Some n).
  { unfold to_decimal. by rewrite parse_digits_fuel by lia. }
  destruct (to_decimal n) as [|c s]; [cbn in Hl; lia|].
  apply Forall_inv in Hd. unfold digit in Hd.
  assert (Hc : exists c', c = 48 + c' /\ 0 <= c' <= 9) by (exists (c - 48); lia).
  destruct Hc as (c' & -> & Hc').
  assert (c' = 0 \/ c' = 1 \/ c' = 2 \/ c' = 3 \/ c' = 4 \/ c' = 5 \/ c' = 6 \/ c' = 7 \/ c' = 8 \/ c' = 9)
    as Hcases by lia.
  destruct Hcases as [->|[->|[->|[->|[->|[->|[->|[->|[->| ->]]]]]]]]]; exact Hp.
Qed.

Lemma parse_u64_range s n : parse_u64 s = Some n -> 0 <= n < 2 ^ 64.
Proof.
  assert (Hl : forall s a, 0 <= a < 2 ^ 64 -> parse_loop a s = Some n -> 0 <= n < 2 ^ 64).
  { intros s'. induction s' as [|c s' IH]; intros a Ha; cbn; [by intros [= <-]|].
    destruct ((48 <=? c) && (c <=? 57)) eqn:Hc; [|done].
    apply andb_true_iff in Hc as [H1%Z.leb_le H2%Z.leb_le].
    destruct (Z.ltb_spec (a * 10 + (c - 48)) (2 ^ 64)); [|done]. apply IH. lia. }
  unfold parse_u64. intros H.
  repeat match type of H with (match ?x with _ => _ end) = _ => destruct x; try done end;
    eapply Hl; try exact H; lia.
Qed.
