(* ===== verification/F64.v ===== *)
(** * [f64], as the code computes with it

    The binary64 numbers of IEEE 754 in the executable form of the Standard
    Library's [SpecFloat] (53 bits of precision, exponents below 1024,
    rounding to nearest even). *)

From Stdlib Require Import ZArith Lia SpecFloat.
From stdpp Require Import base numbers.
From S2P Require Import Prelude.

Local Open Scope Z_scope.

Abbreviation f64 := spec_float.

Definition f64_zero : f64 := S754_zero false.

(** [x as f64] for an integer [x]. *)
Definition f64_of_int (x : Z) : f64 := binary_normalize 53 1024 x 0 false.

Definition f64_add (x y : f64) : f64 := SFadd 53 1024 x y.
Definition f64_div (x y : f64) : f64 := SFdiv 53 1024 x y.

(** [x == y]: a NaN is equal to nothing, the two zeros are equal. *)
Definition f64_eqb (x y : f64) : bool := SFeqb x y.

(** [Duration::as_secs_f64] of a duration in nanoseconds. *)
Definition as_secs_f64 (nanos : Z) : f64 :=
  f64_add (f64_of_int (nanos / 10 ^ 9)) (f64_div (f64_of_int (nanos mod 10 ^ 9)) (f64_of_int (10 ^ 9))).

(** [m * 10^-k], correctly rounded, as the standard library parses a decimal
    literal. *)
Definition f64_of_decimal (m : Z) (k : nat) : f64 :=
  match m with
  | Zpos p =>
      let '(q, e, l) := SFdiv_core_binary 53 1024 (Zpos p) 0 (10 ^ Z.of_nat k) 0 in
      binary_round_aux 53 1024 false q e l
  | _ => f64_zero
  end.

#[export] Instance spec_float_eq_dec : EqDecision spec_float.
Proof. solve_decision. Defined.

Example f64_half : f64_div (f64_of_int 1) (f64_of_int 2) = f64_of_decimal 5 1.
Proof. vm_compute. reflexivity. Qed.
Example f64_third : f64_div (f64_of_int 1) (f64_of_int 3) = S754_finite false 6004799503160661 (-54).
Proof. vm_compute. reflexivity. Qed.
Example f64_tenth : f64_of_decimal 1 1 = S754_finite false 7205759403792794 (-56).
Proof. vm_compute. reflexivity. Qed.

(** ** [f64::to_bits] and [f64::from_bits] *)
Definition to_bits (x : f64) : Z :=
  let sign (s : bool) := if s then 2 ^ 63 else 0 in
  match x with
  | S754_zero s => sign s
  | S754_infinity s => sign s + 2047 * 2 ^ 52
  | S754_nan => 2047 * 2 ^ 52 + 2 ^ 51
  | S754_finite s m e =>
      if Zpos m <? 2 ^ 52 then sign s + Zpos m else sign s + (e + 1075) * 2 ^ 52 + (Zpos m - 2 ^ 52)
  end.

Definition from_bits (b : Z) : f64 :=
  let s := 2 ^ 63 <=? b in
  let r := if s then b - 2 ^ 63 else b in
  let e := r / 2 ^ 52 in
  let m := r mod 2 ^ 52 in
  if e =? 0 then match m with Zpos p => S754_finite s p (-1074) | _ => S754_zero s end
  else if e =? 2047 then if m =? 0 then S754_infinity s else S754_nan
  else match m + 2 ^ 52 with Zpos p => S754_finite s p (e - 1075) | _ => S754_nan end.

Lemma digits2_bounds p : 2 ^ (Zpos (digits2_pos p) - 1) <= Zpos p < 2 ^ Zpos (digits2_pos p).
Proof.
  induction p as [p IH|p IH|]; cbn [digits2_pos]; [..|cbn; lia].
  - rewrite Pos2Z.inj_succ. replace (Z.succ (Zpos (digits2_pos p)) - 1) with (Z.succ (Zpos (digits2_pos p) - 1)) by lia.
    rewrite !Z.pow_succ_r by lia. lia.
  - rewrite Pos2Z.inj_succ. replace (Z.succ (Zpos (digits2_pos p)) - 1) with (Z.succ (Zpos (digits2_pos p) - 1)) by lia.
    rewrite !Z.pow_succ_r by lia. lia.
Qed.

Lemma valid_finite s m e :
  valid_binary 53 1024 (S754_finite s m e) = true ->
  (e = -1074 /\ Zpos m < 2 ^ 52) \/ (-1074 <= e <= 971 /\ 2 ^ 52 <= Zpos m < 2 ^ 53).
Proof.
  cbn. unfold bounded, canonical_mantissa, fexp, emin. intros [H1%Z.eqb_eq H2%Z.leb_le]%andb_true_iff.
  change (3 - 1024 - 53) with (-1074) in H1. change (1024 - 53) with 971 in H2.
  pose proof (digits2_bounds m) as [Hl Hu]. set (d := Zpos (digits2_pos m)) in *.
  assert (Hd : d <= 53) by lia. assert (0 < d) by (unfold d; lia).
  destruct (Z.eq_dec d 53) as [Hd53|Hd53].
  - right. rewrite Hd53 in Hl, Hu. change (53 - 1) with 52 in Hl. split; lia.
  - left. split; [lia|]. eapply Z.lt_le_trans; [exact Hu|]. apply Z.pow_le_mono_r; lia.
Qed.

Lemma from_to_bits x : valid_binary 53 1024 x = true -> 0 <= to_bits x < 2 ^ 64 /\ from_bits (to_bits x) = x.
Proof.
  destruct x as [s|s| |s m e]; intros Hv;
    [destruct s; vm_compute; repeat split; congruence..|vm_compute; repeat split; congruence|].
  apply valid_finite in Hv. unfold to_bits.
  assert (Hr : forall r, 0 <= r < 2 ^ 63 -> let b := (if s then 2 ^ 63 else 0) + r in
    0 <= b < 2 ^ 64 /\ (2 ^ 63 <=? b) = s /\ (if s then b - 2 ^ 63 else b) = r).
  { intros r Hr b. unfold b. destruct s; (split; [lia|]); split; lia. }
  destruct (Z.ltb_spec (Zpos m) (2 ^ 52)) as [Hm|Hm].
  - destruct (Hr (Zpos m) ltac:(lia)) as (Hb & Hs & Hx). split; [done|]. unfold from_bits. rewrite Hs, Hx.
    rewrite Z.div_small, Z.mod_small by lia. cbn. destruct Hv as [[-> _]|Hv]; [done|lia].
  - destruct Hv as [Hv|[He Hm2]]; [lia|]. rewrite <- Z.add_assoc.
    assert (Hq : ((e + 1075) * 2 ^ 52 + (Zpos m - 2 ^ 52)) / 2 ^ 52 = e + 1075).
    { rewrite Z.div_add_l by lia. rewrite Z.div_small by lia. lia. }
    assert (Hmod : ((e + 1075) * 2 ^ 52 + (Zpos m - 2 ^ 52)) mod 2 ^ 52 = Zpos m - 2 ^ 52).
    { rewrite Z.add_comm, Z.mod_add by lia. apply Z.mod_small. lia. }
    destruct (Hr ((e + 1075) * 2 ^ 52 + (Zpos m - 2 ^ 52))) as (Hb & Hs & Hx).
    { assert (0 <= (e + 1075) * 2 ^ 52 <= 2046 * 2 ^ 52) by nia. lia. }
    split; [done|]. unfold from_bits. rewrite Hs, Hx, Hq, Hmod.
    rewrite (proj2 (Z.eqb_neq _ _)), (proj2 (Z.eqb_neq _ _)) by lia.
    replace (Zpos m - 2 ^ 52 + 2 ^ 52) with (Zpos m) by lia. f_equal. lia.
Qed.
