(* ===== verification/Text.v ===== *)
(** * Text: the methods of [str] the code uses

    A [str] is the list of its characters' scalar values (for ASCII text these
    are its bytes). *)

From Stdlib Require Import ZArith Lia String.
From stdpp Require Import base numbers list.
From S2P Require Import Prelude Decimal F64.

Local Open Scope Z_scope.

(** [s.strip_prefix(p)] *)
Fixpoint strip_prefix (p s : list Z) : option (list Z) :=
  match p, s with
  | [], _ => Some s
  | c :: p', d :: s' => if c =? d then strip_prefix p' s' else None
  | _ :: _, [] => None
  end.

Definition starts_with (p s : list Z) : bool :=
  match strip_prefix p s with Some _ => true | None => false end.

(** [s.trim_start_matches(p)] for a non-empty [p]: every match shortens [s]. *)
Fixpoint trim_start_fuel (fuel : nat) (p s : list Z) : list Z :=
  match fuel with
  | O => s
  | S fuel' => match strip_prefix p s with Some s' => trim_start_fuel fuel' p s' | None => s end
  end.
Definition trim_start_matches (p s : list Z) : list Z := trim_start_fuel (length s) p s.

(** [s.splitn(2, c)]: what precedes the first [c], and what follows it. *)
Fixpoint splitn2 (c : Z) (s : list Z) : list Z * option (list Z) :=
  match s with
  | [] => ([], None)
  | d :: s' =>
      if c =? d then ([], Some s')
      else let '(x, y) := splitn2 c s' in (d :: x, y)
  end.

(** [s.rsplit(p).next()]: what follows the last match of [p], all of [s] where
    there is none. *)
Fixpoint after_last (p s : list Z) : option (list Z) :=
  match s with
  | [] => strip_prefix p []
  | _ :: s' => match after_last p s' with Some t => Some t | None => strip_prefix p s end
  end.
Definition rsplit_next (p s : list Z) : list Z := default s (after_last p s).

(** [s.split(f)]: the pieces between the characters that satisfy [f]. *)
Fixpoint split_by (f : Z -> bool) (s : list Z) : list (list Z) :=
  match s with
  | [] => [[]]
  | c :: s' =>
      if f c then [] :: split_by f s'
      else match split_by f s' with x :: l => (c :: x) :: l | [] => [[c]] end
  end.

(** [char::is_whitespace]: Unicode's [White_Space]. *)
Definition is_whitespace (c : Z) : bool :=
  ((9 <=? c) && (c <=? 13)) || (c =? 32) || (c =? 133) || (c =? 160) || (c =? 5760) ||
  ((8192 <=? c) && (c <=? 8202)) || (c =? 8232) || (c =? 8233) || (c =? 8239) || (c =? 8287) || (c =? 12288).

Definition nonempty (s : list Z) : bool := match s with [] => false | _ => true end.

Definition split_whitespace (s : list Z) : list (list Z) := filter nonempty (split_by is_whitespace s).

(** [s.lines()]: the last line ending is optional, and a line may end in CR LF. *)
Definition strip_cr (s : list Z) : list Z :=
  match rev s with 13 :: r => rev r | _ => s end.
Definition lines (s : list Z) : list (list Z) :=
  let l := split_by (fun c => c =? 10) s in
  map strip_cr (match rev l with [] :: r => rev r | _ => l end).

(** [s.parse::<f64>()] *)
Definition is_digit (c : Z) : bool := (48 <=? c) && (c <=? 57).
Fixpoint digits_value (acc : Z) (s : list Z) : Z :=
  match s with [] => acc | c :: s' => digits_value (acc * 10 + (c - 48)) s' end.
Fixpoint take_digits (s : list Z) : list Z * list Z :=
  match s with
  | c :: s' => if is_digit c then let '(x, y) := take_digits s' in (c :: x, y) else ([], s)
  | [] => ([], [])
  end.

Definition f64_scaled (m e : Z) : f64 :=
  if e <? 0 then f64_of_decimal m (Z.to_nat (- e)) else f64_of_int (m * 10 ^ e).

Definition parse_exponent (s : list Z) : option Z :=
  match s with
  | [] => Some 0
  | c :: s' =>
      if (c =? 101) || (c =? 69) then
        let '(neg, t) := match s' with 43 :: t => (false, t) | 45 :: t => (true, t) | t => (false, t) end in
        let '(ds, rest) := take_digits t in
        if nonempty ds && negb (nonempty rest) then
          let v := digits_value 0 ds in Some (if neg : bool then - v else v)
        else None
      else None
  end.

Definition lower (s : list Z) : list Z := map (fun c => if (65 <=? c) && (c <=? 90) then c + 32 else c) s.
Definition f64_neg (x : f64) : f64 := SpecFloat.SFopp x.

Definition parse_f64_unsigned (s : list Z) : option f64 :=
  let l := lower s in
  if decide (l = str "inf") then Some (SpecFloat.S754_infinity false)
  else if decide (l = str "infinity") then Some (SpecFloat.S754_infinity false)
  else if decide (l = str "nan") then Some SpecFloat.S754_nan
  else
    let '(ip, t) := take_digits s in
    let '(fp, t) := match t with 46 :: t' => take_digits t' | _ => ([], t) end in
    if nonempty ip || nonempty fp then
      e ← parse_exponent t;
      Some (f64_scaled (digits_value 0 (ip ++ fp)) (e - Z.of_nat (length fp)))
    else None.

Definition parse_f64 (s : list Z) : option f64 :=
  match s with
  | 45 :: s' => f64_neg <$> parse_f64_unsigned s'
  | 43 :: s' => parse_f64_unsigned s'
  | _ => parse_f64_unsigned s
  end.

(** ** Lemmas *)
Lemma strip_prefix_app p s : strip_prefix p (p ++ s) = Some s.
Proof. induction p as [|c p IH]; cbn; [done|]. by rewrite Z.eqb_refl. Qed.

Lemma strip_prefix_some p s t : strip_prefix p s = Some t -> s = p ++ t.
Proof.
  revert s. induction p as [|c p IH]; intros s; cbn; [by intros [= ->]|].
  destruct s as [|d s]; [done|]. destruct (Z.eqb_spec c d) as [->|]; [|done].
  intros H. by rewrite (IH _ H).
Qed.

Lemma splitn2_app c x s : c ∉ x -> splitn2 c (x ++ c :: s) = (x, Some s).
Proof.
  induction x as [|d x IH]; intros Hn; cbn; [by rewrite Z.eqb_refl|].
  apply not_elem_of_cons in Hn as [Hd Hn].
  destruct (Z.eqb_spec c d) as [->|_]; [done|]. by rewrite IH.
Qed.

Lemma trim_start_once p s : p <> [] -> starts_with p s = false -> trim_start_matches p (p ++ s) = s.
Proof.
  unfold trim_start_matches, starts_with. intros Hp Hs. destruct p as [|c p]; [done|].
  cbn [app length trim_start_fuel]. change (c :: p ++ s) with ((c :: p) ++ s).
  rewrite strip_prefix_app. destruct (length (p ++ s)) eqn:Hl; cbn [trim_start_fuel].
  - destruct s; [done|]. rewrite length_app in Hl. cbn in Hl. lia.
  - by destruct (strip_prefix (c :: p) s).
Qed.

Lemma after_last_none p s : p <> [] -> Forall (fun c => head p <> Some c) s -> after_last p s = None.
Proof.
  intros Hp. induction 1 as [|c s Hc _ IH]; cbn; [by destruct p|].
  rewrite IH. destruct p as [|d p]; [done|]. cbn in *.
  destruct (Z.eqb_spec d c); congruence.
Qed.

(** Where the pattern's first character does not occur after it, the last match
    is found. *)
Lemma after_last_app p x s :
  p <> [] -> after_last p (tail p ++ s) = None ->
  after_last p (x ++ p ++ s) = Some s.
Proof.
  intros Hp Hs. induction x as [|c x IH]; cbn [app].
  - destruct p as [|d p]; [done|]. cbn [app after_last]. cbn in Hs. rewrite Hs.
    apply (strip_prefix_app (d :: p)).
  - cbn [after_last]. by rewrite IH.
Qed.

Example parse_f64_ex : parse_f64 (str "-2.500") = Some (f64_neg (f64_of_decimal 25 1)).
Proof. vm_compute. reflexivity. Qed.
Example lines_ex : lines (str "a b
c
") = [str "a b"; str "c"].
Proof. vm_compute. reflexivity. Qed.
