(* ===== verification/Json.v ===== *)
(** * JSON trees

    What [serde_json] makes of a JSON text, for the IPLD values and the JSON-RPC
    client. *)

From Stdlib Require Import ZArith Lia String.
From stdpp Require Import base numbers list.
From S2P Require Import Prelude F64.

Local Open Scope Z_scope.

Unset Elimination Schemes.
Inductive json :=
| JNull | JBool (b : bool) | JInt (n : Z) | JFloat (x : f64) | JStr (s : list Z)
| JArr (l : list json) | JObj (l : list (list Z * json)).
Set Elimination Schemes.

Section JsonInd.
Context (P : json -> Prop).
Context (Hnull : P JNull) (Hbool : forall b, P (JBool b)) (Hint : forall n, P (JInt n)) (Hfloat : forall x, P (JFloat x))
  (Hstr : forall s, P (JStr s)) (Harr : forall l, Forall P l -> P (JArr l))
  (Hobj : forall l, Forall (fun e => P e.2) l -> P (JObj l)).

Definition json_ind : forall j, P j :=
  fix F j := match j with
  | JNull => Hnull
  | JBool b => Hbool b
  | JInt n => Hint n
  | JFloat x => Hfloat x
  | JStr s => Hstr s
  | JArr l => Harr l ((fix G l : Forall P l := match l with
      | [] => Forall_nil_2 _
      | j :: l => Forall_cons_2 _ _ _ (F j) (G l)
      end) l)
  | JObj l => Hobj l ((fix G l : Forall (fun e => P e.2) l := match l with
      | [] => Forall_nil_2 _
      | e :: l => Forall_cons_2 _ _ _ (F e.2) (G l)
      end) l)
  end.
End JsonInd.

(** [serde::de::Error]: what the code says itself, and what the crates say. *)
Inductive de_error := CustomError (m : list Z) | ForeignError.

(** [deserialize_any] of a number: [serde_json] visits what fits a [u64] or an
    [i64] as such and any other number as a float. *)
Definition json_int (n : Z) : Z + f64 :=
  if (0 <=? n) && (n <? 2 ^ 64) then inl n
  else if (- 2 ^ 63 <=? n) && (n <? 0) then inl n
  else inr (f64_of_int n).

(** [serde_json::Map] keeps the last value of a key. *)
Fixpoint obj_insert (k : list Z) (v : json) (m : list (list Z * json)) : list (list Z * json) :=
  match m with
  | [] => [(k, v)]
  | (k', v') :: m' => if decide (k = k') then (k', v) :: m' else (k', v') :: obj_insert k v m'
  end.
Definition obj_of (l : list (list Z * json)) : list (list Z * json) :=
  fold_left (fun m e => obj_insert e.1 e.2 m) l [].
