(* ===== verification/Serde.v ===== *)
(** * [serde]: what its derives read and write

    The readers that [#[derive(Deserialize)]] stands for, codecs between Rocq
    values and JSON trees, and when a codec reads back what it wrote. *)

From Stdlib Require Import ZArith Lia String.
From stdpp Require Import base numbers list.
From S2P Require Import Prelude Decimal F64 Json.

Local Open Scope Z_scope.

Abbreviation Value := json.
Abbreviation text := (list Z).

(** ** What the derives of [serde] read

    A struct is read from an object, where a field may be absent, or from an
    array with its fields in order, which then must all be there unless they
    have a default. *)
Inductive slot := Given (j : json) | Absent | Short.

Abbreviation de := (outcome de_error).

Definition occurrences (name : text) (l : list (text * json)) : list json :=
  omap (fun e => if decide (e.1 = name) then Some e.2 else None) l.

Fixpoint named_slots (names : list text) (l : list (text * json)) : de (list slot) :=
  match names with
  | [] => Ok []
  | n :: names' =>
      s <- match occurrences n l with
           | [] => Ok Absent
           | [j] => Ok (Given j)
           | _ => Err ForeignError
           end ;;
      r <- named_slots names' l ;;
      Ok (s :: r)
  end.

Fixpoint seq_slots (names : list text) (l : list json) : de (list slot) :=
  match names, l with
  | [], [] => Ok []
  | [], _ :: _ => Err ForeignError
  | _ :: names', [] => r <- seq_slots names' [] ;; Ok (Short :: r)
  | _ :: names', j :: l' => r <- seq_slots names' l' ;; Ok (Given j :: r)
  end.

Definition struct_slots (deny_unknown_fields : bool) (names : list text) (j : json) : de (list slot) :=
  match j with
  | JObj l =>
      if deny_unknown_fields && bool_decide (Exists (fun e => e.1 ∉ names) l) then Err ForeignError
      else named_slots names l
  | JArr l => seq_slots names l
  | _ => Err ForeignError
  end.

Definition required {A} (f : json -> de A) (s : slot) : de A :=
  match s with Given j => f j | _ => Err ForeignError end.
Definition optional {A} (f : json -> de A) (s : slot) : de (option A) :=
  match s with
  | Given JNull => Ok None
  | Given j => a <- f j ;; Ok (Some a)
  | Absent => Ok None
  | Short => Err ForeignError
  end.
Definition defaulted {A} (d : A) (f : json -> de A) (s : slot) : de A :=
  match s with Given j => f j | _ => Ok d end.

Definition de_string (j : json) : de text := match j with JStr s => Ok s | _ => Err ForeignError end.
Definition de_usize (j : json) : de Z :=
  match j with JInt n => if (0 <=? n) && (n <? 2 ^ 64) then Ok n else Err ForeignError | _ => Err ForeignError end.
Definition de_i64 (j : json) : de Z :=
  match j with JInt n => if (- 2 ^ 63 <=? n) && (n <? 2 ^ 63) then Ok n else Err ForeignError | _ => Err ForeignError end.

(** [serde_json::Value]: an object has each key once. *)
Fixpoint to_value (j : json) : Value :=
  match j with
  | JArr l => JArr (map to_value l)
  | JObj l => JObj (obj_of (map (fun e => match e with (k, v) => (k, to_value v) end) l))
  | JInt n => match json_int n with inl n => JInt n | inr x => JFloat x end
  | j => j
  end.
Definition de_value (j : json) : de Value := Ok (to_value j).

(** A tree that a [Value] keeps as it is. *)
Definition plain (v : Value) : Prop := to_value v = v.

(** ** Codecs *)
Record codec (A : Type) := mkCodec { enc : A -> de json; dec : json -> de A }.
Arguments mkCodec {A}.
Arguments enc {A}.
Arguments dec {A}.

(** [c] reads back the values that satisfy [ok], also after they were held as a
    [Value], and writes none of them as [null]. *)
Definition lawful {A} (c : codec A) (ok : A -> Prop) : Prop :=
  forall x, ok x -> exists j, enc c x = Ok j /\ plain j /\ j <> JNull /\ dec c j = Ok x.

Definition text_codec : codec text := mkCodec (fun s => Ok (JStr s)) de_string.
Definition bool_codec : codec bool :=
  mkCodec (fun b => Ok (JBool b)) (fun j => match j with JBool b => Ok b | _ => Err ForeignError end).
Definition int_codec (lo hi : Z) : codec Z :=
  mkCodec (fun n => Ok (JInt n))
    (fun j => match j with JInt n => if (lo <=? n) && (n <? hi) then Ok n else Err ForeignError | _ => Err ForeignError end).
Definition u8_codec := int_codec 0 (2 ^ 8).
Definition u32_codec := int_codec 0 (2 ^ 32).
Definition u64_codec := int_codec 0 (2 ^ 64).
Definition i64_codec := int_codec (- 2 ^ 63) (2 ^ 63).
(** [()] *)
Definition unit_codec : codec unit :=
  mkCodec (fun _ => Ok JNull) (fun j => match j with JNull => Ok tt | _ => Err ForeignError end).

Fixpoint enc_list {A} (c : codec A) (l : list A) : de (list json) :=
  match l with
  | [] => Ok []
  | x :: l' => j <- enc c x ;; r <- enc_list c l' ;; Ok (j :: r)
  end.
Fixpoint dec_list {A} (c : codec A) (l : list json) : de (list A) :=
  match l with
  | [] => Ok []
  | j :: l' => x <- dec c j ;; r <- dec_list c l' ;; Ok (x :: r)
  end.
Definition list_codec {A} (c : codec A) : codec (list A) :=
  mkCodec (fun l => js <- enc_list c l ;; Ok (JArr js))
    (fun j => match j with JArr l => dec_list c l | _ => Err ForeignError end).
Definition option_codec {A} (c : codec A) : codec (option A) :=
  mkCodec (fun o => match o with Some x => enc c x | None => Ok JNull end)
    (fun j => match j with JNull => Ok None | j => x <- dec c j ;; Ok (Some x) end).
(** [HashMap<String, T>]: the entries in the order the map yields them. *)
Fixpoint dec_entries {A} (c : codec A) (l : list (text * json)) : de (list (text * A)) :=
  match l with
  | [] => Ok []
  | (k, j) :: l' => x <- dec c j ;; r <- dec_entries c l' ;; Ok ((k, x) :: r)
  end.
Definition dec_map {A} (c : codec A) (j : json) : de (list (text * A)) :=
  match j with JObj l => dec_entries c l | _ => Err ForeignError end.

(** A unit-only enum: by name, or with [serde_repr] by number. *)
Definition enum_codec {A} `{EqDecision A} (names : list (A * text)) : codec A :=
  mkCodec
    (fun x => match list_find (fun e => e.1 = x) names with Some (_, e) => Ok (JStr e.2) | None => Err ForeignError end)
    (fun j => match j with
       | JStr s => match list_find (fun e => e.2 = s) names with Some (_, e) => Ok e.1 | None => Err ForeignError end
       | _ => Err ForeignError
       end).
Definition repr_codec {A} `{EqDecision A} (numbers : list (A * Z)) : codec A :=
  mkCodec
    (fun x => match list_find (fun e => e.1 = x) numbers with Some (_, e) => Ok (JInt e.2) | None => Err ForeignError end)
    (fun j => match j with
       | JInt n => match list_find (fun e => e.2 = n) numbers with Some (_, e) => Ok e.1 | None => Err ForeignError end
       | _ => Err ForeignError
       end).
(** A newtype struct is its field; so is a field [with] a conversion. *)
Definition iso_codec {A B} (c : codec B) (f : A -> B) (g : B -> de A) : codec A :=
  mkCodec (fun x => enc c (f x)) (fun j => y <- dec c j ;; g y).

(** ** Structs *)
Fixpoint all_ok {A} (l : list (de A)) : de (list A) :=
  match l with
  | [] => Ok []
  | x :: l' => a <- x ;; r <- all_ok l' ;; Ok (a :: r)
  end.
(** [names] are the fields as they are called in JSON, [ser] writes them in order,
    [rd] reads them. *)
Definition struct_codec {A} (names : list text) (ser : A -> list (de json)) (rd : list slot -> de A) : codec A :=
  mkCodec (fun x => js <- all_ok (ser x) ;; Ok (JObj (zip names js)))
    (fun j => l <- struct_slots false names j ;; rd l).
Definition field {A} (c : codec A) (s : slot) : de A := required (dec c) s.
