(* ===== verification/SerdeLaws.v ===== *)
(** * Codecs that read back what they wrote *)

From Stdlib Require Import ZArith Lia String.
From stdpp Require Import base numbers list.
From S2P Require Import Prelude Decimal F64 Json Serde.

Local Open Scope Z_scope.

Create HintDb codec.

Lemma lawful_weaken {A} (c : codec A) (ok ok' : A -> Prop) : lawful c ok -> (forall x, ok' x -> ok x) -> lawful c ok'.
Proof. intros Hc Hi x Hx. apply Hc, Hi, Hx. Qed.

Lemma text_lawful : lawful text_codec (fun _ => True).
Proof. intros s _. by exists (JStr s). Qed.
Lemma bool_lawful : lawful bool_codec (fun _ => True).
Proof. intros b _. by exists (JBool b). Qed.

Lemma int_lawful lo hi : - 2 ^ 63 <= lo -> hi <= 2 ^ 64 -> lawful (int_codec lo hi) (fun n => lo <= n < hi).
Proof.
  intros Hlo Hhi n Hn. exists (JInt n). split; [done|]. split; [|split; [done|]].
  - unfold plain. cbn [to_value]. unfold json_int.
    destruct (Z.leb_spec 0 n); cbn [andb].
    + rewrite (proj2 (Z.ltb_lt _ _)) by lia. done.
    + rewrite (proj2 (Z.leb_le (- 2 ^ 63) n)), (proj2 (Z.ltb_lt n 0)) by lia. done.
  - cbn. by rewrite (proj2 (Z.leb_le _ _)), (proj2 (Z.ltb_lt _ _)) by lia.
Qed.
Lemma u8_lawful : lawful u8_codec (fun n => 0 <= n < 2 ^ 8).
Proof. apply int_lawful; lia. Qed.
Lemma u32_lawful : lawful u32_codec (fun n => 0 <= n < 2 ^ 32).
Proof. apply int_lawful; lia. Qed.
Lemma u64_lawful : lawful u64_codec (fun n => 0 <= n < 2 ^ 64).
Proof. apply int_lawful; lia. Qed.
Lemma i64_lawful : lawful i64_codec (fun n => - 2 ^ 63 <= n < 2 ^ 63).
Proof. apply int_lawful; lia. Qed.

(** ** Lists *)
Lemma to_value_list l : Forall plain l -> plain (JArr l).
Proof.
  intros Hl. unfold plain. cbn [to_value]. f_equal. induction Hl as [|j l Hj _ IH]; [done|]. cbn. by rewrite Hj, IH.
Qed.

Lemma list_lawful {A} (c : codec A) ok : lawful c ok -> lawful (list_codec c) (Forall ok).
Proof.
  intros Hc l Hl. cbn.
  assert (exists js, enc_list c l = Ok js /\ Forall plain js /\ dec_list c js = Ok l) as (js & He & Hp & Hd).
  { induction Hl as [|x l Hx _ (js & He & Hp & Hd)]; [by exists []|].
    destruct (Hc x Hx) as (j & Hj & Hpj & _ & Hdj). exists (j :: js). cbn. rewrite Hj, He. cbn. rewrite Hdj, Hd. auto. }
  exists (JArr js). rewrite He. cbn. split; [done|]. split; [by apply to_value_list|]. done.
Qed.

(** ** Enums *)
Lemma list_find_pair {A B} `{EqDecision A} `{EqDecision B} (l : list (A * B)) x y :
  NoDup l.*1 -> NoDup l.*2 -> (x, y) ∈ l ->
  (exists i, list_find (fun e => e.1 = x) l = Some (i, (x, y))) /\
  (exists i, list_find (fun e => e.2 = y) l = Some (i, (x, y))).
Proof.
  intros H1 H2 Hin. induction l as [|[a b] l IH]; [by apply elem_of_nil in Hin|]. cbn in *.
  apply NoDup_cons in H1 as [Ha H1], H2 as [Hb H2]. apply elem_of_cons in Hin as [[= -> ->]|Hin].
  - rewrite !decide_True by done. eauto.
  - destruct (IH H1 H2 Hin) as [[i Hi] [k Hk]].
    assert (a <> x) by (intros ->; apply Ha, list_elem_of_fmap; by exists (x, y)).
    assert (b <> y) by (intros ->; apply Hb, list_elem_of_fmap; by exists (x, y)).
    rewrite !decide_False by done. rewrite Hi, Hk. cbn. eauto.
Qed.

Lemma enum_lawful {A} `{EqDecision A} (names : list (A * text)) :
  NoDup names.*1 -> NoDup names.*2 -> lawful (enum_codec names) (fun x => x ∈ names.*1).
Proof.
  intros H1 H2 x Hx. apply list_elem_of_fmap in Hx as ([x' s] & -> & Hin). cbn.
  destruct (list_find_pair names x' s H1 H2 Hin) as [[i Hi] [k Hk]]. rewrite Hi. exists (JStr s). cbn. rewrite Hk. done.
Qed.

Lemma repr_lawful {A} `{EqDecision A} (numbers : list (A * Z)) :
  NoDup numbers.*1 -> NoDup numbers.*2 -> Forall (fun e => 0 <= e.2 < 2 ^ 64) numbers ->
  lawful (repr_codec numbers) (fun x => x ∈ numbers.*1).
Proof.
  intros H1 H2 Hr x Hx. apply list_elem_of_fmap in Hx as ([x' n] & -> & Hin). cbn.
  destruct (list_find_pair numbers x' n H1 H2 Hin) as [[i Hi] [k Hk]]. rewrite Hi. exists (JInt n).
  split; [done|]. split; [|by rewrite Hk].
  rewrite Forall_forall in Hr. specialize (Hr _ Hin). cbn in Hr. destruct (u64_lawful n Hr) as (j & [= <-] & Hp & _). done.
Qed.

Lemma iso_lawful {A B} (c : codec B) (f : A -> B) (g : B -> de A) ok :
  lawful c ok -> lawful (iso_codec c f g) (fun x => ok (f x) /\ g (f x) = Ok x).
Proof.
  intros Hc x [Hx Hg]. destruct (Hc (f x) Hx) as (j & He & Hp & Hn & Hd). exists j. cbn. rewrite Hd. auto.
Qed.

(** ** Structs *)
Lemma obj_insert_fresh k v l : k ∉ l.*1 -> obj_insert k v l = l ++ [(k, v)].
Proof.
  induction l as [|[k' v'] l IH]; intros Hk; [done|]. cbn in *. apply not_elem_of_cons in Hk as [Hne Hk].
  rewrite decide_False by done. by rewrite IH.
Qed.

Lemma obj_of_nodup l : NoDup l.*1 -> obj_of l = l.
Proof.
  intros Hl. unfold obj_of. assert (Hgen : forall acc, NoDup (acc ++ l).*1 ->
    fold_left (fun m e => obj_insert e.1 e.2 m) l acc = acc ++ l); [|by apply (Hgen [])].
  clear Hl. induction l as [|[k v] l IH]; intros acc Ha; cbn; [by rewrite app_nil_r|].
  rewrite obj_insert_fresh; [by rewrite IH; rewrite <- app_assoc|].
  rewrite fmap_app in Ha. apply NoDup_app in Ha as (_ & Hd & _). intros Hk. apply (Hd _ Hk). cbn. apply elem_of_cons. by left.
Qed.

Lemma fst_zip_same {A B} (l : list A) (l' : list B) : length l = length l' -> (zip l l').*1 = l.
Proof. intros Hl. apply fst_zip. lia. Qed.

Lemma to_value_obj names js :
  NoDup names -> length names = length js -> Forall plain js -> plain (JObj (zip names js)).
Proof.
  intros Hn Hl Hp. unfold plain. cbn [to_value].
  assert (Hm : map (fun e : text * json => match e with (k, v) => (k, to_value v) end) (zip names js) = zip names js).
  { clear Hn. revert names Hl. induction Hp as [|j js Hj _ IH]; intros [|n names] Hl; try done.
    cbn. cbn in Hl. rewrite Hj, IH by lia. done. }
  rewrite Hm. rewrite obj_of_nodup; [done|]. by rewrite fst_zip_same.
Qed.

Lemma occurrences_fresh n l : n ∉ l.*1 -> occurrences n l = [].
Proof.
  induction l as [|[k v] l IH]; intros Hn; [done|]. cbn in *. apply not_elem_of_cons in Hn as [Hne Hn].
  unfold occurrences in *. cbn. rewrite decide_False by done. by apply IH.
Qed.

Lemma occurrences_zip names js i n j :
  NoDup names -> length names = length js -> names !! i = Some n -> js !! i = Some j -> occurrences n (zip names js) = [j].
Proof.
  intros Hn. revert js i. induction Hn as [|m names Hm Hn IH]; intros [|x js] i Hl Hi Hj; try done. cbn in Hl.
  unfold occurrences in *. cbn. destruct i as [|i]; cbn in *.
  - injection Hi as ->. injection Hj as ->. rewrite decide_True by done. f_equal.
    apply occurrences_fresh. by rewrite fst_zip_same by lia.
  - rewrite decide_False; [by apply (IH js i); auto|]. intros ->. apply Hm. by eapply list_elem_of_lookup_2.
Qed.

Lemma named_slots_all names l js :
  Forall2 (fun n j => occurrences n l = [j]) names js -> named_slots names l = Ok (map Given js).
Proof. induction 1 as [|n j names js Hn _ IH]; [done|]. cbn. by rewrite Hn; cbn; rewrite IH. Qed.

Lemma struct_slots_zip names js :
  NoDup names -> length names = length js -> struct_slots false names (JObj (zip names js)) = Ok (map Given js).
Proof.
  intros Hn Hl. cbn. apply named_slots_all. apply Forall2_same_length_lookup_2; [done|].
  intros i n j Hi Hj. by eapply occurrences_zip.
Qed.

(** A written field. *)
Definition wrote (s : de json) (j : json) : Prop := s = Ok j /\ plain j.

Lemma all_ok_wrote l js : Forall2 wrote l js -> all_ok l = Ok js.
Proof. induction 1 as [|s j l js [-> _] _ IH]; [done|]. cbn. by rewrite IH. Qed.

Lemma struct_lawful {A} names (ser : A -> list (de json)) rd (ok : A -> Prop) :
  NoDup names ->
  (forall x, ok x -> exists js, Forall2 wrote (ser x) js /\ length names = length js /\ rd (map Given js) = Ok x) ->
  lawful (struct_codec names ser rd) ok.
Proof.
  intros Hn Hs x Hx. destruct (Hs x Hx) as (js & Hw & Hl & Hr). exists (JObj (zip names js)). cbn [enc dec struct_codec].
  rewrite (all_ok_wrote _ _ Hw). split; [done|]. split; [|split; [done|]].
  - apply to_value_obj; [done|done|]. clear Hl Hr. induction Hw as [|s j l js' [_ ?] _ IH]; by constructor.
  - rewrite struct_slots_zip by done. exact Hr.
Qed.

Lemma lawful_wrote {A} (c : codec A) (ok : A -> Prop) x :
  lawful c ok -> ok x -> exists j, wrote (enc c x) j /\ dec c j = Ok x.
Proof. intros Hc Hx. destruct (Hc x Hx) as (j & ? & ? & _ & ?). exists j. split; [by split|done]. Qed.

(** [solve_struct] proves [lawful (struct_codec ...) ok] where [ok] is the
    conjunction of what the codecs of the fields ask for and the hint database
    [codec] knows those codecs. *)
Ltac nodup_names := apply (bool_decide_unpack _); vm_compute; exact I.

Ltac write_field :=
  match goal with
  | |- context [enc ?c ?e] =>
      let j := fresh "j" in let Hw := fresh "Hw" in let Hd := fresh "Hd" in let s := fresh "s" in
      let Hl := fresh "Hl" in
      eassert (Hl : lawful c _) by (eauto with codec nocore);
      destruct (lawful_wrote c _ e Hl) as (j & Hw & Hd); [first [done|assumption|by apply Forall_true|cbn; lia|cbn; tauto]|];
      clear Hl; revert Hw; generalize (enc c e); intros s Hw
  end.

Ltac collect_fields :=
  lazymatch goal with
  | |- Forall2 wrote [] _ => apply Forall2_nil_2
  | |- Forall2 wrote (_ :: _) _ => apply Forall2_cons_2; [eassumption|collect_fields]
  end.

Ltac solve_struct :=
  apply struct_lawful; [nodup_names|];
  let x := fresh "x" in let Hx := fresh "Hx" in
  intros x Hx; cbn beta in Hx; hnf in Hx; repeat match goal with H : _ /\ _ |- _ => destruct H end;
  repeat write_field;
  eexists; split; [collect_fields|split; [reflexivity|]];
  cbn [map]; unfold field; cbn [required];
  repeat match goal with H : dec _ _ = Ok _ |- _ => rewrite H; clear H; cbn [bind] end;
  by destruct x.

#[export] Hint Resolve text_lawful bool_lawful u8_lawful u32_lawful u64_lawful i64_lawful list_lawful : codec.
