(* ===== verification/Address.v ===== *)
(** * Addresses (primitives/address/src)

    An address is a protocol and a payload.  Text is the bytes of the string:
    slicing a [&str] panics off a character boundary, and the model keeps
    that.  The crates [unsigned-varint], [data-encoding] and [blake2b_simd] are
    the interface [AddressDeps]; the mutable global [NETWORK_DEFAULT] is the
    argument [net] of the operations that read it. *)

From Stdlib Require Import ZArith Lia String.
From stdpp Require Import base numbers list.
From S2P Require Import Prelude Decimal Cbor.

Local Open Scope Z_scope.

(** lib.rs, module [constant] *)
Definition BLS_PUBLIC_KEY_LEN : nat := 48.
Definition SECP256K1_FULL_PUBLIC_KEY_LEN : nat := 65.
Definition SECP256K1_RAW_PUBLIC_KEY_LEN : nat := 64.
Definition SECP256K1_COMPRESSED_PUBLIC_KEY_LEN : nat := 33.
Definition MAX_ADDRESS_STRING_LEN : nat := 2 + 84.
Definition PAYLOAD_HASH_LEN : nat := 20.
Definition CHECKSUM_HASH_LEN : nat := 4.
Definition MAX_U64_LEN : nat := 20.

(** errors.rs *)
Inductive AddressError :=
| UnknownNetwork
| MismatchNetwork
| UnknownProtocol
| InvalidPayload
| InvalidLength
| InvalidChecksum
| Base32Decode.

(** network.rs *)
Inductive Network := Main | Test.

#[export] Instance Network_eq_dec : EqDecision Network.
Proof. solve_decision. Defined.

Definition NETWORK_MAINNET_PREFIX : list Z := str "f".
Definition NETWORK_TESTNET_PREFIX : list Z := str "t".

Definition prefix (n : Network) : list Z :=
  match n with
  | Main => NETWORK_MAINNET_PREFIX
  | Test => NETWORK_TESTNET_PREFIX
  end.

(** The global is written only when the network changes. *)
Definition set_network (network current : Network) : Network :=
  if decide (network <> current) then network else current.

(** protocol.rs *)
Inductive Protocol := Id | Secp256k1 | Actor | Bls.

#[export] Instance Protocol_eq_dec : EqDecision Protocol.
Proof. solve_decision. Defined.

Definition Protocol_try_from (value : Z) : outcome AddressError Protocol :=
  if value =? 0 then Ok Id
  else if value =? 1 then Ok Secp256k1
  else if value =? 2 then Ok Actor
  else if value =? 3 then Ok Bls
  else Err UnknownProtocol.

Definition u8_of_Protocol (p : Protocol) : Z :=
  match p with Id => 0 | Secp256k1 => 1 | Actor => 2 | Bls => 3 end.

(** ** The crates *)
Class AddressDeps := {
  varint_encode : Z -> list Z;                      (* unsigned_varint::encode::u64 *)
  varint_decode : list Z -> option (Z * list Z);    (* unsigned_varint::decode::u64 *)
  base32_nopad_encode : list Z -> list Z;           (* data_encoding::BASE32_NOPAD *)
  base32_nopad_decode : list Z -> option (list Z);
  blake2b : list Z -> nat -> list Z;                (* blake2b_simd, with hash_length *)
}.

Definition base32_char (c : Z) : Prop := 65 <= c <= 90 \/ 50 <= c <= 55.

Class AddressDepsLaws (D : AddressDeps) : Prop := {
  varint_roundtrip n : u64 n -> varint_decode (varint_encode n) = Some (n, []);
  varint_ok n : u64 n -> bytes_ok (varint_encode n);
  varint_nonempty n : u64 n -> varint_encode n <> [];
  varint_short n : u64 n -> (length (varint_encode n) <= 10)%nat;
  base32_roundtrip bs : bytes_ok bs -> base32_nopad_decode (base32_nopad_encode bs) = Some bs;
  base32_alphabet bs : bytes_ok bs -> Forall base32_char (base32_nopad_encode bs);
  base32_length bs : length (base32_nopad_encode bs) = ((8 * length bs + 4) / 5)%nat;
  base32_decode_ok s bs : base32_nopad_decode s = Some bs -> bytes_ok bs;
  blake2b_length bs n : (n <= 64)%nat -> length (blake2b bs n) = n;
  blake2b_ok bs n : bytes_ok (blake2b bs n);
}.

Section Address.
Context `{AddressDeps}.

(** hashing/src/lib.rs: the requested digest length is asserted, and
    [hash_length] asserts in turn that it is from 1 to [OUTBYTES]. *)
Definition blake2b_variable {E} (data : list Z) (len : nat) : outcome E (list Z) :=
  if decide (len <= 64)%nat then
    if decide (1 <= len)%nat then
      let res := blake2b data len in
      if decide (length res = len) then Ok res else Panic
    else Panic
  else Panic.

Definition checksum {E} (ingest : list Z) : outcome E (list Z) :=
  blake2b_variable ingest CHECKSUM_HASH_LEN.

Definition validate_checksum {E} (ingest expect : list Z) : outcome E bool :=
  digest <- checksum ingest ;;
  Ok (bool_decide (digest = expect)).

Definition address_hash {E} (ingest : list Z) : outcome E (list Z) :=
  blake2b_variable ingest PAYLOAD_HASH_LEN.

Definition to_ascii_lowercase (s : list Z) : list Z :=
  map (fun c => if (65 <=? c) && (c <=? 90) then c + 32 else c) s.
Definition to_ascii_uppercase (s : list Z) : list Z :=
  map (fun c => if (97 <=? c) && (c <=? 122) then c - 32 else c) s.

Definition base32_encode (input : list Z) : list Z :=
  to_ascii_lowercase (base32_nopad_encode input).

Definition base32_decode (input : list Z) : outcome AddressError (list Z) :=
  of_option Base32Decode (base32_nopad_decode (to_ascii_uppercase input)).

(** ** [Address] *)
Record Address := mkAddress { protocol : Protocol; payload : list Z }.

#[export] Instance Address_eq_dec : EqDecision Address.
Proof. solve_decision. Defined.

Definition new (p : Protocol) (pl : list Z) : outcome AddressError Address :=
  match p with
  | Id => Ok (mkAddress p pl)
  | Secp256k1 | Actor =>
      if decide (length pl = PAYLOAD_HASH_LEN) then Ok (mkAddress p pl) else Err InvalidPayload
  | Bls =>
      if decide (length pl = BLS_PUBLIC_KEY_LEN) then Ok (mkAddress p pl) else Err InvalidPayload
  end.

Definition new_id_addr (id : Z) : outcome AddressError Address := new Id (varint_encode id).

Definition new_secp256k1_addr (pubkey : list Z) : outcome AddressError Address :=
  if bool_decide (length pubkey <> SECP256K1_FULL_PUBLIC_KEY_LEN)
     && bool_decide (length pubkey <> SECP256K1_RAW_PUBLIC_KEY_LEN)
     && bool_decide (length pubkey <> SECP256K1_COMPRESSED_PUBLIC_KEY_LEN)
  then Err InvalidPayload
  else h <- address_hash pubkey ;; new Secp256k1 h.

Definition new_actor_addr (data : list Z) : outcome AddressError Address :=
  h <- address_hash data ;; new Actor h.

Definition new_bls_addr (pubkey : list Z) : outcome AddressError Address := new Bls pubkey.

Definition new_from_bytes (addr : list Z) : outcome AddressError Address :=
  if decide (length addr <= 1)%nat then Err InvalidLength
  else
    b <- index_or_panic (addr !! 0%nat) ;;
    p <- Protocol_try_from b ;;
    new p (drop 1 addr).

(** [expect] on the varint decoding of the payload. *)
Definition as_id {E} (a : Address) : outcome E (option Z) :=
  match protocol a with
  | Id => '(id, _) <- index_or_panic (varint_decode (payload a)) ;; Ok (Some id)
  | _ => Ok None
  end.

Definition as_bytes (a : Address) : list Z := u8_of_Protocol (protocol a) :: payload a.

Definition address_checksum {E} (a : Address) : outcome E (list Z) := checksum (as_bytes a).

(** [decoded.len() - CHECKSUM_HASH_LEN] underflows on fewer than four bytes: a
    checked build panics there and an unchecked one in [split_at]. *)
Definition new_with_check (p : Protocol) (raw : list Z) (payload_size : nat)
  : outcome AddressError Address :=
  decoded <- base32_decode raw ;;
  if decide (length decoded < CHECKSUM_HASH_LEN)%nat then Panic
  else
    let k := (length decoded - CHECKSUM_HASH_LEN)%nat in
    let pl := take k decoded in
    let sum := drop k decoded in
    if decide (length pl <> payload_size) then Err InvalidPayload
    else
      ok <- validate_checksum (u8_of_Protocol p :: pl) sum ;;
      if ok : bool then Ok (mkAddress p pl) else Err InvalidChecksum.

(** [Display] *)
Definition to_string {E} (net : Network) (a : Address) : outcome E (list Z) :=
  match protocol a with
  | Id =>
      '(id, _) <- index_or_panic (varint_decode (payload a)) ;;
      Ok (prefix net ++ to_decimal (u8_of_Protocol (protocol a)) ++ to_decimal id)
  | Secp256k1 | Actor | Bls =>
      sum <- checksum (as_bytes a) ;;
      Ok (prefix net ++ to_decimal (u8_of_Protocol (protocol a)) ++ base32_encode (payload a ++ sum))
  end.

(** [&s[i..j]] on a string: both ends must be character boundaries, that is,
    not fall on a UTF-8 continuation byte. *)
Definition is_char_boundary (s : list Z) (i : nat) : bool :=
  match s !! i with
  | Some b => negb ((128 <=? b) && (b <? 192))
  | None => bool_decide (i = length s)
  end.

Definition str_slice {E} (s : list Z) (i j : nat) : outcome E (list Z) :=
  if is_char_boundary s i && is_char_boundary s j then Ok (take (j - i) (drop i s)) else Panic.

(** [FromStr] *)
Definition from_str (net : Network) (s : list Z) : outcome AddressError Address :=
  if bool_decide (length s < 3)%nat || bool_decide (MAX_ADDRESS_STRING_LEN < length s)%nat
  then Err InvalidLength
  else
    n <- str_slice s 0 1 ;;
    if bool_decide (n = NETWORK_MAINNET_PREFIX) || bool_decide (n = NETWORK_TESTNET_PREFIX) then
      if decide (n <> prefix net) then Err MismatchNetwork
      else
        p <- str_slice s 1 2 ;;
        protocol <-
          (if decide (p = str "0") then Ok Id
           else if decide (p = str "1") then Ok Secp256k1
           else if decide (p = str "2") then Ok Actor
           else if decide (p = str "3") then Ok Bls
           else Err UnknownProtocol) ;;
        raw <- str_slice s 2 (length s) ;;
        match protocol with
        | Id =>
            if decide (MAX_U64_LEN < length raw)%nat then Err InvalidLength
            else
              match parse_u64 raw with
              | Some id => new_id_addr id
              | None => Err InvalidPayload
              end
        | Secp256k1 => new_with_check Secp256k1 raw PAYLOAD_HASH_LEN
        | Actor => new_with_check Actor raw PAYLOAD_HASH_LEN
        | Bls => new_with_check Bls raw BLS_PUBLIC_KEY_LEN
        end
    else Err UnknownNetwork.

(** serde.rs: CBOR as a byte string, JSON as the display string (the string a
    JSON document holds is represented by its bytes). *)
Definition encode_address `{Minicbor} (a : Address) : list Z := e_bytes (as_bytes a).

Definition decode_address `{Minicbor} : decoder Address :=
  bytes <~ d_bytes ;;
  fun rest =>
    map_err (fun _ => Message "expected address bytes")
      (a <- new_from_bytes bytes ;; Ok (a, rest)).

Definition serialize_address {E} (net : Network) (a : Address) : outcome E (list Z) :=
  to_string net a.

Definition deserialize_address (net : Network) (s : list Z) : outcome AddressError Address :=
  from_str net s.

(** ** What the constructors guarantee *)
Definition valid_addr (a : Address) : Prop :=
  match protocol a with
  | Id => exists n, u64 n /\ payload a = varint_encode n
  | Secp256k1 | Actor => bytes_ok (payload a) /\ length (payload a) = PAYLOAD_HASH_LEN
  | Bls => bytes_ok (payload a) /\ length (payload a) = BLS_PUBLIC_KEY_LEN
  end.

Context `{!AddressDepsLaws _}.

Lemma blake2b_variable_ok {E} bs n :
  (1 <= n <= 64)%nat -> @blake2b_variable E bs n = Ok (blake2b bs n).
Proof.
  intros [Hp Hn]. unfold blake2b_variable.
  by rewrite !decide_True by (done || by apply blake2b_length).
Qed.

Lemma checksum_ok {E} bs : @checksum E bs = Ok (blake2b bs 4).
Proof. apply blake2b_variable_ok. unfold CHECKSUM_HASH_LEN. lia. Qed.

Lemma upper_lower s : Forall base32_char s -> to_ascii_uppercase (to_ascii_lowercase s) = s.
Proof.
  induction 1 as [|c s Hc _ IH]; [done|]. cbn. f_equal; [|exact IH].
  unfold base32_char in Hc.
  destruct (Z.leb_spec 65 c), (Z.leb_spec c 90); cbn; try lia;
    destruct (Z.leb_spec 97 (c + 32)), (Z.leb_spec (c + 32) 122); cbn; try lia;
    destruct (Z.leb_spec 97 c), (Z.leb_spec c 122); cbn; lia.
Qed.

Lemma base32_decode_encode bs : bytes_ok bs -> base32_decode (base32_encode bs) = Ok bs.
Proof.
  intros Hok. unfold base32_decode, base32_encode.
  by rewrite upper_lower, base32_roundtrip by auto using base32_alphabet.
Qed.

(** The lower-case text starts with an ASCII character. *)
Lemma base32_encode_ascii bs : bytes_ok bs -> Forall (fun c => 0 <= c < 128) (base32_encode bs).
Proof.
  intros Hok. unfold base32_encode, to_ascii_lowercase. apply Forall_map.
  eapply Forall_impl; [by apply base32_alphabet|]. intros c Hc. unfold base32_char in Hc.
  cbn. destruct (_ && _); lia.
Qed.

Lemma length_base32_encode bs : length (base32_encode bs) = ((8 * length bs + 4) / 5)%nat.
Proof. unfold base32_encode, to_ascii_lowercase. by rewrite length_map, base32_length. Qed.

(** [from_str] behind the two leading characters. *)
Definition from_body (p : Protocol) (raw : list Z) : outcome AddressError Address :=
  match p with
  | Id =>
      if decide (MAX_U64_LEN < length raw)%nat then Err InvalidLength
      else match parse_u64 raw with Some id => new_id_addr id | None => Err InvalidPayload end
  | Secp256k1 => new_with_check Secp256k1 raw PAYLOAD_HASH_LEN
  | Actor => new_with_check Actor raw PAYLOAD_HASH_LEN
  | Bls => new_with_check Bls raw BLS_PUBLIC_KEY_LEN
  end.

Lemma from_str_body net net' p body :
  (1 <= length body <= 84)%nat -> Forall (fun c => 0 <= c < 128) body ->
  from_str net' (prefix net ++ to_decimal (u8_of_Protocol p) ++ body) =
  (if decide (net = net') then from_body p body else Err MismatchNetwork).
Proof.
  intros Hl Ha. destruct body as [|c body]; [cbn in Hl; lia|].
  apply Forall_inv in Ha.
  assert (Hc : negb ((128 <=? c) && (c <? 192)) = true).
  { rewrite (proj2 (Z.leb_gt 128 c)) by lia. done. }
  assert (Hs : exists f d, prefix net = [f] /\ to_decimal (u8_of_Protocol p) = [d] /\
    (f = 102 \/ f = 116) /\ d = 48 + u8_of_Protocol p).
  { exists (match net with Main => 102 | Test => 116 end), (48 + u8_of_Protocol p).
    destruct net, p; vm_compute; auto 10. }
  destruct Hs as (f & d & Hf & Hd & Hf' & Hd'). rewrite Hf, Hd. cbn [app].
  unfold from_str. set (s := f :: d :: c :: body).
  assert (Hlen : length s = (2 + length (c :: body))%nat) by done.
  rewrite (bool_decide_eq_false_2 (length s < 3)%nat) by (cbn in *; lia).
  rewrite (bool_decide_eq_false_2 (MAX_ADDRESS_STRING_LEN < _)%nat)
    by (unfold MAX_ADDRESS_STRING_LEN; lia).
  cbn [orb].
  assert (Hb0 : is_char_boundary s 0 = true) by (destruct Hf'; subst; done).
  assert (Hb1 : is_char_boundary s 1 = true) by (subst d; by destruct p).
  assert (Hb2 : is_char_boundary s 2 = true) by done.
  assert (Hbl : is_char_boundary s (length s) = true).
  { unfold is_char_boundary. rewrite lookup_ge_None_2 by lia. by apply bool_decide_eq_true_2. }
  unfold str_slice. rewrite Hb0, Hb1, Hb2, Hbl. cbn [andb bind].
  change (take (1 - 0) (drop 0 s)) with [f]. change (take (2 - 1) (drop 1 s)) with [d].
  replace (take (length s - 2) (drop 2 s)) with (c :: body)
    by (rewrite Hlen; cbn [drop s]; by rewrite take_ge by (cbn; lia)).
  assert (Hpre : bool_decide ([f] = NETWORK_MAINNET_PREFIX) || bool_decide ([f] = NETWORK_TESTNET_PREFIX) = true)
    by (destruct Hf'; subst; done).
  rewrite Hpre, <- Hf. destruct net, net'; cbn -[from_body new_with_check parse_u64 new_id_addr]; subst d; destruct p; done.
Qed.

Lemma new_with_check_encode p pl n :
  bytes_ok pl -> length pl = n -> p <> Id ->
  new_with_check p (base32_encode (pl ++ blake2b (u8_of_Protocol p :: pl) 4)) n = Ok (mkAddress p pl).
Proof.
  intros Hok Hl Hp. set (sum := blake2b (u8_of_Protocol p :: pl) 4).
  assert (Hs : length sum = 4%nat) by (apply blake2b_length; lia).
  unfold new_with_check. rewrite base32_decode_encode.
  2:{ apply bytes_ok_app. split; [done|apply blake2b_ok]. }
  cbn [bind]. unfold CHECKSUM_HASH_LEN. rewrite length_app, Hs.
  rewrite decide_False by lia. replace (length pl + 4 - 4)%nat with (length pl) by lia.
  rewrite take_app_length, drop_app_length. rewrite decide_False by lia.
  unfold validate_checksum. rewrite checksum_ok. cbn [bind].
  fold sum. by rewrite bool_decide_eq_true_2.
Qed.

Lemma hashed_body p pl n :
  bytes_ok pl -> length pl = n -> (n = PAYLOAD_HASH_LEN \/ n = BLS_PUBLIC_KEY_LEN) -> p <> Id ->
  let body := base32_encode (pl ++ blake2b (u8_of_Protocol p :: pl) 4) in
  (1 <= length body <= 84)%nat /\ Forall (fun c => 0 <= c < 128) body /\
  new_with_check p body n = Ok (mkAddress p pl).
Proof.
  intros Hok Hl Hn Hp body. split; [|split].
  - unfold body. rewrite length_base32_encode, length_app, blake2b_length by lia.
    rewrite Hl. destruct Hn as [-> | ->]; vm_compute; lia.
  - apply base32_encode_ascii, bytes_ok_app. split; [done|apply blake2b_ok].
  - by apply new_with_check_encode.
Qed.

Lemma to_string_valid net a :
  valid_addr a ->
  exists body, (forall E, @to_string E net a =
    Ok (prefix net ++ to_decimal (u8_of_Protocol (protocol a)) ++ body)) /\
    (1 <= length body <= 84)%nat /\ Forall (fun c => 0 <= c < 128) body /\
    from_body (protocol a) body = Ok a.
Proof.
  intros Hv. destruct a as [p pl]. unfold valid_addr, to_string in *. cbn [protocol payload] in *.
  destruct p.
  - destruct Hv as (n & Hn & ->). exists (to_decimal n).
    destruct (to_decimal_ok n Hn) as [Hd Hl].
    split; [intros E; by rewrite varint_roundtrip|]. split; [lia|]. split.
    + eapply Forall_impl; [exact Hd|]. unfold digit. cbn. lia.
    + unfold from_body, MAX_U64_LEN. rewrite decide_False by lia. by rewrite parse_to_decimal.
  - destruct Hv as [Hok Hl]. eexists. split; [intros E; by rewrite checksum_ok|].
    apply hashed_body; auto.
  - destruct Hv as [Hok Hl]. eexists. split; [intros E; by rewrite checksum_ok|].
    apply hashed_body; auto.
  - destruct Hv as [Hok Hl]. eexists. split; [intros E; by rewrite checksum_ok|].
    apply hashed_body; auto.
Qed.

Lemma valid_as_bytes a : valid_addr a -> vec_u8 (as_bytes a) /\ (2 <= length (as_bytes a))%nat.
Proof.
  intros Hv. destruct a as [p pl]. unfold as_bytes, vec_u8, len_u64. cbn [protocol payload length].
  assert (Hu : u8 (u8_of_Protocol p)) by (destruct p; cbn; unfold u8; lia).
  assert (Hpl : bytes_ok pl /\ (1 <= length pl <= 48)%nat).
  { unfold valid_addr in Hv. cbn in Hv. destruct p.
    - destruct Hv as (n & Hn & ->). split; [by apply varint_ok|].
      pose proof (varint_nonempty n Hn). pose proof (varint_short n Hn).
      destruct (varint_encode n); [done|cbn in *; lia].
    - destruct Hv as [? ->]. split; [done|vm_compute; lia].
    - destruct Hv as [? ->]. split; [done|vm_compute; lia].
    - destruct Hv as [? ->]. split; [done|vm_compute; lia]. }
  destruct Hpl as [Hok Hl]. repeat split; [by constructor|lia..].
Qed.

Lemma Protocol_roundtrip p : Protocol_try_from (u8_of_Protocol p) = Ok p.
Proof. by destruct p. Qed.

Lemma new_valid a : valid_addr a -> new (protocol a) (payload a) = Ok a.
Proof.
  destruct a as [p pl]. unfold valid_addr, new. cbn.
  destruct p; [done|..]; intros [_ Hl]; by rewrite decide_True.
Qed.

Lemma new_from_as_bytes a : valid_addr a -> new_from_bytes (as_bytes a) = Ok a.
Proof.
  intros Hv. destruct (valid_as_bytes a Hv) as [_ Hl]. unfold new_from_bytes.
  rewrite decide_False by lia. unfold as_bytes. cbn [lookup list_lookup index_or_panic bind drop].
  rewrite Protocol_roundtrip. cbn [bind]. by apply new_valid.
Qed.

Lemma reads_address `{MinicborLaws} a : valid_addr a -> reads decode_address (encode_address a) a.
Proof.
  intros Hv rest. unfold decode_address, encode_address, dbind.
  rewrite reads_bytes by (by apply valid_as_bytes). cbn [bind].
  by rewrite new_from_as_bytes.
Qed.

Lemma new_hash_valid p data a :
  p <> Id -> p <> Bls -> (h <- address_hash data ;; new p h) = Ok a -> valid_addr a.
Proof.
  intros Hp Hp'. unfold address_hash. rewrite blake2b_variable_ok by (vm_compute; lia).
  cbn [bind]. unfold new, valid_addr.
  destruct p; try done; destruct (decide _) as [Hl|]; [|done| |done]; intros [= <-]; cbn;
    split; [apply blake2b_ok|done|apply blake2b_ok|done].
Qed.

Lemma new_id_addr_valid n : u64 n -> exists a, new_id_addr n = Ok a /\ valid_addr a /\ protocol a = Id.
Proof. intros Hn. eexists. split; [done|]. split; [by exists n|done]. Qed.

Lemma new_with_check_valid p raw n a :
  (p = Bls /\ n = BLS_PUBLIC_KEY_LEN \/ (p = Secp256k1 \/ p = Actor) /\ n = PAYLOAD_HASH_LEN) ->
  new_with_check p raw n = Ok a -> valid_addr a.
Proof.
  intros Hp. unfold new_with_check. intros (dec & Hd & H1)%bind_ok.
  destruct (decide _); [done|]. destruct (decide _) as [|Hl]; [done|].
  apply bind_ok in H1 as ([] & _ & H1); [|done]. injection H1 as <-.
  unfold base32_decode in Hd. destruct (base32_nopad_decode _) eqn:Hb; cbn in Hd; [|done].
  injection Hd as <-. apply base32_decode_ok in Hb.
  assert (Hok : bytes_ok (take (length l - CHECKSUM_HASH_LEN) l)) by (by apply Forall_take).
  apply dec_stable in Hl. unfold valid_addr. cbn.
  destruct Hp as [[-> ->]|[[-> | ->] ->]]; by split.
Qed.

(** Every way to make an address from outside yields a valid one, except
    [new_from_bytes], which does not look into an [Id] payload. *)
Lemma from_str_valid net s a : from_str net s = Ok a -> valid_addr a.
Proof.
  unfold from_str. destruct (_ || _); [done|]. intros (n & _ & H1)%bind_ok.
  destruct (_ || _); [|done]. destruct (decide _); [done|].
  apply bind_ok in H1 as (p & _ & H1). apply bind_ok in H1 as (pr & _ & H1).
  apply bind_ok in H1 as (raw & _ & H1). destruct pr.
  - destruct (decide _); [done|]. destruct (parse_u64 raw) as [id|] eqn:Hp; [|done].
    destruct (new_id_addr_valid id) as (a' & Ha & Hv & _); [by eapply parse_u64_range|].
    congruence.
  - eapply new_with_check_valid; [|exact H1]. auto.
  - eapply new_with_check_valid; [|exact H1]. auto.
  - eapply new_with_check_valid; [|exact H1]. auto.
Qed.

End Address.

#[export] Hint Resolve reads_address : cbor.
