(* ===== verification/AddressRef.v ===== *)
(** * An implementation of the crates the addresses use

    LEB128 varints and the RFC 4648 base 32 alphabet without padding, written
    from the formats; the digest is a fixed-length stand-in (no law of the
    interface depends on its value). *)

From Stdlib Require Import ZArith Lia String.
From stdpp Require Import base numbers list.
From S2P Require Import Prelude Cbor CborRef Address.

Local Open Scope Z_scope.

(** ** Varints *)
Fixpoint leb128 (fuel : nat) (n : Z) : list Z :=
  match fuel with
  | O => []
  | S fuel' => if n <? 128 then [n] else (128 + n mod 128) :: leb128 fuel' (n / 128)
  end.

Fixpoint unleb128 (fuel : nat) (first : bool) (bs : list Z) : option (Z * list Z) :=
  match fuel, bs with
  | S fuel', b :: rest =>
      if b <? 128 then
        if (b =? 0) && negb first then None else Some (b, rest)
      else
        '(n, rest') ← unleb128 fuel' false rest;
        Some (b - 128 + 128 * n, rest')
  | _, _ => None
  end.

Lemma unleb_leb fuel first n :
  0 <= n < 128 ^ Z.of_nat fuel -> (n = 0 -> first = true) -> (0 < fuel)%nat ->
  unleb128 fuel first (leb128 fuel n) = Some (n, []).
Proof.
  revert first n. induction fuel as [|fuel IH]; intros first n Hn Hf Hpos; [lia|].
  rewrite Nat2Z.inj_succ, Z.pow_succ_r in Hn by lia. cbn [leb128].
  assert (0 <= n mod 128 < 128) by (apply Z.mod_pos_bound; lia).
  destruct (Z.ltb_spec n 128).
  - cbn [unleb128]. rewrite (proj2 (Z.ltb_lt _ _)) by lia.
    destruct (Z.eqb_spec n 0) as [->|]; [by rewrite Hf|done].
  - cbn [unleb128]. rewrite (proj2 (Z.ltb_ge _ _)) by lia.
    assert (Hq : 0 < n / 128) by (apply Z.div_str_pos; lia).
    rewrite IH.
    + cbn. do 2 f_equal. pose proof (Z.div_mod n 128). lia.
    + split; [lia|]. apply Z.div_lt_upper_bound; lia.
    + lia.
    + destruct fuel; [cbn in Hn; lia|lia].
Qed.

Lemma leb128_ok fuel n : 0 <= n -> bytes_ok (leb128 fuel n).
Proof.
  revert n. induction fuel as [|fuel IH]; intros n Hn; [constructor|]. cbn.
  assert (0 <= n mod 128 < 128) by (apply Z.mod_pos_bound; lia).
  destruct (Z.ltb_spec n 128); constructor; unfold u8; try lia; [constructor|].
  apply IH. apply Z.div_pos; lia.
Qed.

Lemma length_leb128 fuel n : (length (leb128 fuel n) <= fuel)%nat.
Proof.
  revert n. induction fuel as [|fuel IH]; intros n; cbn; [lia|].
  destruct (n <? 128); cbn; [lia|]. specialize (IH (n / 128)). lia.
Qed.

(** ** Base 32: the bytes as one number, in digits of five bits *)
Fixpoint split32 (n : nat) (z : Z) : list Z :=
  match n with
  | O => []
  | S n' => split32 n' (z / 32) ++ [z mod 32]
  end.

Definition combine32 (ds : list Z) : Z := fold_left (fun acc d => acc * 32 + d) ds 0.

Lemma combine_split32 n z : 0 <= z < 32 ^ Z.of_nat n -> combine32 (split32 n z) = z.
Proof.
  revert z. induction n as [|n IH]; intros z Hz; [cbn in *; lia|].
  rewrite Nat2Z.inj_succ, Z.pow_succ_r in Hz by lia. cbn [split32].
  unfold combine32 in *. rewrite fold_left_app. cbn [fold_left]. rewrite IH.
  - pose proof (Z.div_mod z 32). lia.
  - split; [apply Z.div_pos; lia|]. apply Z.div_lt_upper_bound; lia.
Qed.

Lemma length_split32 n z : length (split32 n z) = n.
Proof. revert z. induction n; intros z; cbn; [done|]. rewrite length_app, IHn. cbn. lia. Qed.

Lemma split32_range n z : Forall (fun d => 0 <= d < 32) (split32 n z).
Proof.
  revert z. induction n as [|n IH]; intros z; cbn; [constructor|]. apply Forall_app.
  split; [apply IH|]. apply Forall_singleton. apply Z.mod_pos_bound. lia.
Qed.

Definition to_char (d : Z) : Z := if d <? 26 then 65 + d else 50 + (d - 26).
Definition of_char (c : Z) : option Z :=
  if (65 <=? c) && (c <=? 90) then Some (c - 65)
  else if (50 <=? c) && (c <=? 55) then Some (c - 50 + 26)
  else None.

Lemma of_to_char d : 0 <= d < 32 -> of_char (to_char d) = Some d.
Proof.
  intros Hd. unfold to_char, of_char. destruct (Z.ltb_spec d 26).
  - rewrite (proj2 (Z.leb_le _ _)), (proj2 (Z.leb_le _ _)) by lia. cbn. f_equal. lia.
  - rewrite (proj2 (Z.leb_gt _ _)) by lia. cbn.
    rewrite (proj2 (Z.leb_le _ _)), (proj2 (Z.leb_le _ _)) by lia. cbn. f_equal. lia.
Qed.

(** [n] bytes take [(8 n + 4) / 5] digits; [m] digits hold [5 m / 8] bytes. *)
Definition digits_for (n : nat) : nat := ((8 * n + 4) / 5)%nat.

Definition enc32 (bs : list Z) : list Z :=
  let m := digits_for (length bs) in
  let pad := Z.of_nat (5 * m - 8 * length bs) in
  map to_char (split32 m (be_combine bs * 2 ^ pad)).

Definition dec32 (s : list Z) : option (list Z) :=
  ds ← mapM of_char s;
  let m := length ds in
  let n := (5 * m / 8)%nat in
  let pad := Z.of_nat (5 * m - 8 * n) in
  let z := combine32 ds in
  if bool_decide (digits_for n = m) && (z mod 2 ^ pad =? 0)
  then Some (be_split n (z / 2 ^ pad)) else None.

Lemma be_combine_bound bs : bytes_ok bs -> 0 <= be_combine bs < 256 ^ Z.of_nat (length bs).
Proof.
  induction bs as [|b bs IH] using rev_ind; intros Hok; [vm_compute; split; congruence|].
  apply bytes_ok_app in Hok as [Hok Hb]. apply Forall_inv in Hb. unfold u8 in Hb.
  rewrite be_combine_snoc, length_app. cbn [length]. rewrite Nat.add_1_r, Nat2Z.inj_succ.
  rewrite Z.pow_succ_r by lia. specialize (IH Hok).
  set (p := 256 ^ _) in *. lia.
Qed.

Lemma be_split_combine bs : bytes_ok bs -> be_split (length bs) (be_combine bs) = bs.
Proof.
  induction bs as [|b bs IH] using rev_ind; intros Hok; [done|].
  apply bytes_ok_app in Hok as [Hok Hb]. apply Forall_inv in Hb. unfold u8 in Hb.
  rewrite be_combine_snoc, length_app. cbn [length]. rewrite Nat.add_1_r. cbn [be_split].
  rewrite Z.div_add_l by lia. rewrite Z.div_small, Z.add_0_r by lia. rewrite IH by done.
  f_equal. rewrite Z.add_comm, Z.mod_add by lia. by rewrite Z.mod_small by lia.
Qed.

Lemma digits_for_spec n :
  (8 * n <= 5 * digits_for n < 8 * n + 5 /\ 5 * digits_for n / 8 = n)%nat.
Proof.
  unfold digits_for. assert (H := Nat.div_mod_eq (8 * n + 4) 5).
  assert (H' := Nat.mod_upper_bound (8 * n + 4) 5 ltac:(lia)).
  set (q := ((8 * n + 4) / 5)%nat) in *. split; [lia|].
  symmetry. apply Nat.div_unique with (5 * q - 8 * n)%nat; lia.
Qed.

Lemma mapM_of_char ds : Forall (fun d => 0 <= d < 32) ds -> mapM of_char (map to_char ds) = Some ds.
Proof. induction 1 as [|d ds Hd _ IH]; [done|]. cbn. rewrite of_to_char by done. cbn. by rewrite IH. Qed.

Lemma dec_enc32 bs : bytes_ok bs -> dec32 (enc32 bs) = Some bs.
Proof.
  intros Hok. unfold dec32, enc32. destruct (digits_for_spec (length bs)) as [Hm Hdiv].
  rewrite mapM_of_char by apply split32_range. cbn [mbind option_bind].
  rewrite length_split32, Hdiv, bool_decide_eq_true_2 by done. cbn [andb].
  set (pad := Z.of_nat _). assert (Hpad : 0 < 2 ^ pad) by (apply Z.pow_pos_nonneg; lia).
  assert (Hb := be_combine_bound bs Hok).
  rewrite combine_split32.
  - rewrite Z.mod_mul, Z.div_mul by lia. cbn. by rewrite be_split_combine.
  - split; [lia|]. change 32 with (2 ^ 5). rewrite <- Z.pow_mul_r by lia.
    replace (5 * Z.of_nat (digits_for (length bs))) with (8 * Z.of_nat (length bs) + pad) by lia.
    rewrite Z.pow_add_r by lia. apply Z.mul_lt_mono_pos_r; [done|].
    rewrite Z.pow_mul_r by lia. apply Hb.
Qed.

(** ** The instance *)
#[export] Instance address_deps_ref : AddressDeps := {|
  varint_encode n := leb128 10 n;
  varint_decode bs := unleb128 10 true bs;
  base32_nopad_encode := enc32;
  base32_nopad_decode := dec32;
  blake2b bs n := be_split n (be_combine bs + 77);
|}.

#[export] Instance address_deps_ref_laws : AddressDepsLaws address_deps_ref.
Proof.
  split; cbn [varint_encode varint_decode base32_nopad_encode base32_nopad_decode blake2b
              address_deps_ref].
  - intros n Hn. apply unleb_leb; [|done|lia]. unfold u64 in Hn.
    change (128 ^ Z.of_nat 10) with (2 ^ 70). lia.
  - intros n Hn. apply leb128_ok. unfold u64 in Hn. lia.
  - intros n Hn. cbn [leb128]. by destruct (n <? 128).
  - intros n Hn. apply length_leb128.
  - apply dec_enc32.
  - intros bs Hok. unfold enc32. apply Forall_map. eapply Forall_impl; [apply split32_range|].
    intros d Hd. cbn beta in Hd. unfold base32_char, to_char. destruct (Z.ltb_spec d 26); lia.
  - intros bs. unfold enc32. by rewrite length_map, length_split32.
  - intros s bs. unfold dec32. intros (ds & _ & H)%bind_Some. cbn in H.
    destruct (_ && _); [|done]. injection H as <-. apply be_split_ok.
  - intros bs n _. apply length_be_split.
  - intros bs n. apply be_split_ok.
Qed.

(** The codec vector of the crate's test module. *)
Example test_base32_codec :
  base32_encode [253; 29; 15; 77; 252; 215; 233; 154; 252; 185; 154; 131; 38; 183; 220; 69; 157;
                 50; 198; 40; 148; 236; 248; 227]
  = str "7uoq6tp427uzv7fztkbsnn64iwotfrristwpryy".
Proof. vm_compute. reflexivity. Qed.

Example test_id_payload : new_id_addr 12512063 = Ok (mkAddress Id [191; 214; 251; 5]).
Proof. vm_compute. reflexivity. Qed.

(** ** The properties *)

(** C19: displaying an address that a constructor made and parsing the text on
    the same network returns the address, for all four protocols; on the other
    network parsing fails with [MismatchNetwork]. *)
Theorem address_string_roundtrip `{AddressDepsLaws} (net net' : Network) (a : Address) :
  valid_addr a ->
  exists s, @to_string _ AddressError net a = Ok s /\
    from_str net' s = (if decide (net = net') then Ok a else Err MismatchNetwork).
Proof.
  intros Hv. destruct (to_string_valid net a Hv) as (body & Hs & Hl & Ha & Hb).
  eexists. split; [apply Hs|]. rewrite from_str_body by done. by rewrite Hb.
Qed.

Lemma address_string_roundtrip_witness :
  exists s, @to_string _ AddressError Test (mkAddress Actor (replicate 20 7)) = Ok s /\
    from_str Test s = (if decide (Test = Test) then Ok (mkAddress Actor (replicate 20 7)) else Err MismatchNetwork).
Proof.
  apply (address_string_roundtrip Test Test). split; [|reflexivity].
  apply Forall_replicate. unfold u8. lia.
Defined.

(** The byte form (protocol byte, then payload) of a valid address is read
    back to the same address, alone and inside any CBOR document. *)
Theorem address_bytes_roundtrip `{AddressDepsLaws} `{MinicborLaws} (a : Address) (rest : list Z) :
  valid_addr a ->
  new_from_bytes (as_bytes a) = Ok a /\
  decode_address (encode_address a ++ rest) = Ok (a, rest).
Proof. intros Hv. split; [by apply new_from_as_bytes|by apply reads_address]. Qed.

Lemma address_bytes_roundtrip_witness :
  new_from_bytes (as_bytes (mkAddress Bls (replicate 48 1))) = Ok (mkAddress Bls (replicate 48 1)) /\
  decode_address (encode_address (mkAddress Bls (replicate 48 1)) ++ [7])
    = Ok (mkAddress Bls (replicate 48 1), [7]).
Proof.
  apply (address_bytes_roundtrip (mkAddress Bls (replicate 48 1)) [7]). split; [|reflexivity].
  apply Forall_replicate. unfold u8. lia.
Defined.

(** Parsing is sound: a text that parses yields a valid address (a
    well-formed varint for [Id], 20 or 48 bytes otherwise), so that printing it
    and every later [as_id] succeed; and the constructors for secp256k1 and
    actor addresses only make valid ones. *)
Theorem address_constructors_valid `{AddressDepsLaws} (net : Network) (s data : list Z) (a : Address) :
  (from_str net s = Ok a \/ new_secp256k1_addr data = Ok a \/ new_actor_addr data = Ok a) ->
  valid_addr a /\ exists text, @to_string _ AddressError net a = Ok text.
Proof.
  intros Hc. assert (Hv : valid_addr a).
  { destruct Hc as [Hc|[Hc|Hc]].
    - by eapply from_str_valid.
    - unfold new_secp256k1_addr in Hc. destruct (_ && _); [done|]. by eapply new_hash_valid; [..|exact Hc].
    - by eapply new_hash_valid; [..|exact Hc]. }
  split; [done|]. destruct (to_string_valid net a Hv) as (body & Hs & _). by eexists.
Qed.

Lemma address_constructors_valid_witness :
  valid_addr (mkAddress Id [191; 214; 251; 5]) /\
  exists text, @to_string _ AddressError Test (mkAddress Id [191; 214; 251; 5]) = Ok text.
Proof.
  apply (address_constructors_valid Test (str "t012512063") []). left. vm_compute. reflexivity.
Defined.

(** An identifier survives the address: [as_id] of [new_id_addr id] is
    [id], and every other protocol has no identifier. *)
Theorem address_as_id `{AddressDepsLaws} (id : Z) (a : Address) :
  u64 id ->
  (exists b, new_id_addr id = Ok b /\ @as_id _ AddressError b = Ok (Some id)) /\
  (protocol a <> Id -> @as_id _ AddressError a = Ok None).
Proof.
  intros Hid. split.
  - eexists. split; [done|]. unfold as_id. cbn. by rewrite varint_roundtrip.
  - unfold as_id. by destruct (protocol a).
Qed.

Lemma address_as_id_witness :
  (exists b, new_id_addr 1024 = Ok b /\ @as_id _ AddressError b = Ok (Some 1024)) /\
  (Bls <> Id -> @as_id _ AddressError (mkAddress Bls []) = Ok None).
Proof. apply (address_as_id 1024 (mkAddress Bls [])). unfold u64. lia. Defined.

(** Parsing an address text can panic instead of reporting an error: a
    payload that decodes to fewer than four bytes (["t1aa"]) underflows the
    checksum split, a text whose first character is not ASCII is sliced inside
    the character, and an [Id] address read from bytes with a broken varint
    cannot be printed. *)
Theorem address_parse_panics :
  from_str Test (str "t1aa") = Panic /\
  from_str Test [195; 169; 48; 49] = Panic /\
  new_from_bytes [0; 128] = Ok (mkAddress Id [128]) /\
  @to_string _ AddressError Test (mkAddress Id [128]) = Panic.
Proof. repeat split; vm_compute; reflexivity. Qed.
