(* ===== verification/Wrappers.v ===== *)
(** * The serialization wrappers of the primitives

    [primitives/bigint] (the CBOR forms of [BigInt] and [BigUint] and the
    human-readable size), [primitives/bytes], [primitives/hash] ([H256]) and
    [primitives/peerid]. *)

From Stdlib Require Import ZArith Lia String.
From stdpp Require Import base numbers list.
From S2P Require Import Prelude Decimal Cbor CborRef.

Local Open Scope Z_scope.

(** ** [BigIntWrapper], [BigIntRefWrapper]: a sign byte, then the magnitude *)
Definition encode_bigint `{Minicbor} `{NumBigint} (int : Z) : list Z :=
  let '(sign, v) := bigint_to_bytes_be int in
  e_bytes (match sign with
           | Plus => 0 :: v
           | Minus => 1 :: v
           | NoSign => []
           end).

Definition decode_bigint `{Minicbor} `{NumBigint} : decoder Z :=
  v <~ d_bytes ;;
  match v with
  | [] => dret 0
  | 0 :: v' => dret (bigint_from_bytes_be Plus v')
  | 1 :: v' => dret (bigint_from_bytes_be Minus v')
  | _ => dfail (Message "big int prefix should be either 0 or 1")
  end.

(** ** [BigUintWrapper], [BigUintRefWrapper]: a zero byte, then the magnitude *)
Definition encode_biguint `{Minicbor} `{NumBigint} (uint : Z) : list Z :=
  let v := biguint_to_bytes_be uint in
  e_bytes (if decide (v = [0]) then [] else 0 :: v).

Definition decode_biguint `{Minicbor} `{NumBigint} : decoder Z :=
  bytes <~ d_bytes ;;
  dret (biguint_from_bytes_be bytes).

(** ** [Bytes], [BytesRef] *)
Definition encode_Bytes `{Minicbor} (bs : list Z) : list Z := e_bytes bs.
Definition decode_Bytes `{Minicbor} : decoder (list Z) := d_bytes.

(** ** [H256] *)
Definition h256_ok (h : list Z) : Prop := bytes_ok h /\ length h = 32%nat.

Definition encode_H256 `{Minicbor} (h : list Z) : list Z := e_bytes h.

Definition decode_H256 `{Minicbor} : decoder (list Z) :=
  bytes <~ d_bytes ;;
  if decide (length bytes = 32%nat) then dret bytes
  else dfail (Message "H256 length must be 32 Bytes").

(** ** [PeerIdWrapper]: the text of [libp2p_core::PeerId] *)
Class PeerIdLib := {
  PeerId : Type;
  PeerId_eq_dec :: EqDecision PeerId;
  peer_to_string : PeerId -> list Z;
  peer_parse : list Z -> option PeerId;
}.

Class PeerIdLaws (P : PeerIdLib) : Prop := {
  peer_parse_to_string p : peer_parse (peer_to_string p) = Some p;
  peer_text_ok p : vec_u8 (peer_to_string p);
}.

Definition encode_PeerId `{Minicbor} `{PeerIdLib} (p : PeerId) : list Z :=
  e_str (peer_to_string p).

Definition decode_PeerId `{Minicbor} `{PeerIdLib} : decoder PeerId :=
  s <~ d_str ;;
  match peer_parse s with
  | Some p => dret p
  | None => dfail (Message "Parse PeerId error")
  end.

(** ** [bigint_size_str], [biguint_size_str]

    [fmt3 part size] is the text [format!("{:0.3}", part / 1024_f64 + size)]
    of the binary floating-point sum, [None] where [to_f64] has no value. *)
Definition SIZE_UNITS : list (list Z) :=
  [str "B"; str "KiB"; str "MiB"; str "GiB"; str "TiB"; str "PiB"; str "EiB"; str "ZiB"].

(** The [while] loop; at most seven rounds pass its second condition. *)
Fixpoint size_loop (fuel : nat) (size : Z) (i : nat) (decimal : Z) : outcome unit (Z * nat * Z) :=
  match fuel with
  | O => OutOfFuel
  | S fuel' =>
      if (1024 <=? size) && (i + 1 <? length SIZE_UNITS)%nat
      then size_loop fuel' (Z.shiftr size 10) (i + 1) (Z.land size 1023)
      else Ok (size, i, decimal)
  end.

Section SizeStr.
Context (fmt3 : Z -> Z -> option (list Z)).

Definition biguint_size_str (size : Z) : outcome unit (list Z) :=
  '(size, i, decimal) <- size_loop (length SIZE_UNITS) size 0 0 ;;
  unit_name <- index_or_panic (SIZE_UNITS !! i) ;;
  if decimal =? 0 then Ok (to_decimal size ++ str " " ++ unit_name)
  else out <- index_or_panic (fmt3 decimal size) ;; Ok (out ++ str " " ++ unit_name).

Definition bigint_size_str (size : Z) : outcome unit (list Z) :=
  let sign := sign_of size in
  '(size, i, decimal) <- size_loop (length SIZE_UNITS) (Z.abs size) 0 0 ;;
  unit_name <- index_or_panic (SIZE_UNITS !! i) ;;
  let minus := match sign with Minus => str "-" | _ => [] end in
  if decimal =? 0 then Ok (minus ++ to_decimal size ++ str " " ++ unit_name)
  else out <- index_or_panic (fmt3 decimal size) ;; Ok (minus ++ out ++ str " " ++ unit_name).
End SizeStr.

(** ** The codecs read what they wrote *)
Section Codecs.
Context `{MinicborLaws} `{NumBigintLaws}.

(** An integer whose magnitude fits a byte vector. *)
Definition bigint_fits (z : Z) : Prop := len_u64 (0 :: biguint_to_bytes_be (Z.abs z)).

Lemma fits_vec b z : u8 b -> bigint_fits z -> vec_u8 (b :: biguint_to_bytes_be (Z.abs z)).
Proof. intros Hb Hz. split; [|done]. constructor; [done|]. apply biguint_bytes_ok. lia. Qed.

Lemma reads_bigint z : bigint_fits z -> reads decode_bigint (encode_bigint z) z.
Proof.
  intros Hz. unfold encode_bigint, decode_bigint. pose proof (bigint_sign z) as Hs.
  pose proof (bigint_magnitude z) as Hm. pose proof (bigint_from_to z) as Hf.
  destruct (bigint_to_bytes_be z) as [s v]. cbn in *. subst s v.
  specialize (Hf _ _ eq_refl). intros rest. unfold dbind.
  destruct z; cbn [sign_of] in *.
  - by rewrite reads_bytes by apply vec_u8_nil.
  - rewrite reads_bytes by (apply fits_vec; [unfold u8; lia|done]). cbn. unfold dret. by rewrite Hf.
  - rewrite reads_bytes by (apply fits_vec; [unfold u8; lia|done]). cbn. unfold dret. by rewrite Hf.
Qed.

Lemma reads_biguint_bigint n :
  0 <= n -> bigint_fits n -> reads decode_biguint (encode_bigint n) n.
Proof.
  intros Hn Hf. unfold encode_bigint, decode_biguint. pose proof (bigint_sign n) as Hs.
  pose proof (bigint_magnitude n) as Hm.
  destruct (bigint_to_bytes_be n) as [s v]. cbn in *. subst s v. intros rest. unfold dbind, dret.
  destruct n; [| |lia]; cbn [sign_of] in *.
  - rewrite reads_bytes by apply vec_u8_nil. cbn. by rewrite biguint_from_nil.
  - rewrite reads_bytes by (apply fits_vec; [unfold u8; lia|done]). cbn.
    by rewrite biguint_leading_zero, biguint_from_to.
Qed.

Lemma encode_biguint_bigint n : 0 <= n -> encode_biguint n = encode_bigint n.
Proof.
  intros Hn. unfold encode_bigint, encode_biguint. pose proof (bigint_sign n) as Hs.
  pose proof (bigint_magnitude n) as Hm. rewrite Z.abs_eq in Hm by done.
  destruct (bigint_to_bytes_be n) as [s v]. cbn in *. subst s v.
  destruct (decide _) as [Hz|Hz].
  - apply biguint_zero in Hz as ->; done.
  - destruct n; [|done|lia]. destruct Hz. by apply biguint_zero.
Qed.

Lemma reads_biguint n : 0 <= n -> bigint_fits n -> reads decode_biguint (encode_biguint n) n.
Proof. intros. rewrite encode_biguint_bigint by done. by apply reads_biguint_bigint. Qed.

Lemma reads_H256 h : h256_ok h -> reads decode_H256 (encode_H256 h) h.
Proof.
  intros [Hok Hl] rest. unfold decode_H256, encode_H256, dbind.
  rewrite reads_bytes; [cbn [bind]; by rewrite decide_True|].
  split; [done|]. unfold len_u64. rewrite Hl. lia.
Qed.

Lemma reads_PeerId `{PeerIdLaws} p : reads decode_PeerId (encode_PeerId p) p.
Proof.
  intros rest. unfold decode_PeerId, encode_PeerId, dbind.
  rewrite reads_str by apply peer_text_ok. cbn [bind]. by rewrite peer_parse_to_string.
Qed.
End Codecs.

#[export] Hint Resolve reads_bigint reads_biguint reads_H256 reads_PeerId : cbor.

(** ** The properties *)

(** The CBOR form of a big integer of either sign is read back to the
    integer, the two wrappers write the same bytes for a non-negative value and
    read each other's; a sign byte other than 0 and 1 is an error. *)
Theorem bigint_roundtrip `{MinicborLaws} `{NumBigintLaws} (z : Z) (b : Z) (bs rest : list Z) :
  bigint_fits z -> vec_u8 (b :: bs) -> 1 < b ->
  decode_bigint (encode_bigint z ++ rest) = Ok (z, rest) /\
  (0 <= z -> encode_biguint z = encode_bigint z /\
             decode_biguint (encode_bigint z ++ rest) = Ok (z, rest)) /\
  decode_bigint (e_bytes (b :: bs) ++ rest)
    = Err (Message "big int prefix should be either 0 or 1").
Proof.
  intros Hz Hv Hb. split; [by apply reads_bigint|]. split.
  - intros Hn. split; [by apply encode_biguint_bigint|by apply reads_biguint_bigint].
  - unfold decode_bigint, dbind. rewrite reads_bytes by done. cbn [bind].
    destruct b as [|[p|p|]|]; try lia; done.
Qed.

Lemma bigint_roundtrip_witness :
  decode_bigint (encode_bigint (-1000) ++ [9]) = Ok (-1000, [9]) /\
  (0 <= -1000 -> encode_biguint (-1000) = encode_bigint (-1000) /\
                 decode_biguint (encode_bigint (-1000) ++ [9]) = Ok (-1000, [9])) /\
  decode_bigint (e_bytes [2; 7] ++ [9]) = Err (Message "big int prefix should be either 0 or 1").
Proof.
  apply (bigint_roundtrip (-1000) 2 [7] [9]); [vm_compute; reflexivity| |lia].
  split; [repeat constructor; lia|vm_compute; reflexivity].
Defined.

(** [BigUintWrapper] does not look at the sign byte when it decodes: the
    encoding of -1 is read as 257. *)
Theorem biguint_ignores_sign :
  decode_biguint (encode_bigint (-1)) = Ok (257, []) /\
  decode_bigint (encode_bigint (-1)) = Ok (-1, []).
Proof. split; vm_compute; reflexivity. Qed.

Lemma size_loop_spec fuel size i decimal :
  0 <= size -> (i <= 7)%nat -> (7 - i < fuel)%nat ->
  exists k, (i + k <= 7)%nat /\
    size_loop fuel size i decimal
      = Ok (size / 1024 ^ Z.of_nat k, (i + k)%nat,
            match k with O => decimal | S k' => size / 1024 ^ Z.of_nat k' mod 1024 end) /\
    (size / 1024 ^ Z.of_nat k < 1024 \/ (i + k = 7)%nat) /\
    ((0 < k)%nat -> 1 <= size / 1024 ^ Z.of_nat k).
Proof.
  revert size i decimal. induction fuel as [|fuel IH]; intros size i decimal Hs Hi Hf; [lia|].
  cbn [size_loop]. destruct (Z.leb_spec 1024 size), (Nat.ltb_spec (i + 1) (length SIZE_UNITS)) as [Hl|Hl];
    change (length SIZE_UNITS) with 8%nat in Hl; cbn [andb].
  2-4: exists 0%nat; rewrite Nat.add_0_r; change (1024 ^ Z.of_nat 0) with 1; rewrite Z.div_1_r;
    (split; [lia|]); (split; [done|]); split; [first [right; lia|left; lia]|lia].
  assert (Hsh : Z.shiftr size 10 = size / 1024) by (rewrite Z.shiftr_div_pow2 by lia; done).
  assert (Hld : Z.land size 1023 = size mod 1024) by (apply (Z.land_ones size 10); lia).
  rewrite Hsh, Hld.
  destruct (IH (size / 1024) (i + 1)%nat (size mod 1024)) as (k & Hk & Heq & Hend & Hpos);
    [apply Z.div_pos; lia|lia|lia|].
  assert (Hdiv : forall j, size / 1024 / 1024 ^ Z.of_nat j = size / 1024 ^ Z.of_nat (S j)).
  { intros j. rewrite Nat2Z.inj_succ, Z.pow_succ_r by lia.
    rewrite Z.div_div by (try apply Z.pow_pos_nonneg; lia). done. }
  exists (S k). rewrite Heq. rewrite Hdiv in *.
  replace (i + 1 + k)%nat with (i + S k)%nat in * by lia.
  split; [lia|]. split.
  - do 2 f_equal. destruct k as [|k']; [change (1024 ^ Z.of_nat 0) with 1; by rewrite Z.div_1_r|].
    by rewrite Hdiv.
  - split; [done|]. intros _. destruct k as [|k']; [|apply Hpos; lia].
    change (1024 ^ Z.of_nat 1) with 1024. apply Z.div_le_lower_bound; lia.
Qed.

(** The human-readable size of [q * 1024^i] bytes, [1 <= q < 1024] (or any
    [q >= 1] in the last unit), is ["q UNIT"] with the i-th unit, for every
    sign, and the unit lookup never goes out of range. *)
Theorem size_str_exact (fmt3 : Z -> Z -> option (list Z)) (q : Z) (i : nat) :
  1 <= q -> (i <= 7)%nat -> (q < 1024 \/ i = 7%nat) ->
  exists u, SIZE_UNITS !! i = Some u /\
  biguint_size_str fmt3 (q * 1024 ^ Z.of_nat i) = Ok (to_decimal q ++ str " " ++ u) /\
  bigint_size_str fmt3 (q * 1024 ^ Z.of_nat i) = Ok (to_decimal q ++ str " " ++ u) /\
  bigint_size_str fmt3 (- (q * 1024 ^ Z.of_nat i)) = Ok (str "-" ++ to_decimal q ++ str " " ++ u).
Proof.
  intros Hq Hi Hlast. set (n := q * 1024 ^ Z.of_nat i).
  assert (Hp : forall j, 0 < 1024 ^ Z.of_nat j) by (intros; apply Z.pow_pos_nonneg; lia).
  assert (Hn : 0 < n) by (apply Z.mul_pos_pos; [lia|apply Hp]).
  assert (Hloop : size_loop (length SIZE_UNITS) n 0 0 = Ok (q, i, 0)).
  { destruct (size_loop_spec (length SIZE_UNITS) n 0 0) as (k & Hk & -> & Hend & Hpos);
      [lia|lia|vm_compute; lia|]. cbn [Nat.add] in *.
    assert (Hqk : forall j, (j <= i)%nat -> n / 1024 ^ Z.of_nat j = q * 1024 ^ Z.of_nat (i - j)).
    { intros j Hj. unfold n. replace (Z.of_nat i) with (Z.of_nat (i - j) + Z.of_nat j) by lia.
      rewrite Z.pow_add_r, Z.mul_assoc, Z.div_mul by (try specialize (Hp j); lia). done. }
    assert (Hki : k = i).
    { destruct (lt_eq_lt_dec k i) as [[Hlt|]|Hgt]; [|done|].
      - destruct Hend as [Hend|]; [|lia]. rewrite Hqk in Hend by lia.
        replace (i - k)%nat with (S (i - k - 1)) in Hend by lia.
        rewrite Nat2Z.inj_succ, Z.pow_succ_r in Hend by lia. specialize (Hp (i - k - 1)%nat). nia.
      - specialize (Hpos ltac:(lia)). destruct Hlast as [Hlast|]; [|lia].
        rewrite Z.div_small in Hpos; [lia|]. split; [lia|]. unfold n.
        apply Z.lt_le_trans with (1024 * 1024 ^ Z.of_nat i).
        + apply Z.mul_lt_mono_pos_r; [apply Hp|done].
        + rewrite <- Z.pow_succ_r by lia. apply Z.pow_le_mono_r; lia. }
    subst k. rewrite Hqk, Nat.sub_diag, Z.mul_1_r by lia. do 2 f_equal.
    destruct i as [|i']; [done|]. rewrite Hqk by lia.
    replace (S i' - i')%nat with 1%nat by lia. apply Z.mod_mul. lia. }
  destruct (lookup_lt_is_Some_2 SIZE_UNITS i) as [u Hu]; [vm_compute; lia|].
  exists u. split; [done|]. unfold biguint_size_str, bigint_size_str.
  rewrite Z.abs_opp, Z.abs_eq, Hloop by lia. cbn [bind]. rewrite Hu.
  destruct n; [lia| |lia]. done.
Qed.

Lemma size_str_exact_witness :
  exists u, SIZE_UNITS !! 2%nat = Some u /\
  biguint_size_str (fun _ _ => None) (5 * 1024 ^ 2) = Ok (to_decimal 5 ++ str " " ++ u) /\
  bigint_size_str (fun _ _ => None) (5 * 1024 ^ 2) = Ok (to_decimal 5 ++ str " " ++ u) /\
  bigint_size_str (fun _ _ => None) (- (5 * 1024 ^ 2)) = Ok (str "-" ++ to_decimal 5 ++ str " " ++ u).
Proof. apply (size_str_exact (fun _ _ => None) 5 2); lia. Defined.

(** Rows of the crate's own test table. *)
Example test_size_str :
  bigint_size_str (fun _ _ => None) (-1024) = Ok (str "-1 KiB") /\
  biguint_size_str (fun _ _ => None) (11 * 2 ^ 60) = Ok (str "11 EiB") /\
  biguint_size_str (fun _ _ => None) (50000 * 2 ^ 70) = Ok (str "50000 ZiB").
Proof. repeat split; vm_compute; reflexivity. Qed.
