(* ===== verification/BitField.v ===== *)
(** * [primitives/bitfield]: a set of [u64] with an RLE+ wire form

    The [BTreeSet<u64>] is the strictly increasing list of its members. *)

From Stdlib Require Import ZArith Lia Sorted String.
From stdpp Require Import base numbers sorting list.
From S2P Require Import Prelude BitSet Rle RleCorrect RleTotal Cbor CborRef.

Local Open Scope Z_scope.

Module BitField.

(** [BTreeSet::insert]. *)
Fixpoint btree_insert (x : Z) (s : list Z) : list Z :=
  match s with
  | [] => [x]
  | y :: s' => match x ?= y with
               | Lt => x :: s
               | Eq => s
               | Gt => y :: btree_insert x s'
               end
  end.

(** [v.into_iter().collect::<BTreeSet<u64>>()]. *)
Definition collect (v : list Z) : list Z := fold_left (fun s x => btree_insert x s) v [].

Definition new : list Z := [].
Definition from_vec (v : list Z) : list Z := collect v.

(** [BTreeSet::contains] through [Deref]. *)
Definition contains (s : list Z) (x : Z) : bool := bool_decide (x ∈ s).

(** [rle::encode(self.0.iter())] followed by [e.bytes]; the encoder takes
    [u64] items, eight bytes each. *)
Definition encode_bitfield `{Minicbor} (ck : bool) (s : list Z) : outcome decode_error (list Z) :=
  v <- Rle.encode ck 8 s ;; Ok (e_bytes v).

Definition decode_bitfield `{Minicbor} (ck : bool) : decoder (list Z) :=
  bytes <~ d_bytes ;;
  fun rest =>
    set <- map_err (fun _ => Message "RLE+ decode error") (Rle.decode ck 8 bytes) ;;
    Ok (collect set, rest).

(** ** The set *)
Definition is_set (s : list Z) : Prop := Sorted Z.lt s /\ Forall u64 s.

Lemma elem_of_btree_insert x y s : y ∈ btree_insert x s <-> y = x \/ y ∈ s.
Proof.
  induction s as [|z s IH]; cbn; [rewrite elem_of_cons; by rewrite elem_of_nil|].
  destruct (Z.compare_spec x z) as [->|H|H]; rewrite ?elem_of_cons, ?IH; tauto.
Qed.

Lemma btree_insert_sorted x s : StronglySorted Z.lt s -> StronglySorted Z.lt (btree_insert x s).
Proof.
  induction 1 as [|y s Hs IH Hy]; cbn; [by repeat constructor|].
  destruct (Z.compare_spec x y) as [->|H|H]; constructor; try done.
  - by constructor.
  - constructor; [done|]. eapply Forall_impl; [exact Hy|]. intros z ?. cbn in *. lia.
  - rewrite Forall_forall. intros z [->|Hz]%elem_of_btree_insert; [done|].
    rewrite Forall_forall in Hy. by apply Hy.
Qed.

Lemma btree_insert_last x s : Forall (fun y => y < x) s -> btree_insert x s = s ++ [x].
Proof.
  induction 1 as [|y s Hy Hs IH]; [done|]. cbn.
  destruct (Z.compare_spec x y); [lia|lia|]. by rewrite IH.
Qed.

Lemma fold_insert_spec v s :
  StronglySorted Z.lt s ->
  let r := fold_left (fun s x => btree_insert x s) v s in
  StronglySorted Z.lt r /\ forall y, y ∈ r <-> y ∈ v \/ y ∈ s.
Proof.
  revert s. induction v as [|x v IH]; intros s Hs; cbn.
  - split; [done|]. intros y. rewrite elem_of_nil. tauto.
  - destruct (IH _ (btree_insert_sorted x s Hs)) as [H1 H2]. split; [done|].
    intros y. rewrite H2, elem_of_btree_insert, elem_of_cons. tauto.
Qed.

Lemma collect_sorted_id v : StronglySorted Z.lt v -> collect v = v.
Proof.
  intros Hv. unfold collect. enough (forall p q, StronglySorted Z.lt (p ++ q) ->
    fold_left (fun s x => btree_insert x s) q p = p ++ q) as H by apply (H [] v Hv).
  clear. intros p q. revert p. induction q as [|x q IH]; intros p Hs; cbn; [by rewrite app_nil_r|].
  rewrite btree_insert_last.
  - rewrite IH by (by rewrite <- app_assoc). by rewrite <- app_assoc.
  - rewrite Forall_forall. intros y Hy. eapply StronglySorted_app_1_elem_of; [exact Hs|done|].
    apply elem_of_cons. by left.
Qed.

Lemma sorted_strong s : Sorted Z.lt s <-> StronglySorted Z.lt s.
Proof.
  split; [|apply StronglySorted_Sorted]. apply Sorted_StronglySorted. intros ???. lia.
Qed.

(** ** The properties *)

(** Collecting any vector of [u64] gives the set of its members in strictly
    increasing order, whatever the order and the repetitions in the vector. *)
Theorem bitfield_from_vec (v : list Z) :
  Sorted Z.lt (from_vec v) /\ (forall x, contains (from_vec v) x = bool_decide (x ∈ v)).
Proof.
  destruct (fold_insert_spec v [] ltac:(constructor)) as [Hs He]. split.
  - by apply sorted_strong.
  - intros x. unfold contains. apply bool_decide_ext. unfold from_vec, collect. rewrite He.
    rewrite elem_of_nil. tauto.
Qed.

(** A bit field whose members are below [u64::MAX] and that has at most
    131072 of them is decoded from its CBOR form to the same set. *)
Theorem bitfield_roundtrip `{MinicborLaws} (ck : bool) (s rest : list Z) :
  is_set s -> Forall (fun x => x <> 2 ^ 64 - 1) s -> Z.of_nat (length s) <= 131072 ->
  (forall v, @Rle.encode ck 8 decode_error s = Ok v -> len_u64 v) ->
  exists bs, encode_bitfield ck s = Ok bs /\ decode_bitfield ck (bs ++ rest) = Ok (s, rest).
Proof.
  intros [Hs Hu] Hmax Hlen Hv.
  destruct (decode_encode ck 8 ltac:(lia) (E := decode_error) s Hs) as (v & He & Hok & Hd).
  - rewrite Forall_forall in Hu, Hmax |- *. intros x Hx. specialize (Hu x Hx). specialize (Hmax x Hx).
    unfold u64 in Hu. change (width 8) with 64. lia.
  - unfold encode_bitfield. rewrite He. eexists. split; [done|].
    unfold decode_bitfield, dbind. rewrite reads_bytes by (split; auto). cbn [bind].
    rewrite Hd, (proj2 (Z.ltb_ge _ _)) by (change (OBJECT_MAX_SIZE / 8) with 131072; lia).
    cbn. rewrite collect_sorted_id; [done|by apply sorted_strong].
Qed.

Lemma bitfield_roundtrip_witness :
  exists bs, encode_bitfield true [2; 7] = Ok bs /\ decode_bitfield true (bs ++ [5]) = Ok ([2; 7], [5]).
Proof.
  apply (bitfield_roundtrip true [2; 7] [5]).
  - split; [repeat constructor|repeat constructor; discriminate].
  - repeat constructor; discriminate.
  - cbn. lia.
  - intros v. assert (He : @Rle.encode true 8 decode_error [2; 7] = Ok [80; 74; 1])
      by (vm_compute; reflexivity).
    rewrite He. intros [= <-]. reflexivity.
Defined.

(** The vector of the crate's [test_codec]. *)
Example test_codec : encode_bitfield true [2; 7] = Ok [67; 80; 74; 1].
Proof. vm_compute. reflexivity. Qed.

End BitField.
