(* ===== verification/Piece.v ===== *)
(** * [primitives/piece]: piece sizes and [PieceInfo]

    Sizes are [u64]; [ck] is the overflow check of the build profile. *)

From Stdlib Require Import ZArith Lia String.
From stdpp Require Import base numbers list.
From S2P Require Import Prelude Cbor CborRef.

Local Open Scope Z_scope.

Module Piece.

Definition MIN_UNPADDED_PIECE_SIZE : Z := 127.
Definition MIN_PADDED_PIECE_SIZE : Z := 128.

Inductive PieceSizeError :=
| UnpaddedSizeTooSmall (size : Z)
| InvalidUnpaddedSize (size : Z)
| PaddedSizeTooSmall (size : Z)
| InvalidPaddedSize (size : Z).

(** [u64::trailing_zeros] and [u64::count_ones], bit by bit. *)
Fixpoint trailing_zeros_in (n : nat) (x : Z) : Z :=
  match n with
  | O => 0
  | S n' => if Z.odd x then 0 else 1 + trailing_zeros_in n' (Z.div2 x)
  end.
Definition trailing_zeros (x : Z) : Z := trailing_zeros_in 64 x.

Fixpoint count_ones_in (n : nat) (x : Z) : Z :=
  match n with
  | O => 0
  | S n' => (if Z.odd x then 1 else 0) + count_ones_in n' (Z.div2 x)
  end.
Definition count_ones (x : Z) : Z := count_ones_in 64 x.

Section Sizes.
Context (ck : bool).

(** [Add] and [Sub], the same for both sizes. *)
Definition size_add {E} (a b : Z) : outcome E Z := u_add ck 64 a b.
Definition size_sub {E} (a b : Z) : outcome E Z := u_sub ck 64 a b.

Definition padded {E} (size : Z) : outcome E Z :=
  u_add ck 64 size (size / MIN_UNPADDED_PIECE_SIZE).

Definition unpadded {E} (size : Z) : outcome E Z :=
  u_sub ck 64 size (size / MIN_PADDED_PIECE_SIZE).

(** [self.0 >> n]: a shift by the width or more overflows. *)
Definition u64_shr {E} (x n : Z) : outcome E Z :=
  if n <? 64 then Ok (Z.shiftr x n)
  else if ck then Panic else Ok (Z.shiftr x (n mod 64)).

Definition validate_unpadded (size : Z) : outcome PieceSizeError unit :=
  if size <? MIN_UNPADDED_PIECE_SIZE then Err (UnpaddedSizeTooSmall size)
  else
    odd <- u64_shr size (trailing_zeros size) ;;
    if negb (odd =? MIN_UNPADDED_PIECE_SIZE) then Err (InvalidUnpaddedSize size)
    else Ok tt.
End Sizes.

Definition validate_padded (size : Z) : outcome PieceSizeError unit :=
  if size <? MIN_PADDED_PIECE_SIZE then Err (PaddedSizeTooSmall size)
  else if negb (count_ones size =? 1) then Err (InvalidPaddedSize size)
  else Ok tt.

(** ** [PieceInfo] *)
Record PieceInfo `{CidLib} := mkPieceInfo { size : Z; piece_cid : Cid }.

Definition encode_PieceInfo `{Minicbor} `{CidLib} (p : PieceInfo) : list Z :=
  e_array 2 ++ e_u64 (size p) ++ e_cid (piece_cid p).

Definition decode_PieceInfo `{Minicbor} `{CidLib} : decoder PieceInfo :=
  array_of 2 (size <~ d_u64 ;; piece_cid <~ d_cid ;; dret (mkPieceInfo _ size piece_cid)).

Lemma reads_PieceInfo `{MinicborLaws} `{CidLaws} p :
  u64 (size p) -> reads decode_PieceInfo (encode_PieceInfo p) p.
Proof. intros Hs. destruct p. cbn in *. read_struct. Qed.

(** ** Bits *)
Lemma odd_div2 x : x = 2 * Z.div2 x + (if Z.odd x then 1 else 0).
Proof. rewrite (Z.div2_odd x) at 1. by destruct (Z.odd x). Qed.

Lemma trailing_zeros_spec n x :
  0 < x < 2 ^ Z.of_nat n ->
  exists q, x = q * 2 ^ trailing_zeros_in n x /\ Z.odd q = true /\
            0 <= trailing_zeros_in n x < Z.of_nat n.
Proof.
  revert x. induction n as [|n IH]; intros x Hx; [cbn in Hx; lia|].
  cbn [trailing_zeros_in]. pose proof (odd_div2 x) as Hd. destruct (Z.odd x) eqn:Ho.
  - exists x. split; [cbn; lia|]. split; [done|]. lia.
  - rewrite Nat2Z.inj_succ, Z.pow_succ_r in Hx by lia.
    destruct (IH (Z.div2 x)) as (q & Hq & Hqo & Hr); [lia|].
    exists q. split; [|split; [done|lia]].
    rewrite Z.pow_add_r, Z.pow_1_r by lia. lia.
Qed.

Lemma count_ones_nonneg n x : 0 <= count_ones_in n x.
Proof.
  revert x. induction n as [|n IH]; intros x; cbn [count_ones_in]; [lia|].
  specialize (IH (Z.div2 x)). destruct (Z.odd x); lia.
Qed.

Lemma count_ones_zero n x : 0 <= x < 2 ^ Z.of_nat n -> count_ones_in n x = 0 <-> x = 0.
Proof.
  revert x. induction n as [|n IH]; intros x Hx; [cbn in *; lia|].
  cbn [count_ones_in]. pose proof (odd_div2 x) as Hd. pose proof (count_ones_nonneg n (Z.div2 x)).
  rewrite Nat2Z.inj_succ, Z.pow_succ_r in Hx by lia.
  destruct (Z.odd x); [lia|]. rewrite Z.add_0_l, IH by lia. lia.
Qed.

Lemma count_ones_one n x :
  0 <= x < 2 ^ Z.of_nat n -> count_ones_in n x = 1 <-> exists k, 0 <= k /\ x = 2 ^ k.
Proof.
  revert x. induction n as [|n IH]; intros x Hx.
  - cbn in *. split; [lia|]. intros (k & Hk & ->). pose proof (Z.pow_pos_nonneg 2 k). lia.
  - cbn [count_ones_in]. pose proof (odd_div2 x) as Hd.
    rewrite Nat2Z.inj_succ, Z.pow_succ_r in Hx by lia. destruct (Z.odd x) eqn:Ho.
    + assert (1 + count_ones_in n (Z.div2 x) = 1 <-> count_ones_in n (Z.div2 x) = 0) as -> by lia.
      rewrite count_ones_zero by lia. split.
      * intros H. exists 0. cbn. lia.
      * intros (k & Hk & He). destruct (decide (k = 0)) as [->|]; [cbn in He; lia|].
        replace k with (Z.succ (k - 1)) in He by lia. rewrite Z.pow_succ_r in He by lia. lia.
    + rewrite Z.add_0_l, IH by lia. split.
      * intros (k & Hk & He). exists (Z.succ k). rewrite Z.pow_succ_r by lia. lia.
      * intros (k & Hk & He). destruct (decide (k = 0)) as [->|]; [cbn in He; lia|].
        exists (k - 1). split; [lia|]. replace k with (Z.succ (k - 1)) in He by lia.
        rewrite Z.pow_succ_r in He by lia. lia.
Qed.

(** An odd factor and a power of two determine each other. *)
Lemma odd_times_pow2 q t p m :
  Z.odd q = true -> Z.odd p = true -> 0 <= t -> 0 <= m -> q * 2 ^ t = p * 2 ^ m -> q = p /\ t = m.
Proof.
  intros Hq Hp Ht. revert m. pattern t. apply natlike_ind; [| |done]; clear t Ht.
  - intros m Hm H. destruct (decide (m = 0)) as [->|]; [cbn in H; lia|].
    replace m with (Z.succ (m - 1)) in H by lia. rewrite Z.pow_succ_r in H by lia.
    apply (f_equal Z.odd) in H. rewrite Z.pow_0_r, Z.mul_1_r in H.
    rewrite Z.mul_assoc, !Z.odd_mul in H. cbn in H. rewrite Hq in H. by destruct (Z.odd p).
  - intros t Ht IH m Hm H. destruct (decide (m = 0)) as [->|].
    + rewrite Z.pow_succ_r in H by lia. apply (f_equal Z.odd) in H.
      rewrite Z.pow_0_r, Z.mul_1_r, Hp, !Z.odd_mul in H. cbn in H. by destruct (Z.odd q).
    + replace m with (Z.succ (m - 1)) in H by lia. rewrite !Z.pow_succ_r in H by lia.
      destruct (IH (m - 1)) as [-> ->]; lia.
Qed.

Lemma validate_unpadded_cases ck x :
  u64 x ->
  validate_unpadded ck x =
    (if x <? 127 then Err (UnpaddedSizeTooSmall x)
     else if decide (x = 127 * 2 ^ trailing_zeros x) then Ok tt else Err (InvalidUnpaddedSize x)).
Proof.
  intros Hx. unfold validate_unpadded, MIN_UNPADDED_PIECE_SIZE. destruct (Z.ltb_spec x 127); [done|].
  unfold u64 in Hx. destruct (trailing_zeros_spec 64 x) as (q & Hq & _ & Ht); [lia|].
  fold (trailing_zeros x) in *. set (t := trailing_zeros x) in *.
  unfold u64_shr. rewrite (proj2 (Z.ltb_lt t 64)) by lia. cbn [bind].
  assert (0 < 2 ^ t) by (apply Z.pow_pos_nonneg; lia).
  rewrite Z.shiftr_div_pow2 by lia. rewrite Hq at 1. rewrite Z.div_mul by lia.
  destruct (Z.eqb_spec q 127) as [->|Hne]; cbn [negb].
  - by rewrite decide_True.
  - rewrite decide_False; [done|]. nia.
Qed.

Lemma unpadded_form x : u64 x -> 127 <= x ->
  x = 127 * 2 ^ trailing_zeros x <-> exists n, 0 <= n /\ x = 127 * 2 ^ n.
Proof.
  intros Hx Hmin. unfold u64 in Hx. destruct (trailing_zeros_spec 64 x) as (q & Hq & Ho & Ht); [lia|].
  fold (trailing_zeros x) in *. split; [intros ?; exists (trailing_zeros x); split; lia|].
  intros (n & Hn & He). destruct (odd_times_pow2 q (trailing_zeros x) 127 n) as [-> _]; try done; lia.
Qed.

(** ** The properties *)

(** An unpadded size is accepted exactly when it is [127 * 2^n], a padded
    size exactly when it is a power of two of at least 128; every other size is
    rejected with the error that names the reason and the size. *)
Theorem piece_size_validate (ck : bool) (x : Z) :
  u64 x ->
  (validate_unpadded ck x = Ok tt <-> exists n, 0 <= n /\ x = 127 * 2 ^ n) /\
  (validate_padded x = Ok tt <-> exists n, 7 <= n /\ x = 2 ^ n) /\
  (validate_unpadded ck x = Ok tt \/ validate_unpadded ck x = Err (InvalidUnpaddedSize x) \/
   (x < 127 /\ validate_unpadded ck x = Err (UnpaddedSizeTooSmall x))) /\
  (validate_padded x = Ok tt \/ validate_padded x = Err (InvalidPaddedSize x) \/
   (x < 128 /\ validate_padded x = Err (PaddedSizeTooSmall x))).
Proof.
  intros Hx. rewrite validate_unpadded_cases by done. unfold validate_padded, MIN_PADDED_PIECE_SIZE.
  split; [|split].
  - destruct (Z.ltb_spec x 127).
    + split; [done|]. intros (n & Hn & ->). pose proof (Z.pow_pos_nonneg 2 n). lia.
    + rewrite <- unpadded_form by done. by destruct (decide _).
  - assert (H128 : forall n, 0 <= n -> 128 <= 2 ^ n <-> 7 <= n).
    { intros n Hn. change 128 with (2 ^ 7). symmetry. apply Z.pow_le_mono_r_iff; lia. }
    destruct (Z.ltb_spec x 128).
    + split; [done|]. intros (n & Hn & ->). apply H128 in Hn; lia.
    + unfold u64 in Hx. destruct (Z.eqb_spec (count_ones x) 1) as [H1|H1]; cbn [negb].
      * apply count_ones_one in H1 as (k & Hk & ->); [|lia]. split; [|done]. intros _.
        exists k. split; [by apply H128|done].
      * split; [done|]. intros (n & Hn & ->). destruct H1. apply count_ones_one; [lia|].
        exists n. split; [lia|done].
  - split.
    + destruct (Z.ltb_spec x 127); [by auto|]. case_decide; auto.
    + destruct (Z.ltb_spec x 128); [by auto|]. destruct (count_ones x =? 1); auto.
Qed.

Lemma piece_size_validate_witness :
  (validate_unpadded true 1016 = Ok tt <-> exists n, 0 <= n /\ 1016 = 127 * 2 ^ n) /\
  (validate_padded 1016 = Ok tt <-> exists n, 7 <= n /\ 1016 = 2 ^ n) /\
  (validate_unpadded true 1016 = Ok tt \/ validate_unpadded true 1016 = Err (InvalidUnpaddedSize 1016) \/
   (1016 < 127 /\ validate_unpadded true 1016 = Err (UnpaddedSizeTooSmall 1016))) /\
  (validate_padded 1016 = Ok tt \/ validate_padded 1016 = Err (InvalidPaddedSize 1016) \/
   (1016 < 128 /\ validate_padded 1016 = Err (PaddedSizeTooSmall 1016))).
Proof. apply (piece_size_validate true 1016). unfold u64. lia. Defined.

(** C27: padding and unpadding are inverse on valid sizes and keep them valid:
    [127 * 2^n] pads to [2^(n+7)], for every [n] below 57.  At 57, the largest
    unpadded size that validates, the padded size is [2^64] and the addition
    overflows. *)
Theorem piece_padding_roundtrip (ck : bool) (n : Z) :
  0 <= n < 57 ->
  @padded ck PieceSizeError (127 * 2 ^ n) = Ok (2 ^ (n + 7)) /\
  @unpadded ck PieceSizeError (2 ^ (n + 7)) = Ok (127 * 2 ^ n) /\
  validate_unpadded ck (127 * 2 ^ n) = Ok tt /\ validate_padded (2 ^ (n + 7)) = Ok tt /\
  validate_unpadded ck (127 * 2 ^ 57) = Ok tt /\
  @padded ck PieceSizeError (127 * 2 ^ 57) = (if ck then Panic else Ok 0).
Proof.
  intros Hn. unfold padded, unpadded, MIN_UNPADDED_PIECE_SIZE, MIN_PADDED_PIECE_SIZE.
  assert (Hp : 2 ^ (n + 7) = 128 * 2 ^ n) by (rewrite Z.pow_add_r by lia; lia).
  assert (0 < 2 ^ n <= 2 ^ 56) by (split; [apply Z.pow_pos_nonneg|apply Z.pow_le_mono_r]; lia).
  rewrite Hp. split; [|split; [|split; [|split; [|split]]]].
  - rewrite Z.mul_comm, Z.div_mul, u_add_ok by lia. f_equal. lia.
  - rewrite (Z.mul_comm 128), Z.div_mul, u_sub_ok by lia. f_equal. lia.
  - assert (Hu : u64 (127 * 2 ^ n)) by (unfold u64; lia).
    rewrite validate_unpadded_cases by done. rewrite (proj2 (Z.ltb_ge _ _)) by lia.
    rewrite decide_True; [done|]. apply unpadded_form; [done|lia|]. exists n. split; [lia|done].
  - unfold validate_padded, MIN_PADDED_PIECE_SIZE. rewrite (proj2 (Z.ltb_ge _ _)) by lia.
    rewrite (proj2 (Z.eqb_eq _ _)); [done|]. apply (count_ones_one 64); [lia|].
    exists (n + 7). lia.
  - by destruct ck.
  - by destruct ck.
Qed.

Lemma piece_padding_roundtrip_witness :
  @padded true PieceSizeError (127 * 2 ^ 3) = Ok (2 ^ (3 + 7)) /\
  @unpadded true PieceSizeError (2 ^ (3 + 7)) = Ok (127 * 2 ^ 3) /\
  validate_unpadded true (127 * 2 ^ 3) = Ok tt /\ validate_padded (2 ^ (3 + 7)) = Ok tt /\
  validate_unpadded true (127 * 2 ^ 57) = Ok tt /\
  @padded true PieceSizeError (127 * 2 ^ 57) = (if true then Panic else Ok 0).
Proof. apply (piece_padding_roundtrip true 3). lia. Defined.

(** The byte vector of [test_piece_info_cbor_serde]. *)
Example test_piece_info_cbor_serde :
  exists c, make_cid (be_combine [76; 2; 122; 115; 187; 29; 97; 161; 80; 48; 167; 49; 47; 124; 18;
      38; 183; 206; 50; 72; 232; 201; 142; 225; 217; 73; 55; 160; 199; 184; 78; 250]) = Some c /\
  encode_PieceInfo (mkPieceInfo _ 128 c) =
    [130; 24; 128; 216; 42; 88; 37; 0; 1; 113; 18; 32; 76; 2; 122; 115; 187; 29; 97; 161;
     80; 48; 167; 49; 47; 124; 18; 38; 183; 206; 50; 72; 232; 201; 142; 225; 217; 73; 55;
     160; 199; 184; 78; 250].
Proof. eexists. split; [reflexivity|]. reflexivity. Qed.

End Piece.

#[export] Hint Resolve Piece.reads_PieceInfo : cbor.
