(* ===== verification/Sector.v ===== *)
(** * [primitives/sector]: registered proofs, sector sizes and the proof records

    [primitives/types] contributes [Actor] and [Randomness] (an [H256]). *)

From Stdlib Require Import ZArith Lia String.
From stdpp Require Import base numbers list.
From S2P Require Import Prelude Decimal Cbor CborRef Wrappers.

Local Open Scope Z_scope.

(** ** [primitives/types]: [Actor] and the constants *)
Definition TOKEN_PRECISION : Z := 1000000000000000000.
Definition TOTAL_FILECOIN : Z := 2000000000 * TOKEN_PRECISION.
Definition TOTAL_MINING_REWARD : Z := 1400000000 * TOKEN_PRECISION.
Definition BLOCK_GAS_LIMIT : Z := 100000000.

Record Actor `{CidLib} := mkActor { code : Cid; head : Cid; nonce : Z; balance : Z }.

Definition encode_Actor `{Minicbor} `{NumBigint} `{CidLib} (a : Actor) : list Z :=
  e_array 4 ++ e_cid (code a) ++ e_cid (head a) ++ e_u64 (nonce a) ++ encode_bigint (balance a).

Definition decode_Actor `{Minicbor} `{NumBigint} `{CidLib} : decoder Actor :=
  array_of 4
    (code <~ d_cid ;; head <~ d_cid ;; nonce <~ d_u64 ;; balance <~ decode_bigint ;;
     dret (mkActor _ code head nonce balance)).

Lemma reads_Actor `{MinicborLaws} `{NumBigintLaws} `{CidLaws} a :
  u64 (nonce a) -> bigint_fits (balance a) -> reads decode_Actor (encode_Actor a) a.
Proof. intros Hn Hb. destruct a. cbn in *. read_struct. Qed.

(** ** Registered proofs *)
Inductive RegisteredProof :=
| StackedDRG32GiBSeal
| StackedDRG2KiBSeal
| StackedDRG8MiBSeal
| StackedDRG512MiBSeal
| StackedDRG2KiBWinningPoSt
| StackedDRG2KiBWindowPoSt
| StackedDRG8MiBWinningPoSt
| StackedDRG8MiBWindowPoSt
| StackedDRG512MiBWinningPoSt
| StackedDRG512MiBWindowPoSt
| StackedDRG32GiBWinningPoSt
| StackedDRG32GiBWindowPoSt
| StackedDRG64GiBSeal
| StackedDRG64GiBWinningPoSt
| StackedDRG64GiBWindowPoSt.

#[export] Instance RegisteredProof_eq_dec : EqDecision RegisteredProof.
Proof. solve_decision. Defined.

Definition u64_of_proof (proof : RegisteredProof) : Z :=
  match proof with
  | StackedDRG32GiBSeal => 1
  | StackedDRG2KiBSeal => 3
  | StackedDRG8MiBSeal => 5
  | StackedDRG512MiBSeal => 7
  | StackedDRG2KiBWinningPoSt => 9
  | StackedDRG2KiBWindowPoSt => 10
  | StackedDRG8MiBWinningPoSt => 11
  | StackedDRG8MiBWindowPoSt => 12
  | StackedDRG512MiBWinningPoSt => 13
  | StackedDRG512MiBWindowPoSt => 14
  | StackedDRG32GiBWinningPoSt => 15
  | StackedDRG32GiBWindowPoSt => 16
  | StackedDRG64GiBSeal => 17
  | StackedDRG64GiBWinningPoSt => 18
  | StackedDRG64GiBWindowPoSt => 19
  end.

Definition proof_try_from (value : Z) : outcome string RegisteredProof :=
  match value with
  | 1 => Ok StackedDRG32GiBSeal
  | 3 => Ok StackedDRG2KiBSeal
  | 5 => Ok StackedDRG8MiBSeal
  | 7 => Ok StackedDRG512MiBSeal
  | 9 => Ok StackedDRG2KiBWinningPoSt
  | 10 => Ok StackedDRG2KiBWindowPoSt
  | 11 => Ok StackedDRG8MiBWinningPoSt
  | 12 => Ok StackedDRG8MiBWindowPoSt
  | 13 => Ok StackedDRG512MiBWinningPoSt
  | 14 => Ok StackedDRG512MiBWindowPoSt
  | 15 => Ok StackedDRG32GiBWinningPoSt
  | 16 => Ok StackedDRG32GiBWindowPoSt
  | 17 => Ok StackedDRG64GiBSeal
  | 18 => Ok StackedDRG64GiBWinningPoSt
  | 19 => Ok StackedDRG64GiBWindowPoSt
  | _ => Err "unexpected registered proof"%string
  end.

Definition TWO_KB : Z := 2 * 2 ^ 10.
Definition EIGHT_MB : Z := 8 * 2 ^ 20.
Definition FIVE_ONE_TWO_MB : Z := 512 * 2 ^ 20.
Definition THIRD_TWO_GB : Z := 32 * 2 ^ 30.
Definition SIXTY_TWO_GB : Z := 2 * THIRD_TWO_GB.

Inductive UnknownSectorSizeErr := mkUnknownSectorSizeErr (ssize : Z).

Definition registered_winning_post_proof (p : RegisteredProof) : RegisteredProof :=
  match p with
  | StackedDRG64GiBSeal | StackedDRG64GiBWindowPoSt | StackedDRG64GiBWinningPoSt =>
      StackedDRG64GiBWinningPoSt
  | StackedDRG32GiBSeal | StackedDRG32GiBWindowPoSt | StackedDRG32GiBWinningPoSt =>
      StackedDRG32GiBWinningPoSt
  | StackedDRG2KiBSeal | StackedDRG2KiBWindowPoSt | StackedDRG2KiBWinningPoSt =>
      StackedDRG2KiBWinningPoSt
  | StackedDRG8MiBSeal | StackedDRG8MiBWindowPoSt | StackedDRG8MiBWinningPoSt =>
      StackedDRG8MiBWinningPoSt
  | StackedDRG512MiBSeal | StackedDRG512MiBWindowPoSt | StackedDRG512MiBWinningPoSt =>
      StackedDRG512MiBWinningPoSt
  end.

Definition registered_window_post_proof (p : RegisteredProof) : RegisteredProof :=
  match p with
  | StackedDRG64GiBSeal | StackedDRG64GiBWinningPoSt | StackedDRG64GiBWindowPoSt =>
      StackedDRG64GiBWindowPoSt
  | StackedDRG32GiBSeal | StackedDRG32GiBWinningPoSt | StackedDRG32GiBWindowPoSt =>
      StackedDRG32GiBWindowPoSt
  | StackedDRG2KiBSeal | StackedDRG2KiBWinningPoSt | StackedDRG2KiBWindowPoSt =>
      StackedDRG2KiBWindowPoSt
  | StackedDRG8MiBSeal | StackedDRG8MiBWinningPoSt | StackedDRG8MiBWindowPoSt =>
      StackedDRG8MiBWindowPoSt
  | StackedDRG512MiBSeal | StackedDRG512MiBWinningPoSt | StackedDRG512MiBWindowPoSt =>
      StackedDRG512MiBWindowPoSt
  end.

Definition registered_seal_proof (p : RegisteredProof) : RegisteredProof :=
  match p with
  | StackedDRG64GiBSeal | StackedDRG64GiBWindowPoSt | StackedDRG64GiBWinningPoSt =>
      StackedDRG64GiBSeal
  | StackedDRG32GiBSeal | StackedDRG32GiBWindowPoSt | StackedDRG32GiBWinningPoSt =>
      StackedDRG32GiBSeal
  | StackedDRG2KiBSeal | StackedDRG2KiBWindowPoSt | StackedDRG2KiBWinningPoSt =>
      StackedDRG2KiBSeal
  | StackedDRG8MiBSeal | StackedDRG8MiBWindowPoSt | StackedDRG8MiBWinningPoSt =>
      StackedDRG8MiBSeal
  | StackedDRG512MiBSeal | StackedDRG512MiBWindowPoSt | StackedDRG512MiBWinningPoSt =>
      StackedDRG512MiBSeal
  end.

(** The wildcard arm is [unreachable!]. *)
Definition sector_size (p : RegisteredProof) : outcome UnknownSectorSizeErr Z :=
  match registered_seal_proof p with
  | StackedDRG64GiBSeal => Ok SIXTY_TWO_GB
  | StackedDRG32GiBSeal => Ok THIRD_TWO_GB
  | StackedDRG2KiBSeal => Ok TWO_KB
  | StackedDRG8MiBSeal => Ok EIGHT_MB
  | StackedDRG512MiBSeal => Ok FIVE_ONE_TWO_MB
  | _ => Panic
  end.

Definition from_sector_size (ssize : Z) : outcome UnknownSectorSizeErr RegisteredProof :=
  if ssize =? TWO_KB then Ok StackedDRG2KiBSeal
  else if ssize =? EIGHT_MB then Ok StackedDRG8MiBSeal
  else if ssize =? FIVE_ONE_TWO_MB then Ok StackedDRG512MiBSeal
  else if ssize =? THIRD_TWO_GB then Ok StackedDRG32GiBSeal
  else if ssize =? SIXTY_TWO_GB then Ok StackedDRG64GiBSeal
  else Err (mkUnknownSectorSizeErr ssize).

Definition window_post_partition_sectors (p : RegisteredProof) : outcome UnknownSectorSizeErr Z :=
  match registered_seal_proof p with
  | StackedDRG64GiBSeal => Ok 2300
  | StackedDRG32GiBSeal => Ok 2349
  | StackedDRG2KiBSeal | StackedDRG8MiBSeal | StackedDRG512MiBSeal => Ok 2
  | _ => Panic
  end.

(** ** [readable_sector_size] *)
Definition UNITS : list (list Z) :=
  [str "B"; str "KiB"; str "MiB"; str "GiB"; str "TiB"; str "PiB"; str "EiB"].

(** At most six rounds pass the second condition of the [while]. *)
Fixpoint readable_loop (fuel : nat) (size : Z) (unit_ : nat) : outcome Empty_set (Z * nat) :=
  match fuel with
  | O => OutOfFuel
  | S fuel' =>
      if (1024 <=? size) && (unit_ <? length UNITS - 1)%nat
      then readable_loop fuel' (size / 1024) (unit_ + 1)
      else Ok (size, unit_)
  end.

Definition readable_sector_size (size : Z) : outcome Empty_set (list Z) :=
  '(size, unit_) <- readable_loop (length UNITS) size 0 ;;
  name <- index_or_panic (UNITS !! unit_) ;;
  Ok (to_decimal size ++ name).

(** ** The records *)
Definition encode_proof `{Minicbor} (p : RegisteredProof) : list Z := e_u64 (u64_of_proof p).

(** [proof as u8] truncates. *)
Definition decode_proof `{Minicbor} : decoder RegisteredProof :=
  proof <~ d_u64 ;;
  fun rest =>
    p <- map_err (fun e => TypeMismatch (trunc 8 proof) e) (proof_try_from proof) ;;
    Ok (p, rest).

Record SectorId := mkSectorId { miner : Z; number : Z }.
Record SectorInfo `{CidLib} := mkSectorInfo {
  registered_proof : RegisteredProof; sector_number : Z; sealed_cid : Cid }.
Record PoStProof := mkPoStProof { post_registered_proof : RegisteredProof; proof_bytes : list Z }.
Record PoStVerifyInfo `{CidLib} := mkPoStVerifyInfo {
  randomness : list Z; proofs : list PoStProof; challenged_sectors : list SectorInfo; prover : Z }.
Record SealVerifyInfo `{CidLib} := mkSealVerifyInfo {
  svi_registered_proof : RegisteredProof; svi_sector_id : SectorId; svi_deal_ids : list Z;
  svi_randomness : list Z; svi_interactive_randomness : list Z; svi_proof : list Z;
  svi_sealed_cid : Cid; svi_unsealed_cid : Cid }.

Section Records.
Context `{Minicbor} `{CidLib}.

Definition encode_SectorId (s : SectorId) : list Z :=
  e_array 2 ++ e_u64 (miner s) ++ e_u64 (number s).

Definition decode_SectorId : decoder SectorId :=
  array_of 2 (miner <~ d_u64 ;; number <~ d_u64 ;; dret (mkSectorId miner number)).

Definition encode_SectorInfo (s : SectorInfo) : list Z :=
  e_array 3 ++ encode_proof (registered_proof s) ++ e_u64 (sector_number s) ++ e_cid (sealed_cid s).

Definition decode_SectorInfo : decoder SectorInfo :=
  array_of 3
    (p <~ decode_proof ;; n <~ d_u64 ;; c <~ d_cid ;; dret (mkSectorInfo _ p n c)).

Definition encode_PoStProof (p : PoStProof) : list Z :=
  e_array 2 ++ encode_proof (post_registered_proof p) ++ e_bytes (proof_bytes p).

Definition decode_PoStProof : decoder PoStProof :=
  array_of 2 (p <~ decode_proof ;; bs <~ d_bytes ;; dret (mkPoStProof p bs)).

(** [WinningPoStVerifyInfo] and [WindowPoStVerifyInfo] have the same fields
    and the same codec. *)
Definition encode_WinningPoStVerifyInfo (i : PoStVerifyInfo) : list Z :=
  e_array 4 ++ encode_H256 (randomness i) ++ e_vec encode_PoStProof (proofs i)
  ++ e_vec encode_SectorInfo (challenged_sectors i) ++ e_u64 (prover i).

Definition decode_WinningPoStVerifyInfo : decoder PoStVerifyInfo :=
  array_of 4
    (r <~ decode_H256 ;; ps <~ d_vec decode_PoStProof ;; cs <~ d_vec decode_SectorInfo ;;
     pr <~ d_u64 ;; dret (mkPoStVerifyInfo _ r ps cs pr)).

Definition encode_SealVerifyInfo (i : SealVerifyInfo) : list Z :=
  e_array 8 ++ encode_proof (svi_registered_proof i) ++ encode_SectorId (svi_sector_id i)
  ++ e_vec e_u64 (svi_deal_ids i) ++ encode_H256 (svi_randomness i)
  ++ encode_H256 (svi_interactive_randomness i) ++ e_bytes (svi_proof i)
  ++ e_cid (svi_sealed_cid i) ++ e_cid (svi_unsealed_cid i).

Definition decode_SealVerifyInfo : decoder SealVerifyInfo :=
  array_of 8
    (p <~ decode_proof ;; s <~ decode_SectorId ;; ds <~ d_vec d_u64 ;; r <~ decode_H256 ;;
     ir <~ decode_H256 ;; pf <~ d_bytes ;; sc <~ d_cid ;; uc <~ d_cid ;;
     dret (mkSealVerifyInfo _ p s ds r ir pf sc uc)).
End Records.

(** ** What the records may hold *)
Definition sector_id_ok (s : SectorId) : Prop := u64 (miner s) /\ u64 (number s).
Definition sector_info_ok `{CidLib} (s : SectorInfo) : Prop := u64 (sector_number s).
Definition post_proof_ok (p : PoStProof) : Prop := vec_u8 (proof_bytes p).
Definition post_verify_info_ok `{CidLib} (i : PoStVerifyInfo) : Prop :=
  h256_ok (randomness i) /\ len_u64 (proofs i) /\ Forall post_proof_ok (proofs i) /\
  len_u64 (challenged_sectors i) /\ Forall sector_info_ok (challenged_sectors i) /\ u64 (prover i).
Definition seal_verify_info_ok `{CidLib} (i : SealVerifyInfo) : Prop :=
  sector_id_ok (svi_sector_id i) /\ len_u64 (svi_deal_ids i) /\ Forall u64 (svi_deal_ids i) /\
  h256_ok (svi_randomness i) /\ h256_ok (svi_interactive_randomness i) /\ vec_u8 (svi_proof i).

Lemma proof_try_from_of p : proof_try_from (u64_of_proof p) = Ok p.
Proof. by destruct p. Qed.

Lemma proof_try_from_cases v :
  (exists p, v = u64_of_proof p /\ proof_try_from v = Ok p) \/
  proof_try_from v = Err "unexpected registered proof"%string.
Proof.
  unfold proof_try_from.
  repeat match goal with |- context [match ?x with _ => _ end] => destruct x end;
    first [by right|left; eexists; split; [|reflexivity]; reflexivity].
Qed.

Section Reads.
Context `{MinicborLaws} `{CidLaws}.

Lemma reads_proof p : reads decode_proof (encode_proof p) p.
Proof.
  intros rest. unfold decode_proof, encode_proof, dbind.
  rewrite reads_u64 by (destruct p; unfold u64; cbn; lia). cbn [bind]. by rewrite proof_try_from_of.
Qed.
Hint Resolve reads_proof : cbor.

Lemma reads_SectorId s : sector_id_ok s -> reads decode_SectorId (encode_SectorId s) s.
Proof. intros [??]. destruct s. cbn in *. read_struct. Qed.
Hint Resolve reads_SectorId : cbor.

Lemma reads_SectorInfo s : sector_info_ok s -> reads decode_SectorInfo (encode_SectorInfo s) s.
Proof. intros ?. destruct s. cbn in *. read_struct. Qed.
Hint Resolve reads_SectorInfo : cbor.

Lemma reads_PoStProof p : post_proof_ok p -> reads decode_PoStProof (encode_PoStProof p) p.
Proof. intros ?. destruct p. cbn in *. read_struct. Qed.
Hint Resolve reads_PoStProof : cbor.

Lemma reads_WinningPoStVerifyInfo i :
  post_verify_info_ok i -> reads decode_WinningPoStVerifyInfo (encode_WinningPoStVerifyInfo i) i.
Proof. intros (?&?&?&?&?&?). destruct i. cbn in *. read_struct. Qed.

Lemma reads_SealVerifyInfo i :
  seal_verify_info_ok i -> reads decode_SealVerifyInfo (encode_SealVerifyInfo i) i.
Proof. intros (?&?&?&?&?&?). destruct i. cbn in *. read_struct. Qed.
End Reads.

#[export] Hint Resolve reads_Actor reads_proof reads_SectorId reads_SectorInfo reads_PoStProof
  reads_WinningPoStVerifyInfo reads_SealVerifyInfo : cbor.

Lemma readable_loop_spec fuel size i :
  0 <= size < 1024 ^ Z.of_nat (7 - i) -> (i <= 6)%nat -> (6 - i < fuel)%nat ->
  exists k, (i + k <= 6)%nat /\ readable_loop fuel size i = Ok (size / 1024 ^ Z.of_nat k, (i + k)%nat) /\
    size / 1024 ^ Z.of_nat k < 1024 /\ ((0 < k)%nat -> 1 <= size / 1024 ^ Z.of_nat k).
Proof.
  revert size i. induction fuel as [|fuel IH]; intros size i Hs Hi Hf; [lia|].
  cbn [readable_loop]. change (length UNITS - 1)%nat with 6%nat.
  destruct (Z.leb_spec 1024 size); cbn [andb].
  2:{ exists 0%nat. rewrite Nat.add_0_r. change (1024 ^ Z.of_nat 0) with 1. rewrite Z.div_1_r.
      split; [lia|]. split; [done|]. lia. }
  destruct (Nat.ltb_spec i 6) as [Hl|Hl].
  2:{ assert (i = 6%nat) as -> by lia. change (1024 ^ Z.of_nat (7 - 6)) with 1024 in Hs. lia. }
  replace (7 - i)%nat with (S (7 - (i + 1))) in Hs by lia.
  rewrite Nat2Z.inj_succ, Z.pow_succ_r in Hs by lia.
  destruct (IH (size / 1024) (i + 1)%nat) as (k & Hk & Heq & Hend & Hpos); [|lia|lia|].
  { split; [apply Z.div_pos; lia|]. apply Z.div_lt_upper_bound; lia. }
  assert (Hdiv : size / 1024 / 1024 ^ Z.of_nat k = size / 1024 ^ Z.of_nat (S k)).
  { rewrite Nat2Z.inj_succ, Z.pow_succ_r by lia.
    rewrite Z.div_div by (try apply Z.pow_pos_nonneg; lia). done. }
  rewrite Hdiv in *. exists (S k). rewrite Heq.
  replace (i + 1 + k)%nat with (i + S k)%nat by lia. split; [lia|]. split; [done|]. split; [done|].
  intros _. destruct k as [|k']; [|apply Hpos; lia].
  change (1024 ^ Z.of_nat 1) with 1024. apply Z.div_le_lower_bound; lia.
Qed.

(** ** The properties *)

(** The numbers of the registered proofs are distinct, each is read back
    from the wire to its proof, and any other number is refused. *)
Theorem registered_proof_codes `{MinicborLaws} (p : RegisteredProof) (v : Z) (rest : list Z) :
  u64 v -> (forall q, v <> u64_of_proof q) ->
  decode_proof (encode_proof p ++ rest) = Ok (p, rest) /\
  decode_proof (e_u64 v ++ rest)
    = Err (TypeMismatch (trunc 8 v) "unexpected registered proof") /\
  (forall q, u64_of_proof p = u64_of_proof q -> p = q).
Proof.
  intros Hv Hne. split; [apply reads_proof|]. split.
  - unfold decode_proof, dbind. rewrite reads_u64 by done. cbn [bind].
    destruct (proof_try_from_cases v) as [(q & Hq & _)|Hq]; [by apply Hne in Hq|]. by rewrite Hq.
  - intros q Hq. pose proof (proof_try_from_of p) as Hp. rewrite Hq, proof_try_from_of in Hp. congruence.
Qed.

Lemma registered_proof_codes_witness :
  decode_proof (encode_proof StackedDRG512MiBSeal ++ [0]) = Ok (StackedDRG512MiBSeal, [0]) /\
  decode_proof (e_u64 2 ++ [0]) = Err (TypeMismatch (trunc 8 2) "unexpected registered proof") /\
  (forall q, u64_of_proof StackedDRG512MiBSeal = u64_of_proof q -> StackedDRG512MiBSeal = q).
Proof.
  apply (registered_proof_codes StackedDRG512MiBSeal 2 [0]); [unfold u64; lia|].
  intros []; cbn; lia.
Defined.

(** A seal proof, its winning and its window PoSt proof form one family:
    each of the three maps sends every member to its own one, all members have
    the same sector size and partition size, no [unreachable!] is reached, and
    [from_sector_size] finds the family's seal proof from the size; two
    families never share a size. *)
Theorem registered_proof_families (p q : RegisteredProof) :
  let seal := registered_seal_proof in
  let winning := registered_winning_post_proof in
  let window := registered_window_post_proof in
  seal (winning p) = seal p /\ seal (window p) = seal p /\ seal (seal p) = seal p /\
  winning (seal p) = winning p /\ winning (window p) = winning p /\
  window (seal p) = window p /\ window (winning p) = window p /\
  (exists size sectors, sector_size p = Ok size /\ window_post_partition_sectors p = Ok sectors /\
     from_sector_size size = Ok (seal p)) /\
  (sector_size p = sector_size q <-> seal p = seal q).
Proof.
  repeat split; try (by destruct p).
  - destruct p; do 2 eexists; repeat split; reflexivity.
  - destruct p, q; first [reflexivity|discriminate].
  - unfold sector_size. by intros ->.
Qed.

(** The readable form of a sector size is the size divided by the largest
    power of 1024 that does not exceed it, cut to an integer, with that power's
    unit; the loop ends and the unit lookup stays in range for every [u64]. *)
Theorem readable_size_truncates (size : Z) :
  u64 size ->
  exists i u, UNITS !! i = Some u /\
    readable_sector_size size = Ok (to_decimal (size / 1024 ^ Z.of_nat i) ++ u) /\
    (1024 ^ Z.of_nat i <= size < 1024 ^ Z.of_nat (S i) \/ (size = 0 /\ i = 0%nat)).
Proof.
  intros Hs. unfold u64 in Hs.
  destruct (readable_loop_spec (length UNITS) size 0) as (k & Hk & Hl & Hend & Hpos);
    [change (1024 ^ Z.of_nat (7 - 0)) with (2 ^ 70); lia|lia|vm_compute; lia|].
  cbn [Nat.add] in *. destruct (lookup_lt_is_Some_2 UNITS k) as [u Hu]; [vm_compute; lia|].
  exists k, u. split; [done|]. split; [unfold readable_sector_size; rewrite Hl; cbn; by rewrite Hu|].
  assert (Hp : 0 < 1024 ^ Z.of_nat k) by (apply Z.pow_pos_nonneg; lia).
  pose proof (Z.div_mod size (1024 ^ Z.of_nat k) ltac:(lia)) as Hd.
  pose proof (Z.mod_pos_bound size _ Hp) as Hm.
  rewrite Nat2Z.inj_succ, Z.pow_succ_r by lia. set (P := 1024 ^ Z.of_nat k) in *.
  destruct k as [|k]; [cbn in P; subst P; lia|]. left. specialize (Hpos ltac:(lia)). nia.
Qed.

Lemma readable_size_truncates_witness :
  exists i u, UNITS !! i = Some u /\
    readable_sector_size 2047 = Ok (to_decimal (2047 / 1024 ^ Z.of_nat i) ++ u) /\
    (1024 ^ Z.of_nat i <= 2047 < 1024 ^ Z.of_nat (S i) \/ (2047 = 0 /\ i = 0%nat)).
Proof. apply (readable_size_truncates 2047). unfold u64. lia. Defined.

(** Every record the proofs crate exchanges (actors, sector ids and infos,
    PoSt proofs, the winning/window PoSt and seal verification records) is read
    back from its CBOR form, with the bytes behind it untouched. *)
Theorem sector_records_roundtrip `{MinicborLaws} `{NumBigintLaws} `{CidLaws}
    (a : Actor) (s : SectorId) (i : PoStVerifyInfo) (v : SealVerifyInfo) (rest : list Z) :
  u64 (nonce a) -> bigint_fits (balance a) -> sector_id_ok s -> post_verify_info_ok i ->
  seal_verify_info_ok v ->
  decode_Actor (encode_Actor a ++ rest) = Ok (a, rest) /\
  decode_SectorId (encode_SectorId s ++ rest) = Ok (s, rest) /\
  decode_WinningPoStVerifyInfo (encode_WinningPoStVerifyInfo i ++ rest) = Ok (i, rest) /\
  decode_SealVerifyInfo (encode_SealVerifyInfo v ++ rest) = Ok (v, rest).
Proof.
  intros. repeat split; [by apply reads_Actor|by apply reads_SectorId
    |by apply reads_WinningPoStVerifyInfo|by apply reads_SealVerifyInfo].
Qed.

Definition test_cid : Cid := dag_cbor_cid [1; 2; 3].

Lemma sector_records_roundtrip_witness :
  let a := mkActor _ test_cid test_cid 5 (10 ^ 18) in
  let s := mkSectorId 100 100 in
  let i := mkPoStVerifyInfo _ (replicate 32 1) [mkPoStProof StackedDRG512MiBSeal [1; 2; 3]]
             [mkSectorInfo _ StackedDRG512MiBSeal 1111 test_cid] 0 in
  let v := mkSealVerifyInfo _ StackedDRG512MiBSeal s [8; 7; 6] (replicate 32 1) (replicate 32 2)
             [1; 2; 3; 4] test_cid test_cid in
  decode_Actor (encode_Actor a ++ [9]) = Ok (a, [9]) /\
  decode_SectorId (encode_SectorId s ++ [9]) = Ok (s, [9]) /\
  decode_WinningPoStVerifyInfo (encode_WinningPoStVerifyInfo i ++ [9]) = Ok (i, [9]) /\
  decode_SealVerifyInfo (encode_SealVerifyInfo v ++ [9]) = Ok (v, [9]).
Proof.
  intros a s i v. apply (sector_records_roundtrip a s i v [9]).
  - unfold u64; cbn; lia.
  - vm_compute. reflexivity.
  - repeat split; cbn; lia.
  - repeat split; try (repeat constructor; cbn; unfold u8, u64; lia); cbn; try lia.
  - repeat split; try (repeat constructor; cbn; unfold u8, u64; lia); cbn; lia.
Defined.

(** Byte vectors of the crate's own test. *)
Example test_sector_cbor :
  encode_SectorId (mkSectorId 100 100) = [130; 24; 100; 24; 100] /\
  encode_proof StackedDRG512MiBSeal = [7] /\
  encode_PoStProof (mkPoStProof StackedDRG512MiBSeal [1; 2; 3]) = [130; 7; 67; 1; 2; 3] /\
  readable_sector_size (10 * 1024 * 1125899906842624) = Ok (str "10EiB").
Proof. repeat split; vm_compute; reflexivity. Qed.
