(* ===== verification/Crypto.v ===== *)
(** * [primitives/crypto]: keys, signatures and the VRF

    The curve libraries ([secp256k1], [bls], [sha2]) are interfaces with the
    laws their documentation promises; CryptoRef, at the end of the file, has an
    instance that satisfies them. *)

From Stdlib Require Import ZArith Lia String.
From stdpp Require Import base numbers list.
From S2P Require Import Prelude Cbor CborRef Address AddressRef.

Local Open Scope Z_scope.

(** ** The curve libraries *)
Class Curves := {
  secp_error : Type;
  SecretKey : Type;
  SecpPublicKey : Type;
  SecpSignature : Type;
  RecoveryId : Type;
  secret_parse_slice : list Z -> outcome secp_error SecretKey;
  secret_serialize : SecretKey -> list Z;
  from_secret_key : SecretKey -> SecpPublicKey;
  secp_pub_parse_slice : list Z -> outcome secp_error SecpPublicKey;
  secp_pub_serialize : SecpPublicKey -> list Z;
  secp_sign : list Z -> SecretKey -> SecpSignature * RecoveryId;
  secp_sig_serialize : SecpSignature -> list Z;
  secp_sig_parse : list Z -> SecpSignature;
  secp_sig_parse_slice : list Z -> outcome secp_error SecpSignature;
  recid_serialize : RecoveryId -> Z;
  recid_parse : Z -> outcome secp_error RecoveryId;
  secp_recover : list Z -> SecpSignature -> RecoveryId -> outcome secp_error SecpPublicKey;
  secp_verify : list Z -> SecpSignature -> SecpPublicKey -> bool;
  bls_error : Type;
  BlsPrivateKey : Type;
  BlsPublicKey : Type;
  BlsSignature : Type;
  BlsHash : Type;
  bls_priv_from_bytes : list Z -> outcome bls_error BlsPrivateKey;
  bls_priv_as_bytes : BlsPrivateKey -> list Z;
  bls_public_key : BlsPrivateKey -> BlsPublicKey;
  bls_pub_from_bytes : list Z -> outcome bls_error BlsPublicKey;
  bls_pub_as_bytes : BlsPublicKey -> list Z;
  bls_sign : BlsPrivateKey -> list Z -> BlsSignature;
  bls_sig_from_bytes : list Z -> outcome bls_error BlsSignature;
  bls_sig_as_bytes : BlsSignature -> list Z;
  bls_hash : list Z -> BlsHash;
  bls_verify : BlsSignature -> list BlsHash -> list BlsPublicKey -> bool;
  sha256 : list Z -> list Z;
}.

(** What the libraries document: keys and signatures are read back from their
    bytes, a signature of a key is accepted for its public key, and a
    recoverable signature recovers that public key. *)
Class CurvesLaws (C : Curves) : Prop := {
  secret_roundtrip k : secret_parse_slice (secret_serialize k) = Ok k;
  secp_pub_roundtrip p : secp_pub_parse_slice (secp_pub_serialize p) = Ok p;
  secp_pub_len p : length (secp_pub_serialize p) = 65%nat;
  secp_sig_len s : length (secp_sig_serialize s) = 64%nat;
  secp_sig_roundtrip s : secp_sig_parse (secp_sig_serialize s) = s;
  secp_sig_slice_roundtrip s : secp_sig_parse_slice (secp_sig_serialize s) = Ok s;
  recid_roundtrip r : recid_parse (recid_serialize r) = Ok r;
  secp_recover_sign m k :
    secp_recover m (fst (secp_sign m k)) (snd (secp_sign m k)) = Ok (from_secret_key k);
  secp_verify_sign m k : secp_verify m (fst (secp_sign m k)) (from_secret_key k) = true;
  bls_priv_roundtrip k : bls_priv_from_bytes (bls_priv_as_bytes k) = Ok k;
  bls_pub_roundtrip p : bls_pub_from_bytes (bls_pub_as_bytes p) = Ok p;
  bls_pub_len p : length (bls_pub_as_bytes p) = 48%nat;
  bls_pub_bytes p : bytes_ok (bls_pub_as_bytes p);
  bls_sig_roundtrip s : bls_sig_from_bytes (bls_sig_as_bytes s) = Ok s;
  bls_verify_sign k m : bls_verify (bls_sign k m) [bls_hash m] [bls_public_key k] = true;
}.

Module Crypto.

(** ** Types *)
Inductive SignatureType := Secp256k1 | Bls.

#[export] Instance SignatureType_eq_dec : EqDecision SignatureType.
Proof. solve_decision. Defined.

Record Signature := mkSignature { type : SignatureType; data : list Z }.

Definition u8_of_SignatureType (ty : SignatureType) : Z :=
  match ty with Secp256k1 => 1 | Bls => 2 end.

Inductive DomainSeparationTag :=
| TicketProduction | ElectionProofProduction | WinningPoStChallengeSeed
| WindowedPoStChallengeSeed | SealRandomness | InteractiveSealChallengeSeed
| WindowedPoStDeadlineAssignment.

(** The discriminants, [TicketProduction = 1] and counting. *)
Definition u8_of_tag (t : DomainSeparationTag) : Z :=
  match t with
  | TicketProduction => 1 | ElectionProofProduction => 2 | WinningPoStChallengeSeed => 3
  | WindowedPoStChallengeSeed => 4 | SealRandomness => 5 | InteractiveSealChallengeSeed => 6
  | WindowedPoStDeadlineAssignment => 7
  end.

Section Crypto.
Context `{AddressDeps} `{Curves}.

Inductive CryptoError :=
| UnknownSignatureType (value : Z)
| Secp256k1Error (e : secp_error)
| BlsError (e : bls_error)
| NotSameType (ty : SignatureType) (p : Protocol)
| VerifyFailed.

Definition SignatureType_try_from (value : Z) : outcome CryptoError SignatureType :=
  if value =? 1 then Ok Secp256k1
  else if value =? 2 then Ok Bls
  else Err (UnknownSignatureType value).

(** hashing/src/lib.rs [blake2b_256]; [copy_from_slice] panics on another length. *)
Definition blake2b_256 {E} (d : list Z) : outcome E (list Z) :=
  let hash := blake2b d 32 in
  if decide (length hash = 32%nat) then Ok hash else Panic.

(** ** Keys *)
Inductive PublicKey := PubSecp256k1 (k : SecpPublicKey) | PubBls (k : BlsPublicKey).
Inductive PrivateKey := PrivSecp256k1 (k : SecretKey) | PrivBls (k : BlsPrivateKey).

Definition public_new_secp256k1 (pubkey : list Z) : outcome CryptoError PublicKey :=
  k <- map_err Secp256k1Error (secp_pub_parse_slice pubkey) ;; Ok (PubSecp256k1 k).
Definition public_new_bls (pubkey : list Z) : outcome CryptoError PublicKey :=
  k <- map_err BlsError (bls_pub_from_bytes pubkey) ;; Ok (PubBls k).
Definition from_privkey (k : PrivateKey) : PublicKey :=
  match k with
  | PrivSecp256k1 k => PubSecp256k1 (from_secret_key k)
  | PrivBls k => PubBls (bls_public_key k)
  end.
Definition public_into_vec (k : PublicKey) : list Z :=
  match k with
  | PubSecp256k1 k => secp_pub_serialize k
  | PubBls k => bls_pub_as_bytes k
  end.
Definition private_new_secp256k1 (privkey : list Z) : outcome CryptoError PrivateKey :=
  k <- map_err Secp256k1Error (secret_parse_slice privkey) ;; Ok (PrivSecp256k1 k).
Definition private_new_bls (privkey : list Z) : outcome CryptoError PrivateKey :=
  k <- map_err BlsError (bls_priv_from_bytes privkey) ;; Ok (PrivBls k).
Definition private_into_vec (k : PrivateKey) : list Z :=
  match k with
  | PrivSecp256k1 k => secret_serialize k
  | PrivBls k => bls_priv_as_bytes k
  end.

(** ** Signing *)
Definition sign_secp256k1 (privkey msg : list Z) : outcome CryptoError Signature :=
  seckey <- map_err Secp256k1Error (secret_parse_slice privkey) ;;
  hashed_msg <- blake2b_256 msg ;;
  let '(signature, recovery_id) := secp_sign hashed_msg seckey in
  Ok (mkSignature Secp256k1 (secp_sig_serialize signature ++ [recid_serialize recovery_id])).

Definition sign_bls (privkey msg : list Z) : outcome CryptoError Signature :=
  privkey <- map_err BlsError (bls_priv_from_bytes privkey) ;;
  Ok (mkSignature Bls (bls_sig_as_bytes (bls_sign privkey msg))).

Definition sign (ty : SignatureType) (privkey msg : list Z) : outcome CryptoError Signature :=
  match ty with
  | Secp256k1 => sign_secp256k1 privkey msg
  | Bls => sign_bls privkey msg
  end.

(** ** Verifying *)
Definition SIGNATURE_SIZE : nat := 64.

Definition verify_secp256k1 (s : Signature) (pubkey msg : list Z) : outcome CryptoError bool :=
  hashed_msg <- blake2b_256 msg ;;
  if decide (length (data s) = (SIGNATURE_SIZE + 1)%nat) then
    signature <- map_err Secp256k1Error (secp_sig_parse_slice (take SIGNATURE_SIZE (data s))) ;;
    pubkey <- map_err Secp256k1Error (secp_pub_parse_slice pubkey) ;;
    Ok (secp_verify hashed_msg signature pubkey)
  else Panic.

Definition verify_bls (s : Signature) (pubkey msg : list Z) : outcome CryptoError bool :=
  pubkey <- map_err BlsError (bls_pub_from_bytes pubkey) ;;
  let hashed_msg := bls_hash msg in
  signature <- map_err BlsError (bls_sig_from_bytes (data s)) ;;
  Ok (bls_verify signature [hashed_msg] [pubkey]).

Definition verify_raw (s : Signature) (pubkey msg : list Z) : outcome CryptoError bool :=
  match type s with
  | Secp256k1 => verify_secp256k1 s pubkey msg
  | Bls => verify_bls s pubkey msg
  end.

Definition verify (s : Signature) (addr : Address) (msg : list Z) : outcome CryptoError bool :=
  match type s, protocol addr with
  | Secp256k1, Address.Secp256k1 =>
      hashed_msg <- blake2b_256 msg ;;
      if decide (length (data s) = (SIGNATURE_SIZE + 1)%nat) then
        let signature := secp_sig_parse (take SIGNATURE_SIZE (data s)) in
        recovery_id <- index_or_panic (data s !! SIGNATURE_SIZE) ;;
        recovery_id <- map_err Secp256k1Error (recid_parse recovery_id) ;;
        pubkey <- map_err Secp256k1Error (secp_recover hashed_msg signature recovery_id) ;;
        recovery_addr <- expect (new_secp256k1_addr (secp_pub_serialize pubkey)) ;;
        Ok (bool_decide (recovery_addr = addr))
      else Panic
  | Bls, Address.Bls => verify_bls s (payload addr) msg
  | ty, p => Err (NotSameType ty p)
  end.

(** ** CBOR *)
Definition encode_Signature `{Minicbor} (s : Signature) : list Z :=
  e_bytes (u8_of_SignatureType (type s) :: data s).

(** [bytes[0]] panics on an empty byte string. *)
Definition decode_Signature `{Minicbor} : decoder Signature :=
  bytes <~ d_bytes ;;
  fun rest =>
    b <- index_or_panic (bytes !! 0%nat) ;;
    ty <- map_err (fun _ => Message "expected signature type") (SignatureType_try_from b) ;;
    Ok (mkSignature ty (drop 1 bytes), rest).

(** ** VRF *)
Definition to_le_bytes (x : Z) : list Z := rev (be_split 8 x).

Definition hash_vrf_base {E} (personalization : Z) (msg : list Z) (miner : Address)
  : outcome E (list Z) :=
  if decide (protocol miner = Id) then
    Ok (sha256 (to_le_bytes personalization ++ [0] ++ msg ++ [0] ++ as_bytes miner))
  else Panic.

Definition compute_vrf {E} (worker_priv_key : BlsPrivateKey) (personalization : Z) (msg : list Z)
    (owner : Address) : outcome E BlsSignature :=
  msg <- hash_vrf_base personalization msg owner ;;
  Ok (bls_sign worker_priv_key msg).

Definition verify_vrf {E} (pubkey : BlsPublicKey) (personalization : Z) (msg : list Z)
    (miner : Address) (proof : BlsSignature) : outcome E bool :=
  msg <- hash_vrf_base personalization msg miner ;;
  let hashed_msg := bls_hash msg in
  Ok (bls_verify proof [hashed_msg] [pubkey]).

Definition signature_ok (s : Signature) : Prop := vec_u8 (u8_of_SignatureType (type s) :: data s).

Lemma SignatureType_roundtrip ty : SignatureType_try_from (u8_of_SignatureType ty) = Ok ty.
Proof. by destruct ty. Qed.

Lemma reads_Signature `{MinicborLaws} s :
  signature_ok s -> reads decode_Signature (encode_Signature s) s.
Proof.
  intros Hs rest. unfold decode_Signature, encode_Signature, dbind. rewrite reads_bytes by done.
  cbn [bind lookup list_lookup index_or_panic]. rewrite SignatureType_roundtrip. by destruct s.
Qed.

Lemma blake2b_256_ok `{!AddressDepsLaws _} {E} d : @blake2b_256 E d = Ok (blake2b d 32).
Proof. unfold blake2b_256. rewrite decide_True; [done|]. apply blake2b_length. lia. Qed.

(** ** The properties *)

(** [Signature::sign] with the key's own type, and the address of its public key. *)
Definition type_of_key (k : PrivateKey) : SignatureType :=
  match k with PrivSecp256k1 _ => Secp256k1 | PrivBls _ => Bls end.
Definition address_of_key (k : PublicKey) : outcome AddressError Address :=
  match k with
  | PubSecp256k1 _ => new_secp256k1_addr (public_into_vec k)
  | PubBls _ => new_bls_addr (public_into_vec k)
  end.

Lemma address_of_secp `{!AddressDepsLaws _} `{!CurvesLaws _} k :
  exists a, new_secp256k1_addr (secp_pub_serialize k) = Ok a /\ protocol a = Address.Secp256k1.
Proof.
  unfold new_secp256k1_addr. rewrite secp_pub_len. cbn [andb bool_decide].
  rewrite bool_decide_eq_false_2 by (vm_compute; lia). cbn [andb].
  unfold address_hash. rewrite blake2b_variable_ok by (vm_compute; lia). cbn [bind]. unfold new.
  rewrite decide_True by (apply blake2b_length; vm_compute; lia). by eexists.
Qed.

Lemma sign_verify_secp256k1 `{!AddressDepsLaws _} `{!CurvesLaws _} (k : SecretKey) (msg : list Z) :
  exists s a,
    sign_secp256k1 (secret_serialize k) msg = Ok s /\
    new_secp256k1_addr (secp_pub_serialize (from_secret_key k)) = Ok a /\
    verify s a msg = Ok true /\
    verify_raw s (secp_pub_serialize (from_secret_key k)) msg = Ok true.
Proof.
  destruct (address_of_secp (from_secret_key k)) as (a & Ha & Hp).
  unfold sign_secp256k1. rewrite secret_roundtrip. cbn [map_err bind].
  rewrite blake2b_256_ok. cbn [bind].
  pose proof (secp_recover_sign (blake2b msg 32) k) as Hr.
  pose proof (secp_verify_sign (blake2b msg 32) k) as Hv.
  destruct (secp_sign _ k) as [sg r]. cbn [fst snd] in *.
  eexists _, a. split; [done|]. split; [done|].
  assert (Hl : length (secp_sig_serialize sg ++ [recid_serialize r]) = (SIGNATURE_SIZE + 1)%nat)
    by (rewrite length_app, secp_sig_len; done).
  assert (Ht : take SIGNATURE_SIZE (secp_sig_serialize sg ++ [recid_serialize r])
               = secp_sig_serialize sg) by (apply take_app_length'; by rewrite secp_sig_len).
  assert (Hi : (secp_sig_serialize sg ++ [recid_serialize r]) !! SIGNATURE_SIZE
               = Some (recid_serialize r))
    by (rewrite lookup_app_r by (by rewrite secp_sig_len); by rewrite secp_sig_len).
  split.
  - unfold verify. cbn [type data]. rewrite Hp, blake2b_256_ok. cbn [bind].
    rewrite decide_True, Ht, Hi by done. cbn [index_or_panic bind].
    rewrite recid_roundtrip, secp_sig_roundtrip. cbn [map_err bind]. rewrite Hr. cbn [map_err bind].
    rewrite Ha. cbn. by rewrite bool_decide_eq_true_2.
  - unfold verify_raw, verify_secp256k1. cbn [type data]. rewrite blake2b_256_ok. cbn [bind].
    rewrite decide_True, Ht, secp_sig_slice_roundtrip by done. cbn [map_err bind].
    rewrite secp_pub_roundtrip. cbn. by rewrite Hv.
Qed.

Lemma sign_verify_bls `{!CurvesLaws _} (k : BlsPrivateKey) (msg : list Z) :
  exists s a,
    sign_bls (bls_priv_as_bytes k) msg = Ok s /\
    new_bls_addr (bls_pub_as_bytes (bls_public_key k)) = Ok a /\
    verify s a msg = Ok true /\
    verify_raw s (bls_pub_as_bytes (bls_public_key k)) msg = Ok true.
Proof.
  unfold sign_bls. rewrite bls_priv_roundtrip. cbn [map_err bind].
  eexists _, _. split; [done|]. unfold new_bls_addr, new.
  rewrite decide_True by apply bls_pub_len. split; [done|].
  unfold verify, verify_raw, verify_bls. cbn [type data protocol payload].
  rewrite bls_pub_roundtrip, bls_sig_roundtrip. cbn. by rewrite bls_verify_sign.
Qed.

(** C24: what a key signs verifies: the signature made with the bytes of a
    private key is accepted against the address of its public key and against
    the bytes of that public key, for both curves. *)
Theorem sign_then_verify `{!AddressDepsLaws _} `{!CurvesLaws _} (k : PrivateKey) (msg : list Z) :
  exists s a,
    sign (type_of_key k) (private_into_vec k) msg = Ok s /\
    address_of_key (from_privkey k) = Ok a /\
    verify s a msg = Ok true /\
    verify_raw s (public_into_vec (from_privkey k)) msg = Ok true.
Proof. destruct k as [k|k]; [apply sign_verify_secp256k1|apply sign_verify_bls]. Qed.

(** A signature is only checked against an address of its own curve: any
    other pair is reported as [NotSameType], an ID or actor address included;
    and a secp256k1 signature that is not 65 bytes long makes the check panic. *)
Theorem verify_mismatch `{!AddressDepsLaws _} (s : Signature) (a : Address) (msg : list Z) :
  (u8_of_SignatureType (type s)
     <> match protocol a with Address.Secp256k1 => 1 | Address.Bls => 2 | _ => 0 end ->
   verify s a msg = Err (NotSameType (type s) (protocol a))) /\
  (type s = Secp256k1 -> protocol a = Address.Secp256k1 -> length (data s) <> 65%nat ->
   verify s a msg = Panic).
Proof.
  unfold verify. split.
  - destruct s as [[] d], a as [[] pl]; cbn; done.
  - intros -> -> Hl. rewrite blake2b_256_ok. cbn [bind]. by rewrite decide_False.
Qed.

(** A proof computed with a worker's key verifies under its public key for
    the same inputs when the miner has an ID address; with any other kind of
    address both functions panic. *)
Theorem vrf_compute_verify `{!CurvesLaws _} (k : BlsPrivateKey) (tag : Z) (msg : list Z) (miner : Address) :
  (protocol miner = Id ->
   exists proof, @compute_vrf CryptoError k tag msg miner = Ok proof /\
     @verify_vrf CryptoError (bls_public_key k) tag msg miner proof = Ok true) /\
  (protocol miner <> Id ->
   @compute_vrf CryptoError k tag msg miner = Panic /\
   forall pk proof, @verify_vrf CryptoError pk tag msg miner proof = Panic).
Proof.
  unfold compute_vrf, verify_vrf, hash_vrf_base. split; intros Hm.
  - rewrite decide_True by done. cbn [bind]. eexists. split; [done|]. by rewrite bls_verify_sign.
  - by rewrite decide_False by done.
Qed.

(** The CBOR form of a signature (type byte, then data) is read back; a
    byte string with another type byte is an error; an empty byte string makes
    the decoder panic. *)
Theorem signature_codec `{MinicborLaws} (s : Signature) (b : Z) (bs rest : list Z) :
  signature_ok s -> vec_u8 (b :: bs) -> b <> 1 -> b <> 2 ->
  decode_Signature (encode_Signature s ++ rest) = Ok (s, rest) /\
  decode_Signature (e_bytes (b :: bs) ++ rest) = Err (Message "expected signature type") /\
  decode_Signature (e_bytes [] ++ rest) = Panic.
Proof.
  intros Hs Hv Hb1 Hb2. split; [by apply reads_Signature|].
  unfold decode_Signature, dbind. rewrite !reads_bytes by (done || apply vec_u8_nil).
  split; [|done]. cbn [bind lookup list_lookup index_or_panic]. unfold SignatureType_try_from.
  by rewrite !(proj2 (Z.eqb_neq _ _)) by done.
Qed.
End Crypto.
#[export] Hint Resolve reads_Signature : cbor.
End Crypto.

(** ** An instance of the interface

    A key is a Boolean and a signature the key that made it: no cryptography,
    but every law holds, so the theorems above are not vacuous. *)
Module CryptoRef.
Import Crypto.

Definition bool_bytes (n : nat) (b : bool) : list Z := replicate n (if b then 1 else 0).
Definition bytes_bool (n : nat) (bs : list Z) : outcome unit bool :=
  if decide (bs = bool_bytes n true) then Ok true
  else if decide (bs = bool_bytes n false) then Ok false else Err tt.

Lemma bytes_bool_roundtrip n b : n <> 0%nat -> bytes_bool n (bool_bytes n b) = Ok b.
Proof.
  intros Hn. unfold bytes_bool. destruct n as [|n]; [done|].
  destruct b; [by rewrite decide_True|]. rewrite decide_False by (cbn; congruence).
  by rewrite decide_True.
Qed.

#[export] Instance curves_ref : Curves := {|
  secp_error := unit; SecretKey := bool; SecpPublicKey := bool; SecpSignature := bool;
  RecoveryId := unit;
  secret_parse_slice := bytes_bool 32; secret_serialize := bool_bytes 32;
  from_secret_key k := k;
  secp_pub_parse_slice := bytes_bool 65; secp_pub_serialize := bool_bytes 65;
  secp_sign _ k := (k, tt);
  secp_sig_serialize := bool_bytes 64;
  secp_sig_parse bs := bool_decide (bs = bool_bytes 64 true);
  secp_sig_parse_slice := bytes_bool 64;
  recid_serialize _ := 0;
  recid_parse b := if b =? 0 then Ok tt else Err tt;
  secp_recover _ s _ := Ok s;
  secp_verify _ s k := bool_decide (s = k);
  bls_error := unit; BlsPrivateKey := bool; BlsPublicKey := bool;
  BlsSignature := bool * list Z; BlsHash := list Z;
  bls_priv_from_bytes := bytes_bool 32; bls_priv_as_bytes := bool_bytes 32;
  bls_public_key k := k;
  bls_pub_from_bytes := bytes_bool 48; bls_pub_as_bytes := bool_bytes 48;
  bls_sign k m := (k, m);
  bls_sig_from_bytes bs := match bs with b :: m => Ok (b =? 1, m) | [] => Err tt end;
  bls_sig_as_bytes '(k, m) := (if k : bool then 1 else 0) :: m;
  bls_hash m := m;
  bls_verify s hs ks := bool_decide (hs = [snd s]) && bool_decide (ks = [fst s]);
  sha256 bs := be_split 32 (be_combine bs);
|}.

#[export] Instance curves_ref_laws : CurvesLaws curves_ref.
Proof.
  split; cbn -[bool_bytes bytes_bool]; try (intros; by apply bytes_bool_roundtrip); try (intros; apply length_replicate); try done.
  - by intros [].
  - by intros [].
  - intros _ k. by apply bool_decide_eq_true_2.
  - intros p. apply Forall_replicate. unfold u8. destruct p; lia.
  - by intros [[] m].
  - intros k m. by rewrite !bool_decide_eq_true_2.
Qed.

Definition ref_key : @BlsPrivateKey curves_ref := true.

Lemma sign_then_verify_witness :
  exists s a,
    sign (type_of_key (PrivBls ref_key)) (private_into_vec (PrivBls ref_key)) [1; 2] = Ok s /\
    address_of_key (from_privkey (PrivBls ref_key)) = Ok a /\
    verify s a [1; 2] = Ok true /\
    verify_raw s (public_into_vec (from_privkey (PrivBls ref_key))) [1; 2] = Ok true.
Proof. apply (sign_then_verify (PrivBls ref_key) [1; 2]). Defined.

Lemma verify_mismatch_witness :
  (u8_of_SignatureType Bls <> 0 ->
   verify (mkSignature Bls [1]) (mkAddress Id [0]) [1; 2] = Err (NotSameType Bls Id)) /\
  (Bls = Secp256k1 -> Id = Address.Secp256k1 -> length [1] <> 65%nat ->
   verify (mkSignature Bls [1]) (mkAddress Id [0]) [1; 2] = Panic).
Proof. apply (verify_mismatch (mkSignature Bls [1]) (mkAddress Id [0]) [1; 2]). Defined.

Lemma vrf_compute_verify_witness :
  (protocol (mkAddress Id [0]) = Id ->
   exists proof, @compute_vrf _ CryptoError ref_key 5 [1] (mkAddress Id [0]) = Ok proof /\
     @verify_vrf _ CryptoError (bls_public_key ref_key) 5 [1] (mkAddress Id [0]) proof = Ok true) /\
  (protocol (mkAddress Id [0]) <> Id ->
   @compute_vrf _ CryptoError ref_key 5 [1] (mkAddress Id [0]) = Panic /\
   forall pk proof, @verify_vrf _ CryptoError pk 5 [1] (mkAddress Id [0]) proof = Panic).
Proof. apply (vrf_compute_verify ref_key 5 [1] (mkAddress Id [0])). Defined.

Lemma signature_codec_witness :
  decode_Signature (encode_Signature (mkSignature Bls (str "boo! im a signature")) ++ [0])
    = Ok (mkSignature Bls (str "boo! im a signature"), [0]) /\
  decode_Signature (e_bytes [3; 7] ++ [0]) = Err (Message "expected signature type") /\
  decode_Signature (e_bytes [] ++ [0]) = Panic.
Proof.
  apply (signature_codec (mkSignature Bls (str "boo! im a signature")) 3 [7] [0]); [..|lia|lia].
  - split; [apply Forall_cons; split; [unfold u8; cbn; lia|apply str_bytes_ok]|vm_compute; reflexivity].
  - split; [repeat (apply Forall_cons; split; [unfold u8; lia|]); apply Forall_nil_2|vm_compute; reflexivity].
Defined.

(** The vector of [signature_cbor_serde]. *)
Example signature_cbor_serde :
  encode_Signature (mkSignature Bls (str "boo! im a signature"))
  = [84; 2; 98; 111; 111; 33; 32; 105; 109; 32; 97; 32; 115; 105; 103; 110; 97; 116; 117; 114; 101].
Proof. vm_compute. reflexivity. Qed.

(** A signature of the wrong length reaches the assertion. *)
Example short_signature_panics :
  verify (mkSignature Secp256k1 [1]) (mkAddress Address.Secp256k1 (replicate 20 0)) [1] = Panic.
Proof. vm_compute. reflexivity. Qed.
End CryptoRef.
