(* ===== verification/Vrf.v ===== *)
(** * [primitives/crypto]: VRF keys and proofs as bytes, and new keys

    The wrappers [VrfPublicKey], [VrfPrivateKey] and [VrfProof] of vrf.rs, the
    generators of key.rs and the constructors of signature.rs.  What the system's
    random source makes is an argument. *)

From Stdlib Require Import ZArith Lia String.
From stdpp Require Import base numbers list.
From S2P Require Import Prelude Address AddressRef Crypto.

Local Open Scope Z_scope.

Module Vrf.
Import Crypto.Crypto.

Section Vrf.
Context `{AddressDeps} `{Curves}.

(** ** key.rs *)
Definition generate_secp256k1_privkey (random : SecretKey) : PrivateKey := PrivSecp256k1 random.
Definition generate_bls_privkey (random : BlsPrivateKey) : PrivateKey := PrivBls random.

(** ** signature.rs *)
Definition signature_type_default : SignatureType := Bls.
Definition signature_new (ty : SignatureType) (data : list Z) : Signature := mkSignature ty data.
Definition signature_new_secp256k1 (data : list Z) : Signature := signature_new Secp256k1 data.
Definition signature_new_bls (data : list Z) : Signature := signature_new Bls data.

(** ** vrf.rs *)
Record VrfPublicKey := mkVrfPublicKey { pub_into_inner : BlsPublicKey }.
Record VrfPrivateKey := mkVrfPrivateKey { priv_into_inner : BlsPrivateKey }.
Record VrfProof := mkVrfProof { proof_into_inner : BlsSignature }.

Definition vrf_pub_from_bytes (raw : list Z) : outcome CryptoError VrfPublicKey :=
  k <- map_err BlsError (bls_pub_from_bytes raw) ;; Ok (mkVrfPublicKey k).
Definition vrf_pub_as_bytes (k : VrfPublicKey) : list Z := bls_pub_as_bytes (pub_into_inner k).

Definition vrf_priv_from_bytes (raw : list Z) : outcome CryptoError VrfPrivateKey :=
  k <- map_err BlsError (bls_priv_from_bytes raw) ;; Ok (mkVrfPrivateKey k).
Definition vrf_priv_as_bytes (k : VrfPrivateKey) : list Z := bls_priv_as_bytes (priv_into_inner k).
Definition vrf_priv_sign (k : VrfPrivateKey) (msg : list Z) : BlsSignature := bls_sign (priv_into_inner k) msg.

Definition vrf_proof_from_bytes (raw : list Z) : outcome CryptoError VrfProof :=
  s <- map_err BlsError (bls_sig_from_bytes raw) ;; Ok (mkVrfProof s).
Definition vrf_proof_as_bytes (p : VrfProof) : list Z := bls_sig_as_bytes (proof_into_inner p).

(** [compute_vrf] and [verify_vrf] between parties that keep and send bytes: the
    worker reads its key, computes and sends the proof; the verifier reads the
    worker's public key and the proof. *)
Definition prove_bytes (privkey : list Z) (tag : Z) (msg : list Z) (owner : Address) : outcome CryptoError (list Z) :=
  k <- vrf_priv_from_bytes privkey ;;
  p <- compute_vrf (priv_into_inner k) tag msg owner ;;
  Ok (vrf_proof_as_bytes (mkVrfProof p)).
Definition check_bytes (pubkey : list Z) (tag : Z) (msg : list Z) (miner : Address) (proof : list Z)
  : outcome CryptoError bool :=
  k <- vrf_pub_from_bytes pubkey ;;
  p <- vrf_proof_from_bytes proof ;;
  verify_vrf (pub_into_inner k) tag msg miner (proof_into_inner p).

(** A worker whose BLS key was generated, stored as bytes and read back computes
    a proof which, sent as bytes, a verifier that knows the bytes of its public
    key accepts, when the miner has an ID address. *)
Theorem vrf_over_bytes `{!CurvesLaws _} (random : BlsPrivateKey) (tag : Z) (msg : list Z) (miner : Address) :
  protocol miner = Id ->
  let key := generate_bls_privkey random in
  exists proof, prove_bytes (private_into_vec key) tag msg miner = Ok proof /\
    check_bytes (public_into_vec (from_privkey key)) tag msg miner proof = Ok true.
Proof.
  intros Hm key. destruct (vrf_compute_verify random tag msg miner) as [Hv _].
  destruct (Hv Hm) as (p & Hc & Hp).
  exists (bls_sig_as_bytes p). unfold prove_bytes, check_bytes, vrf_priv_from_bytes, vrf_pub_from_bytes, vrf_proof_from_bytes.
  cbn [key generate_bls_privkey private_into_vec from_privkey public_into_vec].
  rewrite bls_priv_roundtrip, bls_pub_roundtrip, bls_sig_roundtrip. cbn [map_err bind priv_into_inner pub_into_inner proof_into_inner].
  rewrite Hc. split; [done|exact Hp].
Qed.
End Vrf.

Import Crypto.CryptoRef.

Lemma vrf_over_bytes_witness :
  let key := generate_bls_privkey ref_key in
  exists proof, prove_bytes (private_into_vec key) 5 [1] (mkAddress Id [0]) = Ok proof /\
    check_bytes (public_into_vec (from_privkey key)) 5 [1] (mkAddress Id [0]) proof = Ok true.
Proof. apply (vrf_over_bytes ref_key 5 [1] (mkAddress Id [0])). reflexivity. Defined.
End Vrf.
