(* ===== verification/Hashing.v ===== *)
(** * [hashing]: the hash functions of [hashing/src/lib.rs]

    Each function runs a digest of a crate and copies it into an array of the
    function's size, and [copy_from_slice] panics on another length.  The digests
    are in a class; [blake2b] is the one the addresses use ([AddressDeps]), and
    [blake2b_variable] and [blake2b_256] are in [Address] and [Crypto]. *)

From Stdlib Require Import ZArith Lia.
From stdpp Require Import base numbers list.
From S2P Require Import Prelude CborRef Address AddressRef Crypto.
Import Crypto.Crypto.

Local Open Scope Z_scope.

(** The types of [sha1], [sha2] and [sha3] that implement [digest::Digest]. *)
Inductive algorithm :=
| Sha1 | Sha224 | Sha256 | Sha384 | Sha512
| Sha3_224 | Sha3_256 | Sha3_384 | Sha3_512
| Keccak224 | Keccak256 | Keccak384 | Keccak512.

Definition output_size (a : algorithm) : nat :=
  match a with
  | Sha1 => 20
  | Sha224 | Sha3_224 | Keccak224 => 28
  | Sha256 | Sha3_256 | Keccak256 => 32
  | Sha384 | Sha3_384 | Keccak384 => 48
  | Sha512 | Sha3_512 | Keccak512 => 64
  end.

Class HashLib := {
  digest : algorithm -> list Z -> list Z;
  blake2s : list Z -> nat -> list Z;   (* blake2s_simd, with hash_length *)
}.

Class HashLibLaws (L : HashLib) : Prop := {
  digest_length a d : length (digest a d) = output_size a;
  digest_ok a d : bytes_ok (digest a d);
  blake2s_length d n : (1 <= n <= 32)%nat -> length (blake2s d n) = n;
  blake2s_ok d n : bytes_ok (blake2s d n);
}.

Section Hashing.
Context `{AddressDeps} `{HashLib} {E : Type}.

(** [let mut res = [0u8; n]; res.copy_from_slice(hash); res] *)
Definition copied (n : nat) (hash : list Z) : outcome E (list Z) :=
  if decide (length hash = n) then Ok hash else Panic.

(** [*hash.as_array()] of a 64-byte digest. *)
Definition blake2b_512 (data : list Z) : outcome E (list Z) := Ok (blake2b data 64).

(** [OUTBYTES] of [blake2s_simd] is 32. *)
Definition blake2s_variable (data : list Z) (len : nat) : outcome E (list Z) :=
  if decide (len <= 32)%nat then
    if decide (1 <= len)%nat then
      let res := blake2s data len in
      if decide (length res = len) then Ok res else Panic
    else Panic
  else Panic.
Definition blake2s_128 (data : list Z) : outcome E (list Z) := copied 16 (blake2s data 16).
Definition blake2s_256 (data : list Z) : outcome E (list Z) := Ok (blake2s data 32).

Definition sha1 (data : list Z) : outcome E (list Z) := copied 20 (digest Sha1 data).
Definition sha224 (data : list Z) : outcome E (list Z) := copied 28 (digest Sha224 data).
Definition sha256 (data : list Z) : outcome E (list Z) := copied 32 (digest Sha256 data).
Definition sha384 (data : list Z) : outcome E (list Z) := copied 48 (digest Sha384 data).
Definition sha512 (data : list Z) : outcome E (list Z) := copied 64 (digest Sha512 data).
Definition sha3_224 (data : list Z) : outcome E (list Z) := copied 28 (digest Sha3_224 data).
Definition sha3_256 (data : list Z) : outcome E (list Z) := copied 32 (digest Sha3_256 data).
Definition sha3_384 (data : list Z) : outcome E (list Z) := copied 48 (digest Sha3_384 data).
Definition sha3_512 (data : list Z) : outcome E (list Z) := copied 64 (digest Sha3_512 data).
Definition keccak224 (data : list Z) : outcome E (list Z) := copied 28 (digest Keccak224 data).
Definition keccak256 (data : list Z) : outcome E (list Z) := copied 32 (digest Keccak256 data).
Definition keccak384 (data : list Z) : outcome E (list Z) := copied 48 (digest Keccak384 data).
Definition keccak512 (data : list Z) : outcome E (list Z) := copied 64 (digest Keccak512 data).

(** ** What they return *)
Definition hashes (f : list Z -> outcome E (list Z)) (n : nat) : Prop :=
  forall data, exists h, f data = Ok h /\ length h = n /\ bytes_ok h.

(** The functions of a fixed size, with the size of their array. *)
Definition fixed_size : list ((list Z -> outcome E (list Z)) * nat) :=
  [(blake2b_256, 32); (blake2b_512, 64); (blake2s_128, 16); (blake2s_256, 32); (sha1, 20);
   (sha224, 28); (sha256, 32); (sha384, 48); (sha512, 64);
   (sha3_224, 28); (sha3_256, 32); (sha3_384, 48); (sha3_512, 64);
   (keccak224, 28); (keccak256, 32); (keccak384, 48); (keccak512, 64)]%nat.

Context `{!AddressDepsLaws _} `{!HashLibLaws _}.

Lemma hashes_copied n g :
  (forall d, length (g d) = n) -> (forall d, bytes_ok (g d)) -> hashes (fun d => copied n (g d)) n.
Proof. intros Hl Hb d. exists (g d). unfold copied. by rewrite decide_True. Qed.

Lemma hashes_digest a n : output_size a = n -> hashes (fun d => copied n (digest a d)) n.
Proof. intros <-. apply hashes_copied; [apply digest_length|apply digest_ok]. Qed.

Lemma fixed_size_hashes : Forall (fun e => hashes e.1 e.2) fixed_size.
Proof.
  repeat (apply Forall_cons; split); try apply Forall_nil_2; cbn [fst snd];
    try exact (hashes_digest _ _ eq_refl).
  - intros d. rewrite blake2b_256_ok. eexists. split; [done|]. split; [apply blake2b_length; lia|apply blake2b_ok].
  - intros d. eexists. split; [done|]. split; [apply blake2b_length; lia|apply blake2b_ok].
  - apply hashes_copied; [intros d; apply blake2s_length; lia|intros d; apply blake2s_ok].
  - intros d. eexists. split; [done|]. split; [apply blake2s_length; lia|apply blake2s_ok].
Qed.

Lemma blake2s_variable_ok d n : (1 <= n <= 32)%nat -> blake2s_variable d n = Ok (blake2s d n).
Proof. intros Hn. unfold blake2s_variable. by rewrite !decide_True by (lia || by apply blake2s_length). Qed.

(** Every hash function returns, with a digest of the size its name says; the
    functions with a length argument return that many bytes and agree with the
    fixed-size ones, and panic exactly on a length of zero or above the digest's
    maximum. *)
Theorem hashing_sizes (d : list Z) (n : nat) :
  Forall (fun e => hashes e.1 e.2) fixed_size /\
  ((exists h, @blake2b_variable _ E d n = Ok h /\ length h = n) <-> (1 <= n <= 64)%nat) /\
  ((exists h, blake2s_variable d n = Ok h /\ length h = n) <-> (1 <= n <= 32)%nat) /\
  (@blake2b_variable _ E d n = Panic <-> (n = 0 \/ 64 < n)%nat) /\
  (blake2s_variable d n = Panic <-> (n = 0 \/ 32 < n)%nat) /\
  @blake2b_variable _ E d 32 = blake2b_256 d /\ blake2b_variable d 64 = blake2b_512 d /\
  blake2s_variable d 16 = blake2s_128 d /\ blake2s_variable d 32 = blake2s_256 d.
Proof.
  assert (Hb : (1 <= n <= 64)%nat -> @blake2b_variable _ E d n = Ok (blake2b d n)) by apply blake2b_variable_ok.
  assert (Hb' : (n = 0 \/ 64 < n)%nat -> @blake2b_variable _ E d n = Panic).
  { intros Hn. unfold blake2b_variable. by repeat case_decide; try lia. }
  assert (Hs : (1 <= n <= 32)%nat -> blake2s_variable d n = Ok (blake2s d n)) by apply blake2s_variable_ok.
  assert (Hs' : (n = 0 \/ 32 < n)%nat -> blake2s_variable d n = Panic).
  { intros Hn. unfold blake2s_variable. by repeat case_decide; try lia. }
  assert (Cb : (1 <= n <= 64 \/ (n = 0 \/ 64 < n))%nat) by lia.
  assert (Cs : (1 <= n <= 32 \/ (n = 0 \/ 32 < n))%nat) by lia.
  split; [apply fixed_size_hashes|].
  split; [|split; [|split; [|split]]].
  - split; [intros (h & Hh & _)|]; destruct Cb as [Hn|Hn]; try done; [rewrite (Hb' Hn) in Hh; done|..]; intros Hr; try lia.
    exists (blake2b d n). split; [by apply Hb|]. apply blake2b_length. lia.
  - split; [intros (h & Hh & _)|]; destruct Cs as [Hn|Hn]; try done; [rewrite (Hs' Hn) in Hh; done|..]; intros Hr; try lia.
    exists (blake2s d n). split; [by apply Hs|]. by apply blake2s_length.
  - split; [|done]. destruct Cb as [Hn|Hn]; [by rewrite (Hb Hn)|done].
  - split; [|done]. destruct Cs as [Hn|Hn]; [by rewrite (Hs Hn)|done].
  - rewrite blake2b_256_ok, !blake2b_variable_ok, !blake2s_variable_ok by lia. unfold blake2s_128, copied.
    by rewrite decide_True by (apply blake2s_length; lia).
Qed.
End Hashing.

(** ** An instance *)
#[export] Instance hash_lib_ref : HashLib := {|
  digest a d := be_split (output_size a) (be_combine d + 33);
  blake2s d n := be_split n (be_combine d + 55);
|}.

#[export] Instance hash_lib_ref_laws : HashLibLaws hash_lib_ref.
Proof.
  split; cbn [digest blake2s hash_lib_ref]; intros; first [apply length_be_split | apply be_split_ok].
Qed.

Lemma hashing_sizes_witness :
  Forall (fun e => hashes (E := unit) e.1 e.2) fixed_size /\
  (exists h, @blake2b_variable _ unit [1] 20 = Ok h /\ length h = 20%nat) /\
  @blake2b_variable _ unit [1] 0 = Panic /\ blake2s_variable (E := unit) [1] 33 = Panic /\
  blake2s_variable (E := unit) [1] 32 = blake2s_256 [1].
Proof.
  destruct (hashing_sizes (E := unit) [1] 20) as (Hf & Hb & _).
  destruct (hashing_sizes (E := unit) [1] 0) as (_ & _ & _ & Hz & _).
  destruct (hashing_sizes (E := unit) [1] 33) as (_ & _ & _ & _ & Hs & _ & _ & _ & He).
  split; [exact Hf|]. split; [apply Hb; lia|]. split; [apply Hz; lia|]. split; [apply Hs; lia|exact He].
Defined.
