(* ===== verification/Message.v ===== *)
(** * [primitives/message]: unsigned and signed messages, receipts *)

From Stdlib Require Import ZArith Lia String.
From stdpp Require Import base numbers list.
From S2P Require Import Prelude Cbor CborRef Address AddressRef Wrappers Sector Crypto.

Local Open Scope Z_scope.

Module Message.
Import Crypto.Crypto.

Record UnsignedMessage := mkUnsignedMessage {
  version : Z; to : Address; from : Address; nonce : Z; value : Z;
  gas_price : Z; gas_limit : Z; method : Z; params : list Z }.

Record SignedMessage := mkSignedMessage { message : UnsignedMessage; signature : Signature }.

Record MessageReceipt := mkMessageReceipt { exit_code : Z; return_ : list Z; gas_used : Z }.

Section Codec.
Context `{Minicbor} `{NumBigint} `{CidLib} `{AddressDeps} `{Curves}.

Definition encode_UnsignedMessage (m : UnsignedMessage) : list Z :=
  e_array 9 ++ e_i64 (version m) ++ encode_address (to m) ++ encode_address (from m)
  ++ e_u64 (nonce m) ++ encode_bigint (value m) ++ encode_bigint (gas_price m)
  ++ encode_bigint (gas_limit m) ++ e_u64 (method m) ++ e_bytes (params m).

Definition decode_UnsignedMessage : decoder UnsignedMessage :=
  array_of 9
    (version <~ d_i64 ;; to <~ decode_address ;; from <~ decode_address ;; nonce <~ d_u64 ;;
     value <~ decode_bigint ;; gas_price <~ decode_bigint ;; gas_limit <~ decode_bigint ;;
     method <~ d_u64 ;; params <~ d_bytes ;;
     dret (mkUnsignedMessage version to from nonce value gas_price gas_limit method params)).

(** [cid_with_data] ignores the message and hashes the data it is given. *)
Definition unsigned_cid_with_data (m : UnsignedMessage) (d : list Z) : Cid := dag_cbor_cid d.
Definition unsigned_cid (m : UnsignedMessage) : Cid :=
  unsigned_cid_with_data m (encode_UnsignedMessage m).

Definition required_funds (m : UnsignedMessage) : Z := value m + gas_price m * gas_limit m.

Definition validate_for_block_inclusion (m : UnsignedMessage) (min_gas : Z) : outcome string unit :=
  if negb (version m =? 0) then Err "version unsupported"%string
  else if value m <? 0 then Err "value field cannot be negative"%string
  else if TOTAL_FILECOIN <? value m
       then Err "value field cannot be greater than total filecoin supply"%string
  else if gas_price m <? 0 then Err "gas_price field cannot be negative"%string
  else if BLOCK_GAS_LIMIT <? gas_limit m
       then Err "gas_limit field cannot be greater than a block's gas limit"%string
  else if gas_limit m <? min_gas
       then Err "gas_limit field cannot be less than the cost of storing a message on chain"%string
  else Ok tt.

Definition encode_SignedMessage (m : SignedMessage) : list Z :=
  e_array 2 ++ encode_UnsignedMessage (message m) ++ encode_Signature (signature m).

Definition decode_SignedMessage : decoder SignedMessage :=
  array_of 2
    (message <~ decode_UnsignedMessage ;; signature <~ decode_Signature ;;
     dret (mkSignedMessage message signature)).

Definition signed_cid (m : SignedMessage) : Cid :=
  if decide (type (signature m) = Bls) then unsigned_cid (message m)
  else dag_cbor_cid (encode_SignedMessage m).

Definition signed_cid_with_data (m : SignedMessage) (d : list Z) : Cid :=
  if decide (type (signature m) = Bls) then unsigned_cid (message m)
  else dag_cbor_cid d.

Definition signed_size (m : SignedMessage) : nat := length (encode_SignedMessage m).
Definition vm_message (m : SignedMessage) : UnsignedMessage := message m.

Definition encode_MessageReceipt (r : MessageReceipt) : list Z :=
  e_array 3 ++ e_u8 (exit_code r) ++ e_bytes (return_ r) ++ encode_bigint (gas_used r).

Definition decode_MessageReceipt : decoder MessageReceipt :=
  array_of 3
    (exit_code <~ d_u8 ;; return_ <~ d_bytes ;; gas_used <~ decode_bigint ;;
     dret (mkMessageReceipt exit_code return_ gas_used)).

(** ** What the fields may hold *)
Definition unsigned_message_ok (m : UnsignedMessage) : Prop :=
  i64 (version m) /\ valid_addr (to m) /\ valid_addr (from m) /\ u64 (nonce m) /\
  bigint_fits (value m) /\ bigint_fits (gas_price m) /\ bigint_fits (gas_limit m) /\
  u64 (method m) /\ vec_u8 (params m).
Definition signed_message_ok (m : SignedMessage) : Prop :=
  unsigned_message_ok (message m) /\ signature_ok (signature m).
Definition receipt_ok (r : MessageReceipt) : Prop :=
  u8 (exit_code r) /\ vec_u8 (return_ r) /\ bigint_fits (gas_used r).
End Codec.

Section Reads.
Context `{MinicborLaws} `{NumBigintLaws} `{CidLaws} `{AddressDepsLaws} `{Curves}.

Lemma reads_UnsignedMessage m :
  unsigned_message_ok m -> reads decode_UnsignedMessage (encode_UnsignedMessage m) m.
Proof. intros (?&?&?&?&?&?&?&?&?). destruct m. cbn in *. read_struct. Qed.
Hint Resolve reads_UnsignedMessage reads_Signature : cbor.

Lemma reads_SignedMessage m :
  signed_message_ok m -> reads decode_SignedMessage (encode_SignedMessage m) m.
Proof. intros (?&?). destruct m. cbn in *. read_struct. Qed.

Lemma reads_MessageReceipt r :
  receipt_ok r -> reads decode_MessageReceipt (encode_MessageReceipt r) r.
Proof. intros (?&?&?). destruct r. cbn in *. read_struct. Qed.
End Reads.

(** ** The properties *)

(** Unsigned messages, signed messages and receipts are read back from
    their CBOR form; so two messages with the same bytes are the same message
    and a CID made of the bytes identifies the message as far as the hash does. *)
Theorem message_roundtrip `{MinicborLaws} `{NumBigintLaws} `{CidLaws} `{AddressDepsLaws} `{Curves}
    (m : UnsignedMessage) (s s' : SignedMessage) (r : MessageReceipt) (rest : list Z) :
  unsigned_message_ok m -> signed_message_ok s -> signed_message_ok s' -> receipt_ok r ->
  decode_UnsignedMessage (encode_UnsignedMessage m ++ rest) = Ok (m, rest) /\
  decode_SignedMessage (encode_SignedMessage s ++ rest) = Ok (s, rest) /\
  decode_MessageReceipt (encode_MessageReceipt r ++ rest) = Ok (r, rest) /\
  (encode_SignedMessage s = encode_SignedMessage s' -> s = s').
Proof.
  intros Hm Hs Hs' Hr. split; [by apply reads_UnsignedMessage|].
  split; [by apply reads_SignedMessage|]. split; [by apply reads_MessageReceipt|].
  intros He. eapply reads_inj; [by apply reads_SignedMessage|]. rewrite He.
  by apply reads_SignedMessage.
Qed.

Definition bls_addr (b : Z) : Address := mkAddress Address.Bls (replicate 48 b).
Definition sample_message : UnsignedMessage :=
  mkUnsignedMessage 0 (bls_addr 82) (bls_addr 47) 197 0 1776234 126723 1231254 (str "some bytes").
Definition sample_signed : SignedMessage :=
  mkSignedMessage sample_message (mkSignature Bls (str "boo! im a signature")).

Lemma sample_message_ok : unsigned_message_ok sample_message.
Proof.
  unfold unsigned_message_ok. cbn [version to from nonce value gas_price gas_limit method params sample_message].
  assert (Hb : forall b, u8 b -> valid_addr (bls_addr b)).
  { intros b Hb. split; [by apply Forall_replicate|done]. }
  unfold i64, u64, vec_u8. repeat (split; [first [lia|apply Hb; unfold u8; lia|vm_compute; reflexivity]|]).
  split; [apply str_bytes_ok|vm_compute; reflexivity].
Qed.

Import CryptoRef.

Lemma message_roundtrip_witness :
  let r := mkMessageReceipt 127 (str "ret") 1776234 in
  decode_UnsignedMessage (encode_UnsignedMessage sample_message ++ [1]) = Ok (sample_message, [1]) /\
  decode_SignedMessage (encode_SignedMessage sample_signed ++ [1]) = Ok (sample_signed, [1]) /\
  decode_MessageReceipt (encode_MessageReceipt r ++ [1]) = Ok (r, [1]) /\
  (encode_SignedMessage sample_signed = encode_SignedMessage sample_signed -> sample_signed = sample_signed).
Proof.
  intros r.
  assert (Hs : signed_message_ok sample_signed).
  { split; [apply sample_message_ok|]. split; [|vm_compute; reflexivity].
    apply Forall_cons; split; [unfold u8; cbn; lia|apply str_bytes_ok]. }
  apply (message_roundtrip sample_message sample_signed sample_signed r [1]); try done.
  - apply sample_message_ok.
  - split; [unfold u8; cbn; lia|]. split; [|vm_compute; reflexivity].
    split; [apply str_bytes_ok|vm_compute; reflexivity].
Defined.

(** A message is admitted to a block exactly when its version is 0, its
    value is between zero and the total supply, its gas price is not negative
    and its gas limit lies between the minimum and the block's limit; the check
    never panics, and an admitted message with a non-negative minimum never
    asks for negative funds. *)
Theorem block_inclusion_iff (m : UnsignedMessage) (min_gas : Z) :
  (validate_for_block_inclusion m min_gas = Ok tt <->
   version m = 0 /\ 0 <= value m <= TOTAL_FILECOIN /\ 0 <= gas_price m /\
   min_gas <= gas_limit m <= BLOCK_GAS_LIMIT) /\
  (validate_for_block_inclusion m min_gas = Ok tt \/
   exists e, validate_for_block_inclusion m min_gas = Err e) /\
  (validate_for_block_inclusion m min_gas = Ok tt -> 0 <= min_gas ->
   0 <= value m <= required_funds m).
Proof.
  assert (Hiff : validate_for_block_inclusion m min_gas = Ok tt <->
   version m = 0 /\ 0 <= value m <= TOTAL_FILECOIN /\ 0 <= gas_price m /\
   min_gas <= gas_limit m <= BLOCK_GAS_LIMIT).
  { unfold validate_for_block_inclusion.
    destruct (Z.eqb_spec (version m) 0), (Z.ltb_spec (value m) 0),
      (Z.ltb_spec TOTAL_FILECOIN (value m)), (Z.ltb_spec (gas_price m) 0),
      (Z.ltb_spec BLOCK_GAS_LIMIT (gas_limit m)), (Z.ltb_spec (gas_limit m) min_gas);
      cbn [negb]; (split; [first [discriminate|intros _; lia]|first [reflexivity|lia]]). }
  split; [done|]. split.
  - unfold validate_for_block_inclusion.
    repeat match goal with |- context [if ?b then _ else _] => destruct b end; eauto.
  - intros (_ & Hv & Hp & Hg)%Hiff Hmin. unfold required_funds.
    pose proof (Z.mul_nonneg_nonneg (gas_price m) (gas_limit m)). lia.
Qed.

(** The shortcut [cid_with_data] given the message's own bytes is [cid]; a
    signed message with a BLS signature has the CID of the unsigned message it
    carries, whatever the signature and whatever data it is given. *)
Theorem message_cid_with_data `{Minicbor} `{NumBigint} `{CidLib} `{AddressDeps}
    (m : UnsignedMessage) (s : SignedMessage) (d : list Z) :
  unsigned_cid_with_data m (encode_UnsignedMessage m) = unsigned_cid m /\
  signed_cid_with_data s (encode_SignedMessage s) = signed_cid s /\
  (type (signature s) = Bls -> signed_cid s = unsigned_cid (vm_message s) /\
                               signed_cid_with_data s d = unsigned_cid (vm_message s)) /\
  (type (signature s) = Secp256k1 -> signed_cid s = dag_cbor_cid (encode_SignedMessage s)).
Proof.
  split; [done|]. unfold signed_cid, signed_cid_with_data. split; [done|].
  split; intros ->; [by rewrite !decide_True|by rewrite decide_False].
Qed.

(** Byte vectors of the crate's tests. *)
Example message_receipt_cbor_serde :
  encode_MessageReceipt (mkMessageReceipt 127 (str "ret") 1776234)
  = [131; 24; 127; 67; 114; 101; 116; 68; 0; 27; 26; 106].
Proof. vm_compute. reflexivity. Qed.

Example unsigned_message_cbor_tail :
  drop 104 (encode_UnsignedMessage sample_message)
  = [24; 197; 64; 68; 0; 27; 26; 106; 68; 0; 1; 239; 3; 26; 0; 18; 201; 150; 74] ++ str "some bytes".
Proof. vm_compute. reflexivity. Qed.

#[export] Hint Resolve reads_UnsignedMessage reads_SignedMessage reads_MessageReceipt : cbor.
End Message.
