(* ===== verification/Block.v ===== *)
(** * [primitives/block]: block headers and their parts *)

From Stdlib Require Import ZArith Lia String.
From stdpp Require Import base numbers list.
From S2P Require Import Prelude Cbor CborRef Address AddressRef Wrappers Sector Crypto Message.

Local Open Scope Z_scope.

Module Block.
Import Crypto.Crypto Message.Message.

Record Ticket := mkTicket { vrf_proof : list Z }.
Record ElectionProof := mkElectionProof { election_vrf_proof : list Z }.
Record BeaconEntry := mkBeaconEntry { round : Z; beacon_data : list Z }.

#[export] Instance Ticket_eq_dec : EqDecision Ticket.
Proof. solve_decision. Defined.

Record BlockHeader `{CidLib} := mkBlockHeader {
  miner : Address;
  ticket : Ticket;
  election_proof : ElectionProof;
  beacon_entries : list BeaconEntry;
  win_post_proof : list PoStProof;
  parents : list Cid;
  parent_weight : Z;
  height : Z;
  parent_state_root : Cid;
  parent_message_receipts : Cid;
  messages : Cid;
  bls_aggregate : Signature;
  timestamp : Z;
  block_sig : Signature;
  fork_signaling : Z }.

Record MsgMeta `{CidLib} := mkMsgMeta { meta_bls_messages : Cid; meta_secpk_messages : Cid }.
Record FullBlock `{CidLib} := mkFullBlock {
  header : BlockHeader; bls_messages : list UnsignedMessage; secpk_messages : list SignedMessage }.
Record BlockMsg `{CidLib} := mkBlockMsg {
  bm_header : BlockHeader; bm_bls_messages : list Cid; bm_secpk_messages : list Cid }.

Section Codec.
Context `{Minicbor} `{NumBigint} `{CidLib} `{AddressDeps} `{Curves}.

Definition encode_Ticket (t : Ticket) : list Z := e_array 1 ++ e_bytes (vrf_proof t).
Definition decode_Ticket : decoder Ticket := array_of 1 (p <~ d_bytes ;; dret (mkTicket p)).

Definition encode_ElectionProof (t : ElectionProof) : list Z :=
  e_array 1 ++ e_bytes (election_vrf_proof t).
Definition decode_ElectionProof : decoder ElectionProof :=
  array_of 1 (p <~ d_bytes ;; dret (mkElectionProof p)).

Definition encode_BeaconEntry (b : BeaconEntry) : list Z :=
  e_array 2 ++ e_u64 (round b) ++ e_bytes (beacon_data b).
Definition decode_BeaconEntry : decoder BeaconEntry :=
  array_of 2 (r <~ d_u64 ;; bs <~ d_bytes ;; dret (mkBeaconEntry r bs)).

Definition encode_BlockHeader (b : BlockHeader) : list Z :=
  e_array 15 ++ encode_address (miner b) ++ encode_Ticket (ticket b)
  ++ encode_ElectionProof (election_proof b) ++ e_vec encode_BeaconEntry (beacon_entries b)
  ++ e_vec encode_PoStProof (win_post_proof b) ++ e_vec e_cid (parents b)
  ++ encode_bigint (parent_weight b) ++ e_i64 (height b) ++ e_cid (parent_state_root b)
  ++ e_cid (parent_message_receipts b) ++ e_cid (messages b) ++ encode_Signature (bls_aggregate b)
  ++ e_u64 (timestamp b) ++ encode_Signature (block_sig b) ++ e_u64 (fork_signaling b).

Definition decode_BlockHeader : decoder BlockHeader :=
  array_of 15
    (miner <~ decode_address ;; ticket <~ decode_Ticket ;; election_proof <~ decode_ElectionProof ;;
     beacon_entries <~ d_vec decode_BeaconEntry ;; win_post_proof <~ d_vec decode_PoStProof ;;
     parents <~ d_vec d_cid ;; parent_weight <~ decode_bigint ;; height <~ d_i64 ;;
     parent_state_root <~ d_cid ;; parent_message_receipts <~ d_cid ;; messages <~ d_cid ;;
     bls_aggregate <~ decode_Signature ;; timestamp <~ d_u64 ;; block_sig <~ decode_Signature ;;
     fork_signaling <~ d_u64 ;;
     dret (mkBlockHeader _ miner ticket election_proof beacon_entries win_post_proof parents
             parent_weight height parent_state_root parent_message_receipts messages bls_aggregate
             timestamp block_sig fork_signaling)).

Definition header_cid_with_data (b : BlockHeader) (d : list Z) : Cid := dag_cbor_cid d.
Definition header_cid (b : BlockHeader) : Cid := header_cid_with_data b (encode_BlockHeader b).
Definition last_ticket (b : BlockHeader) : Ticket := ticket b.

Definition encode_MsgMeta (m : MsgMeta) : list Z :=
  e_array 2 ++ e_cid (meta_bls_messages m) ++ e_cid (meta_secpk_messages m).
Definition decode_MsgMeta : decoder MsgMeta :=
  array_of 2 (b <~ d_cid ;; s <~ d_cid ;; dret (mkMsgMeta _ b s)).
Definition meta_cid_with_data (m : MsgMeta) (d : list Z) : Cid := dag_cbor_cid d.
Definition meta_cid (m : MsgMeta) : Cid := meta_cid_with_data m (encode_MsgMeta m).

Definition encode_Block (b : FullBlock) : list Z :=
  e_array 3 ++ encode_BlockHeader (header b) ++ e_vec encode_UnsignedMessage (bls_messages b)
  ++ e_vec encode_SignedMessage (secpk_messages b).
Definition decode_Block : decoder FullBlock :=
  array_of 3
    (h <~ decode_BlockHeader ;; b <~ d_vec decode_UnsignedMessage ;;
     s <~ d_vec decode_SignedMessage ;; dret (mkFullBlock _ h b s)).
Definition block_cid (b : FullBlock) : Cid := header_cid (header b).

Definition encode_BlockMsg (b : BlockMsg) : list Z :=
  e_array 3 ++ encode_BlockHeader (bm_header b) ++ e_vec e_cid (bm_bls_messages b)
  ++ e_vec e_cid (bm_secpk_messages b).
Definition decode_BlockMsg : decoder BlockMsg :=
  array_of 3
    (h <~ decode_BlockHeader ;; b <~ d_vec d_cid ;; s <~ d_vec d_cid ;; dret (mkBlockMsg _ h b s)).
Definition block_msg_cid (b : BlockMsg) : Cid := header_cid (bm_header b).

(** ** What the fields may hold *)
Definition ticket_ok (t : Ticket) : Prop := vec_u8 (vrf_proof t).
Definition election_ok (t : ElectionProof) : Prop := vec_u8 (election_vrf_proof t).
Definition beacon_ok (b : BeaconEntry) : Prop := u64 (round b) /\ vec_u8 (beacon_data b).
Definition header_ok (b : BlockHeader) : Prop :=
  valid_addr (miner b) /\ ticket_ok (ticket b) /\ election_ok (election_proof b) /\
  len_u64 (beacon_entries b) /\ Forall beacon_ok (beacon_entries b) /\
  len_u64 (win_post_proof b) /\ Forall post_proof_ok (win_post_proof b) /\
  len_u64 (parents b) /\ bigint_fits (parent_weight b) /\ i64 (height b) /\
  signature_ok (bls_aggregate b) /\ u64 (timestamp b) /\ signature_ok (block_sig b) /\
  u64 (fork_signaling b).
Definition block_ok (b : FullBlock) : Prop :=
  header_ok (header b) /\ len_u64 (bls_messages b) /\ Forall unsigned_message_ok (bls_messages b) /\
  len_u64 (secpk_messages b) /\ Forall signed_message_ok (secpk_messages b).
Definition block_msg_ok (b : BlockMsg) : Prop :=
  header_ok (bm_header b) /\ len_u64 (bm_bls_messages b) /\ len_u64 (bm_secpk_messages b).
End Codec.

Section Reads.
Context `{MinicborLaws} `{NumBigintLaws} `{CidLaws} `{AddressDepsLaws} `{Curves}.

Lemma reads_cids (l : list Cid) : len_u64 l -> reads (d_vec d_cid) (e_vec e_cid l) l.
Proof. intros Hl. apply reads_vec; [done|]. apply Forall_forall. intros c _. apply reads_cid. Qed.
Hint Resolve reads_cids reads_Signature reads_PoStProof reads_UnsignedMessage reads_SignedMessage : cbor.

Lemma reads_Ticket t : ticket_ok t -> reads decode_Ticket (encode_Ticket t) t.
Proof. intros ?. destruct t. read_struct. Qed.

Lemma reads_ElectionProof t : election_ok t -> reads decode_ElectionProof (encode_ElectionProof t) t.
Proof. intros ?. destruct t. read_struct. Qed.

Lemma reads_BeaconEntry b : beacon_ok b -> reads decode_BeaconEntry (encode_BeaconEntry b) b.
Proof. intros (?&?). destruct b. cbn in *. read_struct. Qed.
Hint Resolve reads_Ticket reads_ElectionProof reads_BeaconEntry : cbor.

Lemma reads_BlockHeader b : header_ok b -> reads decode_BlockHeader (encode_BlockHeader b) b.
Proof. intros (?&?&?&?&?&?&?&?&?&?&?&?&?&?). destruct b. cbn in *. read_struct. Qed.
Hint Resolve reads_BlockHeader : cbor.

Lemma reads_MsgMeta m : reads decode_MsgMeta (encode_MsgMeta m) m.
Proof. destruct m. read_struct. Qed.

Lemma reads_Block b : block_ok b -> reads decode_Block (encode_Block b) b.
Proof. intros (?&?&?&?&?). destruct b. cbn in *. read_struct. Qed.

Lemma reads_BlockMsg b : block_msg_ok b -> reads decode_BlockMsg (encode_BlockMsg b) b.
Proof. intros (?&?&?). destruct b. cbn in *. read_struct. Qed.
End Reads.

(** ** The properties *)

(** C26: block headers, message metadata, full blocks and block messages are read
    back from their CBOR form, so headers with equal bytes (and only those can
    share a CID without a hash collision) are equal. *)
Theorem block_roundtrip `{MinicborLaws} `{NumBigintLaws} `{CidLaws} `{AddressDepsLaws} `{Curves}
    (h h' : BlockHeader) (m : MsgMeta) (b : FullBlock) (g : BlockMsg) (rest : list Z) :
  header_ok h -> header_ok h' -> block_ok b -> block_msg_ok g ->
  decode_BlockHeader (encode_BlockHeader h ++ rest) = Ok (h, rest) /\
  decode_MsgMeta (encode_MsgMeta m ++ rest) = Ok (m, rest) /\
  decode_Block (encode_Block b ++ rest) = Ok (b, rest) /\
  decode_BlockMsg (encode_BlockMsg g ++ rest) = Ok (g, rest) /\
  (encode_BlockHeader h = encode_BlockHeader h' -> h = h').
Proof.
  intros Hh Hh' Hb Hg. split; [by apply reads_BlockHeader|]. split; [by apply reads_MsgMeta|].
  split; [by apply reads_Block|]. split; [by apply reads_BlockMsg|].
  intros He. eapply reads_inj; [by apply reads_BlockHeader|]. rewrite He. by apply reads_BlockHeader.
Qed.

(** The header of the crate's tests. *)
Definition vrf_text : list Z := str "vrf proof0000000vrf proof0000000".
Definition sample_cid : Cid := dag_cbor_cid
  [76; 2; 122; 115; 187; 29; 97; 161; 80; 48; 167; 49; 47; 124; 18; 38; 183; 206; 50; 72; 232; 201;
   142; 225; 217; 73; 55; 160; 199; 184; 78; 250].
Definition sample_sig : Signature := mkSignature Bls (str "boo! im a signature").
Definition dummy_block_header : BlockHeader :=
  mkBlockHeader _ (mkAddress Id [191; 214; 251; 5]) (mkTicket vrf_text) (mkElectionProof vrf_text)
    [] [] [sample_cid; sample_cid] 123125126212 85919298723 sample_cid sample_cid sample_cid
    sample_sig 0 sample_sig 0.

Example block_header_cbor_serde :
  encode_BlockHeader dummy_block_header =
    [143; 69; 0; 191; 214; 251; 5; 129; 88; 32; 118; 114; 102; 32; 112; 114; 111; 111; 102; 48; 
     48; 48; 48; 48; 48; 48; 118; 114; 102; 32; 112; 114; 111; 111; 102; 48; 48; 48; 48; 48; 48; 
     48; 129; 88; 32; 118; 114; 102; 32; 112; 114; 111; 111; 102; 48; 48; 48; 48; 48; 48; 48; 
     118; 114; 102; 32; 112; 114; 111; 111; 102; 48; 48; 48; 48; 48; 48; 48; 128; 128; 130; 216; 
     42; 88; 37; 0; 1; 113; 18; 32; 76; 2; 122; 115; 187; 29; 97; 161; 80; 48; 167; 49; 47; 124; 
     18; 38; 183; 206; 50; 72; 232; 201; 142; 225; 217; 73; 55; 160; 199; 184; 78; 250; 216; 42; 
     88; 37; 0; 1; 113; 18; 32; 76; 2; 122; 115; 187; 29; 97; 161; 80; 48; 167; 49; 47; 124; 18; 
     38; 183; 206; 50; 72; 232; 201; 142; 225; 217; 73; 55; 160; 199; 184; 78; 250; 70; 0; 28; 
     170; 212; 84; 68; 27; 0; 0; 0; 20; 1; 48; 116; 163; 216; 42; 88; 37; 0; 1; 113; 18; 32; 76; 
     2; 122; 115; 187; 29; 97; 161; 80; 48; 167; 49; 47; 124; 18; 38; 183; 206; 50; 72; 232; 
     201; 142; 225; 217; 73; 55; 160; 199; 184; 78; 250; 216; 42; 88; 37; 0; 1; 113; 18; 32; 76; 
     2; 122; 115; 187; 29; 97; 161; 80; 48; 167; 49; 47; 124; 18; 38; 183; 206; 50; 72; 232; 
     201; 142; 225; 217; 73; 55; 160; 199; 184; 78; 250; 216; 42; 88; 37; 0; 1; 113; 18; 32; 76; 
     2; 122; 115; 187; 29; 97; 161; 80; 48; 167; 49; 47; 124; 18; 38; 183; 206; 50; 72; 232; 
     201; 142; 225; 217; 73; 55; 160; 199; 184; 78; 250; 84; 2; 98; 111; 111; 33; 32; 105; 109; 
     32; 97; 32; 115; 105; 103; 110; 97; 116; 117; 114; 101; 0; 84; 2; 98; 111; 111; 33; 32; 
     105; 109; 32; 97; 32; 115; 105; 103; 110; 97; 116; 117; 114; 101; 0].
Proof. vm_compute. reflexivity. Qed.

Lemma dummy_header_ok : header_ok dummy_block_header.
Proof.
  assert (Hv : vec_u8 vrf_text) by (split; [apply str_bytes_ok|vm_compute; reflexivity]).
  assert (Hs : signature_ok sample_sig).
  { split; [|vm_compute; reflexivity].
    apply Forall_cons; split; [unfold u8; cbn; lia|apply str_bytes_ok]. }
  unfold header_ok, dummy_block_header, ticket_ok, election_ok, i64, u64. cbn -[vrf_text sample_sig].
  split; [exists 12512063; split; [unfold u64; lia|vm_compute; reflexivity]|].
  repeat (split; [first [done|constructor|lia|vm_compute; reflexivity]|]). lia.
Qed.

Import CryptoRef.

Lemma block_roundtrip_witness :
  let h := dummy_block_header in
  let m := mkMsgMeta _ sample_cid sample_cid in
  let b := mkFullBlock _ h [sample_message] [] in
  let g := mkBlockMsg _ h [sample_cid] [sample_cid] in
  decode_BlockHeader (encode_BlockHeader h ++ [1]) = Ok (h, [1]) /\
  decode_MsgMeta (encode_MsgMeta m ++ [1]) = Ok (m, [1]) /\
  decode_Block (encode_Block b ++ [1]) = Ok (b, [1]) /\
  decode_BlockMsg (encode_BlockMsg g ++ [1]) = Ok (g, [1]) /\
  (encode_BlockHeader h = encode_BlockHeader h -> h = h).
Proof.
  intros h m b g. apply (block_roundtrip h h m b g [1]); try apply dummy_header_ok.
  - split; [apply dummy_header_ok|]. split; [cbn; unfold len_u64; cbn; lia|].
    split; [apply Forall_singleton, sample_message_ok|].
    split; [unfold len_u64; cbn; lia|apply Forall_nil_2].
  - split; [apply dummy_header_ok|]. unfold len_u64. cbn. lia.
Defined.

#[export] Hint Resolve reads_cids reads_Ticket reads_ElectionProof reads_BeaconEntry
  reads_BlockHeader reads_MsgMeta reads_Block reads_BlockMsg : cbor.
End Block.
