(* ===== verification/Tipset.v ===== *)
(** * [primitives/tipset]: tipset keys and tipsets

    [Vec::sort_by] is the stable sort of the standard library; here it is a
    stable insertion sort by the same comparison. *)

From Stdlib Require Import ZArith Lia String.
From stdpp Require Import base numbers sorting list.
From S2P Require Import Prelude Cbor CborRef Address AddressRef Wrappers Sector Crypto Message Block.

Local Open Scope Z_scope.

(** ** [Ord] of [Vec<u8>]: lexicographic *)
Fixpoint bytes_cmp (a b : list Z) : comparison :=
  match a, b with
  | [], [] => Eq
  | [], _ => Lt
  | _, [] => Gt
  | x :: a', y :: b' => match x ?= y with Eq => bytes_cmp a' b' | c => c end
  end.

Lemma bytes_cmp_eq a b : bytes_cmp a b = Eq <-> a = b.
Proof.
  revert b. induction a as [|x a IH]; intros [|y b]; cbn; try done.
  destruct (Z.compare_spec x y) as [->|H|H]; [rewrite IH|..]; split; try done; try congruence.
  - intros [= ->]. lia.
  - intros [= ->]. lia.
Qed.

Lemma bytes_cmp_antisym a b : bytes_cmp b a = CompOpp (bytes_cmp a b).
Proof.
  revert b. induction a as [|x a IH]; intros [|y b]; cbn; try done.
  rewrite Z.compare_antisym. destruct (x ?= y); cbn; [apply IH|done..].
Qed.

Lemma bytes_cmp_trans a b c : bytes_cmp a b = Lt -> bytes_cmp b c = Lt -> bytes_cmp a c = Lt.
Proof.
  revert b c. induction a as [|x a IH]; intros [|y b] [|z c]; cbn; try done.
  destruct (Z.compare_spec x y) as [->|Hxy|Hxy]; [|intros _|done];
    (destruct (Z.compare_spec y z) as [->|Hyz|Hyz]; [|intros _|done]).
  - apply IH.
  - done.
  - intros _. by rewrite (proj2 (Z.compare_lt_iff x z)).
  - by rewrite (proj2 (Z.compare_lt_iff x z)) by lia.
Qed.

Module Tipset.
Import Crypto.Crypto Message.Message Block.Block.

(** ** [TipsetKey] *)
Record TipsetKey `{CidLib} := mkTipsetKey { key_cids : list Cid }.

Section Key.
Context `{Minicbor} `{CidLib}.
Definition key_new (cids : list Cid) : TipsetKey := mkTipsetKey _ cids.
Definition empty_tsk : TipsetKey := mkTipsetKey _ [].
Definition is_empty (k : TipsetKey) : bool := match key_cids k with [] => true | _ => false end.
Definition encode_TipsetKey (k : TipsetKey) : list Z := e_vec e_cid (key_cids k).
Definition decode_TipsetKey : decoder TipsetKey := cids <~ d_vec d_cid ;; dret (mkTipsetKey _ cids).
End Key.

(** ** [Tipset] *)
Record Tipset `{CidLib} := mkTipset { key : TipsetKey; blocks : list BlockHeader; tipset_height : Z }.

Section Tipset.
Context `{Minicbor} `{NumBigint} `{CidLib} `{AddressDeps}.

Inductive TipsetError :=
| EmptyBlocks
| MismatchingHeight (expected found : Z)
| MismatchingParent (expected found : Cid).

(** The closure given to [sort_by]. *)
Definition cmp_block (i j : BlockHeader) : comparison :=
  let ti := last_ticket i in
  let tj := last_ticket j in
  if decide (ti = tj) then Cid_cmp (header_cid i) (header_cid j)
  else bytes_cmp (vrf_proof ti) (vrf_proof tj).

Fixpoint insert_block (x : BlockHeader) (l : list BlockHeader) : list BlockHeader :=
  match l with
  | [] => [x]
  | y :: l' => match cmp_block x y with Gt => y :: insert_block x l' | _ => x :: l end
  end.

Definition sort_blocks (l : list BlockHeader) : list BlockHeader := fold_right insert_block [] l.

(** [for (i, cid) in block.parents.iter().enumerate()]; indexing the parents of
    the first block can go out of range. *)
Fixpoint check_parents (first : list Cid) (i : nat) (ps : list Cid) : outcome TipsetError unit :=
  match ps with
  | [] => Ok tt
  | cid :: ps' =>
      p <- index_or_panic (first !! i) ;;
      if decide (cid = p) then check_parents first (S i) ps'
      else Err (MismatchingParent p cid)
  end.

Fixpoint check_blocks (first : BlockHeader) (bs : list BlockHeader) (cids : list Cid)
  : outcome TipsetError (list Cid) :=
  match bs with
  | [] => Ok cids
  | block :: bs' =>
      if negb (height block =? height first)
      then Err (MismatchingHeight (trunc 64 (height first)) (trunc 64 (height block)))
      else
        check_parents (parents first) 0 (parents block) ;;;
        check_blocks first bs' (cids ++ [header_cid block])
  end.

Definition tipset_new (bs : list BlockHeader) : outcome TipsetError Tipset :=
  match bs with
  | [] => Err EmptyBlocks
  | _ =>
      let bs := sort_blocks bs in
      first <- index_or_panic (bs !! 0%nat) ;;
      cids <- check_blocks first bs [] ;;
      Ok (mkTipset _ (key_new cids) bs (height first))
  end.

Definition contains (t : Tipset) (c : Cid) : bool := bool_decide (c ∈ key_cids (key t)).
Definition cids (t : Tipset) : list Cid := key_cids (key t).

(** [self.blocks[0]]. *)
Definition first_block {E} (t : Tipset) : outcome E BlockHeader := index_or_panic (blocks t !! 0%nat).
Definition tipset_parents {E} (t : Tipset) : outcome E TipsetKey :=
  b <- first_block t ;; Ok (key_new (parents b)).
Definition parent_state {E} (t : Tipset) : outcome E Cid :=
  b <- first_block t ;; Ok (parent_state_root b).
Definition tipset_parent_weight {E} (t : Tipset) : outcome E Z :=
  b <- first_block t ;; Ok (parent_weight b).

Definition min_ticket_block {E} (t : Tipset) : outcome E BlockHeader :=
  b0 <- first_block t ;;
  Ok (fold_left (fun min_block block =>
        match bytes_cmp (vrf_proof (last_ticket block)) (vrf_proof (last_ticket min_block)) with
        | Lt => block | _ => min_block end) (blocks t) b0).

Definition min_ticket {E} (t : Tipset) : outcome E Ticket :=
  b <- min_ticket_block t ;; Ok (ticket b).

(** [iter().map(..).min().expect(..)]. *)
Definition min_timestamp {E} (t : Tipset) : outcome E Z :=
  match map timestamp (blocks t) with
  | [] => Panic
  | x :: xs => Ok (fold_left Z.min xs x)
  end.

(** [PartialEq]: the blocks only. *)
Definition tipset_eq (a b : Tipset) : Prop := blocks a = blocks b.

Definition encode_Tipset (t : Tipset) : list Z :=
  e_array 3 ++ encode_TipsetKey (key t) ++ e_vec encode_BlockHeader (blocks t)
  ++ e_i64 (tipset_height t).
Definition decode_Tipset `{Curves} : decoder Tipset :=
  array_of 3
    (k <~ decode_TipsetKey ;; bs <~ d_vec decode_BlockHeader ;; h <~ d_i64 ;; dret (mkTipset _ k bs h)).

Definition tipset_ok (t : Tipset) : Prop :=
  len_u64 (cids t) /\ len_u64 (blocks t) /\ Forall header_ok (blocks t) /\ i64 (tipset_height t).

(** ** Sorting *)
Definition le_block (i j : BlockHeader) : Prop := cmp_block i j <> Gt.

Lemma insert_block_perm x l : insert_block x l ≡ₚ x :: l.
Proof.
  induction l as [|y l IH]; [done|]. cbn. destruct (cmp_block x y); [done|done|].
  rewrite IH. apply Permutation_swap.
Qed.

Lemma sort_blocks_perm l : sort_blocks l ≡ₚ l.
Proof. induction l as [|x l IH]; [done|]. cbn. by rewrite insert_block_perm, IH. Qed.

Context `{!CidLaws _}.

Lemma Cid_cmp_refl c : Cid_cmp c c = Eq.
Proof. by apply Cid_cmp_eq. Qed.

Lemma cmp_block_antisym i j : cmp_block j i = CompOpp (cmp_block i j).
Proof.
  unfold cmp_block. destruct (decide (last_ticket i = last_ticket j)) as [He|He];
    [rewrite decide_True by done; apply Cid_cmp_antisym|].
  rewrite decide_False by done. apply bytes_cmp_antisym.
Qed.

(** The comparison orders by ticket first, then by CID. *)
Lemma le_block_spec i j :
  le_block i j <->
  bytes_cmp (vrf_proof (ticket i)) (vrf_proof (ticket j)) = Lt \/
  (ticket i = ticket j /\ Cid_cmp (header_cid i) (header_cid j) <> Gt).
Proof.
  unfold le_block, cmp_block, last_ticket. destruct (decide (ticket i = ticket j)) as [He|Hne].
  - rewrite He. rewrite (proj2 (bytes_cmp_eq _ _)) by done. split; [by right|]. by intros [|[_ ?]].
  - destruct (bytes_cmp _ _) eqn:Hc; split; try done; try (by left).
    + apply bytes_cmp_eq in Hc. destruct (ticket i), (ticket j). cbn in Hc. congruence.
    + by intros [|[? _]].
Qed.

Lemma Cid_le_trans a b c : Cid_cmp a b <> Gt -> Cid_cmp b c <> Gt -> Cid_cmp a c <> Gt.
Proof.
  destruct (Cid_cmp a b) eqn:Hab; [|intros _|done].
  - apply Cid_cmp_eq in Hab as ->. done.
  - destruct (Cid_cmp b c) eqn:Hbc; [|intros _|done].
    + apply Cid_cmp_eq in Hbc as ->. congruence.
    + by rewrite (Cid_cmp_trans a b c).
Qed.

#[local] Instance le_block_trans : Transitive le_block.
Proof.
  intros a b c. rewrite !le_block_spec.
  intros [Hab|[Hab Hab']] [Hbc|[Hbc Hbc']].
  - left. by eapply bytes_cmp_trans.
  - left. by rewrite <- Hbc.
  - left. by rewrite Hab.
  - right. split; [congruence|]. by eapply Cid_le_trans.
Qed.

Lemma insert_block_sorted x l : StronglySorted le_block l -> StronglySorted le_block (insert_block x l).
Proof.
  induction 1 as [|y l Hl IH Hy]; cbn; [by repeat constructor|].
  destruct (cmp_block x y) eqn:Hc.
  1,2: assert (Hxy : le_block x y) by (unfold le_block; congruence);
    constructor; [by constructor|]; constructor; [done|];
    (eapply Forall_impl; [exact Hy|]); intros z ?; by etrans.
  constructor; [done|]. rewrite insert_block_perm. constructor; [|done].
  unfold le_block. rewrite cmp_block_antisym, Hc. done.
Qed.

Lemma sort_blocks_sorted l : StronglySorted le_block (sort_blocks l).
Proof. induction l as [|x l IH]; [constructor|]. by apply insert_block_sorted. Qed.

(** On blocks with distinct CIDs the order is strict, so there is one sorted
    arrangement. *)
Lemma sort_blocks_unique l l' :
  l ≡ₚ l' -> (forall a b, a ∈ l -> b ∈ l -> header_cid a = header_cid b -> a = b) ->
  sort_blocks l = sort_blocks l'.
Proof.
  intros Hp Hd. apply (StronglySorted_unique_strong le_block); try apply sort_blocks_sorted.
  - intros a b Ha Hb. rewrite sort_blocks_perm in Ha, Hb. rewrite <- Hp in Hb.
    unfold le_block. rewrite (cmp_block_antisym a b). intros Hab Hba. apply Hd; [done..|].
    unfold cmp_block in *. destruct (decide _) as [He|Hne].
    + apply Cid_cmp_eq. by destruct (Cid_cmp _ _).
    + assert (bytes_cmp (vrf_proof (last_ticket a)) (vrf_proof (last_ticket b)) = Eq) as He
        by (by destruct (bytes_cmp _ _)).
      apply bytes_cmp_eq in He. destruct Hne. destruct (last_ticket a), (last_ticket b). by f_equal.
  - by rewrite !sort_blocks_perm.
Qed.

(** ** Checking *)
Lemma check_parents_ok first i ps :
  check_parents first i ps = Ok tt <-> ps `prefix_of` drop i first.
Proof.
  revert i. induction ps as [|c ps IH]; intros i; cbn; [split; [intros _; apply prefix_nil|done]|].
  destruct (first !! i) as [p|] eqn:Hi; cbn.
  - rewrite (drop_S _ _ _ Hi). destruct (decide (c = p)) as [->|Hne].
    + rewrite IH. split; [apply prefix_cons|apply prefix_cons_inv_2].
    + split; [done|]. intros Hp. by apply prefix_cons_inv_1 in Hp.
  - rewrite drop_ge by (by apply lookup_ge_None_1). split; [done|].
    intros Hp. by apply prefix_nil_not in Hp.
Qed.

Definition agrees (first b : BlockHeader) : Prop :=
  height b = height first /\ parents b `prefix_of` parents first.

Lemma check_blocks_ok first bs acc cs :
  check_blocks first bs acc = Ok cs <->
  Forall (agrees first) bs /\ cs = acc ++ map header_cid bs.
Proof.
  revert acc. induction bs as [|b bs IH]; intros acc; cbn.
  - rewrite app_nil_r. split; [by intros [= ->]|by intros [_ ->]].
  - rewrite Forall_cons. unfold agrees at 1.
    destruct (Z.eqb_spec (height b) (height first)) as [He|Hne]; cbn; [|split; [done|tauto]].
    destruct (check_parents (parents first) 0 (parents b)) as [[]|e| |] eqn:Hc; cbn.
    + apply check_parents_ok in Hc. rewrite IH, <- app_assoc. cbn. tauto.
    + split; [done|]. intros [[[_ Hp%(check_parents_ok _ 0)] _] _]. congruence.
    + split; [done|]. intros [[[_ Hp%(check_parents_ok _ 0)] _] _]. congruence.
    + split; [done|]. intros [[[_ Hp%(check_parents_ok _ 0)] _] _]. congruence.
Qed.

Lemma sort_blocks_nonempty bs : bs <> [] -> exists b0 bs', sort_blocks bs = b0 :: bs'.
Proof.
  intros Hne. destruct (sort_blocks bs) as [|b0 bs'] eqn:Hs; [|by eauto].
  pose proof (sort_blocks_perm bs) as Hp. rewrite Hs in Hp. by apply Permutation_nil_l in Hp.
Qed.

Lemma tipset_new_ok bs t :
  tipset_new bs = Ok t <->
  exists first rest, sort_blocks bs = first :: rest /\ Forall (agrees first) bs /\
    t = mkTipset _ (key_new (map header_cid (sort_blocks bs))) (sort_blocks bs) (height first).
Proof.
  destruct (decide (bs = [])) as [->|Hne].
  { cbn. split; [done|]. intros (?&?&?&_). done. }
  destruct (sort_blocks_nonempty bs Hne) as (b0 & bs' & Hs).
  assert (tipset_new bs = (cids <- check_blocks b0 (b0 :: bs') [] ;;
    Ok (mkTipset _ (key_new cids) (b0 :: bs') (height b0)))) as ->.
  { unfold tipset_new. rewrite Hs. by destruct bs. }
  assert (Hf : Forall (agrees b0) bs <-> Forall (agrees b0) (b0 :: bs')).
  { rewrite <- Hs. by rewrite sort_blocks_perm. }
  rewrite Hs. split.
  - intros (cs & Hc & Ht)%bind_ok. apply check_blocks_ok in Hc as [Ha ->].
    exists b0, bs'. injection Ht as <-. split; [done|]. split; [by apply Hf|done].
  - intros (b & r & [= <- <-] & Ha & ->). apply Hf in Ha.
    apply bind_ok. eexists. split; [by apply check_blocks_ok|done].
Qed.

(** ** The properties *)

(** C2: [Tipset::new] succeeds on a non-empty list of blocks that agree on
    height and parents, and what it returns holds exactly the given blocks,
    ordered by ticket and then by CID, with the key listing their CIDs in that
    order and the common height; every block accepted has the height of the
    tipset and a prefix of the first block's parents. *)
Theorem tipset_new_correct (bs : list BlockHeader) :
  (forall t, tipset_new bs = Ok t ->
     blocks t ≡ₚ bs /\ StronglySorted le_block (blocks t) /\
     cids t = map header_cid (blocks t) /\
     (forall c, contains t c = true <-> exists b, b ∈ bs /\ header_cid b = c) /\
     exists first, @first_block unit t = Ok first /\
       Forall (fun b => height b = tipset_height t /\ parents b `prefix_of` parents first) bs) /\
  (bs <> [] -> (forall a b, a ∈ bs -> b ∈ bs -> height a = height b /\ parents a = parents b) ->
   exists t, tipset_new bs = Ok t).
Proof.
  split.
  - intros t (first & rest & Hs & Ha & ->)%tipset_new_ok. cbn [blocks key key_cids cids tipset_height].
    pose proof (sort_blocks_perm bs) as Hp. split; [done|]. split; [apply sort_blocks_sorted|].
    split; [done|]. split.
    + intros c. unfold contains. cbn. rewrite bool_decide_eq_true. change (map header_cid) with (fmap (M:=list) header_cid).
      rewrite list_elem_of_fmap. setoid_rewrite Hp. firstorder.
    + exists first. unfold first_block. cbn. rewrite Hs. split; [done|exact Ha].
  - intros Hne Hall. destruct (sort_blocks_nonempty bs Hne) as (b0 & bs' & Hs).
    eexists. apply tipset_new_ok. exists b0, bs'. split; [done|]. split; [|done].
    assert (Hb0 : b0 ∈ bs) by (rewrite <- sort_blocks_perm, Hs; by left).
    apply Forall_forall. intros b Hb. destruct (Hall b b0 Hb Hb0) as [H1' H2']. by split; [|rewrite H2'].
Qed.

(** C20: a tipset does not depend on the order in which its blocks arrive: for
    blocks with distinct CIDs every permutation gives the same outcome, error
    included. *)
Theorem tipset_order_independent (bs bs' : list BlockHeader) :
  bs ≡ₚ bs' -> (forall a b, a ∈ bs -> b ∈ bs -> header_cid a = header_cid b -> a = b) ->
  tipset_new bs = tipset_new bs'.
Proof.
  intros Hp Hd. unfold tipset_new. rewrite (sort_blocks_unique bs bs' Hp Hd).
  destruct bs, bs'; [done|by apply Permutation_nil_l in Hp|by apply Permutation_nil_r in Hp|done].
Qed.

Lemma min_fold_stays b0 bs :
  Forall (le_block b0) bs ->
  fold_left (fun min_block block =>
    match bytes_cmp (vrf_proof (last_ticket block)) (vrf_proof (last_ticket min_block)) with
    | Lt => block | _ => min_block end) bs b0 = b0.
Proof.
  induction 1 as [|b bs Hb _ IH]; [done|]. cbn [fold_left]. rewrite bytes_cmp_antisym.
  apply le_block_spec in Hb as [Hb|[Hb _]]; unfold last_ticket.
  - by rewrite Hb.
  - by rewrite Hb, (proj2 (bytes_cmp_eq _ _)).
Qed.

Lemma fold_min_spec xs x :
  fold_left Z.min xs x ∈ x :: xs /\ Forall (fun y => fold_left Z.min xs x <= y) (x :: xs).
Proof.
  revert x. induction xs as [|y xs IH]; intros x; cbn [fold_left].
  - split; [by left|]. by repeat constructor.
  - destruct (IH (Z.min x y)) as [Hin Hle]. apply Forall_cons in Hle as [Hm Hle]. split.
    + apply elem_of_cons in Hin as [->|Hin]; [|by do 2 right].
      destruct (Z.min_spec x y) as [[_ ->]|[_ ->]]; [by left|by right; left].
    + constructor; [lia|]. constructor; [lia|done].
Qed.

(** In a tipset made by [new] the first block has the least ticket, so
    [min_ticket_block] returns it, and [min_timestamp] returns a timestamp of
    one of the blocks that none of the others undercuts; neither panics. *)
Theorem tipset_minima (bs : list BlockHeader) (t : Tipset) :
  tipset_new bs = Ok t ->
  exists b m, @first_block unit t = Ok b /\ @min_ticket_block unit t = Ok b /\
    @min_ticket unit t = Ok (ticket b) /\
    Forall (fun b' => bytes_cmp (vrf_proof (ticket b)) (vrf_proof (ticket b')) <> Gt) bs /\
    @min_timestamp unit t = Ok m /\ m ∈ map timestamp bs /\ Forall (fun b' => m <= timestamp b') bs.
Proof.
  intros (b0 & rest & Hs & _ & ->)%tipset_new_ok.
  pose proof (sort_blocks_sorted bs) as Hsort. rewrite Hs in Hsort.
  apply StronglySorted_inv in Hsort as [_ Hle].
  assert (Hall : Forall (le_block b0) (b0 :: rest)).
  { constructor; [|done]. apply le_block_spec. right. split; [done|]. by rewrite Cid_cmp_refl. }
  destruct (fold_min_spec (map timestamp rest) (timestamp b0)) as [Hin Hmin].
  change (timestamp b0 :: map timestamp rest) with (map timestamp (b0 :: rest)) in Hin, Hmin.
  pose proof (sort_blocks_perm bs) as Hp. rewrite Hs in Hp.
  exists b0, (fold_left Z.min (map timestamp rest) (timestamp b0)).
  unfold min_ticket, min_ticket_block, min_timestamp, first_block. cbn [blocks]. rewrite Hs.
  cbn [lookup list_lookup index_or_panic bind]. rewrite min_fold_stays by done.
  split; [done|]. split; [done|]. split; [done|]. split; [|split; [done|split]].
  - rewrite <- Hp. eapply Forall_impl; [exact Hall|]. cbn. intros b [Hb|[Hb _]]%le_block_spec.
    + by rewrite Hb.
    + by rewrite Hb, (proj2 (bytes_cmp_eq _ _)).
  - by rewrite <- Hp.
  - rewrite <- Hp. by apply (proj1 (Forall_map timestamp _ _)) in Hmin.
Qed.

Lemma reads_TipsetKey `{!MinicborLaws _} k :
  len_u64 (key_cids k) -> reads decode_TipsetKey (encode_TipsetKey k) k.
Proof.
  intros Hk. destruct k as [cs]. unfold decode_TipsetKey, encode_TipsetKey.
  apply (reads_last _ (fun cids => mkTipsetKey _ cids)). by apply reads_cids.
Qed.

Lemma reads_Tipset `{!MinicborLaws _} `{!NumBigintLaws _} `{!AddressDepsLaws _} `{Curves} t :
  tipset_ok t -> reads decode_Tipset (encode_Tipset t) t.
Proof.
  intros (Hk & Hb & Hf & Hh). destruct t as [k bs h]. cbn in *.
  eapply reads_array_of; [unfold u64; lia|]. eapply reads_bind; [by apply reads_TipsetKey|].
  eapply reads_bind; [|eapply reads_last; by apply reads_i64].
  eapply reads_vec_of; [apply reads_BlockHeader|done|done].
Qed.

(** A tipset is read back from its CBOR form (key, blocks, height), and so
    is its key; the equality of tipsets looks at the blocks only, which for
    tipsets made by [new] determines the key and the height too. *)
Theorem tipset_roundtrip `{!MinicborLaws _} `{!NumBigintLaws _} `{!AddressDepsLaws _} `{Curves}
    (t : Tipset) (bs bs' : list BlockHeader) (u u' : Tipset) (rest : list Z) :
  tipset_ok t -> tipset_new bs = Ok u -> tipset_new bs' = Ok u' ->
  decode_Tipset (encode_Tipset t ++ rest) = Ok (t, rest) /\
  decode_TipsetKey (encode_TipsetKey (key t) ++ rest) = Ok (key t, rest) /\
  (tipset_eq u u' <-> u = u').
Proof.
  intros Ht Hu Hu'. split; [by apply reads_Tipset|]. split; [apply reads_TipsetKey, Ht|].
  unfold tipset_eq. split; [|by intros ->]. intros He.
  apply tipset_new_ok in Hu as (f & r & Hs & _ & ->), Hu' as (f' & r' & Hs' & _ & ->).
  cbn in He. rewrite He. f_equal. congruence.
Qed.

(** Every struct decoder asserts the length of the array it is given: a
    document with another element count, which a peer can send, makes it panic
    instead of returning a decoding error. *)
Theorem struct_decoders_panic `{!MinicborLaws _} `{Curves} (n : Z) (rest : list Z) :
  u64 n ->
  (n <> 15 -> decode_BlockHeader (e_array n ++ rest) = Panic) /\
  (n <> 9 -> decode_UnsignedMessage (e_array n ++ rest) = Panic) /\
  (n <> 2 -> decode_SignedMessage (e_array n ++ rest) = Panic) /\
  (n <> 3 -> decode_Tipset (e_array n ++ rest) = Panic /\ decode_Block (e_array n ++ rest) = Panic /\
             decode_BlockMsg (e_array n ++ rest) = Panic).
Proof. intros Hn. repeat split; intros; by apply array_of_wrong_length. Qed.
End Tipset.

Import CryptoRef.

(** Two headers that differ in their ticket, with given parents. *)
Definition block_with (t : Z) (ps : list Cid) : BlockHeader :=
  mkBlockHeader _ (mkAddress Id [5]) (mkTicket [t]) (mkElectionProof []) [] [] ps 7 10
    sample_cid sample_cid sample_cid sample_sig t sample_sig 0.

Definition two_blocks : list BlockHeader := [block_with 2 [sample_cid]; block_with 1 [sample_cid]].

Lemma two_blocks_cids a b :
  a ∈ two_blocks -> b ∈ two_blocks -> header_cid a = header_cid b -> a = b.
Proof.
  assert (Hne : header_cid (block_with 2 [sample_cid]) <> header_cid (block_with 1 [sample_cid])).
  { intros He%(f_equal cid_hash). vm_compute in He. discriminate. }
  unfold two_blocks. rewrite !elem_of_cons, !elem_of_nil.
  intros [->|[->|[]]] [->|[->|[]]] Hc; congruence.
Qed.

Lemma two_blocks_ok : exists t, tipset_new two_blocks = Ok t.
Proof.
  assert (Hb : is_ok (tipset_new two_blocks) = true) by (vm_compute; reflexivity).
  destruct (tipset_new two_blocks); [by eexists|discriminate..].
Qed.

Lemma tipset_new_correct_witness :
  (forall t, tipset_new two_blocks = Ok t ->
     blocks t ≡ₚ two_blocks /\ StronglySorted le_block (blocks t) /\
     cids t = map header_cid (blocks t) /\
     (forall c, contains t c = true <-> exists b, b ∈ two_blocks /\ header_cid b = c) /\
     exists first, @first_block _ unit t = Ok first /\
       Forall (fun b => height b = tipset_height t /\ parents b `prefix_of` parents first) two_blocks) /\
  (two_blocks <> [] ->
   (forall a b, a ∈ two_blocks -> b ∈ two_blocks -> height a = height b /\ parents a = parents b) ->
   exists t, tipset_new two_blocks = Ok t).
Proof. apply (tipset_new_correct two_blocks). Defined.

Lemma tipset_order_independent_witness : tipset_new two_blocks = tipset_new (rev two_blocks).
Proof.
  apply (tipset_order_independent two_blocks (rev two_blocks)).
  - apply Permutation_swap.
  - apply two_blocks_cids.
Defined.

Lemma tipset_minima_witness :
  exists t, tipset_new two_blocks = Ok t /\
  exists b m, @first_block _ unit t = Ok b /\ @min_ticket_block _ unit t = Ok b /\
    @min_ticket _ unit t = Ok (ticket b) /\
    Forall (fun b' => bytes_cmp (vrf_proof (ticket b)) (vrf_proof (ticket b')) <> Gt) two_blocks /\
    @min_timestamp _ unit t = Ok m /\ m ∈ map timestamp two_blocks /\
    Forall (fun b' => m <= timestamp b') two_blocks.
Proof.
  destruct two_blocks_ok as [t Ht]. exists t. split; [exact Ht|]. apply (tipset_minima two_blocks t Ht).
Defined.

Lemma struct_decoders_panic_witness :
  (4 <> 15 -> decode_BlockHeader (e_array 4 ++ [0]) = Panic) /\
  (4 <> 9 -> decode_UnsignedMessage (e_array 4 ++ [0]) = Panic) /\
  (4 <> 2 -> decode_SignedMessage (e_array 4 ++ [0]) = Panic) /\
  (4 <> 3 -> decode_Tipset (e_array 4 ++ [0]) = Panic /\ decode_Block (e_array 4 ++ [0]) = Panic /\
             decode_BlockMsg (e_array 4 ++ [0]) = Panic).
Proof. apply (struct_decoders_panic 4 [0]). unfold u64. lia. Defined.

Lemma tipset_roundtrip_witness :
  let t := mkTipset _ (key_new [sample_cid]) [dummy_block_header] 1 in
  exists u, tipset_new two_blocks = Ok u /\
  decode_Tipset (encode_Tipset t ++ [1]) = Ok (t, [1]) /\
  decode_TipsetKey (encode_TipsetKey (key t) ++ [1]) = Ok (key t, [1]) /\
  (tipset_eq u u <-> u = u).
Proof.
  intros t. destruct two_blocks_ok as [u Hu]. exists u. split; [exact Hu|]. apply (tipset_roundtrip t two_blocks two_blocks u u [1]); [|exact Hu|exact Hu].
  split; [unfold len_u64; cbn; lia|]. split; [unfold len_u64; cbn; lia|].
  split; [apply Forall_singleton, dummy_header_ok|unfold i64; cbn; lia].
Defined.

(** The parent check compares each block's parents with the first block's
    position by position and nothing more: a block with fewer parents than the
    first is accepted, and one with more makes [Tipset::new] panic. *)
Theorem tipset_parent_count_unchecked :
  (exists t, tipset_new [block_with 1 [sample_cid]; block_with 2 []] = Ok t) /\
  tipset_new [block_with 1 [sample_cid]; block_with 2 [sample_cid; sample_cid]] = Panic.
Proof.
  split.
  - assert (Hb : is_ok (tipset_new [block_with 1 [sample_cid]; block_with 2 []]) = true)
      by (vm_compute; reflexivity).
    destruct (tipset_new _); [by eexists|discriminate..].
  - vm_cast_no_check (@eq_refl (outcome TipsetError Tipset) Panic).
Qed.
End Tipset.
