(* ===== verification/Key.v ===== *)
(** * [ipfs/datastore/src/key.rs]: hierarchical keys

    A [Key] is the bytes of its string.  The crate [path-clean] is a parameter;
    what its documentation says of a rooted path is the law. *)

From Stdlib Require Import ZArith Lia String.
From stdpp Require Import base numbers list.
From S2P Require Import Prelude Cbor Tipset.

Local Open Scope Z_scope.

Module Key.

Definition SLASH : Z := 47.
Definition COLON : Z := 58.
Definition DOT : Z := 46.

(** [str::split] on a slash, and [join] with one. *)
Fixpoint split (s : list Z) : list (list Z) :=
  match s with
  | [] => [[]]
  | c :: s' =>
      if decide (c = SLASH) then [] :: split s'
      else match split s' with
           | h :: t => (c :: h) :: t
           | [] => [[c]]
           end
  end.

Fixpoint join (l : list (list Z)) : list Z :=
  match l with
  | [] => []
  | [x] => x
  | x :: l' => x ++ SLASH :: join l'
  end.

(** ** path-clean

    "1. Reduce multiple slashes to a single slash.  2. Eliminate . path name
    elements.  3. Eliminate .. path name elements and the non-.. element that
    precedes them.  4. Eliminate .. elements that begin a rooted path." *)
Definition resolve_step (st : list (list Z)) (c : list Z) : list (list Z) :=
  if decide (c = [] \/ c = [DOT]) then st
  else if decide (c = [DOT; DOT]) then removelast st
  else st ++ [c].

Definition resolve (l : list (list Z)) : list (list Z) := fold_left resolve_step l [].

Class PathClean := path_clean : list Z -> list Z.
Class PathCleanLaws (P : PathClean) : Prop :=
  path_clean_rooted p : path_clean (SLASH :: p) = SLASH :: join (resolve (split p)).

Section Key.
Context `{PathClean}.

(** ** The operations *)
Definition clean (path : list Z) : list Z :=
  match path with
  | [] => [SLASH]
  | c :: _ => if decide (c = SLASH) then path_clean path else path_clean (SLASH :: path)
  end.

Definition key_new (s : list Z) : list Z := clean s.

Definition new_unchecked {E} (input : list Z) : outcome E (list Z) :=
  match input with
  | [] => Ok [SLASH]
  | c :: _ =>
      if bool_decide (c <> SLASH) || (bool_decide (1 < length input)%nat && bool_decide (last input = Some SLASH))
      then Panic else Ok input
  end.

Definition with_namespaces (l : list (list Z)) : list Z := key_new (join l).
(** [uuid] is the text of the random identifier; [replace("-", "")]. *)
Definition DASH : Z := 45.
Definition random (uuid : list Z) : list Z := key_new (filter (fun c => c <> DASH) uuid).
Definition key_clean (k : list Z) : list Z := clean k.
Definition is_root (k : list Z) : bool := bool_decide (k = [SLASH]).

Definition namespaces (k : list Z) : list (list Z) :=
  if is_root k then [] else drop 1 (split k).

Definition reverse (k : list Z) : list Z := with_namespaces (rev (namespaces k)).
Definition base_namespace (k : list Z) : list Z := default [] (last (namespaces k)).

(** [rfind(COLON)]. *)
Fixpoint rfind_colon (s : list Z) : option nat :=
  match s with
  | [] => None
  | c :: s' =>
      match rfind_colon s' with
      | Some i => Some (S i)
      | None => if decide (c = COLON) then Some 0%nat else None
      end
  end.

Definition namespace_type (ns : list Z) : list Z :=
  match rfind_colon ns with Some i => take i ns | None => [] end.
Definition namespace_value (ns : list Z) : list Z :=
  match rfind_colon ns with Some i => drop (i + 1) ns | None => ns end.

Definition key_type (k : list Z) : list Z := namespace_type (base_namespace k).
Definition key_name (k : list Z) : list Z := namespace_value (base_namespace k).
Definition instance (k s : list Z) : list Z := key_new (k ++ [COLON] ++ s).

Definition parent (k : list Z) : list Z :=
  let l := namespaces k in
  if bool_decide (l = []) || bool_decide (length l = 1%nat) then key_new [SLASH]
  else key_new (join (removelast l)).

Definition path (k : list Z) : list Z := key_new (parent k ++ [SLASH] ++ key_type k).

Definition child {E} (k c : list Z) : outcome E (list Z) :=
  if is_root k then Ok (key_new c)
  else if is_root c then Ok k
  else new_unchecked (k ++ c).

(** [descendant.as_bytes()[self.as_str().len()]] is in range: the descendant is
    longer. *)
Definition is_ancestor_of (k d : list Z) : bool :=
  if decide (length d <= length k)%nat then false
  else if is_root k then true
  else bool_decide (take (length k) d = k) && bool_decide (d !! length k = Some SLASH).

Definition is_descendant_of (k a : list Z) : bool := is_ancestor_of a k.

Definition is_top_level (k : list Z) : bool :=
  bool_decide (namespaces k = []) || bool_decide (length (namespaces k) = 1%nat).

(** [Ord]: the lists of namespaces, lexicographically. *)
Fixpoint list_cmp (a b : list (list Z)) : comparison :=
  match a, b with
  | [], [] => Eq
  | [], _ => Lt
  | _, [] => Gt
  | x :: a', y :: b' => match bytes_cmp x y with Eq => list_cmp a' b' | c => c end
  end.
Definition key_cmp (a b : list Z) : comparison := list_cmp (namespaces a) (namespaces b).

(** ** Well-formed keys *)
Definition no_slash (n : list Z) : Prop := SLASH ∉ n.
Definition ns_ok (n : list Z) : Prop := n <> [] /\ no_slash n /\ n <> [DOT] /\ n <> [DOT; DOT].
Definition render (ns : list (list Z)) : list Z := SLASH :: join ns.
Definition wf (k : list Z) : Prop := exists ns, Forall ns_ok ns /\ k = render ns.

Lemma split_cons_ne c s : c <> SLASH -> exists h t, split s = h :: t /\ split (c :: s) = (c :: h) :: t.
Proof.
  intros Hc. destruct (split s) as [|h t] eqn:Hs.
  - destruct s as [|d s]; [done|]. cbn in Hs. destruct (decide _); [done|]. by destruct (split s).
  - exists h, t. cbn. by rewrite decide_False, Hs.
Qed.

Lemma split_nonempty s : split s <> [].
Proof. destruct s as [|c s]; [done|]. cbn. destruct (decide _); [done|]. by destruct (split s). Qed.

Lemma split_no_slash s : Forall no_slash (split s).
Proof.
  induction s as [|c s IH]; [by repeat constructor; apply not_elem_of_nil|].
  destruct (decide (c = SLASH)) as [->|Hc].
  - cbn. constructor; [apply not_elem_of_nil|done].
  - destruct (split_cons_ne c s Hc) as (h & t & Hs & ->). rewrite Hs in IH.
    apply Forall_cons in IH as [Hh Ht]. constructor; [|done]. unfold no_slash in *.
    rewrite not_elem_of_cons. split; [congruence|done].
Qed.

Lemma split_app_slash x s : no_slash x -> split (x ++ SLASH :: s) = x :: split s.
Proof.
  induction x as [|c x IH]; intros Hx; [done|]. apply not_elem_of_cons in Hx as [Hc Hx].
  destruct (split_cons_ne c (x ++ SLASH :: s)) as (h & t & Hs & Hcs); [congruence|].
  cbn [app]. rewrite Hcs. rewrite IH in Hs by done. congruence.
Qed.

Lemma split_single x : no_slash x -> split x = [x].
Proof.
  induction x as [|c x IH]; intros Hx; [done|]. apply not_elem_of_cons in Hx as [Hc Hx].
  destruct (split_cons_ne c x) as (h & t & Hs & Hcs); [congruence|].
  rewrite Hcs. rewrite IH in Hs by done. congruence.
Qed.

Lemma split_join l : l <> [] -> Forall no_slash l -> split (join l) = l.
Proof.
  intros Hne Hl. induction Hl as [|x l Hx Hl IH]; [done|].
  destruct l as [|y l]; [by apply split_single|].
  change (join (x :: y :: l)) with (x ++ SLASH :: join (y :: l)).
  rewrite split_app_slash by done. by rewrite IH.
Qed.

Lemma ns_ok_no_slash l : Forall ns_ok l -> Forall no_slash l.
Proof. intros Hl. eapply Forall_impl; [exact Hl|]. by intros n (?&?&?). Qed.

Lemma resolve_step_ok st c : Forall ns_ok st -> no_slash c -> Forall ns_ok (resolve_step st c).
Proof.
  intros Hst Hc. unfold resolve_step. destruct (decide _) as [|H1]; [done|].
  destruct (decide _) as [|H2].
  - destruct st as [|x st] using rev_ind; [done|]. rewrite removelast_last.
    by apply Forall_app in Hst as [? _].
  - apply Forall_app. split; [done|]. apply Forall_singleton. unfold ns_ok. tauto.
Qed.

Lemma resolve_ok l : Forall no_slash l -> Forall ns_ok (resolve l).
Proof.
  intros Hl. unfold resolve. assert (Hn : Forall ns_ok []) by constructor.
  revert Hn. generalize (@nil (list Z)) as st.
  induction Hl as [|c l Hc _ IH]; intros st Hst; [done|]. cbn. apply IH. by apply resolve_step_ok.
Qed.

Lemma resolve_id l : Forall ns_ok l -> resolve l = l.
Proof.
  intros Hl. unfold resolve. change l with ([] ++ l) at 2. generalize (@nil (list Z)) as st.
  induction Hl as [|c l (Hc1 & _ & Hc2 & Hc3) _ IH]; intros st; cbn; [by rewrite app_nil_r|].
  rewrite IH. unfold resolve_step. rewrite decide_False by tauto. rewrite decide_False by done.
  by rewrite <- app_assoc.
Qed.

Lemma resolve_split_join l : Forall ns_ok l -> resolve (split (join l)) = l.
Proof.
  intros Hl. destruct (decide (l = [])) as [->|Hne]; [done|].
  rewrite split_join by (done || by apply ns_ok_no_slash). by apply resolve_id.
Qed.

Lemma join_head l : Forall ns_ok l -> l <> [] -> exists c r, join l = c :: r /\ c <> SLASH.
Proof.
  intros Hl Hne. destruct Hl as [|x l (Hx1 & Hx2 & _) _]; [done|].
  destruct x as [|c x]; [done|]. apply not_elem_of_cons in Hx2 as [Hc _].
  destruct l as [|y l]; [exists c, x|exists c, (x ++ SLASH :: join (y :: l))]; split; done || congruence.
Qed.

Lemma namespaces_render l : Forall ns_ok l -> namespaces (render l) = l.
Proof.
  intros Hl. unfold namespaces, is_root, render. destruct (decide (l = [])) as [->|Hne]; [done|].
  destruct (join_head l Hl Hne) as (c & r & Hj & Hc).
  rewrite bool_decide_eq_false_2 by (rewrite Hj; done).
  cbn [split]. rewrite decide_True by done. cbn [drop]. apply split_join; [done|by apply ns_ok_no_slash].
Qed.

Lemma wf_render k : wf k -> k = render (namespaces k) /\ Forall ns_ok (namespaces k).
Proof. intros (l & Hl & ->). by rewrite namespaces_render. Qed.

Lemma render_wf l : Forall ns_ok l -> wf (render l).
Proof. intros Hl. by exists l. Qed.

Lemma render_inj l l' : Forall ns_ok l -> Forall ns_ok l' -> render l = render l' -> l = l'.
Proof. intros Hl Hl' He. rewrite <- (namespaces_render l), He, namespaces_render; done. Qed.

Lemma is_root_render l : Forall ns_ok l -> is_root (render l) = bool_decide (l = []).
Proof.
  intros Hl. unfold is_root. apply bool_decide_ext. unfold render. split; [|by intros ->].
  intros He. apply (render_inj l []); [done|constructor|done].
Qed.

Lemma last_join l x : join (l ++ [x]) = match l with [] => x | _ => join l ++ SLASH :: x end.
Proof.
  induction l as [|y l IH]; [done|]. cbn [app].
  assert (Hj : join (y :: l ++ [x]) = y ++ SLASH :: join (l ++ [x])) by (by destruct l).
  rewrite Hj, IH. destruct l as [|z l]; [done|].
  change (join (y :: z :: l)) with (y ++ SLASH :: join (z :: l)). by rewrite <- app_assoc.
Qed.

Lemma join_app l l' : l <> [] -> l' <> [] -> join (l ++ l') = join l ++ SLASH :: join l'.
Proof.
  intros Hl Hl'. induction l as [|x l IH]; [done|]. cbn [app].
  destruct l as [|y l].
  - cbn [app]. by destruct l'.
  - change (join (x :: (y :: l) ++ l')) with (x ++ SLASH :: join ((y :: l) ++ l')).
    change (join (x :: y :: l)) with (x ++ SLASH :: join (y :: l)).
    rewrite IH by done. by rewrite <- app_assoc.
Qed.

Context `{!PathCleanLaws _}.

Lemma key_new_render l : Forall ns_ok l -> key_new (render l) = render l.
Proof.
  intros Hl. unfold key_new, clean, render. rewrite decide_True by done.
  rewrite path_clean_rooted. by rewrite resolve_split_join.
Qed.

Lemma key_new_join l : Forall ns_ok l -> key_new (join l) = render l.
Proof.
  intros Hl. destruct (decide (l = [])) as [->|Hne]; [done|].
  destruct (join_head l Hl Hne) as (c & r & Hj & Hc). unfold key_new, clean.
  rewrite Hj, decide_False, <- Hj by done. rewrite path_clean_rooted. by rewrite resolve_split_join.
Qed.

Lemma key_new_form s :
  key_new s = render (resolve (split (match s with c :: s' => if decide (c = SLASH) then s' else s | [] => [] end))).
Proof.
  unfold key_new, clean. destruct s as [|c s]; [done|].
  destruct (decide (c = SLASH)) as [->|Hc]; apply path_clean_rooted.
Qed.

Lemma key_new_wf s : wf (key_new s).
Proof. rewrite key_new_form. apply render_wf, resolve_ok, split_no_slash. Qed.

Lemma new_unchecked_render {E} l : Forall ns_ok l -> @new_unchecked E (render l) = Ok (render l).
Proof.
  intros Hl. unfold new_unchecked, render at 1. rewrite bool_decide_eq_false_2 by tauto. cbn [orb].
  destruct (decide (l = [])) as [->|Hne]; [done|].
  destruct l as [|x l] using rev_ind; [done|]. clear IHl.
  apply Forall_app in Hl as [_ Hx]. apply Forall_inv in Hx as (Hx1 & Hx2 & _).
  rewrite (bool_decide_eq_false_2 (last _ = _)); [by rewrite andb_false_r|].
  assert (Hlast : last (render (l ++ [x])) = last x).
  { unfold render. rewrite last_join. destruct x as [|c x] using rev_ind; [done|].
    destruct l; rewrite ?app_comm_cons, ?app_assoc; by rewrite !last_snoc. }
  rewrite Hlast. intros Hs. apply Hx2. by apply last_Some_elem_of in Hs.
Qed.

Lemma parent_render l : Forall ns_ok l -> parent (render l) = render (removelast l).
Proof.
  intros Hl. unfold parent. rewrite namespaces_render by done.
  assert (Hr : Forall ns_ok (removelast l)).
  { destruct l as [|x l] using rev_ind; [done|]. rewrite removelast_last.
    by apply Forall_app in Hl as [? _]. }
  destruct (decide (l = [])) as [->|Hne]; [cbn; apply (key_new_render []); constructor|].
  destruct (decide (length l = 1%nat)) as [H1|H1].
  - destruct l as [|x [|y l]]; try done. cbn. apply (key_new_render []). constructor.
  - rewrite bool_decide_eq_false_2, bool_decide_eq_false_2 by done. cbn [orb]. by apply key_new_join.
Qed.

Lemma child_render {E} l l' : Forall ns_ok l -> Forall ns_ok l' ->
  @child E (render l) (render l') = Ok (render (l ++ l')).
Proof.
  intros Hl Hl'. unfold child. rewrite !is_root_render by done.
  destruct (decide (l = [])) as [->|Hne];
    [rewrite bool_decide_eq_true_2 by done; by rewrite key_new_render|].
  rewrite bool_decide_eq_false_2 by done.
  destruct (decide (l' = [])) as [->|Hne'];
    [rewrite bool_decide_eq_true_2 by done; by rewrite app_nil_r|].
  rewrite bool_decide_eq_false_2 by done.
  assert (He : render l ++ render l' = render (l ++ l')).
  { unfold render. by rewrite join_app. }
  rewrite He. apply new_unchecked_render. by apply Forall_app.
Qed.

Lemma split_app a b : split (a ++ SLASH :: b) = split a ++ split b.
Proof.
  induction a as [|c a IH]; [done|]. destruct (decide (c = SLASH)) as [->|Hc].
  - cbn. rewrite decide_True by done. cbn. by rewrite IH.
  - destruct (split_cons_ne c a Hc) as (h & t & Hs & Hcs).
    destruct (split_cons_ne c (a ++ SLASH :: b) Hc) as (h' & t' & Hs' & Hcs').
    cbn [app]. rewrite Hcs, Hcs'. rewrite IH, Hs in Hs'. cbn in *. congruence.
Qed.

Lemma is_ancestor_of_render l m : Forall ns_ok l -> Forall ns_ok m ->
  is_ancestor_of (render l) (render m) = true <-> exists r, r <> [] /\ m = l ++ r.
Proof.
  intros Hl Hm. unfold is_ancestor_of. rewrite is_root_render by done.
  destruct (decide (l = [])) as [->|Hne].
  - rewrite (bool_decide_eq_true_2 ([] = [])) by done. split.
    + destruct (decide _) as [|Hlt]; [done|]. intros _. exists m. split; [|done].
      intros ->. cbn in Hlt. lia.
    + intros (r & Hr & ->). cbn [app] in *. destruct (join_head r Hm Hr) as (c & t & Hj & _).
      unfold render. rewrite Hj. cbn. by rewrite decide_False by lia.
  - rewrite (bool_decide_eq_false_2 (l = [])) by done. split.
    + destruct (decide _) as [|Hlt]; [done|]. intros [Ht Hs]%andb_true_iff.
      apply bool_decide_eq_true in Ht, Hs. set (k := render l) in *.
      assert (Hd : render m = k ++ SLASH :: drop (S (length k)) (render m)).
      { rewrite <- Ht at 1. rewrite <- (take_drop (length k) (render m)) at 1. f_equal.
        by apply drop_S. }
      unfold k, render in Hd. cbn [app] in Hd. injection Hd as Hd.
      apply (f_equal split) in Hd. rewrite split_app, (split_join l) in Hd
        by (done || by apply ns_ok_no_slash).
      destruct (decide (m = [])) as [->|Hm0].
      { cbn in Hlt. pose proof (join_head l Hl Hne) as (c & t & Hj & _). cbn in Hlt. lia. }
      rewrite split_join in Hd by (done || by apply ns_ok_no_slash).
      eexists. split; [|exact Hd]. apply split_nonempty.
    + intros (r & Hr & ->). 
      assert (He : render (l ++ r) = render l ++ SLASH :: join r) by (unfold render; by rewrite join_app).
      rewrite He, length_app. cbn [length].
      rewrite decide_False by lia.
      rewrite take_app_length, lookup_app_r, Nat.sub_diag by lia.
      rewrite !bool_decide_eq_true_2 by done. done.
Qed.

(** ** Order *)
Lemma list_cmp_eq a b : list_cmp a b = Eq <-> a = b.
Proof.
  revert b. induction a as [|x a IH]; intros [|y b]; cbn; try done.
  destruct (bytes_cmp x y) eqn:Hc.
  - apply bytes_cmp_eq in Hc as ->. rewrite IH. split; congruence.
  - split; [done|]. intros [= -> _]. by rewrite (proj2 (bytes_cmp_eq y y)) in Hc.
  - split; [done|]. intros [= -> _]. by rewrite (proj2 (bytes_cmp_eq y y)) in Hc.
Qed.

Lemma list_cmp_antisym a b : list_cmp b a = CompOpp (list_cmp a b).
Proof.
  revert b. induction a as [|x a IH]; intros [|y b]; cbn; try done.
  rewrite bytes_cmp_antisym. destruct (bytes_cmp x y); cbn; [apply IH|done..].
Qed.

Lemma list_cmp_trans a b c : list_cmp a b = Lt -> list_cmp b c = Lt -> list_cmp a c = Lt.
Proof.
  revert b c. induction a as [|x a IH]; intros [|y b] [|z c]; cbn; try done.
  destruct (bytes_cmp x y) eqn:Hxy; [|intros _|done];
    (destruct (bytes_cmp y z) eqn:Hyz; [|intros _|done]).
  - apply bytes_cmp_eq in Hxy as ->. rewrite Hyz. apply IH.
  - apply bytes_cmp_eq in Hxy as ->. by rewrite Hyz.
  - apply bytes_cmp_eq in Hyz as ->. by rewrite Hxy.
  - by rewrite (bytes_cmp_trans x y z).
Qed.

Lemma list_cmp_prefix l r : r <> [] -> list_cmp l (l ++ r) = Lt.
Proof.
  intros Hr. induction l as [|x l IH]; cbn; [by destruct r|].
  by rewrite (proj2 (bytes_cmp_eq x x)).
Qed.

(** ** Types and names *)
Lemma base_render l : Forall ns_ok l -> base_namespace (render l) = default [] (last l).
Proof. intros Hl. unfold base_namespace. by rewrite namespaces_render. Qed.

Lemma rfind_colon_app b s : COLON ∉ s -> rfind_colon (b ++ COLON :: s) = Some (length b).
Proof.
  intros Hs. assert (Hn : rfind_colon s = None).
  { clear -Hs. induction s as [|c s IH]; [done|]. apply not_elem_of_cons in Hs as [Hc Hs].
    cbn. rewrite IH by done. by rewrite decide_False by congruence. }
  induction b as [|c b IH]; cbn; [by rewrite Hn, decide_True|]. by rewrite IH.
Qed.

Lemma ns_ok_colon b s : no_slash b -> no_slash s -> ns_ok (b ++ COLON :: s).
Proof.
  intros Hb Hs. split; [by destruct b|]. split.
  - unfold no_slash. rewrite elem_of_app, elem_of_cons. unfold no_slash in *.
    intros [?|[?|?]]; [done| |done]. discriminate.
  - assert (Hc : COLON ∈ b ++ COLON :: s) by (rewrite elem_of_app, elem_of_cons; tauto).
    split; intros He; rewrite He in Hc; rewrite !elem_of_cons, elem_of_nil in Hc;
      unfold COLON, DOT in Hc; lia.
Qed.

Lemma instance_render l s : Forall ns_ok l -> no_slash s ->
  instance (render l) s = render (removelast l ++ [default [] (last l) ++ COLON :: s]).
Proof.
  intros Hl Hs. unfold instance. destruct l as [|b l _] using rev_ind.
  - cbn [last from_option id removelast app]. unfold render at 1. cbn [join app].
    rewrite <- (key_new_render [COLON :: s]); [done|].
    apply Forall_singleton. apply (ns_ok_colon [] s); [apply not_elem_of_nil|done].
  - rewrite removelast_last, last_snoc. cbn [from_option id].
    apply Forall_app in Hl as [Hl Hb]. apply Forall_inv in Hb as (Hb1 & Hb2 & _).
    rewrite <- (key_new_render (l ++ [b ++ COLON :: s])).
    2:{ apply Forall_app. split; [done|]. apply Forall_singleton. by apply ns_ok_colon. }
    f_equal. unfold render. rewrite !last_join. cbn [app]. f_equal.
    destruct l; [done|]. by rewrite <- app_assoc.
Qed.
End Key.

(** ** An instance: the documented rules for a rooted path *)
Definition path_clean_ref : PathClean :=
  fun s => match s with
           | c :: p => if decide (c = SLASH) then SLASH :: join (resolve (split p)) else s
           | [] => [DOT]
           end.
#[export] Existing Instance path_clean_ref.
#[export] Instance path_clean_ref_laws : PathCleanLaws path_clean_ref.
Proof. intros p. unfold path_clean, path_clean_ref. by rewrite decide_True. Qed.

(** The examples of the documentation and of [test_ancestry]. *)
Example key_examples :
  key_new (str "A//B/./x/../C") = str "/A/B/C" /\
  is_ancestor_of (key_new (str "/A/B/C")) (key_new (str "/A/B/C/D")) = true /\
  is_ancestor_of (key_new (str "/A")) (key_new (str "/AB")) = false /\
  parent (str "/Comedy/MontyPython/Actor:JohnCleese") = str "/Comedy/MontyPython" /\
  path (str "/Comedy/MontyPython/Actor:JohnCleese") = str "/Comedy/MontyPython/Actor" /\
  key_name (str "/Comedy/MontyPython/Actor:JohnCleese") = str "JohnCleese" /\
  key_cmp (str "/a/b/c/d/e/f/g/h") (str "/b") = Lt.
Proof. repeat split; vm_compute; reflexivity. Qed.

(** ** The properties *)

(** C22: [Key::new] normalises every string: the result is a slash followed by
    non-empty namespaces without slashes, dots or double dots, joined by single
    slashes; normalising again changes nothing, the checks of [new_unchecked]
    accept it, and the key is rebuilt from its list of namespaces. *)
Theorem key_new_normal `{PathCleanLaws} (s : list Z) :
  Forall ns_ok (namespaces (key_new s)) /\
  key_new s = render (namespaces (key_new s)) /\
  key_new (key_new s) = key_new s /\ key_clean (key_new s) = key_new s /\
  @new_unchecked unit (key_new s) = Ok (key_new s) /\
  with_namespaces (namespaces (key_new s)) = key_new s.
Proof.
  destruct (key_new_wf s) as (l & Hl & Hk). rewrite Hk, namespaces_render by done.
  split; [done|]. split; [done|]. unfold key_clean. change clean with key_new.
  rewrite key_new_render by done. split; [done|]. split; [done|].
  split; [by apply new_unchecked_render|]. by apply key_new_join.
Qed.

Lemma key_new_normal_witness :
  Forall ns_ok (namespaces (key_new (str "a/../b//c"))) /\
  key_new (str "a/../b//c") = render (namespaces (key_new (str "a/../b//c"))) /\
  key_new (key_new (str "a/../b//c")) = key_new (str "a/../b//c") /\
  key_clean (key_new (str "a/../b//c")) = key_new (str "a/../b//c") /\
  @new_unchecked unit (key_new (str "a/../b//c")) = Ok (key_new (str "a/../b//c")) /\
  with_namespaces (namespaces (key_new (str "a/../b//c"))) = key_new (str "a/../b//c").
Proof. apply (key_new_normal (str "a/../b//c")). Defined.

(** C23: on normal keys the hierarchy is that of the lists of namespaces: [child]
    appends them (and never panics), [parent] drops the last, [reverse] reverses
    them, and [is_ancestor_of] holds exactly when one list strictly extends the
    other. *)
Theorem key_hierarchy `{PathCleanLaws} (a b : list Z) :
  wf a -> wf b ->
  (exists c, @child _ unit a b = Ok c /\ wf c /\ namespaces c = namespaces a ++ namespaces b) /\
  namespaces (parent a) = removelast (namespaces a) /\
  namespaces (reverse a) = rev (namespaces a) /\
  (is_ancestor_of a b = true <-> exists r, r <> [] /\ namespaces b = namespaces a ++ r) /\
  is_descendant_of b a = is_ancestor_of a b.
Proof.
  intros (l & Hl & ->) (m & Hm & ->). rewrite !namespaces_render by done.
  split; [|split; [|split; [|split; [|done]]]].
  - exists (render (l ++ m)). assert (Forall ns_ok (l ++ m)) by (by apply Forall_app).
    rewrite child_render, namespaces_render by done. split; [done|]. split; [by apply render_wf|done].
  - rewrite parent_render by done. apply namespaces_render.
    destruct l as [|x l _] using rev_ind; [done|]. rewrite removelast_last.
    by apply Forall_app in Hl as [? _].
  - unfold reverse, with_namespaces. rewrite namespaces_render by done.
    assert (Forall ns_ok (rev l)) by (by apply Forall_rev). by rewrite key_new_join, namespaces_render.
  - by apply is_ancestor_of_render.
Qed.

Lemma key_hierarchy_witness :
  (exists c, @child _ unit (str "/A/B") (str "/C") = Ok c /\ wf c /\
     namespaces c = namespaces (str "/A/B") ++ namespaces (str "/C")) /\
  namespaces (parent (str "/A/B")) = removelast (namespaces (str "/A/B")) /\
  namespaces (reverse (str "/A/B")) = rev (namespaces (str "/A/B")) /\
  (is_ancestor_of (str "/A/B") (str "/C") = true <->
     exists r, r <> [] /\ namespaces (str "/C") = namespaces (str "/A/B") ++ r) /\
  is_descendant_of (str "/C") (str "/A/B") = is_ancestor_of (str "/A/B") (str "/C").
Proof.
  apply (key_hierarchy (str "/A/B") (str "/C")).
  - exact (key_new_wf (str "/A/B")).
  - exact (key_new_wf (str "/C")).
Defined.

(** The order of keys is a total order on normal keys (equal only when the
    keys are), the root is its least element, and every key sorts before its
    descendants. *)
Theorem key_order_total `{PathCleanLaws} (a b c : list Z) :
  wf a -> wf b -> wf c ->
  (key_cmp a b = Eq <-> a = b) /\ key_cmp b a = CompOpp (key_cmp a b) /\
  (key_cmp a b = Lt -> key_cmp b c = Lt -> key_cmp a c = Lt) /\
  (is_ancestor_of a b = true -> key_cmp a b = Lt) /\ key_cmp [SLASH] a <> Gt.
Proof.
  intros (l & Hl & ->) (m & Hm & ->) (n & Hn & ->). unfold key_cmp.
  rewrite !namespaces_render by done. rewrite list_cmp_eq.
  split; [split; [by intros ->|by apply render_inj]|].
  split; [apply list_cmp_antisym|]. split; [apply list_cmp_trans|]. split.
  - intros (r & Hr & ->)%is_ancestor_of_render; [|done|done]. by apply list_cmp_prefix.
  - by destruct l.
Qed.

Lemma key_order_total_witness :
  (key_cmp (str "/a") (str "/a/b") = Eq <-> str "/a" = str "/a/b") /\
  key_cmp (str "/a/b") (str "/a") = CompOpp (key_cmp (str "/a") (str "/a/b")) /\
  (key_cmp (str "/a") (str "/a/b") = Lt -> key_cmp (str "/a/b") (str "/b") = Lt ->
   key_cmp (str "/a") (str "/b") = Lt) /\
  (is_ancestor_of (str "/a") (str "/a/b") = true -> key_cmp (str "/a") (str "/a/b") = Lt) /\
  key_cmp [SLASH] (str "/a") <> Gt.
Proof.
  apply (key_order_total (str "/a") (str "/a/b") (str "/b")).
  - exact (key_new_wf (str "/a")).
  - exact (key_new_wf (str "/a/b")).
  - exact (key_new_wf (str "/b")).
Defined.

(** The text of an identifier: hexadecimal digits in groups. *)
Definition hex_digit (c : Z) : Prop := 48 <= c <= 57 \/ 97 <= c <= 102.
Definition digits (uuid : list Z) : list Z := filter (fun c => c <> DASH) uuid.
Definition uuid_text (uuid : list Z) : Prop := Forall (fun c => c = DASH \/ hex_digit c) uuid /\ digits uuid <> [].

Lemma digits_ok uuid : uuid_text uuid -> ns_ok (digits uuid).
Proof.
  intros [Hu Hne]. assert (Hd : Forall hex_digit (digits uuid)).
  { apply Forall_forall. intros c Hc. apply list_elem_of_filter in Hc as [Hd Hc].
    rewrite Forall_forall in Hu. destruct (Hu c Hc); [done|done]. }
  split; [done|]. split.
  - intros Hs. rewrite Forall_forall in Hd. specialize (Hd _ Hs). unfold hex_digit, SLASH in Hd. lia.
  - split; intros He; rewrite He in Hd; apply Forall_inv in Hd; unfold hex_digit, DOT in Hd; lia.
Qed.

(** A random key is a top-level key named by the digits of its identifier, so
    identifiers with different digits give different keys. *)
Theorem key_random_distinct `{PathCleanLaws} (u u' : list Z) :
  uuid_text u -> uuid_text u' ->
  random u = SLASH :: digits u /\ is_top_level (random u) = true /\ (random u = random u' <-> digits u = digits u').
Proof.
  intros Hu Hu'. assert (Hr : forall x, uuid_text x -> random x = render [digits x]).
  { intros x Hx. apply (key_new_join [digits x]). by apply Forall_singleton, digits_ok. }
  rewrite !Hr by done. split; [done|]. split; [|split; [by intros [= ->]|by intros ->]].
  unfold is_top_level. by rewrite namespaces_render by (by apply Forall_singleton, digits_ok).
Qed.

(** An instance of a type key carries the key's last namespace as its type
    and the value as its name, and [path] takes it back to the type key. *)
Theorem key_instance `{PathCleanLaws} (k s : list Z) :
  wf k -> no_slash s -> COLON ∉ s ->
  wf (instance k s) /\
  key_type (instance k s) = base_namespace k /\ key_name (instance k s) = s /\
  path (instance k s) = k.
Proof.
  intros (l & Hl & ->) Hs Hc. rewrite instance_render by done.
  rewrite (base_render l) by done. set (i := removelast l). set (b := default [] (last l)).
  assert (Hib : Forall ns_ok i /\ no_slash b /\ (l = [] /\ i = [] /\ b = [] \/ l = i ++ [b] /\ ns_ok b)).
  { unfold i, b. destruct l as [|x l' _] using rev_ind.
    - split; [done|]. split; [apply not_elem_of_nil|auto].
    - rewrite removelast_last, last_snoc. cbn. apply Forall_app in Hl as [Hl Hx].
      apply Forall_inv in Hx. split; [done|]. split; [apply Hx|]. right. by split. }
  destruct Hib as (Hi & Hb & Hcase). clearbody i b.
  assert (Hok : Forall ns_ok (i ++ [b ++ COLON :: s])).
  { apply Forall_app. split; [done|]. apply Forall_singleton. by apply ns_ok_colon. }
  unfold path, key_type, key_name. rewrite base_render, last_snoc by done. cbn [from_option id].
  unfold namespace_type, namespace_value. rewrite rfind_colon_app by done.
  rewrite take_app_length. split; [by apply render_wf|]. split; [done|]. split.
  - change (b ++ COLON :: s) with (b ++ [COLON] ++ s). rewrite app_assoc.
    apply drop_app_length'. rewrite length_app. cbn. lia.
  - rewrite parent_render, removelast_last by done.
    destruct Hcase as [(-> & -> & ->)|[-> Hbo]].
    + by rewrite key_new_form.
    + destruct i as [|x i].
      * rewrite key_new_form. cbn [render join app]. rewrite decide_True by done.
        change (split (SLASH :: b)) with ([] :: split b). rewrite split_single by apply Hbo.
        change (resolve [[]; b]) with (resolve [b]). by rewrite resolve_id by (by apply Forall_singleton).
      * rewrite <- (key_new_render ((x :: i) ++ [b])); [|exact Hl].
        f_equal. unfold render. rewrite last_join. done.
Qed.

Lemma key_instance_witness :
  let k := str "/Comedy/MontyPython/Actor" in
  wf (instance k (str "JohnCleese")) /\
  key_type (instance k (str "JohnCleese")) = base_namespace k /\
  key_name (instance k (str "JohnCleese")) = str "JohnCleese" /\
  path (instance k (str "JohnCleese")) = k.
Proof.
  apply (key_instance (str "/Comedy/MontyPython/Actor") (str "JohnCleese")).
  - exact (key_new_wf (str "/Comedy/MontyPython/Actor")).
  - apply (bool_decide_unpack _). vm_compute. exact I.
  - apply (bool_decide_unpack _). vm_compute. exact I.
Defined.
End Key.
