(* ===== verification/Query.v ===== *)
(** * [ipfs/datastore/src/query]: filters, orders and the text of a query

    filter.rs, order.rs and mod.rs.  No store of the repository runs queries:
    what there is are the tests that select entries, the comparisons that order
    them and the text a query is displayed as.  A [Filter] or [Order] trait
    object is a value of the types that implement the trait, or a caller's
    function. *)

From Stdlib Require Import ZArith Lia String.
From stdpp Require Import base numbers list.
From S2P Require Import Prelude Decimal F64 Text Tipset Key.
Import Key.

Local Open Scope Z_scope.

Module Query.

(** [expiration] is an [Instant]: only ever copied. *)
Record Entry := mkEntry { key : list Z; value : list Z; expiration : Z; size : Z }.

(** ** [filter.rs] *)
Inductive FilterOp := Equal | NotEqual | GreaterThan | GreaterThanEqual | LessThan | LessThanEqual.

Definition op_display (o : FilterOp) : list Z :=
  match o with
  | Equal => str "=="
  | NotEqual => str "!="
  | GreaterThan => str ">"
  | GreaterThanEqual => str ">="
  | LessThan => str "<"
  | LessThanEqual => str "<="
  end.

Record FilterKeyCompare := mkKeyCompare { fk_key : list Z; fk_op : FilterOp }.
Record FilterValueCompare := mkValueCompare { fv_value : list Z; fv_op : FilterOp }.
Record FilterKeyPrefix := mkKeyPrefix { fp_prefix : list Z }.

(** [==] and [!=] are those of the text, the others come from [Ord]. *)
Definition key_compare_filter (f : FilterKeyCompare) (entry : Entry) : bool :=
  match fk_op f with
  | Equal => bool_decide (key entry = fk_key f)
  | NotEqual => negb (bool_decide (key entry = fk_key f))
  | GreaterThan => bool_decide (key_cmp (key entry) (fk_key f) = Gt)
  | GreaterThanEqual => negb (bool_decide (key_cmp (key entry) (fk_key f) = Lt))
  | LessThan => bool_decide (key_cmp (key entry) (fk_key f) = Lt)
  | LessThanEqual => negb (bool_decide (key_cmp (key entry) (fk_key f) = Gt))
  end.
Definition key_compare_display (f : FilterKeyCompare) : list Z :=
  str "KEY " ++ op_display (fk_op f) ++ str " " ++ fk_key f.

Definition value_compare_filter (f : FilterValueCompare) (entry : Entry) : bool :=
  let order := bytes_cmp (value entry) (fv_value f) in
  match fv_op f with
  | Equal => bool_decide (order = Eq)
  | NotEqual => negb (bool_decide (order = Eq))
  | GreaterThan => bool_decide (order = Gt)
  | GreaterThanEqual => bool_decide (order = Gt) || bool_decide (order = Eq)
  | LessThan => bool_decide (order = Lt)
  | LessThanEqual => bool_decide (order = Lt) || bool_decide (order = Eq)
  end.

(** [{:?}] of a [Vec<u8>] *)
Definition comma_separated (l : list (list Z)) : list Z :=
  match l with
  | [] => []
  | x :: l' => x ++ concat (map (fun y => str ", " ++ y) l')
  end.
Definition debug_bytes (v : list Z) : list Z := str "[" ++ comma_separated (map to_decimal v) ++ str "]".
Definition value_compare_display (f : FilterValueCompare) : list Z :=
  str "VALUE " ++ op_display (fv_op f) ++ str " " ++ debug_bytes (fv_value f).

Definition key_prefix_filter (f : FilterKeyPrefix) (entry : Entry) : bool := starts_with (fp_prefix f) (key entry).
Definition key_prefix_display (f : FilterKeyPrefix) : list Z := str "PREFIX(" ++ fp_prefix f ++ str ")".

(** [Box<dyn Filter>] *)
Inductive Filter :=
| ByKey (f : FilterKeyCompare)
| ByValue (f : FilterValueCompare)
| ByPrefix (f : FilterKeyPrefix)
| OtherFilter (f : Entry -> bool) (display : list Z).

Definition filter (f : Filter) (entry : Entry) : bool :=
  match f with
  | ByKey f => key_compare_filter f entry
  | ByValue f => value_compare_filter f entry
  | ByPrefix f => key_prefix_filter f entry
  | OtherFilter f _ => f entry
  end.
Definition filter_display (f : Filter) : list Z :=
  match f with
  | ByKey f => key_compare_display f
  | ByValue f => value_compare_display f
  | ByPrefix f => key_prefix_display f
  | OtherFilter _ d => d
  end.

(** ** [order.rs] *)
Definition entry_key_ascending (lhs rhs : Entry) : comparison := key_cmp (key lhs) (key rhs).
Definition entry_key_descending (lhs rhs : Entry) : comparison := key_cmp (key rhs) (key lhs).
Definition entry_value_ascending (lhs rhs : Entry) : comparison := bytes_cmp (value lhs) (value rhs).
Definition entry_value_descending (lhs rhs : Entry) : comparison := bytes_cmp (value rhs) (value lhs).

(** [Box<dyn Order>]: what the trait offers. *)
Record Order := mkOrder { order_display : list Z; compare : Entry -> Entry -> comparison }.

Definition OrderByFunction (f : Entry -> Entry -> comparison) : Order := mkOrder (str "FN") f.

Definition OrderByKey : Order := mkOrder (str "KEY") (compare (OrderByFunction entry_key_ascending)).
Definition OrderByKeyDescending : Order := mkOrder (str "desc(KEY)") (compare (OrderByFunction entry_key_descending)).
Definition OrderByValue : Order := mkOrder (str "VALUE") (compare (OrderByFunction entry_value_ascending)).
Definition OrderByValueDescending : Order := mkOrder (str "desc(VALUE)") (compare (OrderByFunction entry_value_descending)).

(** ** [mod.rs] *)
Record Query := mkQuery {
  prefix : list Z;
  filters : list Filter;
  orders : list Order;
  limit : Z;
  offset : Z;
  keys_only : bool;
  return_expirations : bool;
  return_sizes : bool;
}.

Definition query_display (q : Query) : list Z :=
  str "SELECT keys" ++
  (if negb (keys_only q) then str ",vals" else []) ++
  (if return_expirations q then str ",exps" else []) ++
  str " " ++
  (if decide (prefix q = []) then [] else str "FROM " ++ prefix q ++ str " ") ++
  match filters q with
  | [] => []
  | fs => str "FILTER [" ++ comma_separated (map filter_display fs) ++ str "] "
  end ++
  match orders q with
  | [] => []
  | os => str "ORDER [" ++ comma_separated (map order_display os) ++ str "] "
  end ++
  (if 0 <? offset q then str "OFFSET " ++ to_decimal (offset q) ++ str " " else []) ++
  (if 0 <? limit q then str "LIMIT " ++ to_decimal (limit q) ++ str " " else []).

Example query_display_example :
  query_display (mkQuery (str "/blocks") [ByKey (mkKeyCompare (str "/a") GreaterThan); ByValue (mkValueCompare [1; 20] Equal)]
    [OrderByKey; OrderByValueDescending] 10 0 true false true)
  = str "SELECT keys FROM /blocks FILTER [KEY > /a, VALUE == [1, 20]] ORDER [KEY, desc(VALUE)] LIMIT 10 ".
Proof. vm_compute. reflexivity. Qed.

(** ** What the operators mean

    One comparison decides all six. *)
Definition passes (c : comparison) (o : FilterOp) : bool :=
  match o, c with
  | Equal, Eq | NotEqual, Lt | NotEqual, Gt | GreaterThan, Gt | GreaterThanEqual, Gt | GreaterThanEqual, Eq
  | LessThan, Lt | LessThanEqual, Lt | LessThanEqual, Eq => true
  | _, _ => false
  end.

Lemma value_filter_passes v o e : value_compare_filter (mkValueCompare v o) e = passes (bytes_cmp (value e) v) o.
Proof. unfold value_compare_filter. cbn. by destruct o, (bytes_cmp (value e) v). Qed.

Lemma key_cmp_eq a b : wf a -> wf b -> key_cmp a b = Eq <-> a = b.
Proof.
  intros (l & Hl & ->) (m & Hm & ->). unfold key_cmp. rewrite !namespaces_render by done. rewrite list_cmp_eq.
  split; [by intros ->|by apply render_inj].
Qed.

Lemma key_filter_passes k o e :
  wf k -> wf (key e) -> key_compare_filter (mkKeyCompare k o) e = passes (key_cmp (key e) k) o.
Proof.
  intros Hk He. pose proof (key_cmp_eq (key e) k He Hk) as Heq. unfold key_compare_filter. cbn [fk_op fk_key].
  destruct (key_cmp (key e) k), o; cbn; try done;
    (rewrite bool_decide_true by (by apply Heq)) || (rewrite bool_decide_false by (by intros Hx%Heq)); done.
Qed.

(** ** Prefixes *)
Lemma starts_with_iff p s : starts_with p s = true <-> exists t, s = p ++ t.
Proof.
  unfold starts_with. split.
  - destruct (strip_prefix p s) as [t|] eqn:Hs; [|done]. intros _. exists t. by apply strip_prefix_some.
  - intros [t ->]. by rewrite strip_prefix_app.
Qed.

Lemma starts_with_slash_iff k d :
  starts_with (k ++ [SLASH]) d = true <->
  (length k < length d)%nat /\ take (length k) d = k /\ d !! length k = Some SLASH.
Proof.
  rewrite starts_with_iff. split.
  - intros [t ->]. rewrite <- app_assoc. cbn. rewrite length_app. cbn. split; [lia|].
    rewrite take_app_length, list_lookup_middle by done. done.
  - intros (Hl & Ht & Hs). exists (drop (S (length k)) d). rewrite <- app_assoc. cbn.
    rewrite <- (take_drop (length k) d) at 1. rewrite Ht. f_equal. by apply drop_S.
Qed.

End Query.
Export Query.

(** ** The properties *)

(** The comparison operators of the key and value filters are those of one
    order each: an entry passes [==], [!=], [>], [>=], [<] or [<=] according to
    how its key (in the order of namespaces) or its value (in the order of bytes)
    compares, for keys in normal form.  A prefix filter compares texts, so with
    the prefix of a key it passes that key and any key that continues its last
    namespace, whereas with a slash added it passes exactly the key's
    descendants, what the documentation says of a query's prefix. *)
Theorem filters_select (k : list Z) (e : Entry) (o : FilterOp) (v x : list Z) :
  wf k -> wf (key e) ->
  filter (ByKey (mkKeyCompare k o)) e = passes (key_cmp (key e) k) o /\
  filter (ByValue (mkValueCompare v o)) e = passes (bytes_cmp (value e) v) o /\
  (k <> [SLASH] -> filter (ByPrefix (mkKeyPrefix (k ++ [SLASH]))) e = is_ancestor_of k (key e)) /\
  (key e = k ++ x -> filter (ByPrefix (mkKeyPrefix k)) e = true).
Proof.
  intros Hk He. split; [by apply key_filter_passes|]. split; [apply value_filter_passes|]. split.
  - intros Hroot. cbn. unfold key_prefix_filter. cbn [fp_prefix]. apply eq_true_iff_eq. rewrite starts_with_slash_iff.
    unfold is_ancestor_of, is_root. rewrite (bool_decide_false (k = [SLASH])) by done.
    destruct (decide _) as [|Hlt].
    + split; [intros (? & _); lia|done].
    + rewrite andb_true_iff, !bool_decide_eq_true. split; [by intros (_ & ? & ?)|]. intros [? ?]. split; [lia|done].
  - intros Hx. apply starts_with_iff. by exists x.
Qed.

(** The entry of the documentation's example: [/foobar] passes the filter of
    [/foo] but not that of [/foo/]. *)
Lemma filters_select_witness :
  let e := mkEntry (str "/foobar") [7] 0 1 in
  filter (ByPrefix (mkKeyPrefix (str "/foo" ++ [SLASH]))) e = false /\ filter (ByPrefix (mkKeyPrefix (str "/foo"))) e = true.
Proof.
  intros e. destruct (filters_select (str "/foo") e LessThan [] (str "bar")) as (_ & _ & Ha & Hb).
  - exact (key_new_wf (str "/foo")).
  - exact (key_new_wf (str "/foobar")).
  - split; [rewrite Ha by done; reflexivity|apply Hb; reflexivity].
Defined.

(** The four orders sort consistently: comparing the other way round gives the
    opposite answer, less-than is transitive, the descending orders are the
    ascending ones reversed, and entries with keys in normal form compare as equal
    by key only when they have the same key. *)
Theorem orders_total (o : Order) (a b c : Entry) :
  wf (key a) -> wf (key b) -> wf (key c) ->
  In o [OrderByKey; OrderByKeyDescending; OrderByValue; OrderByValueDescending] ->
  compare o b a = CompOpp (compare o a b) /\
  (compare o a b = Lt -> compare o b c = Lt -> compare o a c = Lt) /\
  compare OrderByKeyDescending a b = compare OrderByKey b a /\
  compare OrderByValueDescending a b = compare OrderByValue b a /\
  (compare OrderByKey a b = Eq <-> key a = key b).
Proof.
  intros Ha Hb Hc Ho. split; [|split; [|split; [|split]]].
  - destruct Ho as [<-|[<-|[<-|[<-|[]]]]]; (apply list_cmp_antisym || apply bytes_cmp_antisym).
  - destruct Ho as [<-|[<-|[<-|[<-|[]]]]]; cbn.
    + apply list_cmp_trans.
    + intros H1 H2. by eapply list_cmp_trans.
    + apply bytes_cmp_trans.
    + intros H1 H2. by eapply bytes_cmp_trans.
  - done.
  - done.
  - by apply key_cmp_eq.
Qed.

Lemma orders_total_witness :
  compare OrderByKey (mkEntry (str "/b") [1] 0 1) (mkEntry (str "/a/z") [2] 0 1)
  = CompOpp (compare OrderByKey (mkEntry (str "/a/z") [2] 0 1) (mkEntry (str "/b") [1] 0 1)).
Proof.
  apply (orders_total OrderByKey (mkEntry (str "/a/z") [2] 0 1) (mkEntry (str "/b") [1] 0 1)
    (mkEntry (str "/b") [1] 0 1)).
  - exact (key_new_wf (str "/a/z")).
  - exact (key_new_wf (str "/b")).
  - exact (key_new_wf (str "/b")).
  - by left.
Defined.
