(* ===== verification/DataStore.v ===== *)
(** * [ipfs/datastore]: the store interface and the basic stores

    The traits of store/mod.rs as classes: a store is a value of a type [H]
    (what [self] holds) used in a world of type [W] (log lines, waits, the
    cells behind an [Arc]).  A method on [&mut self] returns the result and the
    store and world it leaves behind, whether it succeeded or not.

    [StoreSpec] is the contract of the interface: a store is a finite map from
    keys to values.  Clients are proved against it; the stores below and in
    StoreWrappers.v discharge it. *)

From Stdlib Require Import ZArith Lia String.
From stdpp Require Import base numbers gmap list.
From S2P Require Import Prelude Decimal Key.

Local Open Scope Z_scope.

Abbreviation key := (list Z).
Abbreviation bytes := (list Z).

Inductive DataStoreError :=
| NotFound (k : key)
| Custom (msg : list Z).

Abbreviation res := (outcome DataStoreError).

(** ** The traits *)
Class DataStore (W H : Type) := {
  ds_get : H -> key -> W -> res bytes * W;
  ds_has : H -> key -> W -> res bool * W;
  ds_size : H -> key -> W -> res Z * W;
  ds_put : H -> key -> bytes -> W -> res unit * H * W;
  ds_delete : H -> key -> W -> res unit * H * W;
  ds_sync : H -> key -> W -> res unit * H * W;
  ds_close : H -> W -> res unit * H * W;
}.

(** [BatchDataStore] and [TxnDataStore]. *)
Class BatchStore (W H : Type) := {
  batch_store :: DataStore W H;
  ds_commit : H -> W -> res unit * H * W;
}.
Class TxnStore (W H : Type) := {
  txn_store :: BatchStore W H;
  ds_discard : H -> W -> res unit * H * W;
}.

(** [Check], [Gc], [Persistent], [Scrub]. *)
Class ExtendedStore (W H : Type) := {
  ds_check : H -> W -> res unit * W;
  ds_collect_garbage : H -> W -> res unit * W;
  ds_disk_usage : H -> W -> res Z * W;
  ds_scrub : H -> W -> res unit * W;
}.

(** ** The contract *)
Definition found (o : option bytes) (r : res bytes) : Prop :=
  match o with Some v => r = Ok v | None => exists k, r = Err (NotFound k) end.
Definition found_size (o : option bytes) (r : res Z) : Prop :=
  match o with Some v => r = Ok (Z.of_nat (length v)) | None => exists k, r = Err (NotFound k) end.

Class StoreSpec (V : key -> Prop) (W H : Type) `{DataStore W H} := {
  inv : H -> W -> Prop;
  stays_open : Prop;  (* the store can be used after [close] *)
  view : H -> W -> key -> option bytes;
  get_spec h k w : inv h w -> V k ->
    exists r w', ds_get h k w = (r, w') /\ found (view h w k) r /\
      inv h w' /\ forall k', V k' -> view h w' k' = view h w k';
  has_spec h k w : inv h w -> V k ->
    exists w', ds_has h k w = (Ok (bool_decide (is_Some (view h w k))), w') /\
      inv h w' /\ forall k', V k' -> view h w' k' = view h w k';
  size_spec h k w : inv h w -> V k ->
    exists r w', ds_size h k w = (r, w') /\ found_size (view h w k) r /\
      inv h w' /\ forall k', V k' -> view h w' k' = view h w k';
  put_spec h k v w : inv h w -> V k ->
    exists h' w', ds_put h k v w = (Ok tt, h', w') /\ inv h' w' /\
      forall k', V k' -> view h' w' k' = if decide (k' = k) then Some v else view h w k';
  delete_spec h k w : inv h w -> V k ->
    exists h' w', ds_delete h k w = (Ok tt, h', w') /\ inv h' w' /\
      forall k', V k' -> view h' w' k' = if decide (k' = k) then None else view h w k';
  sync_spec h k w : inv h w -> V k ->
    exists h' w', ds_sync h k w = (Ok tt, h', w') /\ inv h' w' /\
      forall k', V k' -> view h' w' k' = view h w k';
  close_spec h w : stays_open -> inv h w ->
    exists h' w', ds_close h w = (Ok tt, h', w') /\ inv h' w' /\
      forall k', V k' -> view h' w' k' = view h w k';
}.

(** ** [MapDataStore] *)
Record MapDataStore := mkMap { values : gmap key bytes }.

Definition map_new : MapDataStore := mkMap ∅.

#[export] Instance map_store {W} : DataStore W MapDataStore := {|
  ds_get s k w := (of_option (NotFound k) (values s !! k), w);
  ds_has s k w := (Ok (bool_decide (is_Some (values s !! k))), w);
  ds_size s k w :=
    (v <- of_option (NotFound k) (values s !! k) ;; Ok (Z.of_nat (length v)), w);
  ds_put s k v w := (Ok tt, mkMap (<[k := v]> (values s)), w);
  ds_delete s k w := (Ok tt, mkMap (delete k (values s)), w);
  ds_sync s _ w := (Ok tt, s, w);
  ds_close s w := (Ok tt, s, w);
|}.

#[export] Instance map_spec (V : key -> Prop) {W} : StoreSpec V W MapDataStore.
Proof.
  refine {| inv _ _ := True; stays_open := True; view s _ k := values s !! k |}; cbn.
  - intros s k w _ _. eexists _, _. split; [done|]. split; [|done].
    destruct (values s !! k); cbn; [done|by eexists].
  - intros s k w _ _. by eexists.
  - intros s k w _ _. eexists _, _. split; [done|]. split; [|done].
    destruct (values s !! k); cbn; [done|by eexists].
  - intros s k v w _ _. eexists _, _. split; [done|]. split; [done|]. intros k' _. cbn.
    destruct (decide (k' = k)) as [->|Hne]; [apply lookup_insert_eq|by apply lookup_insert_ne].
  - intros s k w _ _. eexists _, _. split; [done|]. split; [done|]. intros k' _. cbn.
    destruct (decide (k' = k)) as [->|Hne]; [apply lookup_delete_eq|by apply lookup_delete_ne].
  - intros s k w _ _. by eexists _, _.
  - intros s w _ _. by eexists _, _.
Defined.

(** ** [DummyDataStore]: accepts everything and keeps nothing *)
Inductive DummyDataStore := mkDummy.

#[export] Instance dummy_store {W} : DataStore W DummyDataStore := {|
  ds_get _ k w := (Err (NotFound k), w);
  ds_has _ _ w := (Ok false, w);
  ds_size _ _ w := (Ok 0, w);
  ds_put s _ _ w := (Ok tt, s, w);
  ds_delete s _ w := (Ok tt, s, w);
  ds_sync s _ w := (Ok tt, s, w);
  ds_close s w := (Ok tt, s, w);
|}.

#[export] Instance dummy_extended {W} : ExtendedStore W DummyDataStore := {|
  ds_check _ w := (Ok tt, w);
  ds_collect_garbage _ w := (Ok tt, w);
  ds_disk_usage _ w := (Ok 0, w);
  ds_scrub _ w := (Ok tt, w);
|}.

(** ** [BasicBatchDataStore], [BasicTxnDataStore] *)
Inductive Op := Put (v : bytes) | Delete.

Record Basic (DS : Type) := mkBasic { ops : gmap key Op; datastore : DS }.
Arguments mkBasic {DS}.
Arguments ops {DS}.
Arguments datastore {DS}.

Section Basic.
Context {W DS : Type} `{DataStore W DS}.

Definition basic_new (ds : DS) : Basic DS := mkBasic ∅ ds.

(** Reads go to the store below, past the recorded operations. *)
Definition basic_get (b : Basic DS) (k : key) (w : W) : res bytes * W := ds_get (datastore b) k w.
Definition basic_has (b : Basic DS) (k : key) (w : W) : res bool * W := ds_has (datastore b) k w.
Definition basic_size (b : Basic DS) (k : key) (w : W) : res Z * W := ds_size (datastore b) k w.

Definition basic_put (b : Basic DS) (k : key) (v : bytes) (w : W) : res unit * Basic DS * W :=
  (Ok tt, mkBasic (<[k := Put v]> (ops b)) (datastore b), w).
Definition basic_delete (b : Basic DS) (k : key) (w : W) : res unit * Basic DS * W :=
  (Ok tt, mkBasic (<[k := Delete]> (ops b)) (datastore b), w).

Definition apply_op (ds : DS) (k : key) (o : Op) (w : W) : res unit * DS * W :=
  match o with
  | Put v => ds_put ds k v w
  | Delete => ds_delete ds k w
  end.

(** The loop over the operations; [?] leaves it at the first error. *)
Fixpoint apply_ops (l : list (key * Op)) (ds : DS) (w : W) : res unit * DS * W :=
  match l with
  | [] => (Ok tt, ds, w)
  | (k, o) :: l' =>
      let '(r, ds', w') := apply_op ds k o w in
      match r with
      | Ok _ => apply_ops l' ds' w'
      | e => (e, ds', w')
      end
  end.

(** [iter] is the order in which a [HashMap] yields its entries. *)
Definition basic_commit (iter : gmap key Op -> list (key * Op)) (b : Basic DS) (w : W)
  : res unit * Basic DS * W :=
  let '(r, ds', w') := apply_ops (iter (ops b)) (datastore b) w in
  match r with
  | Ok _ => (Ok tt, mkBasic ∅ ds', w')
  | e => (e, mkBasic (ops b) ds', w')
  end.

Definition basic_discard (b : Basic DS) (w : W) : res unit * Basic DS * W :=
  (Ok tt, mkBasic ∅ (datastore b), w).

(** [txn]: the datastore is cloned with the operations. *)
Definition basic_txn (b : Basic DS) : Basic DS := mkBasic (ops b) (datastore b).

(** What the operations make of a view. *)
Definition after_ops (m : gmap key Op) (f : key -> option bytes) (k : key) : option bytes :=
  match m !! k with
  | Some (Put v) => Some v
  | Some Delete => None
  | None => f k
  end.

Context {V : key -> Prop} `{!StoreSpec V W DS}.

Lemma apply_op_spec ds k o w :
  inv ds w -> V k ->
  exists ds' w', apply_op ds k o w = (Ok tt, ds', w') /\ inv ds' w' /\
    forall k', V k' -> view ds' w' k' =
      if decide (k' = k) then match o with Put v => Some v | Delete => None end else view ds w k'.
Proof.
  intros Hi Hk. destruct o as [v|]; cbn.
  - by apply put_spec.
  - by apply delete_spec.
Qed.

Lemma apply_ops_spec l ds w :
  NoDup l.*1 -> Forall V l.*1 -> inv ds w ->
  exists ds' w', apply_ops l ds w = (Ok tt, ds', w') /\ inv ds' w' /\
    forall k', V k' -> view ds' w' k' = after_ops (list_to_map l) (view ds w) k'.
Proof.
  revert ds w. induction l as [|[k o] l IH]; intros ds w Hnd HV Hi; cbn.
  - eexists _, _. split; [done|]. split; [done|]. intros k' _. unfold after_ops. by rewrite lookup_empty.
  - cbn in Hnd, HV. apply NoDup_cons in Hnd as [Hni Hnd]. apply Forall_cons in HV as [HVk HV].
    destruct (apply_op_spec ds k o w Hi HVk) as (ds1 & w1 & -> & Hi1 & Hv1).
    destruct (IH ds1 w1 Hnd HV Hi1) as (ds2 & w2 & -> & Hi2 & Hv2).
    eexists _, _. split; [done|]. split; [done|]. intros k' Hk'. rewrite Hv2 by done.
    unfold after_ops. destruct (decide (k' = k)) as [->|Hne].
    + rewrite (not_elem_of_list_to_map_1 l k Hni). rewrite Hv1 by done.
      rewrite decide_True, lookup_insert_eq by done. done.
    + rewrite lookup_insert_ne by done. destruct (list_to_map l !! k') as [[]|]; [done|done|].
      rewrite Hv1 by done. by rewrite decide_False.
Qed.
Lemma basic_commit_spec (iter : gmap key Op -> list (key * Op)) (b : Basic DS) (w : W) :
  (forall m, iter m ≡ₚ map_to_list m) ->
  inv (datastore b) w -> (forall k, is_Some (ops b !! k) -> V k) ->
  exists ds' w', basic_commit iter b w = (Ok tt, mkBasic ∅ ds', w') /\ inv ds' w' /\
    forall k, V k -> view ds' w' k = after_ops (ops b) (view (datastore b) w) k.
Proof.
  intros Hiter Hi HV. set (l := iter (ops b)).
  assert (Hl : l ≡ₚ map_to_list (ops b)) by apply Hiter.
  assert (Hnd : NoDup l.*1) by (rewrite Hl; apply NoDup_fst_map_to_list).
  assert (Hm : list_to_map l = ops b).
  { symmetry. by apply list_to_map_flip. }
  destruct (apply_ops_spec l (datastore b) w) as (ds' & w' & Ha & Hi' & Hv); [done| |done|].
  { apply Forall_forall. intros k Hk. rewrite Hl in Hk. apply HV.
    apply list_elem_of_fmap in Hk as ([k' o] & -> & Ho). apply elem_of_map_to_list in Ho.
    cbn. by rewrite Ho. }
  exists ds', w'. unfold basic_commit. fold l. rewrite Ha. rewrite Hm in Hv. done.
Qed.
End Basic.

(** ** The properties *)

(** Committing a batch (or a transaction) applies exactly the last operation
    recorded for each key, in whatever order the hash map yields them: keys put
    hold their value, keys deleted are gone, all others are unchanged, and the
    recorded operations are forgotten. *)
Theorem basic_commit_applies {W DS} `{DataStore W DS} (V : key -> Prop) `{!StoreSpec V W DS}
    (iter : gmap key Op -> list (key * Op)) (b : Basic DS) (w : W) :
  (forall m, iter m ≡ₚ map_to_list m) ->
  inv (datastore b) w -> (forall k, is_Some (ops b !! k) -> V k) ->
  exists ds' w', basic_commit iter b w = (Ok tt, mkBasic ∅ ds', w') /\ inv ds' w' /\
    forall k, V k -> view ds' w' k = after_ops (ops b) (view (datastore b) w) k.
Proof. apply basic_commit_spec. Qed.

Lemma basic_commit_applies_witness :
  let b := mkBasic {[ str "/a" := Put [1]; str "/b" := Delete ]} (mkMap {[ str "/b" := [2]; str "/c" := [3] ]}) in
  exists ds' w', basic_commit map_to_list b tt = (Ok tt, mkBasic ∅ ds', w') /\ inv (V := fun _ => True) ds' w' /\
    forall k, True -> view (V := fun _ => True) ds' w' k
      = after_ops (ops b) (view (V := fun _ => True) (datastore b) tt) k.
Proof.
  intros b. apply (basic_commit_applies (fun _ => True) map_to_list b tt); done.
Defined.

(** Pending operations are invisible to the batch's own reads until the
    commit, [discard] forgets them without touching the store, and an error
    during the commit leaves every recorded operation in place. *)
Theorem basic_pending {W DS} `{DataStore W DS} (iter : gmap key Op -> list (key * Op))
    (b : Basic DS) (k k' : key) (v : bytes) (w : W) :
  basic_get (basic_put b k v w).1.2 k' w = ds_get (datastore b) k' w /\
  basic_has (basic_delete b k w).1.2 k' w = ds_has (datastore b) k' w /\
  datastore (basic_discard b w).1.2 = datastore b /\ ops (basic_discard b w).1.2 = ∅ /\
  (forall e ds' w', apply_ops (iter (ops b)) (datastore b) w = (Err e, ds', w') ->
     basic_commit iter b w = (Err e, mkBasic (ops b) ds', w')).
Proof. repeat split; try done. intros e ds' w' He. unfold basic_commit. by rewrite He. Qed.

(** A transaction works on a clone of the datastore: for a store that is a
    plain value, such as [MapDataStore], what it commits is never seen by the
    batch the transaction came from. *)
Theorem basic_txn_on_map_is_private (iter : gmap key Op -> list (key * Op)) (m : gmap key bytes)
    (k : key) (v : bytes) (w : unit) :
  (forall o, iter o ≡ₚ map_to_list o) -> m !! k = None ->
  let b := basic_new (mkMap m) in
  let t := (basic_put (basic_txn b) k v w).1.2 in
  let t' := (basic_commit iter t w).1.2 in
  (basic_get t' k w).1 = Ok v /\ (basic_get b k w).1 = Err (NotFound k).
Proof.
  intros Hiter Hk b t t'. split.
  - assert (Hl : iter {[k := Put v]} = [(k, Put v)]).
    { apply Permutation_singleton_r. rewrite Hiter. by rewrite map_to_list_singleton. }
    unfold t', basic_commit, t, basic_put. cbn. rewrite insert_empty, Hl. cbn.
    by rewrite lookup_insert_eq.
  - cbn. by rewrite Hk.
Qed.

Lemma basic_txn_on_map_is_private_witness :
  let b := basic_new (mkMap ∅) in
  let t := (basic_put (basic_txn b) (str "/a") [1] tt).1.2 in
  let t' := (basic_commit map_to_list t tt).1.2 in
  (basic_get t' (str "/a") tt).1 = Ok [1] /\ (basic_get b (str "/a") tt).1 = Err (NotFound (str "/a")).
Proof. apply (basic_txn_on_map_is_private map_to_list ∅ (str "/a") [1] tt); done. Defined.
