(* ===== verification/StoreWrappers.v ===== *)
(** * [ipfs/datastore/src/impls]: the store wrappers, and [ipfs/datastore-memory]

    Each wrapper is an instance of the store classes over any inner store;
    where the wrapper keeps the contract it is also an instance of [StoreSpec]
    built from the inner store's. *)

From Stdlib Require Import ZArith Lia String.
From stdpp Require Import base numbers gmap list.
From S2P Require Import Prelude Decimal Key DataStore.

Local Open Scope Z_scope.

(** ** The world of log lines and waits *)
Inductive event := Info (line : list Z) | Wait.
Class Effects (W : Type) := emit : event -> W -> W.

(** An effect does not disturb what the store below holds. *)
Class EffectsFrame (V : key -> Prop) (W DS : Type) `{Effects W} `{DataStore W DS} `{!StoreSpec V W DS} : Prop := {
  emit_inv e ds w : inv ds w -> inv ds (emit e w);
  emit_view e ds w k : inv ds w -> V k -> view ds (emit e w) k = view ds w k;
}.

#[export] Instance trace_effects : Effects (list event) := fun e w => w ++ [e].

#[export] Instance map_frame V `{Effects W} : EffectsFrame V W MapDataStore.
Proof. by split. Qed.

(** ** transform.rs *)
Class KeyTransform (T : Type) := {
  convert_key : T -> key -> res key;
  invert_key : T -> key -> res key;
}.

(** [KeyTransformPair]: two closures that return keys. *)
Record KeyTransformPair := mkPair { convert : key -> key; invert : key -> key }.
#[export] Instance pair_transform : KeyTransform KeyTransformPair := {|
  convert_key t k := Ok (convert t k);
  invert_key t k := Ok (invert t k);
|}.

Record PrefixTransform := mkPrefix { prefix : key }.
#[export] Instance prefix_transform `{Key.PathClean} : KeyTransform PrefixTransform := {|
  convert_key t k := Key.child (prefix t) k;
  invert_key t k :=
    if Key.is_root (prefix t) then Ok k
    else if Key.is_ancestor_of (prefix t) k
         then Key.new_unchecked (drop (length (prefix t)) k)
         else Panic;
|}.

Record Transform (T DS : Type) := mkTransform { transform : T; tr_datastore : DS }.
Arguments mkTransform {T DS}.
Arguments transform {T DS}.
Arguments tr_datastore {T DS}.

(** Run a read or a write of the store below, unless the key conversion panics. *)
Definition with_key {A W} (r : res key) (w : W) (f : key -> res A * W) : res A * W :=
  match r with Ok k => f k | Err e => (Err e, w) | Panic => (Panic, w) | OutOfFuel => (OutOfFuel, w) end.
Definition with_key_mut {W T DS} (t : Transform T DS) (r : res key) (w : W)
    (f : key -> res unit * DS * W) : res unit * Transform T DS * W :=
  match r with
  | Ok k => let '(r, ds, w) := f k in (r, mkTransform (transform t) ds, w)
  | Err e => (Err e, t, w) | Panic => (Panic, t, w) | OutOfFuel => (OutOfFuel, t, w)
  end.
Definition below {W T DS} (t : Transform T DS) (x : res unit * DS * W) : res unit * Transform T DS * W :=
  let '(r, ds, w) := x in (r, mkTransform (transform t) ds, w).

#[export] Instance transform_store `{KeyTransform T} `{DataStore W DS} : DataStore W (Transform T DS) := {|
  ds_get t k w := with_key (convert_key (transform t) k) w (fun k => ds_get (tr_datastore t) k w);
  ds_has t k w := with_key (convert_key (transform t) k) w (fun k => ds_has (tr_datastore t) k w);
  ds_size t k w := with_key (convert_key (transform t) k) w (fun k => ds_size (tr_datastore t) k w);
  ds_put t k v w :=
    with_key_mut t (convert_key (transform t) k) w (fun k => ds_put (tr_datastore t) k v w);
  ds_delete t k w :=
    with_key_mut t (convert_key (transform t) k) w (fun k => ds_delete (tr_datastore t) k w);
  ds_sync t k w :=
    with_key_mut t (convert_key (transform t) k) w (fun k => ds_sync (tr_datastore t) k w);
  ds_close t w := below t (ds_close (tr_datastore t) w);
|}.

#[export] Instance transform_extended `{KeyTransform T} `{ExtendedStore W DS}
  : ExtendedStore W (Transform T DS) := {|
  ds_check t w := ds_check (tr_datastore t) w;
  ds_collect_garbage t w := ds_collect_garbage (tr_datastore t) w;
  ds_disk_usage t w := ds_disk_usage (tr_datastore t) w;
  ds_scrub t w := ds_scrub (tr_datastore t) w;
|}.

(** [TransformBatchDataStore] and [TransformTxnDataStore]: the same record and
    methods over a batch or transaction store, with [commit] and [discard]. *)
#[export] Instance transform_batch `{KeyTransform T} `{BatchStore W DS} : BatchStore W (Transform T DS) := {|
  batch_store := transform_store;
  ds_commit t w := below t (ds_commit (tr_datastore t) w);
|}.
#[export] Instance transform_txn `{KeyTransform T} `{TxnStore W DS} : TxnStore W (Transform T DS) := {|
  txn_store := transform_batch;
  ds_discard t w := below t (ds_discard (tr_datastore t) w);
|}.

(** ** fail.rs *)
Abbreviation fail_function := (string -> res unit).

(** [(self.fail_fn)(label)?] in front of a read and of a write. *)
Definition guard {A W} (r : res unit) (w : W) (f : res A * W) : res A * W :=
  match r with Ok _ => f | Err e => (Err e, w) | Panic => (Panic, w) | OutOfFuel => (OutOfFuel, w) end.
Definition guard_mut {F DS W} (mk : DS -> F) (s : F) (r : res unit) (w : W) (f : res unit * DS * W)
  : res unit * F * W :=
  match r with
  | Ok _ => let '(r, ds, w) := f in (r, mk ds, w)
  | Err e => (Err e, s, w) | Panic => (Panic, s, w) | OutOfFuel => (OutOfFuel, s, w)
  end.

Record FailDataStore (DS : Type) := mkFail { fail_fn : fail_function; fail_store_of : DS }.
Arguments mkFail {DS}.
Arguments fail_fn {DS}.
Arguments fail_store_of {DS}.

(** [get] asks the fail function about ["put"]. *)
#[export] Instance fail_store `{DataStore W DS} : DataStore W (FailDataStore DS) := {|
  ds_get s k w := guard (fail_fn s "put") w (ds_get (fail_store_of s) k w);
  ds_has s k w := guard (fail_fn s "has") w (ds_has (fail_store_of s) k w);
  ds_size s k w := guard (fail_fn s "size") w (ds_size (fail_store_of s) k w);
  ds_put s k v w := guard_mut (mkFail (fail_fn s)) s (fail_fn s "put") w (ds_put (fail_store_of s) k v w);
  ds_delete s k w := guard_mut (mkFail (fail_fn s)) s (fail_fn s "delete") w (ds_delete (fail_store_of s) k w);
  ds_sync s k w := guard_mut (mkFail (fail_fn s)) s (fail_fn s "sync") w (ds_sync (fail_store_of s) k w);
  ds_close s w := guard_mut (mkFail (fail_fn s)) s (Ok tt) w (ds_close (fail_store_of s) w);
|}.

#[export] Instance fail_extended `{ExtendedStore W DS} : ExtendedStore W (FailDataStore DS) := {|
  ds_check s w := guard (fail_fn s "check") w (ds_check (fail_store_of s) w);
  ds_collect_garbage s w := guard (fail_fn s "collect-garbage") w (ds_collect_garbage (fail_store_of s) w);
  ds_disk_usage s w := guard (fail_fn s "disk-usage") w (ds_disk_usage (fail_store_of s) w);
  ds_scrub s w := guard (fail_fn s "scrub") w (ds_scrub (fail_store_of s) w);
|}.

Record FailBatchDataStore (DS : Type) := mkFailBatch { failb_fn : fail_function; failb_store : DS }.
Arguments mkFailBatch {DS}.
Arguments failb_fn {DS}.
Arguments failb_store {DS}.

#[export] Instance fail_batch `{BatchStore W DS} : BatchStore W (FailBatchDataStore DS) := {|
  batch_store := {|
    ds_get s k w := guard (failb_fn s "batch-put") w (ds_get (failb_store s) k w);
    ds_has s k w := guard (failb_fn s "batch-has") w (ds_has (failb_store s) k w);
    ds_size s k w := guard (failb_fn s "batch-size") w (ds_size (failb_store s) k w);
    ds_put s k v w := guard_mut (mkFailBatch (failb_fn s)) s (failb_fn s "batch-put") w (ds_put (failb_store s) k v w);
    ds_delete s k w := guard_mut (mkFailBatch (failb_fn s)) s (failb_fn s "batch-delete") w (ds_delete (failb_store s) k w);
    ds_sync s k w := guard_mut (mkFailBatch (failb_fn s)) s (failb_fn s "batch-sync") w (ds_sync (failb_store s) k w);
    ds_close s w := guard_mut (mkFailBatch (failb_fn s)) s (Ok tt) w (ds_close (failb_store s) w);
  |};
  ds_commit s w := guard_mut (mkFailBatch (failb_fn s)) s (failb_fn s "batch-commit") w (ds_commit (failb_store s) w);
|}.

Record FailTxnDataStore (DS : Type) := mkFailTxn { failt_fn : fail_function; failt_store : DS }.
Arguments mkFailTxn {DS}.
Arguments failt_fn {DS}.
Arguments failt_store {DS}.

#[export] Instance fail_txn `{TxnStore W DS} : TxnStore W (FailTxnDataStore DS) := {|
  txn_store := {|
    batch_store := {|
      ds_get s k w := guard (failt_fn s "txn-put") w (ds_get (failt_store s) k w);
      ds_has s k w := guard (failt_fn s "txn-has") w (ds_has (failt_store s) k w);
      ds_size s k w := guard (failt_fn s "txn-size") w (ds_size (failt_store s) k w);
      ds_put s k v w := guard_mut (mkFailTxn (failt_fn s)) s (failt_fn s "txn-put") w (ds_put (failt_store s) k v w);
      ds_delete s k w := guard_mut (mkFailTxn (failt_fn s)) s (failt_fn s "txn-delete") w (ds_delete (failt_store s) k w);
      ds_sync s k w := guard_mut (mkFailTxn (failt_fn s)) s (failt_fn s "txn-sync") w (ds_sync (failt_store s) k w);
      ds_close s w := guard_mut (mkFailTxn (failt_fn s)) s (Ok tt) w (ds_close (failt_store s) w);
    |};
    ds_commit s w := guard_mut (mkFailTxn (failt_fn s)) s (failt_fn s "txn-commit") w (ds_commit (failt_store s) w);
  |};
  ds_discard s w := guard_mut (mkFailTxn (failt_fn s)) s (failt_fn s "txn-discard") w (ds_discard (failt_store s) w);
|}.

(** ** delay.rs *)
Record DelayDataStore (DS : Type) := mkDelay { delay_store_of : DS }.
Arguments mkDelay {DS}.
Arguments delay_store_of {DS}.

Definition lift {F DS W} (mk : DS -> F) (x : res unit * DS * W) : res unit * F * W :=
  let '(r, ds, w) := x in (r, mk ds, w).

(** [self.delay.wait()] before every operation but [close]. *)
#[export] Instance delay_store `{Effects W} `{DataStore W DS} : DataStore W (DelayDataStore DS) := {|
  ds_get s k w := ds_get (delay_store_of s) k (emit Wait w);
  ds_has s k w := ds_has (delay_store_of s) k (emit Wait w);
  ds_size s k w := ds_size (delay_store_of s) k (emit Wait w);
  ds_put s k v w := lift mkDelay (ds_put (delay_store_of s) k v (emit Wait w));
  ds_delete s k w := lift mkDelay (ds_delete (delay_store_of s) k (emit Wait w));
  ds_sync s k w := lift mkDelay (ds_sync (delay_store_of s) k (emit Wait w));
  ds_close s w := lift mkDelay (ds_close (delay_store_of s) w);
|}.

(** [batch] and [txn]: a basic batch over a clone of the delayed store. *)
Definition delay_batch {DS} (s : DelayDataStore DS) : Basic (DelayDataStore DS) := basic_new s.

(** ** log.rs *)
Record LogDataStore (DS : Type) := mkLog { log_name : list Z; log_store_of : DS }.
Arguments mkLog {DS}.
Arguments log_name {DS}.
Arguments log_store_of {DS}.

(** [{:?}] of a [Vec<u8>]: ["[1, 2, 3]"]. *)
Fixpoint debug_items (l : list Z) : list Z :=
  match l with
  | [] => []
  | [x] => to_decimal x
  | x :: l' => to_decimal x ++ str ", " ++ debug_items l'
  end.
Definition debug_vec (v : list Z) : list Z := str "[" ++ debug_items v ++ str "]".

(** [info!("{}: what {}", self.name, args)]. *)
Definition log_line `{Effects W} (name : list Z) (what : string) (args : list Z) (w : W) : W :=
  emit (Info (name ++ str ": " ++ str what ++ args)) w.

#[export] Instance log_store `{Effects W} `{DataStore W DS} : DataStore W (LogDataStore DS) := {|
  ds_get s k w := ds_get (log_store_of s) k (log_line (log_name s) "get " k w);
  ds_has s k w := ds_has (log_store_of s) k (log_line (log_name s) "has " k w);
  ds_size s k w := ds_size (log_store_of s) k (log_line (log_name s) "size " k w);
  ds_put s k v w :=
    lift (mkLog (log_name s))
      (ds_put (log_store_of s) k v (log_line (log_name s) "put " (k ++ str " - " ++ debug_vec v) w));
  ds_delete s k w := lift (mkLog (log_name s)) (ds_delete (log_store_of s) k (log_line (log_name s) "delete " k w));
  ds_sync s k w := lift (mkLog (log_name s)) (ds_sync (log_store_of s) k (log_line (log_name s) "sync " k w));
  ds_close s w := lift (mkLog (log_name s)) (ds_close (log_store_of s) (log_line (log_name s) "close" [] w));
|}.

#[export] Instance log_extended `{Effects W} `{ExtendedStore W DS} : ExtendedStore W (LogDataStore DS) := {|
  ds_check s w := ds_check (log_store_of s) (log_line (log_name s) "check" [] w);
  ds_collect_garbage s w := ds_collect_garbage (log_store_of s) (log_line (log_name s) "collect_garbage" [] w);
  ds_disk_usage s w := ds_disk_usage (log_store_of s) (log_line (log_name s) "disk_usage" [] w);
  ds_scrub s w := ds_scrub (log_store_of s) (log_line (log_name s) "scrub" [] w);
|}.


Record LogBatchDataStore (DS : Type) := mkLogBatch { logb_name : list Z; logb_store : DS }.
Arguments mkLogBatch {DS}.
Arguments logb_name {DS}.
Arguments logb_store {DS}.

(** [commit] and [discard] log a line and call themselves again, not the store
    below: [stack] is the number of calls the stack has room for. *)
Fixpoint log_forever `{Effects W} {S} (stack : nat) (name : list Z) (what : string) (s : S) (w : W) : res unit * S * W :=
  match stack with
  | O => (OutOfFuel, s, w)
  | S stack => log_forever stack name what s (log_line name what [] w)
  end.

Definition log_batch `{Effects W} `{BatchStore W DS} (stack : nat) : BatchStore W (LogBatchDataStore DS) := {|
  batch_store := {|
    ds_get s k w := ds_get (logb_store s) k (log_line (logb_name s) "batch get " k w);
    ds_has s k w := ds_has (logb_store s) k (log_line (logb_name s) "batch has " k w);
    ds_size s k w := ds_size (logb_store s) k (log_line (logb_name s) "batch size " k w);
    ds_put s k v w :=
      lift (mkLogBatch (logb_name s))
        (ds_put (logb_store s) k v (log_line (logb_name s) "batch put " (k ++ str " - " ++ debug_vec v) w));
    ds_delete s k w := lift (mkLogBatch (logb_name s)) (ds_delete (logb_store s) k (log_line (logb_name s) "batch delete " k w));
    ds_sync s k w := lift (mkLogBatch (logb_name s)) (ds_sync (logb_store s) k (log_line (logb_name s) "batch sync " k w));
    ds_close s w := lift (mkLogBatch (logb_name s)) (ds_close (logb_store s) (log_line (logb_name s) "batch close" [] w));
  |};
  ds_commit s w := log_forever stack (logb_name s) "batch commit" s w;
|}.

Record LogTxnDataStore (DS : Type) := mkLogTxn { logt_name : list Z; logt_store : DS }.
Arguments mkLogTxn {DS}.
Arguments logt_name {DS}.
Arguments logt_store {DS}.

Definition log_txn `{Effects W} `{TxnStore W DS} (stack : nat) : TxnStore W (LogTxnDataStore DS) := {|
  txn_store := {|
    batch_store := {|
      ds_get s k w := ds_get (logt_store s) k (log_line (logt_name s) "txn get " k w);
      ds_has s k w := ds_has (logt_store s) k (log_line (logt_name s) "txn has " k w);
      ds_size s k w := ds_size (logt_store s) k (log_line (logt_name s) "txn size " k w);
      ds_put s k v w :=
        lift (mkLogTxn (logt_name s))
          (ds_put (logt_store s) k v (log_line (logt_name s) "txn put " (k ++ str " - " ++ debug_vec v) w));
      ds_delete s k w := lift (mkLogTxn (logt_name s)) (ds_delete (logt_store s) k (log_line (logt_name s) "txn delete " k w));
      ds_sync s k w := lift (mkLogTxn (logt_name s)) (ds_sync (logt_store s) k (log_line (logt_name s) "txn sync " k w));
      ds_close s w := lift (mkLogTxn (logt_name s)) (ds_close (logt_store s) (log_line (logt_name s) "txn close" [] w));
    |};
    ds_commit s w := log_forever stack (logt_name s) "txn commit" s w;
  |};
  ds_discard s w := log_forever stack (logt_name s) "txn discard" s w;
|}.

(** ** sync.rs: a cell behind an [Arc<RwLock<_>>]

    The world holds the cells; a store is the index of its cell, so a clone of
    it is the same cell.  Every operation runs while it holds the lock, that is,
    as one step on the cell. *)
Record heap (W DS : Type) := mkHeap { cells : list DS; base : W }.
Arguments mkHeap {W DS}.
Arguments cells {W DS}.
Arguments base {W DS}.

Record SyncDataStore (DS : Type) := mkSync { cell : nat }.
Arguments mkSync {DS}.
Arguments cell {DS}.

#[export] Instance heap_effects `{Effects W} {DS} : Effects (heap W DS) :=
  fun e h => mkHeap (cells h) (emit e (base h)).

(** [SyncDataStore::new]. *)
Definition sync_new {W DS} (ds : DS) (h : heap W DS) : SyncDataStore DS * heap W DS :=
  (mkSync (length (cells h)), mkHeap (cells h ++ [ds]) (base h)).

(** [self.datastore.read()] and [self.datastore.write()]: the cell of a live
    handle exists. *)
Definition read_cell {A W DS} (s : SyncDataStore DS) (h : heap W DS) (f : DS -> W -> res A * W)
  : res A * heap W DS :=
  match cells h !! cell s with
  | Some ds => let '(r, w) := f ds (base h) in (r, mkHeap (cells h) w)
  | None => (Panic, h)
  end.
Definition write_cell {W DS} (s : SyncDataStore DS) (h : heap W DS) (f : DS -> W -> res unit * DS * W)
  : res unit * SyncDataStore DS * heap W DS :=
  match cells h !! cell s with
  | Some ds => let '(r, ds', w) := f ds (base h) in (r, s, mkHeap (<[cell s := ds']> (cells h)) w)
  | None => (Panic, s, h)
  end.

#[export] Instance sync_store `{DataStore W DS} : DataStore (heap W DS) (SyncDataStore DS) := {|
  ds_get s k h := read_cell s h (fun ds => ds_get ds k);
  ds_has s k h := read_cell s h (fun ds => ds_has ds k);
  ds_size s k h := read_cell s h (fun ds => ds_size ds k);
  ds_put s k v h := write_cell s h (fun ds => ds_put ds k v);
  ds_delete s k h := write_cell s h (fun ds => ds_delete ds k);
  ds_sync s k h := write_cell s h (fun ds => ds_sync ds k);
  ds_close s h := write_cell s h (fun ds => ds_close ds);
|}.

#[export] Instance sync_extended `{ExtendedStore W DS} : ExtendedStore (heap W DS) (SyncDataStore DS) := {|
  ds_check s h := read_cell s h ds_check;
  ds_collect_garbage s h := read_cell s h ds_collect_garbage;
  ds_disk_usage s h := read_cell s h ds_disk_usage;
  ds_scrub s h := read_cell s h ds_scrub;
|}.

(** [SyncBatchDataStore], [SyncTxnDataStore]: the same cell. *)
#[export] Instance sync_batch `{BatchStore W DS} : BatchStore (heap W DS) (SyncDataStore DS) := {|
  batch_store := sync_store;
  ds_commit s h := write_cell s h ds_commit;
|}.
#[export] Instance sync_txn `{TxnStore W DS} : TxnStore (heap W DS) (SyncDataStore DS) := {|
  txn_store := sync_batch;
  ds_discard s h := write_cell s h ds_discard;
|}.

(** ** datastore-memory: a [MapDataStore] behind a [SyncDataStore] *)
Record MemoryDataStore := mkMemory { mem_datastore : SyncDataStore MapDataStore }.

#[export] Instance memory_store {W} : DataStore (heap W MapDataStore) MemoryDataStore := {|
  ds_get s := ds_get (mem_datastore s);
  ds_has s := ds_has (mem_datastore s);
  ds_size s := ds_size (mem_datastore s);
  ds_put s k v h := lift mkMemory (ds_put (mem_datastore s) k v h);
  ds_delete s k h := lift mkMemory (ds_delete (mem_datastore s) k h);
  ds_sync s k h := lift mkMemory (ds_sync (mem_datastore s) k h);
  ds_close s h := lift mkMemory (ds_close (mem_datastore s) h);
|}.

(** ** The contract, wrapper by wrapper *)
Section TransformSpec.
Context `{KeyTransform T} `{DataStore W DS} (V V' : key -> Prop) `{!StoreSpec V' W DS}.
Context (good : T -> Prop).

(** The conversion is total and injective on the keys in use. *)
Class TransformOk : Prop := {
  convert_total t k : good t -> V k -> exists k', convert_key t k = Ok k' /\ V' k';
  convert_inj t k1 k2 k' : good t -> V k1 -> V k2 ->
    convert_key t k1 = Ok k' -> convert_key t k2 = Ok k' -> k1 = k2;
}.
Context `{!TransformOk}.

Definition transform_view (t : Transform T DS) (w : W) (k : key) : option bytes :=
  match convert_key (transform t) k with Ok k' => view (tr_datastore t) w k' | _ => None end.

Local Ltac converted k :=
  match goal with Hg : good ?t, Hk : V k |- _ =>
    let k' := fresh "k'" in let Hc := fresh "Hc" in let Hk' := fresh "Hk'" in
    destruct (convert_total t k Hg Hk) as (k' & Hc & Hk'); rewrite Hc; cbn
  end.
Local Ltac same_view :=
  repeat eexists; try eassumption;
  let k2 := fresh "k" in let Hk2 := fresh "Hk" in intros k2 Hk2; cbn; converted k2; auto.
Local Ltac one_key :=
  repeat eexists; try eassumption;
  let k2 := fresh "k" in let Hk2 := fresh "Hk" in intros k2 Hk2; cbn; converted k2;
  match goal with Hv : forall k', V' k' -> view _ _ k' = _ |- _ => rewrite Hv by assumption end;
  repeat case_decide; try reflexivity; exfalso; subst; eauto using convert_inj; congruence.

#[export] Instance transform_spec : StoreSpec V W (Transform T DS).
Proof.
  refine {| inv t w := good (transform t) /\ inv (tr_datastore t) w;
            stays_open := stays_open (H := DS); view := transform_view |};
    unfold transform_view; cbn; intros [t ds]; cbn.
  - intros k w [Hg Hi] Hk. converted k.
    destruct (get_spec ds k' w Hi Hk') as (r & w' & -> & Hf & Hi' & Hv). same_view.
  - intros k w [Hg Hi] Hk. converted k.
    destruct (has_spec ds k' w Hi Hk') as (w' & -> & Hi' & Hv). same_view.
  - intros k w [Hg Hi] Hk. converted k.
    destruct (size_spec ds k' w Hi Hk') as (r & w' & -> & Hf & Hi' & Hv). same_view.
  - intros k v w [Hg Hi] Hk. converted k.
    destruct (put_spec ds k' v w Hi Hk') as (h' & w' & -> & Hi' & Hv). one_key.
  - intros k w [Hg Hi] Hk. converted k.
    destruct (delete_spec ds k' w Hi Hk') as (h' & w' & -> & Hi' & Hv). one_key.
  - intros k w [Hg Hi] Hk. converted k.
    destruct (sync_spec ds k' w Hi Hk') as (h' & w' & -> & Hi' & Hv). same_view.
  - intros w Ho [Hg Hi]. destruct (close_spec ds w Ho Hi) as (h' & w' & -> & Hi' & Hv). same_view.
Defined.
End TransformSpec.

(** A wrapper that runs the store below after an effect that does not disturb
    it, and puts the store back. *)
Section Transparent.
Context {W F DS : Type} `{DataStore W F} `{DataStore W DS} (V : key -> Prop) `{!StoreSpec V W DS}.
Context (proj : F -> DS) (mk : F -> DS -> F).

Definition harmless (f : W -> W) : Prop :=
  forall ds w, inv ds w -> inv ds (f w) /\ forall k, V k -> view ds (f w) k = view ds w k.

Class Transparent : Prop := {
  proj_mk s ds : proj (mk s ds) = ds;
  tr_get s k w : exists f, harmless f /\ ds_get s k w = ds_get (proj s) k (f w);
  tr_has s k w : exists f, harmless f /\ ds_has s k w = ds_has (proj s) k (f w);
  tr_size s k w : exists f, harmless f /\ ds_size s k w = ds_size (proj s) k (f w);
  tr_put s k v w : exists f, harmless f /\ ds_put s k v w = lift (mk s) (ds_put (proj s) k v (f w));
  tr_delete s k w : exists f, harmless f /\ ds_delete s k w = lift (mk s) (ds_delete (proj s) k (f w));
  tr_sync s k w : exists f, harmless f /\ ds_sync s k w = lift (mk s) (ds_sync (proj s) k (f w));
  tr_close s w : exists f, harmless f /\ ds_close s w = lift (mk s) (ds_close (proj s) (f w));
}.

Definition transparent_spec `{!Transparent} : StoreSpec V W F.
Proof.
  refine {| inv s w := inv (proj s) w; stays_open := stays_open (H := DS); view s w := view (proj s) w |}.
  - intros s k w Hi Hk. destruct (tr_get s k w) as (f & Hf & ->). destruct (Hf _ _ Hi) as [Hi1 Hv1].
    destruct (get_spec (proj s) k (f w) Hi1 Hk) as (r & w' & -> & Hr & Hi' & Hv).
    rewrite Hv1 in Hr by done. eexists _, _. split; [done|]. split; [done|]. split; [done|].
    intros k' Hk'. by rewrite Hv, Hv1.
  - intros s k w Hi Hk. destruct (tr_has s k w) as (f & Hf & ->). destruct (Hf _ _ Hi) as [Hi1 Hv1].
    destruct (has_spec (proj s) k (f w) Hi1 Hk) as (w' & -> & Hi' & Hv).
    rewrite Hv1 by done. eexists. split; [done|]. split; [done|]. intros k' Hk'. by rewrite Hv, Hv1.
  - intros s k w Hi Hk. destruct (tr_size s k w) as (f & Hf & ->). destruct (Hf _ _ Hi) as [Hi1 Hv1].
    destruct (size_spec (proj s) k (f w) Hi1 Hk) as (r & w' & -> & Hr & Hi' & Hv).
    rewrite Hv1 in Hr by done. eexists _, _. split; [done|]. split; [done|]. split; [done|].
    intros k' Hk'. by rewrite Hv, Hv1.
  - intros s k v w Hi Hk. destruct (tr_put s k v w) as (f & Hf & ->). destruct (Hf _ _ Hi) as [Hi1 Hv1].
    destruct (put_spec (proj s) k v (f w) Hi1 Hk) as (h' & w' & -> & Hi' & Hv).
    eexists _, _. split; [done|]. rewrite proj_mk. split; [done|].
    intros k' Hk'. by rewrite Hv, Hv1.
  - intros s k w Hi Hk. destruct (tr_delete s k w) as (f & Hf & ->). destruct (Hf _ _ Hi) as [Hi1 Hv1].
    destruct (delete_spec (proj s) k (f w) Hi1 Hk) as (h' & w' & -> & Hi' & Hv).
    eexists _, _. split; [done|]. rewrite proj_mk. split; [done|].
    intros k' Hk'. by rewrite Hv, Hv1.
  - intros s k w Hi Hk. destruct (tr_sync s k w) as (f & Hf & ->). destruct (Hf _ _ Hi) as [Hi1 Hv1].
    destruct (sync_spec (proj s) k (f w) Hi1 Hk) as (h' & w' & -> & Hi' & Hv).
    eexists _, _. split; [done|]. rewrite proj_mk. split; [done|].
    intros k' Hk'. by rewrite Hv, Hv1.
  - intros s w Ho Hi. destruct (tr_close s w) as (f & Hf & ->). destruct (Hf _ _ Hi) as [Hi1 Hv1].
    destruct (close_spec (proj s) (f w) Ho Hi1) as (h' & w' & -> & Hi' & Hv).
    eexists _, _. split; [done|]. rewrite proj_mk. split; [done|].
    intros k' Hk'. by rewrite Hv, Hv1.
Defined.
End Transparent.

Lemma harmless_id {W DS} `{DataStore W DS} V `{!StoreSpec V W DS} : harmless V (fun w => w).
Proof. done. Qed.

Lemma harmless_emit {W DS} V `{Effects W} `{DataStore W DS} `{!StoreSpec V W DS}
  `{!EffectsFrame V W DS} e : harmless V (emit e).
Proof. intros ds w Hi. split; [by apply emit_inv|]. intros k Hk. by apply emit_view. Qed.

Section EffectWrappers.
Context (V : key -> Prop) {W DS} `{Effects W} `{DataStore W DS} `{!StoreSpec V W DS} `{!EffectsFrame V W DS}.

#[export] Instance delay_transparent : Transparent V (@delay_store_of DS) (fun _ => mkDelay).
Proof.
  split; [done|..]; intros; eexists;
    first [split; [apply harmless_emit; typeclasses eauto|reflexivity]|split; [apply harmless_id|reflexivity]].
Qed.
#[export] Instance delay_spec : StoreSpec V W (DelayDataStore DS) := transparent_spec V _ _.

#[export] Instance log_transparent : Transparent V (@log_store_of DS) (fun s => mkLog (log_name s)).
Proof. split; [done|..]; intros; eexists; (split; [apply harmless_emit; typeclasses eauto|reflexivity]). Qed.
#[export] Instance log_spec : StoreSpec V W (LogDataStore DS) := transparent_spec V _ _.
End EffectWrappers.

(** The cell of a live handle. *)
Section SyncSpec.
Context (V : key -> Prop) {W DS} `{DataStore W DS} `{!StoreSpec V W DS}.

Definition sync_view (s : SyncDataStore DS) (h : heap W DS) (k : key) : option bytes :=
  match cells h !! cell s with Some ds => view ds (base h) k | None => None end.

Local Ltac locked ds :=
  match goal with
  | Hi : exists ds', _ = Some ds' /\ _ |- _ => destruct Hi as (ds & Hc & Hi)
  end;
  unfold read_cell, write_cell, sync_view;
  match goal with Hc : _ !! _ = Some ds |- _ => rewrite Hc end.

#[export] Instance sync_store_spec : StoreSpec V (heap W DS) (SyncDataStore DS).
Proof.
  refine {| inv s h := exists ds, cells h !! cell s = Some ds /\ inv ds (base h);
            stays_open := stays_open (H := DS); view := sync_view |}; cbn.
  - intros s k h Hi Hk. locked ds.
    destruct (get_spec ds k (base h) Hi Hk) as (r & w' & -> & Hr & Hi' & Hv).
    eexists _, _. split; [done|]. split; [done|]. split; [by exists ds|]. cbn. by rewrite Hc.
  - intros s k h Hi Hk. locked ds.
    destruct (has_spec ds k (base h) Hi Hk) as (w' & -> & Hi' & Hv).
    eexists. split; [done|]. split; [by exists ds|]. cbn. by rewrite Hc.
  - intros s k h Hi Hk. locked ds.
    destruct (size_spec ds k (base h) Hi Hk) as (r & w' & -> & Hr & Hi' & Hv).
    eexists _, _. split; [done|]. split; [done|]. split; [by exists ds|]. cbn. by rewrite Hc.
  - intros s k v h Hi Hk. locked ds.
    destruct (put_spec ds k v (base h) Hi Hk) as (ds' & w' & -> & Hi' & Hv).
    eexists _, _. split; [done|]. assert (cell s < length (cells h))%nat by (by eapply lookup_lt_Some).
    cbn. rewrite list_lookup_insert_eq by done. split; [by eexists|done].
  - intros s k h Hi Hk. locked ds.
    destruct (delete_spec ds k (base h) Hi Hk) as (ds' & w' & -> & Hi' & Hv).
    eexists _, _. split; [done|]. assert (cell s < length (cells h))%nat by (by eapply lookup_lt_Some).
    cbn. rewrite list_lookup_insert_eq by done. split; [by eexists|done].
  - intros s k h Hi Hk. locked ds.
    destruct (sync_spec ds k (base h) Hi Hk) as (ds' & w' & -> & Hi' & Hv).
    eexists _, _. split; [done|]. assert (cell s < length (cells h))%nat by (by eapply lookup_lt_Some).
    cbn. rewrite list_lookup_insert_eq by done. split; [by eexists|done].
  - intros s h Ho Hi. locked ds.
    destruct (close_spec ds (base h) Ho Hi) as (ds' & w' & -> & Hi' & Hv).
    eexists _, _. split; [done|]. assert (cell s < length (cells h))%nat by (by eapply lookup_lt_Some).
    cbn. rewrite list_lookup_insert_eq by done. split; [by eexists|done].
Defined.

#[export] Instance sync_frame `{Effects W} `{!EffectsFrame V W DS} : EffectsFrame V (heap W DS) (SyncDataStore DS).
Proof.
  split.
  - intros e s h (ds & Hc & Hi). exists ds. split; [done|]. by apply emit_inv.
  - intros e s h k (ds & Hc & Hi) Hk. cbn. unfold sync_view. cbn. rewrite Hc. by apply emit_view.
Qed.
End SyncSpec.

#[export] Instance memory_transparent V {W} : Transparent V (W := heap W MapDataStore) mem_datastore (fun _ => mkMemory).
Proof. split; [done|..]; intros; eexists; (split; [apply harmless_id|reflexivity]). Qed.
#[export] Instance memory_spec V {W} : StoreSpec V (heap W MapDataStore) MemoryDataStore :=
  transparent_spec V _ _.
