(* ===== verification/StoreTheorems.v ===== *)
(** * What the stores guarantee

    A client drives a store through a sequence of commands.  Whatever the stack
    of wrappers, a store that meets the contract answers every command as a
    plain map from keys to values does; the wrappers' own guarantees (key
    prefixes, injected failures, log lines and waits, shared cells) follow. *)

From Stdlib Require Import ZArith Lia String.
From stdpp Require Import base numbers gmap list.
From S2P Require Import Prelude Decimal Key DataStore StoreWrappers.

Local Open Scope Z_scope.

(** ** Commands and the abstract store *)
Inductive cmd := CGet (k : key) | CHas (k : key) | CSize (k : key) | CPut (k : key) (v : bytes)
| CDelete (k : key) | CSync (k : key) | CClose.

Inductive answer := AValue (v : option bytes) | AHas (b : bool) | ASize (n : option Z) | ADone | AFailed.

Definition cmd_ok (V : key -> Prop) (closing : Prop) (c : cmd) : Prop :=
  match c with
  | CGet k | CHas k | CSize k | CPut k _ | CDelete k | CSync k => V k
  | CClose => closing
  end.

Definition abs_step (c : cmd) (f : key -> option bytes) : answer * (key -> option bytes) :=
  match c with
  | CGet k => (AValue (f k), f)
  | CHas k => (AHas (bool_decide (is_Some (f k))), f)
  | CSize k => (ASize ((fun v => Z.of_nat (length v)) <$> f k), f)
  | CPut k v => (ADone, fun k' => if decide (k' = k) then Some v else f k')
  | CDelete k => (ADone, fun k' => if decide (k' = k) then None else f k')
  | CSync _ | CClose => (ADone, f)
  end.

Fixpoint abs_run (cs : list cmd) (f : key -> option bytes) : list answer * (key -> option bytes) :=
  match cs with
  | [] => ([], f)
  | c :: cs' => let '(a, f1) := abs_step c f in let '(l, f2) := abs_run cs' f1 in (a :: l, f2)
  end.

Section Run.
Context {W H : Type} `{DataStore W H}.

Definition step (c : cmd) (h : H) (w : W) : answer * H * W :=
  let done (x : res unit * H * W) := let '(r, h, w) := x in (match r with Ok _ => ADone | _ => AFailed end, h, w) in
  match c with
  | CGet k => let '(r, w) := ds_get h k w in
      (match r with Ok v => AValue (Some v) | Err (NotFound _) => AValue None | _ => AFailed end, h, w)
  | CHas k => let '(r, w) := ds_has h k w in (match r with Ok b => AHas b | _ => AFailed end, h, w)
  | CSize k => let '(r, w) := ds_size h k w in
      (match r with Ok n => ASize (Some n) | Err (NotFound _) => ASize None | _ => AFailed end, h, w)
  | CPut k v => done (ds_put h k v w)
  | CDelete k => done (ds_delete h k w)
  | CSync k => done (ds_sync h k w)
  | CClose => done (ds_close h w)
  end.

Fixpoint run (cs : list cmd) (h : H) (w : W) : list answer * H * W :=
  match cs with
  | [] => ([], h, w)
  | c :: cs' => let '(a, h, w) := step c h w in let '(l, h, w) := run cs' h w in (a :: l, h, w)
  end.

Context (V : key -> Prop) `{!StoreSpec V W H}.

Lemma step_refines c h w f :
  inv h w -> cmd_ok V (stays_open (V := V) (H := H)) c -> (forall k, V k -> view h w k = f k) ->
  exists h' w', step c h w = ((abs_step c f).1, h', w') /\ inv h' w' /\
    forall k, V k -> view h' w' k = (abs_step c f).2 k.
Proof.
  intros Hi Hc Hf. destruct c as [k|k|k|k v|k|k|]; cbn in *.
  - destruct (get_spec h k w Hi Hc) as (r & w' & -> & Hr & Hi' & Hv). exists h, w'.
    split; [|split; [done|]; intros k' Hk'; by rewrite Hv, Hf].
    rewrite Hf in Hr by done. destruct (f k); [by rewrite Hr|]. by destruct Hr as [? ->].
  - destruct (has_spec h k w Hi Hc) as (w' & -> & Hi' & Hv). exists h, w'.
    split; [|split; [done|]; intros k' Hk'; by rewrite Hv, Hf]. by rewrite Hf.
  - destruct (size_spec h k w Hi Hc) as (r & w' & -> & Hr & Hi' & Hv). exists h, w'.
    split; [|split; [done|]; intros k' Hk'; by rewrite Hv, Hf].
    rewrite Hf in Hr by done. destruct (f k); [by rewrite Hr|]. by destruct Hr as [? ->].
  - destruct (put_spec h k v w Hi Hc) as (h' & w' & -> & Hi' & Hv). exists h', w'.
    split; [done|]. split; [done|]. intros k' Hk'. rewrite Hv by done. case_decide; [done|by apply Hf].
  - destruct (delete_spec h k w Hi Hc) as (h' & w' & -> & Hi' & Hv). exists h', w'.
    split; [done|]. split; [done|]. intros k' Hk'. rewrite Hv by done. case_decide; [done|by apply Hf].
  - destruct (sync_spec h k w Hi Hc) as (h' & w' & -> & Hi' & Hv). exists h', w'.
    split; [done|]. split; [done|]. intros k' Hk'. by rewrite Hv, Hf.
  - destruct (close_spec h w Hc Hi) as (h' & w' & -> & Hi' & Hv). exists h', w'.
    split; [done|]. split; [done|]. intros k' Hk'. by rewrite Hv, Hf.
Qed.

Lemma run_refines (cs : list cmd) (h : H) (w : W) (f : key -> option bytes) :
  inv h w -> Forall (cmd_ok V (stays_open (V := V) (H := H))) cs -> (forall k, V k -> view h w k = f k) ->
  exists h' w', run cs h w = ((abs_run cs f).1, h', w') /\ inv h' w' /\
    forall k, V k -> view h' w' k = (abs_run cs f).2 k.
Proof.
  intros Hi Hcs. revert h w f Hi. induction Hcs as [|c cs Hc _ IH]; intros h w f Hi Hf; cbn.
  - by exists h, w.
  - destruct (step_refines c h w f Hi Hc Hf) as (h1 & w1 & -> & Hi1 & Hv1).
    destruct (abs_step c f) as [a f1]. cbn in *.
    destruct (IH h1 w1 f1 Hi1 Hv1) as (h2 & w2 & -> & Hi2 & Hv2).
    destruct (abs_run cs f1) as [l f2]. by exists h2, w2.
Qed.

(** Any store that meets the contract is a map: for every sequence of gets,
    puts, deletes and other calls on valid keys (and closes, where the store
    stays open), it gives the answers the
    abstract map gives, never fails, and ends with the abstract map's
    contents. *)
Theorem store_refines_map (cs : list cmd) (h : H) (w : W) (f : key -> option bytes) :
  inv h w -> Forall (cmd_ok V (stays_open (V := V) (H := H))) cs -> (forall k, V k -> view h w k = f k) ->
  exists h' w', run cs h w = ((abs_run cs f).1, h', w') /\ inv h' w' /\
    forall k, V k -> view h' w' k = (abs_run cs f).2 k.
Proof. apply run_refines. Qed.
End Run.

(** ** Prefixed keys *)
Definition good_prefix (t : PrefixTransform) : Prop := Key.wf (prefix t).

#[export] Instance prefix_ok `{Key.PathCleanLaws} : TransformOk Key.wf Key.wf good_prefix.
Proof.
  split.
  - intros [p] k (l & Hl & Hp) (m & Hm & ->). cbn in *. subst p. eexists.
    split; [by apply Key.child_render|]. apply Key.render_wf. by apply Forall_app.
  - intros [p] k1 k2 k' (l & Hl & Hp) (m1 & Hm1 & ->) (m2 & Hm2 & ->). cbn in *. subst p.
    rewrite !Key.child_render by done. intros H1 H2.
    assert (He : Key.render (l ++ m1) = Key.render (l ++ m2)) by congruence.
    apply Key.render_inj in He; [|by apply Forall_app..]. by apply app_inv_head in He as ->.
Qed.

#[export] Instance transform_frame `{Effects W} `{DataStore W DS} `{KeyTransform T} V V' good
  `{!StoreSpec V' W DS} `{!TransformOk V V' good} `{!EffectsFrame V' W DS}
  : EffectsFrame V W (Transform T DS) (StoreSpec0 := transform_spec V V' good).
Proof.
  split.
  - intros e t w [Hg Hi]. split; [done|]. by apply emit_inv.
  - intros e t w k [Hg Hi] Hk. cbn. unfold transform_view.
    destruct (convert_total V V' good (transform t) k Hg Hk) as (k' & -> & Hk').
    by apply emit_view.
Qed.

(** The stack of the witness: a logged view of the keys under a prefix of a
    shared in-memory store. *)
Abbreviation stacked := (LogDataStore (Transform PrefixTransform (SyncDataStore MapDataStore))).
Abbreviation stacked_world := (heap (list event) MapDataStore).

#[local] Existing Instances Key.path_clean_ref Key.path_clean_ref_laws.

#[export] Instance prefix_spec : StoreSpec Key.wf stacked_world (Transform PrefixTransform (SyncDataStore MapDataStore)) :=
  transform_spec Key.wf Key.wf good_prefix.

Definition stacked_store : stacked := mkLog (str "log") (mkTransform (mkPrefix (str "/blocks")) (mkSync 0)).
Definition stacked_start : stacked_world := mkHeap [map_new] [].

Lemma store_refines_map_witness :
  let cs := [CPut (str "/a") [1; 2]; CGet (str "/a"); CGet (str "/b"); CSize (str "/a");
             CDelete (str "/a"); CHas (str "/a"); CClose] in
  exists h' w', run cs stacked_store stacked_start = ((abs_run cs (fun _ => None)).1, h', w') /\
    inv (V := Key.wf) h' w' /\
    forall k, Key.wf k -> view (V := Key.wf) h' w' k = (abs_run cs (fun _ => None)).2 k.
Proof.
  intros cs. assert (Ha : Key.wf (str "/a")) by exact (Key.key_new_wf (str "/a")).
  assert (Hb : Key.wf (str "/b")) by exact (Key.key_new_wf (str "/b")).
  apply (store_refines_map Key.wf cs stacked_store stacked_start (fun _ => None)).
  - split; [exact (Key.key_new_wf (str "/blocks"))|]. by exists map_new.
  - repeat (apply Forall_cons; split; [done|]). apply Forall_nil_2.
  - intros k Hk. cbn. unfold transform_view, sync_view. cbn.
    destruct (Key.child _ k) as [k'| | |]; [|done..]. apply lookup_empty.
Defined.

(** What the log says after those commands. *)
Example stacked_log :
  base (run [CPut (str "/a") [1; 2]; CGet (str "/a")] stacked_store stacked_start).2
  = [Info (str "log: put /a - [1, 2]"); Info (str "log: get /a")].
Proof. vm_compute. reflexivity. Qed.

(** ** The wrappers *)

(** A prefix transform keeps keys apart and can be undone: a converted key
    lies under the prefix, different keys stay different, and inverting a
    converted key gives the key back, except that with a prefix other than the
    root the image of the root key is the prefix itself, on which [invert_key]
    panics. *)
Theorem prefix_transform_inverts `{Key.PathCleanLaws} (p k k' : key) :
  Key.wf p -> Key.wf k -> Key.wf k' ->
  exists c, convert_key (mkPrefix p) k = Ok c /\ Key.wf c /\
    (k <> k' -> convert_key (mkPrefix p) k' <> Ok c) /\
    (Key.is_root k = false -> Key.is_ancestor_of p c = true) /\
    invert_key (mkPrefix p) c = (if Key.is_root k && negb (Key.is_root p) then Panic else Ok k).
Proof.
  intros (l & Hl & ->) (m & Hm & ->) (m' & Hm' & ->). exists (Key.render (l ++ m)).
  assert (Hlm : Forall Key.ns_ok (l ++ m)) by (by apply Forall_app).
  assert (Hanc : m <> [] -> Key.is_ancestor_of (Key.render l) (Key.render (l ++ m)) = true).
  { intros Hne. apply Key.is_ancestor_of_render; [done|done|]. by exists m. }
  cbn [convert_key invert_key prefix_transform prefix]. rewrite !Key.child_render by done.
  rewrite !Key.is_root_render by done.
  split; [done|]. split; [by apply Key.render_wf|]. split; [|split].
  - intros Hne Heq. injection Heq as Heq. apply Hne.
    assert (He : Key.render (l ++ m') = Key.render (l ++ m)) by (unfold Key.render; congruence).
    apply Key.render_inj in He; [|by apply Forall_app|done]. by apply app_inv_head in He as ->.
  - intros Hr. apply bool_decide_eq_false in Hr. by apply Hanc.
  - destruct (decide (l = [])) as [->|Hl0];
      [rewrite (bool_decide_eq_true_2 ([] = [])) by done; by rewrite andb_false_r|].
    rewrite (bool_decide_eq_false_2 (l = [])) by done. cbn [negb]. rewrite andb_true_r.
    destruct (decide (m = [])) as [->|Hm0].
    + clear Hanc. rewrite app_nil_r. rewrite (bool_decide_eq_true_2 ([] = [])) by done.
      destruct (Key.is_ancestor_of _ _) eqn:Ha; [|done].
      apply Key.is_ancestor_of_render in Ha as (r & Hr & He); [|done|done].
      apply (f_equal length) in He. rewrite length_app in He. destruct r; [done|cbn in He; lia].
    + rewrite Hanc, (bool_decide_eq_false_2 (m = [])) by done.
      assert (Hd : drop (length (Key.render l)) (Key.render (l ++ m)) = Key.render m).
      { unfold Key.render. rewrite Key.join_app by done. cbn [length drop]. apply drop_app_length. }
      rewrite Hd. by apply Key.new_unchecked_render.
Qed.

Lemma prefix_transform_inverts_witness :
  exists c, convert_key (mkPrefix (str "/blocks")) (str "/a") = Ok c /\ Key.wf c /\
    (str "/a" <> str "/b" -> convert_key (mkPrefix (str "/blocks")) (str "/b") <> Ok c) /\
    (Key.is_root (str "/a") = false -> Key.is_ancestor_of (str "/blocks") c = true) /\
    invert_key (mkPrefix (str "/blocks")) c
      = (if Key.is_root (str "/a") && negb (Key.is_root (str "/blocks")) then Panic else Ok (str "/a")).
Proof.
  apply (prefix_transform_inverts (str "/blocks") (str "/a") (str "/b")).
  - exact (Key.key_new_wf (str "/blocks")).
  - exact (Key.key_new_wf (str "/a")).
  - exact (Key.key_new_wf (str "/b")).
Defined.

(** An injected failure is returned before the store below is touched, and a
    call the fail function lets pass is the call of the store below; but a
    [get] is let pass or stopped by what the function says of ["put"]. *)
Theorem fail_store_guards `{DataStore W DS} (fn : fail_function) (ds : DS) (k : key) (v : bytes)
    (e : DataStoreError) (w : W) :
  let s := mkFail fn ds in
  (fn "put"%string = Err e -> ds_put s k v w = (Err e, s, w) /\ ds_get s k w = (Err e, w)) /\
  (fn "put"%string = Ok tt ->
     ds_put s k v w = lift (mkFail fn) (ds_put ds k v w) /\ ds_get s k w = ds_get ds k w) /\
  (fn "delete"%string = Err e -> ds_delete s k w = (Err e, s, w)) /\
  (fn "has"%string = Err e -> ds_has s k w = (Err e, w)) /\
  (fn "sync"%string = Err e -> ds_sync s k w = (Err e, s, w)).
Proof. cbn. split_and!; intros Hf; rewrite Hf; done. Qed.

(** Logging and delaying are invisible in the results: the answer of every
    call is that of the store below, run after one log line (respectively one
    wait) has been added to the trace. *)
Theorem log_and_delay_transparent `{DataStore (list event) DS} (name : list Z) (ds : DS) (k : key)
    (v : bytes) (w : list event) :
  let line what args := Info (name ++ str ": " ++ str what ++ args) in
  ds_get (mkLog name ds) k w = ds_get ds k (w ++ [line "get "%string k]) /\
  ds_put (mkLog name ds) k v w
    = lift (mkLog name) (ds_put ds k v (w ++ [line "put "%string (k ++ str " - " ++ debug_vec v)])) /\
  ds_close (mkLog name ds) w = lift (mkLog name) (ds_close ds (w ++ [line "close"%string []])) /\
  ds_get (mkDelay ds) k w = ds_get ds k (w ++ [Wait]) /\
  ds_put (mkDelay ds) k v w = lift mkDelay (ds_put ds k v (w ++ [Wait])) /\
  ds_close (mkDelay ds) w = lift mkDelay (ds_close ds w).
Proof. done. Qed.

(** Clones of a synchronised store share its cell: what one handle puts,
    every handle to the same cell gets, and a handle to another cell sees its
    own contents unchanged; a batch or transaction taken from the handle is
    such a clone. *)
Theorem sync_clones_share (V : key -> Prop) `{DataStore W DS} `{!StoreSpec V W DS}
    (s other : SyncDataStore DS) (h : heap W DS) (k : key) (v : bytes) (ds : DS) :
  inv (V := V) s h -> V k -> cell other <> cell s -> cells h !! cell other = Some ds ->
  let clone := mkSync (cell s) in
  exists h' h'', ds_put s k v h = (Ok tt, s, h') /\
    ds_get clone k h' = (Ok v, h'') /\ cells h' !! cell other = Some ds.
Proof.
  intros Hi Hk Hne Ho clone. destruct (put_spec (V := V) s k v h Hi Hk) as (s' & h' & Hp & Hi' & Hv).
  assert (s' = s) as ->.
  { cbn in Hp. unfold write_cell in Hp. destruct (cells h !! cell s); [|by injection Hp].
    destruct (ds_put _ _ _ _) as [[? ?] ?]. by injection Hp. }
  assert (clone = s) as -> by (by destruct s).
  destruct (get_spec (V := V) s k h' Hi' Hk) as (r & h'' & Hg & Hr & _).
  rewrite (Hv k Hk), decide_True in Hr by done. cbn in Hr. subst r.
  exists h', h''. split; [done|]. split; [done|].
  cbn in Hp. unfold write_cell in Hp. destruct (cells h !! cell s); [|by injection Hp as ??; subst].
  destruct (ds_put _ _ _ _) as [[? ?] ?]. injection Hp as _ <-. cbn. by rewrite list_lookup_insert_ne.
Qed.

Lemma sync_clones_share_witness :
  let h := mkHeap [map_new; map_new] ([] : list event) in
  let clone := mkSync 0 in
  exists h' h'', ds_put (mkSync 0) (str "/a") [7] h = (Ok tt, mkSync 0, h') /\
    ds_get clone (str "/a") h' = (Ok [7], h'') /\ cells h' !! cell (DS := MapDataStore) (mkSync 1) = Some map_new.
Proof.
  intros h. apply (sync_clones_share (fun _ => True) (mkSync 0) (mkSync 1) h (str "/a") [7] map_new); try done.
  by exists map_new.
Defined.

(** Over a shared store a transaction's commit does reach the store it was
    taken from: the clone it works on is a handle to the same cell. *)
Theorem basic_txn_on_memory_is_shared (iter : gmap key Op -> list (key * Op)) (s : MemoryDataStore)
    (h : heap unit MapDataStore) (k : key) (v : bytes) (m : gmap key bytes) :
  (forall o, iter o ≡ₚ map_to_list o) ->
  cells h !! cell (mem_datastore s) = Some (mkMap m) ->
  let b := basic_new s in
  let t := (basic_put (basic_txn b) k v h).1.2 in
  let '(r, t', h') := basic_commit iter t h in
  r = Ok tt /\ (ds_get s k h').1 = Ok v.
Proof.
  intros Hiter Hc b t.
  assert (Hl : iter {[k := Put v]} = [(k, Put v)]).
  { apply Permutation_singleton_r. rewrite Hiter. by rewrite map_to_list_singleton. }
  unfold basic_commit, t, b. cbn. rewrite insert_empty, Hl. cbn. unfold write_cell.
  rewrite Hc. cbn. split; [done|]. unfold read_cell. cbn.
  rewrite list_lookup_insert_eq by (by eapply lookup_lt_Some). cbn. by rewrite lookup_insert_eq.
Qed.

Lemma basic_txn_on_memory_is_shared_witness :
  let s := mkMemory (mkSync 0) in
  let h := mkHeap [map_new] tt in
  let b := basic_new s in
  let t := (basic_put (basic_txn b) (str "/a") [1] h).1.2 in
  let '(r, t', h') := basic_commit map_to_list t h in
  r = Ok tt /\ (ds_get s (str "/a") h').1 = Ok [1].
Proof.
  apply (basic_txn_on_memory_is_shared map_to_list (mkMemory (mkSync 0)) (mkHeap [map_new] tt) (str "/a") [1] ∅);
    done.
Defined.
