(* ===== verification/StoreStacks.v ===== *)
(** * Stacks of data stores

    The stores of ipfs/datastore are put together by their constructors: a store
    made of a map, seen through any number of wrappers.  A [stack] says which; the
    function [assemble] builds it, and whatever the stack, the store is a map. *)

From Stdlib Require Import ZArith Lia String.
From stdpp Require Import base numbers gmap list.
From S2P Require Import Prelude Decimal Key DataStore StoreWrappers StoreTheorems.

Local Open Scope Z_scope.

(** ** The constructors [new] of the wrappers *)
Definition transform_new {T DS} (transform : T) (ds : DS) : Transform T DS := mkTransform transform ds.
Definition fail_new {DS} (fail_fn : fail_function) (ds : DS) : FailDataStore DS := mkFail fail_fn ds.
Definition delay_new {DS} (ds : DS) : DelayDataStore DS := mkDelay ds.
Definition log_new {DS} (name : list Z) (ds : DS) : LogDataStore DS := mkLog name ds.

(** ** Stacks *)
Inductive stack :=
| SMap
| SPrefix (prefix : key) (below : stack)
| SDelay (below : stack)
| SLog (name : list Z) (below : stack)
| SSync (below : stack).

Fixpoint stack_ok (s : stack) : Prop :=
  match s with
  | SMap => True
  | SPrefix p s => Key.wf p /\ stack_ok s
  | SDelay s | SLog _ s | SSync s => stack_ok s
  end.

(** A store with the world it lives in: the log and the waits, and the cells of
    the locks below. *)
Record assembled := mkAssembled {
  a_world : Type;
  a_store : Type;
  a_effects : Effects a_world;
  a_data : DataStore a_world a_store;
  handle : a_store;
  world : a_world;
}.
#[export] Existing Instances a_effects a_data.

Section Assemble.
Context `{Key.PathClean}.

Fixpoint assemble (s : stack) : assembled :=
  match s with
  | SMap => mkAssembled (list event) MapDataStore _ _ map_new []
  | SPrefix p s => let a := assemble s in
      mkAssembled (a_world a) (Transform PrefixTransform (a_store a)) _ _
        (transform_new (mkPrefix p) (handle a)) (world a)
  | SDelay s => let a := assemble s in
      mkAssembled (a_world a) (DelayDataStore (a_store a)) _ _ (delay_new (handle a)) (world a)
  | SLog name s => let a := assemble s in
      mkAssembled (a_world a) (LogDataStore (a_store a)) _ _ (log_new name (handle a)) (world a)
  | SSync s => let a := assemble s in
      let '(h, w) := sync_new (handle a) (mkHeap [] (world a)) in
      mkAssembled (heap (a_world a) (a_store a)) (SyncDataStore (a_store a)) _ _ h w
  end.
End Assemble.

(** ** Effects do not disturb a wrapped store *)
#[export] Instance transparent_frame {W F DS : Type} `{Effects W} `{DataStore W F} `{DataStore W DS} (V : key -> Prop)
    `{!StoreSpec V W DS} (proj : F -> DS) (mk : F -> DS -> F) `{!Transparent V proj mk} `{!EffectsFrame V W DS}
  : EffectsFrame V W F (StoreSpec0 := transparent_spec V proj mk).
Proof. split; [intros e s w; exact (emit_inv e (proj s) w)|intros e s w k; exact (emit_view e (proj s) w k)]. Qed.

Section Stacks.
Context `{Key.PathCleanLaws}.

(** What every layer of a stack keeps: the contract, an empty map to start with,
    and a store that can be used after [close]. *)
Definition sound (a : assembled) : Prop :=
  exists Hs : StoreSpec Key.wf (a_world a) (a_store a),
    EffectsFrame Key.wf (a_world a) (a_store a) /\ stays_open (V := Key.wf) (H := a_store a) /\
    inv (handle a) (world a) /\ forall k, Key.wf k -> view (handle a) (world a) k = None.

Lemma assemble_sound s : stack_ok s -> sound (assemble s).
Proof.
  induction s as [|p s IH|s IH|name s IH|s IH]; cbn [stack_ok].
  - intros _. exists (map_spec Key.wf). split; [typeclasses eauto|]. split; [done|]. split; [done|].
    intros k _. apply lookup_empty.
  - intros [Hp Hok]. destruct (IH Hok) as (Hs & Hf & Ho & Hi & Hv).
    exists (transform_spec Key.wf Key.wf good_prefix). split; [apply transform_frame, Hf|]. split; [done|].
    split; [done|]. intros k Hk. cbn. unfold transform_view. cbn.
    destruct (convert_total Key.wf Key.wf good_prefix (mkPrefix p) k Hp Hk) as (k' & Hc & Hk').
    cbn in Hc. rewrite Hc. by apply Hv.
  - intros Hok. destruct (IH Hok) as (Hs & Hf & Hrest). exists (delay_spec Key.wf).
    split; [apply transparent_frame, Hf|done].
  - intros Hok. destruct (IH Hok) as (Hs & Hf & Hrest). exists (log_spec Key.wf).
    split; [apply transparent_frame, Hf|done].
  - intros Hok. destruct (IH Hok) as (Hs & Hf & Ho & Hi & Hv). exists (sync_store_spec Key.wf).
    split; [apply sync_frame, Hf|]. split; [done|]. split; [by exists (handle (assemble s))|done].
Qed.

(** C3: However the stores are stacked, over a map and in any order and number
    (key prefixes, delays, loggers, locks), the store so built is a map that
    starts empty: every sequence of gets, has, sizes, puts, deletes, syncs and
    closes on normal keys gets the answers of an abstract map, no call fails or
    panics, and afterwards every key reads as in the abstract map. *)
Theorem stack_is_map (s : stack) (cs : list cmd) :
  stack_ok s -> Forall (cmd_ok Key.wf True) cs ->
  let abs := abs_run cs (fun _ => None) in
  exists h w, run cs (handle (assemble s)) (world (assemble s)) = (abs.1, h, w) /\
    forall k, Key.wf k -> found (abs.2 k) (ds_get h k w).1.
Proof.
  intros Hok Hcs abs. destruct (assemble_sound s Hok) as (Hs & _ & Ho & Hi & Hv).
  destruct (run_refines Key.wf cs (handle (assemble s)) (world (assemble s)) (fun _ => None)) as (h & w & Hr & Hi' & Hv').
  - done.
  - eapply Forall_impl; [exact Hcs|]. by intros [].
  - done.
  - exists h, w. split; [exact Hr|]. intros k Hk. destruct (get_spec h k w Hi' Hk) as (r & w' & -> & Hf & _).
    cbn. unfold abs. by rewrite <- Hv'.
Qed.
End Stacks.

(** ** A stack *)
Definition sample_stack : stack :=
  SLog (str "log") (SPrefix (str "/a") (SSync (SDelay (SPrefix (str "/b") (SSync SMap))))).

#[local] Existing Instances Key.path_clean_ref Key.path_clean_ref_laws.

Lemma stack_is_map_witness :
  let cs := [CPut (str "/x") [1; 2]; CGet (str "/x"); CSize (str "/x"); CClose; CDelete (str "/x"); CHas (str "/x")] in
  exists h w, run cs (handle (assemble sample_stack)) (world (assemble sample_stack))
      = ([ADone; AValue (Some [1; 2]); ASize (Some 2); ADone; ADone; AHas false], h, w) /\
    forall k, Key.wf k -> found ((abs_run cs (fun _ => None)).2 k) (ds_get h k w).1.
Proof.
  intros cs. assert (Hx : Key.wf (str "/x")) by exact (Key.key_new_wf (str "/x")).
  apply (stack_is_map sample_stack cs).
  - split; [exact (Key.key_new_wf (str "/a"))|]. split; [exact (Key.key_new_wf (str "/b"))|exact I].
  - repeat (apply Forall_cons; split; [done|]). apply Forall_nil_2.
Defined.
