(* ===== verification/StoreBatches.v ===== *)
(** * Batches and transactions of the wrapped stores

    [ToBatch] and [ToTxn] (store/mod.rs) and their implementations in impls/, the
    [Check], [Gc], [Persistent] and [Scrub] of the batch and transaction stores,
    and the contract of a transaction: [TxnSpec], against which its clients are
    proved.  A basic transaction on any stack of stores meets it, and the
    transforming and synchronized wrappers keep it; the logging ones do not: their
    [commit] never returns. *)

From Stdlib Require Import ZArith Lia String.
From stdpp Require Import base numbers gmap list.
From S2P Require Import Prelude Decimal Key DataStore StoreWrappers StoreTheorems StoreStacks.

Local Open Scope Z_scope.

(** ** Taking a batch or a transaction *)
Class ToBatch (W H B : Type) := to_batch : H -> W -> res B * W.
Class ToTxn (W H T : Type) := to_txn : H -> bool -> W -> res T * W.

Section Taking.
Context {W DS T : Type}.

Definition transform_to_batch : ToBatch W (Transform T DS) (Transform T DS) := fun s w =>
  (Ok (mkTransform (transform s) (tr_datastore s)), w).
(** For [TransformTxnDataStore] and for [TransformBatchDataStore]. *)
Definition transform_to_txn : ToTxn W (Transform T DS) (Transform T DS) := fun s _ w =>
  (Ok (mkTransform (transform s) (tr_datastore s)), w).
Definition transform_batch_to_txn : ToTxn W (Transform T DS) (Transform T DS) := fun s _ w =>
  (Ok (mkTransform (transform s) (tr_datastore s)), w).

Definition fail_to_batch : ToBatch W (FailDataStore DS) (FailBatchDataStore DS) := fun s w =>
  (Ok (mkFailBatch (fail_fn s) (fail_store_of s)), w).
Definition fail_to_txn : ToTxn W (FailDataStore DS) (FailTxnDataStore DS) := fun s _ w =>
  (Ok (mkFailTxn (fail_fn s) (fail_store_of s)), w).
Definition fail_batch_to_txn : ToTxn W (FailBatchDataStore DS) (FailTxnDataStore DS) := fun s _ w =>
  (Ok (mkFailTxn (failb_fn s) (failb_store s)), w).

Definition delay_to_batch : ToBatch W (DelayDataStore DS) (Basic (DelayDataStore DS)) := fun s w => (Ok (basic_new s), w).
Definition delay_to_txn : ToTxn W (DelayDataStore DS) (Basic (DelayDataStore DS)) := fun s _ w => (Ok (basic_new s), w).

Context `{Effects W}.
Definition log_to_batch : ToBatch W (LogDataStore DS) (LogBatchDataStore DS) := fun s w =>
  (Ok (mkLogBatch (log_name s) (log_store_of s)), log_line (log_name s) "batch" [] w).
Definition log_txn_to_txn : ToTxn W (LogTxnDataStore DS) (LogTxnDataStore DS) := fun s _ w =>
  (Ok (mkLogTxn (logt_name s) (logt_store s)), log_line (logt_name s) "txn" [] w).
Definition log_batch_to_txn : ToTxn W (LogBatchDataStore DS) (LogTxnDataStore DS) := fun s _ w =>
  (Ok (mkLogTxn (logb_name s) (logb_store s)), log_line (logb_name s) "txn" [] w).
End Taking.

(** A clone of the [Arc]: the same cell. *)
Section TakingShared.
Context {W DS : Type}.
Definition sync_to_batch : ToBatch (heap W DS) (SyncDataStore DS) (SyncDataStore DS) := fun s h => (Ok (mkSync (cell s)), h).
Definition sync_to_txn : ToTxn (heap W DS) (SyncDataStore DS) (SyncDataStore DS) := fun s _ h => (Ok (mkSync (cell s)), h).
Definition sync_batch_to_txn : ToTxn (heap W DS) (SyncDataStore DS) (SyncDataStore DS) := fun s _ h => (Ok (mkSync (cell s)), h).
End TakingShared.

Definition dummy_to_batch {W} : ToBatch W DummyDataStore (Basic DummyDataStore) := fun s w => (Ok (basic_new s), w).
Definition dummy_to_txn {W} : ToTxn W DummyDataStore (Basic DummyDataStore) := fun s _ w => (Ok (basic_new s), w).

(** ** The extended interfaces of the batch and transaction stores *)
Section Extended.
Context {W DS : Type} `{ExtendedStore W DS}.

Definition basic_batch_extended : ExtendedStore W (Basic DS) := {|
  ds_check b w := ds_check (datastore b) w;
  ds_collect_garbage b w := ds_collect_garbage (datastore b) w;
  ds_disk_usage b w := ds_disk_usage (datastore b) w;
  ds_scrub b w := ds_scrub (datastore b) w;
|}.
Definition basic_txn_extended : ExtendedStore W (Basic DS) := {|
  ds_check b w := ds_check (datastore b) w;
  ds_collect_garbage b w := ds_collect_garbage (datastore b) w;
  ds_disk_usage b w := ds_disk_usage (datastore b) w;
  ds_scrub b w := ds_scrub (datastore b) w;
|}.

Definition transform_batch_extended {T} : ExtendedStore W (Transform T DS) := {|
  ds_check t w := ds_check (tr_datastore t) w;
  ds_collect_garbage t w := ds_collect_garbage (tr_datastore t) w;
  ds_disk_usage t w := ds_disk_usage (tr_datastore t) w;
  ds_scrub t w := ds_scrub (tr_datastore t) w;
|}.
Definition transform_txn_extended {T} : ExtendedStore W (Transform T DS) := {|
  ds_check t w := ds_check (tr_datastore t) w;
  ds_collect_garbage t w := ds_collect_garbage (tr_datastore t) w;
  ds_disk_usage t w := ds_disk_usage (tr_datastore t) w;
  ds_scrub t w := ds_scrub (tr_datastore t) w;
|}.

Definition fail_batch_extended : ExtendedStore W (FailBatchDataStore DS) := {|
  ds_check s w := guard (failb_fn s "check") w (ds_check (failb_store s) w);
  ds_collect_garbage s w := guard (failb_fn s "collect-garbage") w (ds_collect_garbage (failb_store s) w);
  ds_disk_usage s w := guard (failb_fn s "disk-usage") w (ds_disk_usage (failb_store s) w);
  ds_scrub s w := guard (failb_fn s "scrub") w (ds_scrub (failb_store s) w);
|}.
Definition fail_txn_extended : ExtendedStore W (FailTxnDataStore DS) := {|
  ds_check s w := guard (failt_fn s "check") w (ds_check (failt_store s) w);
  ds_collect_garbage s w := guard (failt_fn s "collect-garbage") w (ds_collect_garbage (failt_store s) w);
  ds_disk_usage s w := guard (failt_fn s "disk-usage") w (ds_disk_usage (failt_store s) w);
  ds_scrub s w := guard (failt_fn s "scrub") w (ds_scrub (failt_store s) w);
|}.

Definition log_batch_extended `{Effects W} : ExtendedStore W (LogBatchDataStore DS) := {|
  ds_check s w := ds_check (logb_store s) (log_line (logb_name s) "check" [] w);
  ds_collect_garbage s w := ds_collect_garbage (logb_store s) (log_line (logb_name s) "collect_garbage" [] w);
  ds_disk_usage s w := ds_disk_usage (logb_store s) (log_line (logb_name s) "disk_usage" [] w);
  ds_scrub s w := ds_scrub (logb_store s) (log_line (logb_name s) "scrub" [] w);
|}.
Definition log_txn_extended `{Effects W} : ExtendedStore W (LogTxnDataStore DS) := {|
  ds_check s w := ds_check (logt_store s) (log_line (logt_name s) "check" [] w);
  ds_collect_garbage s w := ds_collect_garbage (logt_store s) (log_line (logt_name s) "collect_garbage" [] w);
  ds_disk_usage s w := ds_disk_usage (logt_store s) (log_line (logt_name s) "disk_usage" [] w);
  ds_scrub s w := ds_scrub (logt_store s) (log_line (logt_name s) "scrub" [] w);
|}.

Definition sync_batch_extended : ExtendedStore (heap W DS) (SyncDataStore DS) := {|
  ds_check s h := read_cell s h ds_check;
  ds_collect_garbage s h := read_cell s h ds_collect_garbage;
  ds_disk_usage s h := read_cell s h ds_disk_usage;
  ds_scrub s h := read_cell s h ds_scrub;
|}.
Definition sync_txn_extended : ExtendedStore (heap W DS) (SyncDataStore DS) := {|
  ds_check s h := read_cell s h ds_check;
  ds_collect_garbage s h := read_cell s h ds_collect_garbage;
  ds_disk_usage s h := read_cell s h ds_disk_usage;
  ds_scrub s h := read_cell s h ds_scrub;
|}.
End Extended.

(** [Persistent for DelayDataStore] *)
Definition delay_disk_usage {W DS} `{Effects W} `{ExtendedStore W DS} (s : DelayDataStore DS) (w : W) : res Z * W :=
  ds_disk_usage (delay_store_of s) (emit Wait w).

(** ** [DataStoreTxn]

    Reads, writes, [commit] and [discard].  A [TxnDataStore], here [TxnStore], is
    one that is a [DataStore] besides: it has [sync] and [close]. *)
Class DataStoreTxn (W H : Type) := {
  tx_get : H -> key -> W -> res bytes * W;
  tx_has : H -> key -> W -> res bool * W;
  tx_size : H -> key -> W -> res Z * W;
  tx_put : H -> key -> bytes -> W -> res unit * H * W;
  tx_delete : H -> key -> W -> res unit * H * W;
  tx_commit : H -> W -> res unit * H * W;
  tx_discard : H -> W -> res unit * H * W;
}.
#[export] Instance store_txn `{TxnStore W H} : DataStoreTxn W H := {|
  tx_get := ds_get; tx_has := ds_has; tx_size := ds_size; tx_put := ds_put; tx_delete := ds_delete;
  tx_commit := ds_commit; tx_discard := ds_discard;
|}.

(** ** The contract of a transaction

    Writes are recorded, reads see the store without them, a commit applies the
    last write of each key and forgets them, a discard only forgets them. *)
Class TxnSpec (V : key -> Prop) (W H : Type) `{DataStoreTxn W H} := {
  t_inv : H -> W -> Prop;
  t_pending : H -> W -> key -> option Op;
  t_view : H -> W -> key -> option bytes;
  t_get h k w : t_inv h w -> V k ->
    exists r w', tx_get h k w = (r, w') /\ found (t_view h w k) r /\ t_inv h w' /\
      forall k', V k' -> t_view h w' k' = t_view h w k' /\ t_pending h w' k' = t_pending h w k';
  t_put h k v w : t_inv h w -> V k ->
    exists h' w', tx_put h k v w = (Ok tt, h', w') /\ t_inv h' w' /\
      forall k', V k' -> t_view h' w' k' = t_view h w k' /\
        t_pending h' w' k' = if decide (k' = k) then Some (Put v) else t_pending h w k';
  t_delete h k w : t_inv h w -> V k ->
    exists h' w', tx_delete h k w = (Ok tt, h', w') /\ t_inv h' w' /\
      forall k', V k' -> t_view h' w' k' = t_view h w k' /\
        t_pending h' w' k' = if decide (k' = k) then Some Delete else t_pending h w k';
  t_commit h w : t_inv h w ->
    exists h' w', tx_commit h w = (Ok tt, h', w') /\ t_inv h' w' /\
      forall k', V k' -> t_pending h' w' k' = None /\
        t_view h' w' k' = match t_pending h w k' with
                          | Some (Put v) => Some v | Some Delete => None | None => t_view h w k' end;
  t_discard h w : t_inv h w ->
    exists h' w', tx_discard h w = (Ok tt, h', w') /\ t_inv h' w' /\
      forall k', V k' -> t_pending h' w' k' = None /\ t_view h' w' k' = t_view h w k';
}.

(** ** The abstract transaction *)
Inductive tcmd := TGet (k : key) | TPut (k : key) (v : bytes) | TDelete (k : key) | TCommit | TDiscard.
Inductive tanswer := TValue (v : option bytes) | TDone | TFailed.
Definition tcmd_ok (V : key -> Prop) (c : tcmd) : Prop :=
  match c with TGet k | TPut k _ | TDelete k => V k | TCommit | TDiscard => True end.

Record txn_state := mkTxn { contents : key -> option bytes; recorded : key -> option Op }.
Definition applied (s : txn_state) (k : key) : option bytes :=
  match recorded s k with Some (Put v) => Some v | Some Delete => None | None => contents s k end.
Definition record_op (k : key) (o : Op) (s : txn_state) : txn_state :=
  mkTxn (contents s) (fun k' => if decide (k' = k) then Some o else recorded s k').

Definition txn_step (c : tcmd) (s : txn_state) : tanswer * txn_state :=
  match c with
  | TGet k => (TValue (contents s k), s)
  | TPut k v => (TDone, record_op k (Put v) s)
  | TDelete k => (TDone, record_op k Delete s)
  | TCommit => (TDone, mkTxn (applied s) (fun _ => None))
  | TDiscard => (TDone, mkTxn (contents s) (fun _ => None))
  end.
Fixpoint txn_run (cs : list tcmd) (s : txn_state) : list tanswer * txn_state :=
  match cs with
  | [] => ([], s)
  | c :: cs' => let '(a, s) := txn_step c s in let '(l, s) := txn_run cs' s in (a :: l, s)
  end.

Section TxnRun.
Context {W H : Type} `{DataStoreTxn W H}.

Definition run_step (c : tcmd) (h : H) (w : W) : tanswer * H * W :=
  let done (x : res unit * H * W) := let '(r, h, w) := x in (match r with Ok _ => TDone | _ => TFailed end, h, w) in
  match c with
  | TGet k => let '(r, w) := tx_get h k w in
      (match r with Ok v => TValue (Some v) | Err (NotFound _) => TValue None | _ => TFailed end, h, w)
  | TPut k v => done (tx_put h k v w)
  | TDelete k => done (tx_delete h k w)
  | TCommit => done (tx_commit h w)
  | TDiscard => done (tx_discard h w)
  end.
Fixpoint run_txn (cs : list tcmd) (h : H) (w : W) : list tanswer * H * W :=
  match cs with
  | [] => ([], h, w)
  | c :: cs' => let '(a, h, w) := run_step c h w in let '(l, h, w) := run_txn cs' h w in (a :: l, h, w)
  end.

Context (V : key -> Prop) `{!TxnSpec V W H}.

Definition agree (h : H) (w : W) (s : txn_state) : Prop :=
  forall k, V k -> t_view h w k = contents s k /\ t_pending h w k = recorded s k.

Lemma run_step_refines c h w s :
  t_inv h w -> tcmd_ok V c -> agree h w s ->
  exists h' w', run_step c h w = ((txn_step c s).1, h', w') /\ t_inv h' w' /\ agree h' w' (txn_step c s).2.
Proof.
  intros Hi Hc Hs. destruct c as [k|k v|k| |]; cbn in *.
  - destruct (t_get h k w Hi Hc) as (r & w' & -> & Hr & Hi' & Hv). exists h, w'.
    split; [|split; [done|]; intros k' Hk'; destruct (Hv k' Hk') as [-> ->]; by apply Hs].
    destruct (Hs k Hc) as [Hk _]. rewrite Hk in Hr. destruct (contents s k); [by rewrite Hr|]. by destruct Hr as [? ->].
  - destruct (t_put h k v w Hi Hc) as (h' & w' & -> & Hi' & Hv). exists h', w'. split; [done|]. split; [done|].
    intros k' Hk'. destruct (Hv k' Hk') as [-> ->], (Hs k' Hk') as [-> ->]. done.
  - destruct (t_delete h k w Hi Hc) as (h' & w' & -> & Hi' & Hv). exists h', w'. split; [done|]. split; [done|].
    intros k' Hk'. destruct (Hv k' Hk') as [-> ->], (Hs k' Hk') as [-> ->]. done.
  - destruct (t_commit h w Hi) as (h' & w' & -> & Hi' & Hv). exists h', w'. split; [done|]. split; [done|].
    intros k' Hk'. destruct (Hv k' Hk') as [-> ->], (Hs k' Hk') as [-> ->]. done.
  - destruct (t_discard h w Hi) as (h' & w' & -> & Hi' & Hv). exists h', w'. split; [done|]. split; [done|].
    intros k' Hk'. destruct (Hv k' Hk') as [-> ->], (Hs k' Hk') as [-> _]. done.
Qed.

Lemma run_txn_refines cs h w s :
  t_inv h w -> Forall (tcmd_ok V) cs -> agree h w s ->
  exists h' w', run_txn cs h w = ((txn_run cs s).1, h', w') /\ t_inv h' w' /\ agree h' w' (txn_run cs s).2.
Proof.
  intros Hi Hcs. revert h w s Hi. induction Hcs as [|c cs Hc _ IH]; intros h w s Hi Hs; cbn [run_txn txn_run].
  - by exists h, w.
  - destruct (run_step_refines c h w s Hi Hc Hs) as (h1 & w1 & -> & Hi1 & Hs1).
    destruct (txn_step c s) as [a s1]. cbn in Hs1 |- *.
    destruct (IH h1 w1 s1 Hi1 Hs1) as (h2 & w2 & -> & Hi2 & Hs2).
    destruct (txn_run cs s1) as [l s2]. by exists h2, w2.
Qed.

End TxnRun.

(** ** The basic transaction meets it *)
Section BasicTxn.
Context (iter : gmap key Op -> list (key * Op)) (Hiter : forall m, iter m ≡ₚ map_to_list m).
Context {W DS : Type} `{DataStore W DS} (V : key -> Prop) `{!StoreSpec V W DS}.

Definition basic_txn_store : DataStoreTxn W (Basic DS) := {|
  tx_get := basic_get; tx_has := basic_has; tx_size := basic_size; tx_put := basic_put; tx_delete := basic_delete;
  tx_commit := basic_commit iter;
  tx_discard := basic_discard;
|}.

Lemma lookup_insert_decide (m : gmap key Op) k o k' :
  <[k := o]> m !! k' = if decide (k' = k) then Some o else m !! k'.
Proof. case_decide as Hk; [subst; apply lookup_insert_eq|by apply lookup_insert_ne]. Qed.

Definition basic_txn_spec : @TxnSpec V W (Basic DS) basic_txn_store.
Proof using Hiter StoreSpec0.
  unshelve refine (@Build_TxnSpec V W (Basic DS) basic_txn_store
    (fun b w => inv (datastore b) w /\ forall k, is_Some (ops b !! k) -> V k)
    (fun b w k => ops b !! k) (fun b w k => view (datastore b) w k) _ _ _ _ _); cbn; intros b.
  - intros k w [Hi Ho] Hk. destruct (get_spec (datastore b) k w Hi Hk) as (r & w' & Hg & Hf & Hi' & Hv).
    exists r, w'. split; [done|]. split; [done|]. split; [done|]. intros k' Hk'. by rewrite Hv.
  - intros k v w [Hi Ho] Hk. eexists _, _. split; [done|]. cbn. split.
    + split; [done|]. intros k' Hk'. rewrite lookup_insert_decide in Hk'. case_decide; [by subst|by apply Ho].
    + intros k' Hk'. by rewrite lookup_insert_decide.
  - intros k w [Hi Ho] Hk. eexists _, _. split; [done|]. cbn. split.
    + split; [done|]. intros k' Hk'. rewrite lookup_insert_decide in Hk'. case_decide; [by subst|by apply Ho].
    + intros k' Hk'. by rewrite lookup_insert_decide.
  - intros w [Hi Ho]. destruct (basic_commit_spec iter b w Hiter Hi Ho) as (ds' & w' & Hc & Hi' & Hv).
    exists (mkBasic ∅ ds'), w'. split; [done|]. cbn. split.
    + split; [done|]. intros k'. rewrite lookup_empty. by intros [].
    + intros k' Hk'. rewrite lookup_empty. split; [done|]. by apply Hv.
  - intros w [Hi Ho]. eexists _, _. split; [done|]. cbn. split.
    + split; [done|]. intros k'. rewrite lookup_empty. by intros [].
    + intros k' Hk'. by rewrite lookup_empty.
Defined.
End BasicTxn.

(** ** Transactions on a stack of stores *)

(** A synchronized store stays the handle of its cell. *)
Lemma sync_handle {W DS} `{DataStore W DS} (s : SyncDataStore DS) l (h : heap W DS) : (apply_ops l s h).1.2 = s.
Proof.
  revert h. induction l as [|[k o] l IH]; intros h; [done|]. cbn [apply_ops].
  assert (Ho : (apply_op s k o h).1.2 = s).
  { destruct o; cbn; unfold write_cell; (destruct (cells h !! cell s); [|done]);
      [destruct (ds_put d k v (base h)) as [[? ?] ?]|destruct (ds_delete d k (base h)) as [[? ?] ?]]; done. }
  destruct (apply_op s k o h) as [[r s1] h1]. cbn in Ho. subst s1. destruct r; [apply IH|done..].
Qed.

Section OnStacks.
Context `{Key.PathCleanLaws} (iter : gmap key Op -> list (key * Op)).
#[local] Instance basic_txn_of {W DS} `{DataStore W DS} : DataStoreTxn W (Basic DS) := basic_txn_store iter.

Lemma sync_txn_handle {W DS} `{DataStore W DS} cs (b : Basic (SyncDataStore DS)) (h : heap W DS) :
  datastore (run_txn cs b h).1.2 = datastore b.
Proof.
  revert b h. induction cs as [|c cs IH]; intros b h; [done|]. cbn [run_txn].
  assert (Hc : datastore (run_step c b h).1.2 = datastore b).
  { destruct c as [k|k v|k| |]; cbn; [|done|done| |done].
    - by destruct (read_cell (datastore b) h _).
    - unfold basic_commit. pose proof (sync_handle (datastore b) (iter (ops b)) h) as Hs.
      destruct (apply_ops (iter (ops b)) (datastore b) h) as [[r s] h1]. cbn in Hs. subst s. by destruct r. }
  destruct (run_step c b h) as [[a b1] h1]. cbn in Hc. specialize (IH b1 h1).
  destruct (run_txn cs b1 h1) as [[l b2] h2]. cbn in *. congruence.
Qed.

(** C34: A basic transaction on a store, however that is stacked over a map,
    runs every sequence of reads, writes, deletes, commits and discards on normal
    keys as the abstract transaction that starts with nothing recorded on an empty
    map: reads see what was committed only, a commit applies the last write of
    each key, in whatever order the hash map yields them, a discard drops them
    all, and no call fails.  What was committed is then in the store below; and if
    the transaction was taken from a synchronized store, that store, which shares
    the data, reads the same. *)
Theorem txn_on_stack (s : stack) (cs : list tcmd) :
  (forall m, iter m ≡ₚ map_to_list m) -> stack_ok s -> Forall (tcmd_ok Key.wf) cs ->
  let store := handle (assemble s) in
  let abs := txn_run cs (mkTxn (fun _ => None) (fun _ => None)) in
  exists t w, run_txn cs (basic_new store) (world (assemble s)) = (abs.1, t, w) /\
    (forall k, Key.wf k -> found (contents abs.2 k) (ds_get (datastore t) k w).1) /\
    (match s with SSync _ => datastore t = store | _ => True end).
Proof.
  intros Hiter Hok Hcs store abs. destruct (assemble_sound s Hok) as (Hs & _ & _ & Hi & Hv).
  pose (spec := basic_txn_spec iter Hiter Key.wf (DS := a_store (assemble s))).
  destruct (run_txn_refines Key.wf cs (basic_new store) (world (assemble s)) (mkTxn (fun _ => None) (fun _ => None)))
    as (t & w & Hr & [Hi' _] & Ha).
  - split; [exact Hi|]. intros k. cbn. rewrite lookup_empty. by intros [].
  - exact Hcs.
  - intros k Hk. split; [by apply Hv|apply lookup_empty].
  - exists t, w. split; [exact Hr|]. split.
    + intros k Hk. destruct (get_spec (datastore t) k w Hi' Hk) as (r & w' & -> & Hf & _).
      destruct (Ha k Hk) as [Hc _]. unfold abs. cbn in Hc |- *. by rewrite <- Hc.
    + destruct s as [| | | |s]; try done.
      pose proof (f_equal (fun x => datastore x.1.2) Hr) as Hd. cbn [fst snd] in Hd. rewrite <- Hd.
      exact (sync_txn_handle cs (basic_new store) _).
Qed.
End OnStacks.

#[local] Existing Instances Key.path_clean_ref Key.path_clean_ref_laws.

Lemma txn_on_stack_witness :
  let cs := [TPut (str "/a") [1]; TGet (str "/a"); TCommit; TGet (str "/a"); TDelete (str "/a"); TDiscard; TGet (str "/a")] in
  let store := handle (assemble (SSync sample_stack)) in
  exists t w, @run_txn _ _ (basic_txn_store map_to_list) cs (basic_new store) (world (assemble (SSync sample_stack)))
      = ([TDone; TValue None; TDone; TValue (Some [1]); TDone; TDone; TValue (Some [1])], t, w) /\
    (ds_get store (str "/a") w).1 = Ok [1].
Proof.
  intros cs store. assert (Ha : Key.wf (str "/a")) by exact (Key.key_new_wf (str "/a")).
  destruct (txn_on_stack map_to_list (SSync sample_stack) cs) as (t & w & Hr & Hg & Hd).
  - intros m. reflexivity.
  - split; [exact (Key.key_new_wf (str "/a"))|]. split; [exact (Key.key_new_wf (str "/b"))|exact I].
  - repeat (apply Forall_cons; split; [done|]). apply Forall_nil_2.
  - exists t, w. split; [exact Hr|]. pose proof (Hg _ Ha) as Hf.
    rewrite (Hd : datastore t = store) in Hf. exact Hf.
Defined.

(** ** The transforming wrapper keeps the contract

    The wrappers are over a [TxnDataStore]; they keep the contract of whatever such
    store they are given. *)
Section TransformTxn.
Context `{KeyTransform T} {W DS : Type} `{TxnStore W DS} (V V' : key -> Prop) `{!TxnSpec V' W DS}.
Context (good : T -> Prop) `{!TransformOk V V' good}.

Definition through {A} (t : Transform T DS) (f : key -> option A) (k : key) : option A :=
  match convert_key (transform t) k with Ok k' => f k' | _ => None end.

Local Ltac convert k :=
  match goal with Hg : good ?t, Hk : V k |- _ =>
    let k' := fresh "c" in let Hc := fresh "Hc" in let Hk' := fresh "Hk'" in
    destruct (convert_total V V' good t k Hg Hk) as (k' & Hc & Hk'); rewrite Hc; cbn
  end.
Local Ltac one_key :=
  let k2 := fresh "k" in let Hk2 := fresh "Hk" in intros k2 Hk2; cbn; convert k2;
  match goal with Hv : forall k', V' k' -> _, Hk' : V' ?c |- context [?c] => destruct (Hv c Hk') as [-> ->] end;
  (split; [reflexivity|]); repeat case_decide; try reflexivity; exfalso;
  first [congruence | subst; match goal with Hn : _ <> _ |- _ => apply Hn; by eapply (convert_inj V V' good) end].

Definition transform_txn_spec : TxnSpec V W (Transform T DS).
Proof using TransformOk0 TxnSpec0.
  refine {| t_inv t w := good (transform t) /\ t_inv (tr_datastore t) w;
            t_pending t w := through t (t_pending (tr_datastore t) w);
            t_view t w := through t (t_view (tr_datastore t) w) |};
    unfold through; cbn; intros [t ds]; cbn.
  - intros k w [Hg Hi] Hk. convert k.
    destruct (t_get ds c w Hi Hk') as (r & w' & He & Hf & Hi' & Hv). cbn in He. rewrite He. exists r, w'.
    split; [done|]. split; [done|]. split; [done|]. intros k2 Hk2. convert k2. by apply Hv.
  - intros k v w [Hg Hi] Hk. convert k.
    destruct (t_put ds c v w Hi Hk') as (h' & w' & He & Hi' & Hv). cbn in He. rewrite He. eexists _, _. split; [done|]. split; [done|]. one_key.
  - intros k w [Hg Hi] Hk. convert k.
    destruct (t_delete ds c w Hi Hk') as (h' & w' & He & Hi' & Hv). cbn in He. rewrite He. eexists _, _. split; [done|]. split; [done|]. one_key.
  - intros w [Hg Hi]. destruct (t_commit ds w Hi) as (h' & w' & He & Hi' & Hv). cbn in He. rewrite He.
    eexists _, _. split; [done|]. split; [done|]. intros k Hk. cbn. convert k. by apply Hv.
  - intros w [Hg Hi]. destruct (t_discard ds w Hi) as (h' & w' & He & Hi' & Hv). cbn in He. rewrite He.
    eexists _, _. split; [done|]. split; [done|]. intros k Hk. cbn. convert k. by apply Hv.
Defined.
End TransformTxn.

(** ** The synchronized wrapper keeps it *)
Section SyncTxn.
Context {W DS : Type} `{TxnStore W DS} (V : key -> Prop) `{!TxnSpec V W DS}.

Definition in_cell {A} (s : SyncDataStore DS) (h : heap W DS) (f : DS -> W -> key -> option A) (k : key) : option A :=
  match cells h !! cell s with Some ds => f ds (base h) k | None => None end.

Local Ltac locked ds :=
  match goal with
  | Hi : exists ds', _ = Some ds' /\ _ |- _ => destruct Hi as (ds & Hc & Hi)
  end;
  unfold read_cell, write_cell, in_cell;
  match goal with Hc : _ !! _ = Some ds |- _ => rewrite Hc end.
Local Ltac stored s h :=
  assert (cell s < length (cells h))%nat by (by eapply lookup_lt_Some);
  eexists _, _; split; [done|]; cbn; rewrite list_lookup_insert_eq by done; split; [by eexists|done].

Definition sync_txn_spec : TxnSpec V (heap W DS) (SyncDataStore DS).
Proof using TxnSpec0.
  refine {| t_inv s h := exists ds, cells h !! cell s = Some ds /\ t_inv ds (base h);
            t_pending s h := in_cell s h t_pending; t_view s h := in_cell s h t_view |}; cbn; intros s.
  - intros k h Hi Hk. locked ds. destruct (t_get ds k (base h) Hi Hk) as (r & w' & He & Hr & Hi' & Hv). cbn in He. rewrite He.
    eexists _, _. split; [done|]. split; [done|]. split; [by exists ds|]. cbn. by rewrite Hc.
  - intros k v h Hi Hk. locked ds. destruct (t_put ds k v (base h) Hi Hk) as (ds' & w' & He & Hi' & Hv). cbn in He. rewrite He. stored s h.
  - intros k h Hi Hk. locked ds. destruct (t_delete ds k (base h) Hi Hk) as (ds' & w' & He & Hi' & Hv). cbn in He. rewrite He. stored s h.
  - intros h Hi. locked ds. destruct (t_commit ds (base h) Hi) as (ds' & w' & He & Hi' & Hv). cbn in He. rewrite He. stored s h.
  - intros h Hi. locked ds. destruct (t_discard ds (base h) Hi) as (ds' & w' & He & Hi' & Hv). cbn in He. rewrite He. stored s h.
Defined.
End SyncTxn.

(** ** Logging breaks it *)
Lemma log_forever_trace {S} (stack : nat) (name : list Z) (what : string) (s : S) (w : list event) :
  log_forever stack name what s w = (OutOfFuel, s, w ++ replicate stack (Info (name ++ str ": " ++ str what ++ []))).
Proof.
  revert w. induction stack as [|stack IH]; intros w; cbn [log_forever replicate]; [by rewrite app_nil_r|].
  rewrite IH. unfold log_line, emit, trace_effects. by rewrite <- app_assoc.
Qed.

(** C36: Committing a logging batch or transaction, and discarding a logging
    transaction, never returns: each call logs its line and makes the same call
    again, whatever the depth of the stack, and the store below is never asked. *)
Theorem log_commit_never_returns `{TxnStore (list event) DS} (stack : nat) (name : list Z) (ds : DS) (w : list event) :
  @ds_commit _ _ (log_batch stack) (mkLogBatch name ds) w
    = (OutOfFuel, mkLogBatch name ds, w ++ replicate stack (Info (name ++ str ": batch commit"))) /\
  @ds_commit _ _ (@txn_store _ _ (log_txn stack)) (mkLogTxn name ds) w
    = (OutOfFuel, mkLogTxn name ds, w ++ replicate stack (Info (name ++ str ": txn commit"))) /\
  @ds_discard _ _ (log_txn stack) (mkLogTxn name ds) w
    = (OutOfFuel, mkLogTxn name ds, w ++ replicate stack (Info (name ++ str ": txn discard"))).
Proof.
  cbn [ds_commit ds_discard log_batch log_txn txn_store logb_name logt_name]. by rewrite !log_forever_trace.
Qed.

(** ** Batches of a wrapper

    A batch taken from a synchronized store is the store: what is committed
    through one handle is there for the other.  A batch taken from a transforming
    or failing store works on a clone. *)
Theorem sync_batch_is_the_store `{TxnStore W DS} (V : key -> Prop) `{!TxnSpec V W DS} (s : SyncDataStore DS)
    (h : heap W DS) (k : key) (v : bytes) :
  (exists ds, cells h !! cell s = Some ds /\ t_inv ds (base h)) -> V k ->
  exists b h1 h2 h3, sync_to_batch s h = (Ok b, h) /\
    ds_put b k v h = (Ok tt, b, h1) /\ ds_commit b h1 = (Ok tt, b, h2) /\ ds_get s k h2 = (Ok v, h3).
Proof.
  intros Hi Hk. pose (spec := sync_txn_spec V (W := W) (DS := DS)). exists (mkSync (cell s)).
  assert (Hs : mkSync (cell s) = s) by (by destruct s). rewrite Hs.
  assert (Hput : forall h' r h1, ds_put s k v h = (r, h', h1) -> h' = s).
  { cbn. unfold write_cell. intros h' r h1. destruct (cells h !! cell s); [|congruence].
    destruct (ds_put d k v (base h)) as [[? ?] ?]. congruence. }
  assert (Hcom : forall h1 h' r h2, ds_commit s h1 = (r, h', h2) -> h' = s).
  { cbn. unfold write_cell. intros h1 h' r h2. destruct (cells h1 !! cell s); [|congruence].
    destruct (ds_commit d (base h1)) as [[? ?] ?]. congruence. }
  destruct (t_put (TxnSpec := spec) s k v h Hi Hk) as (s1 & h1 & Hp & Hi1 & Hv1).
  pose proof (Hput _ _ _ Hp) as ->.
  destruct (t_commit (TxnSpec := spec) s h1 Hi1) as (s2 & h2 & Hc & Hi2 & Hv2).
  pose proof (Hcom _ _ _ _ Hc) as ->.
  destruct (t_get (TxnSpec := spec) s k h2 Hi2 Hk) as (r & h3 & Hg & Hf & _).
  exists h1, h2, h3. split; [unfold sync_to_batch; by rewrite Hs|]. split; [done|]. split; [done|].
  destruct (Hv1 k Hk) as [_ Hp1], (Hv2 k Hk) as [_ Hv]. rewrite Hp1, decide_True in Hv by done.
  rewrite Hv in Hf. cbn in Hf. subst r. exact Hg.
Qed.
