(* ===== verification/RocksStats.v ===== *)
(** * [ipfs/datastore-rocksdb/src/rocks/stats.rs]: the database's statistics

    The running counters with the two ways to query them, the derived rates,
    and the parser of the text RocksDB reports its own statistics in.  A
    counter is an [AtomicU64]: [fetch_add] wraps around.  An [Instant] is a
    number of nanoseconds; [now] is the reading the caller got. *)

From Stdlib Require Import ZArith Lia String.
From stdpp Require Import base numbers list gmap.
From S2P Require Import Prelude Decimal F64 Text.

Local Open Scope Z_scope.

Inductive IoStatsKind := Overall | SincePrevious.

(** ** [IoStats] and its rates *)
Record IoStats := mkIoStats {
  io_transactions : Z; io_reads : Z; io_cache_reads : Z; io_writes : Z;
  io_bytes_read : Z; io_cache_read_bytes : Z; io_bytes_written : Z;
  io_started : Z; io_span : Z;
}.

Definition io_empty (now : Z) : IoStats := mkIoStats 0 0 0 0 0 0 0 now 0.

Definition avg_batch_size (s : IoStats) : f64 :=
  if io_writes s =? 0 then f64_zero
  else f64_div (f64_of_int (io_transactions s)) (f64_of_int (io_writes s)).

(** The early return the per-second rates share, and the division. *)
Definition per_sec (s : IoStats) (x : f64) : f64 :=
  if f64_eqb (as_secs_f64 (io_span s)) f64_zero then f64_zero
  else f64_div x (as_secs_f64 (io_span s)).

Definition reads_per_sec (s : IoStats) : f64 := per_sec s (f64_of_int (io_reads s)).
Definition byte_reads_per_sec (s : IoStats) : f64 := per_sec s (f64_of_int (io_bytes_read s)).
Definition writes_per_sec (s : IoStats) : f64 := per_sec s (f64_of_int (io_writes s)).
Definition byte_writes_per_sec (s : IoStats) : f64 := per_sec s (f64_of_int (io_bytes_written s)).
Definition ops_per_sec (s : IoStats) : f64 :=
  per_sec s (f64_add (f64_of_int (io_writes s)) (f64_of_int (io_reads s))).
Definition transactions_per_sec (s : IoStats) : f64 := per_sec s (f64_of_int (io_transactions s)).

Definition avg_transaction_size (s : IoStats) : f64 :=
  if io_transactions s =? 0 then f64_zero
  else f64_div (f64_of_int (io_bytes_written s)) (f64_of_int (io_transactions s)).
Definition cache_hit_ratio (s : IoStats) : f64 :=
  if io_reads s =? 0 then f64_zero
  else f64_div (f64_of_int (io_cache_reads s)) (f64_of_int (io_reads s)).

(** ** The text of RocksDB's statistics *)
Record RocksDBStatsTimeValue := mkTimes { p50 : f64; p95 : f64; p99 : f64; p100 : f64; sum : Z }.
Record RocksDBStatsValue := mkStatsValue { count : Z; times : option RocksDBStatsTimeValue }.

Section Parse.
Context {E : Type}.

(** [values.get(i).expect(PROOF).parse().expect(PROOF)] *)
Definition field {A} (parse : list Z -> option A) (values : list (list Z)) (i : nat) : outcome E A :=
  s <- index_or_panic (values !! i) ;; index_or_panic (parse s).

(** The row comes as the iterator [line.splitn(2, ' ')]. *)
Definition parse_rocksdb_stats_row (row : list Z * option (list Z))
  : outcome E (list Z * RocksDBStatsValue) :=
  let key := trim_start_matches (str "rocksdb.") row.1 in
  values <- index_or_panic row.2 ;;
  value <- (if starts_with (str "COUNT") values then
    n <- index_or_panic (parse_u64 (rsplit_next (str " : ") values)) ;;
    Ok (mkStatsValue n None)
  else
    let vs := filter (fun s => s <> str ":") (split_whitespace values) in
    n <- field parse_u64 vs 9 ;;
    a <- field parse_f64 vs 1 ;;
    b <- field parse_f64 vs 3 ;;
    c <- field parse_f64 vs 5 ;;
    d <- field parse_f64 vs 7 ;;
    t <- field parse_u64 vs 11 ;;
    Ok (mkStatsValue n (Some (mkTimes a b c d t)))) ;;
  Ok (key, value).

(** [.collect()] into a [HashMap]: a later row replaces an earlier one. *)
Fixpoint collect_rows (rows : list (list Z)) (m : gmap (list Z) RocksDBStatsValue)
  : outcome E (gmap (list Z) RocksDBStatsValue) :=
  match rows with
  | [] => Ok m
  | line :: rows' =>
      ' (k, v) <- parse_rocksdb_stats_row (splitn2 32 line) ;; collect_rows rows' (<[k := v]> m)
  end.

Definition parse_rocksdb_stats (stats : list Z) : outcome E (gmap (list Z) RocksDBStatsValue) :=
  collect_rows (lines stats) ∅.
End Parse.

(** ** The counters *)
Record RawDBStats := mkRaw {
  reads : Z; bytes_read : Z; writes : Z; bytes_written : Z; transactions : Z; cache_hit_count : Z;
}.

Definition raw_default : RawDBStats := mkRaw 0 0 0 0 0 0.

Definition combine {E} (ck : bool) (a b : RawDBStats) : outcome E RawDBStats :=
  r <- u_add ck 64 (reads a) (reads b) ;;
  br <- u_add ck 64 (bytes_read a) (bytes_read b) ;;
  w <- u_add ck 64 (writes a) (writes b) ;;
  bw <- u_add ck 64 (bytes_written a) (bytes_written b) ;;
  t <- u_add ck 64 (transactions a) (transactions b) ;;
  c <- u_add ck 64 (cache_hit_count a) (cache_hit_count b) ;;
  Ok (mkRaw r br w bw t c).

Record OverallDBStats := mkOverall { stats : RawDBStats; last_taken : Z; started : Z }.
Definition overall_new (now now' : Z) : OverallDBStats := mkOverall raw_default now now'.

(** The six [AtomicU64]s of [RunningDBStats], and its lock. *)
Record RunningDBStats := mkRunning { current : RawDBStats; overall_lock : OverallDBStats }.
Record TakenDBStats := mkTaken { raw : RawDBStats; taken_started : Z }.

Definition running_new (now now' : Z) : RunningDBStats := mkRunning raw_default (overall_new now now').

Definition with_current (f : RawDBStats -> RawDBStats) (s : RunningDBStats) : RunningDBStats :=
  mkRunning (f (current s)) (overall_lock s).
Definition fetch_add (x v : Z) : Z := trunc 64 (x + v).

Definition tally_reads (v : Z) : RunningDBStats -> RunningDBStats := with_current (fun c =>
  mkRaw (fetch_add (reads c) v) (bytes_read c) (writes c) (bytes_written c) (transactions c) (cache_hit_count c)).
Definition tally_bytes_read (v : Z) : RunningDBStats -> RunningDBStats := with_current (fun c =>
  mkRaw (reads c) (fetch_add (bytes_read c) v) (writes c) (bytes_written c) (transactions c) (cache_hit_count c)).
Definition tally_writes (v : Z) : RunningDBStats -> RunningDBStats := with_current (fun c =>
  mkRaw (reads c) (bytes_read c) (fetch_add (writes c) v) (bytes_written c) (transactions c) (cache_hit_count c)).
Definition tally_bytes_written (v : Z) : RunningDBStats -> RunningDBStats := with_current (fun c =>
  mkRaw (reads c) (bytes_read c) (writes c) (fetch_add (bytes_written c) v) (transactions c) (cache_hit_count c)).
Definition tally_transactions (v : Z) : RunningDBStats -> RunningDBStats := with_current (fun c =>
  mkRaw (reads c) (bytes_read c) (writes c) (bytes_written c) (fetch_add (transactions c) v) (cache_hit_count c)).
Definition tally_cache_hit_count (v : Z) : RunningDBStats -> RunningDBStats := with_current (fun c =>
  mkRaw (reads c) (bytes_read c) (writes c) (bytes_written c) (transactions c) (fetch_add (cache_hit_count c) v)).

(** [take_current] swaps every counter with zero, [peek_current] reads them. *)
Definition take_current (s : RunningDBStats) : RawDBStats * RunningDBStats :=
  (current s, mkRunning raw_default (overall_lock s)).
Definition peek_current (s : RunningDBStats) : RawDBStats := current s.

(** [overall]: the counters are taken even where [combine] then panics. *)
Definition overall {E} (ck : bool) (now : Z) (s : RunningDBStats)
  : outcome E TakenDBStats * RunningDBStats :=
  let '(cur, s) := take_current s in
  let o := overall_lock s in
  match combine ck (stats o) cur with
  | Ok total => (Ok (mkTaken cur (last_taken o)), mkRunning (current s) (mkOverall total now (started o)))
  | Err e => (Err e, s)
  | Panic => (Panic, s)
  | OutOfFuel => (OutOfFuel, s)
  end.

Definition since_previous {E} (ck : bool) (s : RunningDBStats) : outcome E TakenDBStats :=
  let o := overall_lock s in
  total <- combine ck (stats o) (peek_current s) ;;
  Ok (mkTaken total (started o)).

(** ** Lemmas *)

(** One row of a counter, as RocksDB prints it, reads back. *)
Lemma parse_count_row {E} (name : list Z) (n : Z) :
  32 ∉ name -> starts_with (str "rocksdb.") name = false -> 0 <= n < 2 ^ 64 ->
  @parse_rocksdb_stats_row E (splitn2 32 (str "rocksdb." ++ name ++ str " COUNT : " ++ to_decimal n))
  = Ok (name, mkStatsValue n None).
Proof.
  intros Hs Hn Hr.
  assert (Hsplit : splitn2 32 (str "rocksdb." ++ name ++ str " COUNT : " ++ to_decimal n)
    = (str "rocksdb." ++ name, Some (str "COUNT : " ++ to_decimal n))).
  { rewrite (app_assoc (str "rocksdb.")).
    change (str " COUNT : " ++ to_decimal n) with (32 :: (str "COUNT : " ++ to_decimal n)).
    apply splitn2_app. rewrite not_elem_of_app. split; [|done].
    apply (bool_decide_unpack _). vm_compute. exact I. }
  rewrite Hsplit. unfold parse_rocksdb_stats_row.
  assert (Hlast : rsplit_next (str " : ") (str "COUNT : " ++ to_decimal n) = to_decimal n).
  { unfold rsplit_next. change (str "COUNT : ") with (str "COUNT" ++ str " : "). rewrite <- app_assoc.
    rewrite after_last_app; [done|done|].
    destruct (to_decimal_ok n Hr) as [Hd _].
    assert (Hnone : after_last (str " : ") (to_decimal n) = None).
    { apply after_last_none; [done|]. eapply Forall_impl; [exact Hd|]. cbn. unfold digit.
      intros c Hc [= <-]. lia. }
    change (tail (str " : ")) with [58; 32]. cbn [app after_last]. rewrite Hnone.
    destruct (to_decimal n) as [|c l]; [done|]. apply Forall_inv in Hd. unfold digit in Hd.
    change (str " : ") with [32; 58; 32]. cbn [strip_prefix]. change (32 =? 32) with true.
    change (32 =? 58) with false. rewrite (proj2 (Z.eqb_neq 58 c)) by lia. done. }
  unfold fst, snd. rewrite trim_start_once by done. unfold index_or_panic at 1, bind at 1.
  assert (Hstart : starts_with (str "COUNT") (str "COUNT : " ++ to_decimal n) = true).
  { unfold starts_with. change (str "COUNT : ") with (str "COUNT" ++ str " : ").
    by rewrite <- app_assoc, strip_prefix_app. }
  rewrite Hstart, Hlast, parse_to_decimal by done. done.
Qed.

(** The counters that matter to a caller, since the start. *)
Definition total_stats (s : RunningDBStats) : RawDBStats :=
  let a := stats (overall_lock s) in let b := current s in
  mkRaw (reads a + reads b) (bytes_read a + bytes_read b) (writes a + writes b)
    (bytes_written a + bytes_written b) (transactions a + transactions b)
    (cache_hit_count a + cache_hit_count b).

Definition raw_small (r : RawDBStats) : Prop :=
  reads r < 2 ^ 64 /\ bytes_read r < 2 ^ 64 /\ writes r < 2 ^ 64 /\ bytes_written r < 2 ^ 64 /\
  transactions r < 2 ^ 64 /\ cache_hit_count r < 2 ^ 64.

Lemma combine_ok {E} ck a b :
  raw_small (total_stats (mkRunning b (mkOverall a 0 0))) ->
  @combine E ck a b = Ok (total_stats (mkRunning b (mkOverall a 0 0))).
Proof.
  intros (H1 & H2 & H3 & H4 & H5 & H6). cbn in *. unfold combine.
  by rewrite !u_add_ok by done.
Qed.

(** The test of the source's parser. *)
Example parser_test :
  @parse_rocksdb_stats False (str "rocksdb.row.cache.hit COUNT : 1
rocksdb.db.get.micros P50 : 2.000000 P95 : 3.000000 P99 : 4.000000 P100 : 5.000000 COUNT : 0 SUM : 15
") = Ok (<[str "db.get.micros" := mkStatsValue 0 (Some (mkTimes (f64_of_int 2) (f64_of_int 3)
            (f64_of_int 4) (f64_of_int 5) 15))]> {[str "row.cache.hit" := mkStatsValue 1 None]}).
Proof. vm_compute. reflexivity. Qed.
