(* ===== verification/Rocks.v ===== *)
(** * [ipfs/datastore-rocksdb/src/rocks]: the database over RocksDB

    The configuration, the write transactions and [Database]: opening with its
    repair path, reads and writes by column family, columns added and removed,
    closing, statistics.  RocksDB itself and the file system are the class
    [RocksLib], with the documented behaviour the theorems rely on in
    [RocksLaws]; an [Options] value is the list of the settings made on it. *)

From Stdlib Require Import ZArith Lia String.
From stdpp Require Import base numbers list gmap.
From S2P Require Import Prelude Decimal F64 Text RocksStats.

Local Open Scope Z_scope.

Abbreviation bytes := (list Z).

(** ** [compact.rs] and [config.rs] *)
Definition KB : Z := 1024.
Definition MB : Z := 1024 * KB.
Definition DB_DEFAULT_COLUMN_MEMORY_BUDGET_MB : Z := 128.
Definition DB_DEFAULT_MEMORY_BUDGET_MB : Z := 512.

Record CompactionProfile := mkCompaction { initial_file_size : Z; block_size : Z }.
Definition ssd : CompactionProfile := mkCompaction (64 * MB) (16 * KB).
Definition hdd : CompactionProfile := mkCompaction (256 * MB) (64 * KB).
Definition compaction_default : CompactionProfile := ssd.

(** [rotational_from_df_output] and [auto]: [utf8] is [str::from_utf8], [drive]
    the first group the regular expression captures, [df] what the command
    prints where it succeeds, [first_byte] the first byte of a file. *)
Definition rotational_from_df_output (utf8 : bytes -> option bytes) (drive : bytes -> option bytes)
    (df_out : bytes) : option bytes :=
  df_str ← utf8 df_out;
  drive_path ← drive df_str;
  Some (str "/sys/block/" ++ drive_path ++ str "/queue/rotational").

Definition compaction_auto (utf8 drive : bytes -> option bytes) (df : bytes -> option bytes)
    (first_byte : bytes -> option Z) (db_path : bytes) : CompactionProfile :=
  match (out ← df db_path; file ← rotational_from_df_output utf8 drive out; first_byte file) with
  | Some b => if b =? 48 then ssd else if b =? 49 then hdd else compaction_default
  | None => compaction_default
  end.

Definition DEFAULT_COLUMN_NAME : bytes := str "default".
Arguments DEFAULT_COLUMN_NAME : simpl never.

Record DatabaseConfig := mkConfig {
  max_open_files : Z;
  memory_budget_of : gmap bytes Z;
  compaction : CompactionProfile;
  columns : gset bytes;
  keep_log_file_num : Z;
  enable_statistics : bool;
  secondary : option bytes;
}.

Definition config_default : DatabaseConfig :=
  mkConfig 512 ∅ compaction_default {[DEFAULT_COLUMN_NAME]} 1 false None.

(** [with_columns]: the assertion, then the default with those columns. *)
Definition with_columns {E} (cols : list bytes) : outcome E DatabaseConfig :=
  match cols with
  | [] => Panic
  | _ => Ok (mkConfig 512 ∅ compaction_default (list_to_set cols) 1 false None)
  end.

(** ** What is asked of RocksDB *)
Inductive BlockOpt :=
| OBlockSize (n : Z) | ODisableCache | OLruCache (n : Z) | OCacheIndexAndFilterBlocks (b : bool)
| OPinL0FilterAndIndexBlocksInCache (b : bool) | OBloomFilter (bits : Z) (block_based : bool).
Abbreviation BlockBasedOptions := (list BlockOpt).

Inductive Opt :=
| OReportBgIoStats (b : bool) | OEnableStatistics | OUseFsync (b : bool) | OCreateIfMissing (b : bool)
| OMaxOpenFiles (n : Z) | OBytesPerSync (n : Z) | OKeepLogFileNum (n : Z) | OIncreaseParallelism (n : Z)
| OLevelCompactionDynamicLevelBytes (b : bool) | OBlockBasedTableFactory (o : BlockBasedOptions)
| OOptimizeLevelStyleCompaction (n : Z) | OTargetFileSizeBase (n : Z) | OCompressionPerLevel (l : list Z).
Abbreviation Options := (list Opt).

Inductive ReadOpt := OVerifyChecksums (b : bool).
Abbreviation ReadOptions := (list ReadOpt).
Inductive WriteOptions := default_write_options.

(** The entries of a [WriteBatch], oldest first. *)
Inductive batch_op (CF : Type) := BPut (cf : CF) (k v : bytes) | BDelete (cf : CF) (k : bytes).
Arguments BPut {CF}.
Arguments BDelete {CF}.

(** An error of RocksDB is its message, an [io::Error] its text. *)
Class RocksLib (FS : Type) := {
  DB : Type;
  CF : Type;
  db_open_cf_descriptors : Options -> bytes -> list (bytes * Options) -> FS -> outcome bytes DB * FS;
  db_open_cf : Options -> bytes -> list bytes -> FS -> outcome bytes DB * FS;
  db_open_cf_as_secondary : Options -> bytes -> bytes -> list bytes -> FS -> outcome bytes DB * FS;
  db_repair : Options -> bytes -> FS -> outcome bytes unit * FS;
  db_drop : DB -> FS -> FS;
  db_cf_handle : DB -> bytes -> option CF;
  db_create_cf : DB -> bytes -> Options -> FS -> outcome bytes unit * DB * FS;
  db_drop_cf : DB -> bytes -> FS -> outcome bytes unit * DB * FS;
  db_write_opt : DB -> list (batch_op CF) -> WriteOptions -> FS -> outcome bytes unit * FS;
  db_get_pinned_cf_opt : DB -> CF -> bytes -> ReadOptions -> FS -> outcome bytes (option bytes);
  db_property_int_value_cf : DB -> CF -> bytes -> FS -> outcome bytes (option Z);
  opts_get_statistics : Options -> FS -> option (list Z);
  path_exists : bytes -> FS -> bool;
  remove_file : bytes -> FS -> outcome bytes unit * FS;
  file_create : bytes -> FS -> FS;
  instant_now : FS -> Z * FS;
  num_cpus : Z;
  set_iter : gset bytes -> list bytes;  (* the order a [HashSet] iterates in *)
}.

(** Code that works on the file system and may fail. *)
Definition io (FS A : Type) : Type := FS -> outcome bytes A * FS.
Definition io_ret {FS A} (r : outcome bytes A) : io FS A := fun fs => (r, fs).
Definition io_bind {FS A B} (m : io FS A) (k : A -> io FS B) : io FS B := fun fs =>
  let '(r, fs) := m fs in
  match r with
  | Ok a => k a fs
  | Err e => (Err e, fs)
  | Panic => (Panic, fs)
  | OutOfFuel => (OutOfFuel, fs)
  end.
Notation "x <-- m ;; k" := (io_bind m (fun x => k)) (at level 20, m at level 99, k at level 200) : plum_scope.

Definition u_mul {E} (ck : bool) (w a b : Z) : outcome E Z :=
  if a * b <? 2 ^ w then Ok (a * b) else if ck then Panic else Ok (trunc w (a * b)).

(** [Path::join] with a relative name. *)
Definition path_join (p name : bytes) : bytes :=
  match last p with
  | None => name
  | Some c => if c =? 47 then p ++ name else p ++ [47] ++ name
  end.

(** ** [transaction.rs] *)
Inductive DBOp := Insert (col key value : bytes) | DeleteOp (col key : bytes).
Definition op_key (o : DBOp) : bytes := match o with Insert _ k _ => k | DeleteOp _ k => k end.
Definition op_col (o : DBOp) : bytes := match o with Insert c _ _ => c | DeleteOp c _ => c end.

Record DBTransaction := mkTxn { txn_ops : list DBOp }.
Definition txn_with_capacity (cap : Z) : DBTransaction := mkTxn [].
Definition txn_new : DBTransaction := txn_with_capacity 256.
Definition txn_put (t : DBTransaction) (col key value : bytes) : DBTransaction :=
  mkTxn (txn_ops t ++ [Insert col key value]).
Definition txn_delete (t : DBTransaction) (col key : bytes) : DBTransaction :=
  mkTxn (txn_ops t ++ [DeleteOp col key]).
Definition txn_clear (t : DBTransaction) : DBTransaction := mkTxn [].

(** ** [mod.rs] *)
Definition is_corrupted (err : bytes) : bool :=
  starts_with (str "Corruption:") err ||
  starts_with (str "Invalid argument: You have to open all column families") err.

Definition CORRUPTION_FILE_NAME : bytes := str "CORRUPTED".

Section Database.
Context {FS : Type} `{RocksLib FS} (ck : bool).

Definition column_budget {E} (config : DatabaseConfig) (col : bytes) : outcome E Z :=
  u_mul ck 64 (default DB_DEFAULT_COLUMN_MEMORY_BUDGET_MB (memory_budget_of config !! col)) MB.

Fixpoint sum_budgets {E} (config : DatabaseConfig) (cols : list bytes) (acc : Z) : outcome E Z :=
  match cols with
  | [] => Ok acc
  | c :: cols' => b <- column_budget config c ;; s <- u_add ck 64 acc b ;; sum_budgets config cols' s
  end.

Definition memory_budget {E} (config : DatabaseConfig) : outcome E Z :=
  sum_budgets config (set_iter (columns config)) 0.
Definition memory_budget_for_col {E} (config : DatabaseConfig) (col : bytes) : outcome E Z :=
  column_budget config col.

Definition column_config {E} (config : DatabaseConfig) (block_opts : BlockBasedOptions) (col : bytes)
  : outcome E Options :=
  column_mem_budget <- memory_budget_for_col config col ;;
  Ok [OLevelCompactionDynamicLevelBytes true; OBlockBasedTableFactory block_opts;
      OOptimizeLevelStyleCompaction column_mem_budget;
      OTargetFileSizeBase (initial_file_size (compaction config)); OCompressionPerLevel []].

(** [x as i32] *)
Definition as_i32 (x : Z) : Z := let y := trunc 32 x in if y <? 2 ^ 31 then y else y - 2 ^ 32.

Definition generate_options (config : DatabaseConfig) : Options :=
  [OReportBgIoStats true] ++
  (if enable_statistics config then [OEnableStatistics] else []) ++
  [OUseFsync false; OCreateIfMissing true;
   OMaxOpenFiles (match secondary config with Some _ => -1 | None => max_open_files config end);
   OBytesPerSync (1 * MB); OKeepLogFileNum 1;
   OIncreaseParallelism (Z.max 1 (Z.quot (as_i32 num_cpus) 2))].

Definition generate_block_based_options {E} (config : DatabaseConfig) : outcome E BlockBasedOptions :=
  budget <- memory_budget config ;;
  let cache_size := budget / 3 in
  Ok ([OBlockSize (block_size (compaction config))] ++
      (if cache_size =? 0 then [ODisableCache]
       else [OLruCache cache_size; OCacheIndexAndFilterBlocks true; OPinL0FilterAndIndexBlocksInCache true]) ++
      [OBloomFilter 10 true]).

Definition generate_write_options : WriteOptions := default_write_options.
Definition generate_read_options : ReadOptions := [OVerifyChecksums false].

Record DBAndColumns := mkCfs { cfs_db : DB; column_names : gset bytes }.

Definition cf {E} (c : DBAndColumns) (name : bytes) : outcome E CF :=
  index_or_panic (db_cf_handle (cfs_db c) name).

(** [check_for_corruption]: the marker file makes the next [open] repair. *)
Definition check_for_corruption {A} (path : bytes) (res : outcome bytes A) (fs : FS) : outcome bytes A * FS :=
  match res with
  | Err err =>
      (Err err, if is_corrupted err then file_create (path_join path CORRUPTION_FILE_NAME) fs else fs)
  | r => (r, fs)
  end.

Record Database := mkDatabase {
  db : option DBAndColumns;
  config : DatabaseConfig;
  path : bytes;
  opts : Options;
  block_opts : BlockBasedOptions;
  write_opts : WriteOptions;
  read_opts : ReadOptions;
  db_stats : RunningDBStats;
}.

Definition set_db (d : Database) (x : option DBAndColumns) : Database :=
  mkDatabase x (config d) (path d) (opts d) (block_opts d) (write_opts d) (read_opts d) (db_stats d).
Definition set_stats (d : Database) (s : RunningDBStats) : Database :=
  mkDatabase (db d) (config d) (path d) (opts d) (block_opts d) (write_opts d) (read_opts d) s.

(** [config.columns.iter().map(..).collect()] *)
Fixpoint cf_descriptions {E} (cfg : DatabaseConfig) (bo : BlockBasedOptions) (names : list bytes)
  : outcome E (list (bytes * Options)) :=
  match names with
  | [] => Ok []
  | name :: names' =>
      o <- column_config cfg bo name ;; l <- cf_descriptions cfg bo names' ;; Ok ((name, o) :: l)
  end.

(** The loop that creates the families; leaving it drops the handle. *)
Fixpoint create_cfs (cfg : DatabaseConfig) (bo : BlockBasedOptions) (names : list bytes) (x : DB) : io FS DB :=
  match names with
  | [] => io_ret (Ok x)
  | name :: names' => fun fs =>
      match column_config cfg bo name with
      | Ok o =>
          let '(r, x, fs) := db_create_cf x name o fs in
          match r with
          | Ok _ => create_cfs cfg bo names' x fs
          | Err e => (Err e, db_drop x fs)
          | Panic => (Panic, db_drop x fs)
          | OutOfFuel => (OutOfFuel, fs)
          end
      | Err e => (Err e, db_drop x fs)
      | Panic => (Panic, db_drop x fs)
      | OutOfFuel => (OutOfFuel, fs)
      end
  end.

Definition open_primary (o : Options) (p : bytes) (cfg : DatabaseConfig) (bo : BlockBasedOptions) : io FS DB :=
  descs <-- io_ret (cf_descriptions cfg bo (set_iter (columns cfg))) ;;
  fun fs =>
  let '(r, fs) := db_open_cf_descriptors o p descs fs in
  match r with
  | Err _ =>
      let '(r, fs) := db_open_cf o p [] fs in
      match r with
      | Ok x => create_cfs cfg bo (set_iter (columns cfg)) x fs
      | Err err =>
          if is_corrupted err then
            (_ <-- db_repair o p ;;
             descs <-- io_ret (cf_descriptions cfg bo (set_iter (columns cfg))) ;;
             db_open_cf_descriptors o p descs) fs
          else (Err err, fs)
      | r => (r, fs)
      end
  | r => (r, fs)
  end.

Definition open_secondary (o : Options) (p secondary_path : bytes) (cfg : DatabaseConfig) : io FS DB := fun fs =>
  let '(r, fs) := db_open_cf_as_secondary o p secondary_path (set_iter (columns cfg)) fs in
  match r with
  | Err err =>
      if is_corrupted err then
        (_ <-- db_repair o p ;;
         db_open_cf_as_secondary o p secondary_path (set_iter (columns cfg))) fs
      else (Err err, fs)
  | r => (r, fs)
  end.

Definition now : io FS Z := fun fs => let '(t, fs) := instant_now fs in (Ok t, fs).

Definition open (cfg : DatabaseConfig) (p : bytes) : io FS Database :=
  if bool_decide (columns cfg = ∅) then io_ret Panic else
  let o := generate_options cfg in
  bo <-- io_ret (generate_block_based_options cfg) ;;
  let db_corrupted := path_join p CORRUPTION_FILE_NAME in
  _ <-- (fun fs =>
    if path_exists db_corrupted fs then
      (_ <-- db_repair o p ;; remove_file db_corrupted) fs
    else (Ok tt, fs)) ;;
  x <-- (match secondary cfg with
         | Some secondary_path => open_secondary o p secondary_path cfg
         | None => open_primary o p cfg bo
         end) ;;
  t <-- now ;;
  t' <-- now ;;
  io_ret (Ok (mkDatabase (Some (mkCfs x (columns cfg))) cfg p o bo generate_write_options
                generate_read_options (running_new t t'))).

(** The loop of [write]: the batch, and the bytes counted on the way (the
    operations are in memory, so their lengths add up below the width). *)
Fixpoint build_batch {E} (c : DBAndColumns) (l : list DBOp) (batch : list (batch_op CF)) (total : Z)
  : outcome E (list (batch_op CF) * Z) :=
  match l with
  | [] => Ok (batch, total)
  | o :: l' =>
      f <- cf c (op_col o) ;;
      match o with
      | Insert _ k v =>
          build_batch c l' (batch ++ [BPut f k v]) (total + (Z.of_nat (length k) + Z.of_nat (length v)))
      | DeleteOp _ k => build_batch c l' (batch ++ [BDelete f k]) (total + Z.of_nat (length k))
      end
  end.

Definition write (d : Database) (txn : DBTransaction) (fs : FS) : outcome bytes unit * Database * FS :=
  match db d with
  | Some cfs =>
      let s := tally_transactions 1 (tally_writes (Z.of_nat (length (txn_ops txn))) (db_stats d)) in
      match build_batch cfs (txn_ops txn) [] 0 with
      | Ok (batch, total) =>
          let s := tally_bytes_written (trunc 64 total) s in
          let '(res, fs) := db_write_opt (cfs_db cfs) batch (write_opts d) fs in
          let '(r, fs) := check_for_corruption (path d) res fs in
          (r, set_stats d s, fs)
      | Err e => (Err e, set_stats d s, fs)
      | Panic => (Panic, set_stats d s, fs)
      | OutOfFuel => (OutOfFuel, set_stats d s, fs)
      end
  | None => (Err (str "Database is closed"), d, fs)
  end.

Definition get (d : Database) (col key : bytes) (fs : FS) : outcome bytes (option bytes) * Database :=
  match db d with
  | Some cfs =>
      if bool_decide (col ∈ column_names cfs) then
        let s := tally_reads 1 (db_stats d) in
        let value := f <- cf cfs col ;; db_get_pinned_cf_opt (cfs_db cfs) f key (read_opts d) fs in
        let s := match value with
          | Ok (Some val) => tally_bytes_read (Z.of_nat (length key) + Z.of_nat (length val)) s
          | Ok None => tally_bytes_read (Z.of_nat (length key)) s
          | _ => s
          end in
        (value, set_stats d s)
      else (Err (str "non-existing column"), d)
  | None => (Ok None, d)
  end.

(** [close] drops the handle. *)
Definition close (d : Database) (fs : FS) : Database * FS :=
  (set_db d None, match db d with Some c => db_drop (cfs_db c) fs | None => fs end).

Definition num_columns (d : Database) : Z :=
  match db d with
  | Some c => if bool_decide (column_names c = ∅) then 0 else trunc 32 (Z.of_nat (size (column_names c)))
  | None => 0
  end.

Definition num_keys (d : Database) (col : bytes) (fs : FS) : outcome bytes Z :=
  match db d with
  | Some cfs =>
      f <- cf cfs col ;;
      estimate <- db_property_int_value_cf (cfs_db cfs) f (str "rocksdb.estimate-num-keys") fs ;;
      Ok (default 0 estimate)
  | None => Ok 0
  end.

Definition add_column (d : Database) (col : bytes) (fs : FS) : outcome bytes unit * Database * FS :=
  match db d with
  | Some (mkCfs x names) =>
      match column_config (config d) (block_opts d) col with
      | Ok col_opts =>
          let '(r, x, fs) := db_create_cf x col col_opts fs in
          match r with
          | Ok _ => (Ok tt, set_db d (Some (mkCfs x ({[col]} ∪ names))), fs)
          | e => (e, set_db d (Some (mkCfs x names)), fs)
          end
      | Err e => (Err e, d, fs)
      | Panic => (Panic, d, fs)
      | OutOfFuel => (OutOfFuel, d, fs)
      end
  | None => (Ok tt, d, fs)
  end.

(** The name goes first; an error of [drop_cf] does not bring it back. *)
Definition remove_column (d : Database) (col : bytes) (fs : FS) : outcome bytes unit * Database * FS :=
  match db d with
  | Some (mkCfs x names) =>
      if bool_decide (col ∈ names) then
        let '(r, x, fs) := db_drop_cf x col fs in
        (match r with Ok _ => Ok tt | e => e end, set_db d (Some (mkCfs x (names ∖ {[col]}))), fs)
      else (Ok tt, d, fs)
  | None => (Ok tt, d, fs)
  end.

Definition get_statistics {E} (d : Database) (fs : FS) : outcome E (gmap (list Z) RocksDBStatsValue) :=
  match opts_get_statistics (opts d) fs with
  | Some s => parse_rocksdb_stats s
  | None => Ok ∅
  end.

(** [io_stats]; the results that reach it are a panic or a report. *)
Definition io_stats (d : Database) (kind : IoStatsKind) (fs : FS) : outcome bytes IoStats * Database * FS :=
  match get_statistics d fs with
  | Ok rocksdb_stats =>
      let hits := default 0 (count <$> rocksdb_stats !! str "block.cache.hit") in
      let '(t, fs) := instant_now fs in
      let '(o, s) := overall ck t (db_stats d) in
      match (taken <- o ;; u_sub ck 64 hits (cache_hit_count (raw taken))) with
      | Ok delta =>
          let s := tally_cache_hit_count delta s in
          let '(taken, s, fs) := match kind with
            | Overall => let '(t, fs) := instant_now fs in let '(o, s) := overall ck t s in (o, s, fs)
            | SincePrevious => (since_previous ck s, s, fs)
            end in
          let '(t0, fs) := instant_now fs in
          let '(t1, fs) := instant_now fs in
          (x <- taken ;;
           let e := io_empty t0 in
           Ok (mkIoStats (transactions (raw x)) (reads (raw x)) (cache_hit_count (raw x)) (writes (raw x))
                 (bytes_read (raw x)) (io_cache_read_bytes e) (bytes_written (raw x))
                 (taken_started x) (t1 - taken_started x)),
           set_stats d s, fs)
      | Err e => (Err e, set_stats d s, fs)
      | Panic => (Panic, set_stats d s, fs)
      | OutOfFuel => (OutOfFuel, set_stats d s, fs)
      end
  | Err e => (Err e, d, fs)
  | Panic => (Panic, d, fs)
  | OutOfFuel => (OutOfFuel, d, fs)
  end.
End Database.
