(* ===== verification/RocksLaws.v ===== *)
(** * What RocksDB is documented to do, and a reference instance

    [RocksLaws] says of an open handle which column families the database has,
    which of them the handle gives access to, and what each holds: a write batch
    is applied in order and as a whole, a read returns the last value written, a
    family is created once, a database is opened with exactly the families it has
    (the default family always included), which the handle then knows, unless it
    was opened with an empty list of families, when it knows none, and closing
    leaves everything on disk.  A handle is [live] as long as the disk below it
    works: what happens on an I/O error is not said.  [rocks_ref] is a small
    in-memory database that obeys the laws. *)

From Stdlib Require Import ZArith Lia String.
From stdpp Require Import base numbers list gmap.
From S2P Require Import Prelude Decimal F64 Text RocksStats Rocks.

Local Open Scope Z_scope.

(** What a batch makes of the contents. *)
Section Batch.
Context {CF : Type} (cf_name : CF -> bytes).

Definition apply_batch_op (o : batch_op CF) (f : bytes -> bytes -> option bytes) (n k : bytes) : option bytes :=
  match o with
  | BPut c k' v => if decide (n = cf_name c /\ k = k') then Some v else f n k
  | BDelete c k' => if decide (n = cf_name c /\ k = k') then None else f n k
  end.
Definition apply_batch (b : list (batch_op CF)) (f : bytes -> bytes -> option bytes) : bytes -> bytes -> option bytes :=
  fold_left (fun f o => apply_batch_op o f) b f.
Definition op_cf (o : batch_op CF) : CF := match o with BPut c _ _ => c | BDelete c _ => c end.

Lemma apply_batch_ext b f g n k : (forall n k, f n k = g n k) -> apply_batch b f n k = apply_batch b g n k.
Proof.
  unfold apply_batch. revert f g n k. induction b as [|o b IH]; intros f g n k Hfg; cbn; [apply Hfg|].
  apply IH. intros n' k'. destruct o; cbn; case_decide; done.
Qed.
End Batch.

Class RocksLaws (FS : Type) `{RocksLib FS} := {
  live : DB -> FS -> Prop;
  families : DB -> gset bytes;   (* of the database *)
  handles : DB -> gset bytes;    (* the ones [cf_handle] finds *)
  db_path : DB -> bytes;
  cf_name : CF -> bytes;
  contents : DB -> FS -> bytes -> bytes -> option bytes;
  (* what is on disk at a path no handle is open on *)
  unlocked : bytes -> FS -> Prop;
  families_of : bytes -> FS -> gset bytes;
  stored : bytes -> FS -> bytes -> bytes -> option bytes;
  set_iter_perm s : set_iter s ≡ₚ elements s;
  handle_known x n : is_Some (db_cf_handle x n) <-> n ∈ handles x;
  handle_name x n c : db_cf_handle x n = Some c -> cf_name c = n;
  get_law x n c k o fs : live x fs -> db_cf_handle x n = Some c ->
    db_get_pinned_cf_opt x c k o fs = Ok (contents x fs n k);
  write_law x b o fs : live x fs ->
    Forall (fun p => db_cf_handle x (cf_name (op_cf p)) = Some (op_cf p)) b ->
    exists fs', db_write_opt x b o fs = (Ok tt, fs') /\ live x fs' /\
      forall n k, contents x fs' n k = apply_batch cf_name b (contents x fs) n k;
  create_law x n o fs : live x fs -> n ∉ families x ->
    exists x' fs', db_create_cf x n o fs = (Ok tt, x', fs') /\ live x' fs' /\
      families x' = {[n]} ∪ families x /\ handles x' = {[n]} ∪ handles x /\ db_path x' = db_path x /\
      forall n' k, contents x' fs' n' k = if decide (n' = n) then None else contents x fs n' k;
  create_twice x n o fs : live x fs -> n ∈ families x ->
    exists e, db_create_cf x n o fs = (Err e, x, fs);
  drop_law x n fs : live x fs -> n ∈ handles x -> n <> DEFAULT_COLUMN_NAME ->
    exists x' fs', db_drop_cf x n fs = (Ok tt, x', fs') /\ live x' fs' /\
      families x' = families x ∖ {[n]} /\ handles x' = handles x ∖ {[n]} /\ db_path x' = db_path x /\
      forall n' k, n' <> n -> contents x' fs' n' k = contents x fs n' k;
  drop_default x fs : live x fs ->
    exists e x', db_drop_cf x DEFAULT_COLUMN_NAME fs = (Err e, x', fs);
  open_law o p l fs : unlocked p fs -> OCreateIfMissing true ∈ o ->
    {[DEFAULT_COLUMN_NAME]} ∪ list_to_set l.*1 = families_of p fs ->
    exists x fs', db_open_cf_descriptors o p l fs = (Ok x, fs') /\ live x fs' /\ db_path x = p /\
      families x = families_of p fs /\ (l <> [] -> handles x = families_of p fs) /\
      forall n k, contents x fs' n k = stored p fs n k;
  open_mismatch o p l fs : unlocked p fs -> OCreateIfMissing true ∈ o ->
    {[DEFAULT_COLUMN_NAME]} ∪ list_to_set l.*1 <> families_of p fs ->
    exists e fs', db_open_cf_descriptors o p l fs = (Err e, fs') /\ unlocked p fs' /\
      families_of p fs' = families_of p fs /\ forall n k, stored p fs' n k = stored p fs n k;
  open_cf_law o p fs : unlocked p fs -> OCreateIfMissing true ∈ o ->
    families_of p fs = {[DEFAULT_COLUMN_NAME]} ->
    exists x fs', db_open_cf o p [] fs = (Ok x, fs') /\ live x fs' /\ db_path x = p /\
      families x = {[DEFAULT_COLUMN_NAME]} /\ handles x = ∅ /\ forall n k, contents x fs' n k = stored p fs n k;
  close_law x fs : live x fs ->
    unlocked (db_path x) (db_drop x fs) /\ families_of (db_path x) (db_drop x fs) = families x /\
    forall n k, n ∈ families x -> stored (db_path x) (db_drop x fs) n k = contents x fs n k;
  now_law x fs : live x fs ->
    live x (instant_now fs).2 /\ forall n k, contents x (instant_now fs).2 n k = contents x fs n k;
}.

(** ** The reference instance *)
Module Ref.
Abbreviation table := (gmap bytes (gmap bytes bytes)).

Record FS := mkFS { dbs : gmap bytes table; locks : gset bytes; files : gset bytes; clock : Z }.
Record DB := mkDB { dpath : bytes; known : gset bytes }.

Definition table_of (fs : FS) (p : bytes) : table := default {[DEFAULT_COLUMN_NAME := ∅]} (dbs fs !! p).
Definition set_table (fs : FS) (p : bytes) (t : table) : FS :=
  mkFS (<[p := t]> (dbs fs)) (locks fs) (files fs) (clock fs).

Definition put_in (t : table) (n k : bytes) (v : option bytes) : table :=
  alter (partial_alter (fun _ => v) k) n t.
Definition run_op (t : table) (o : batch_op bytes) : table :=
  match o with BPut n k v => put_in t n k (Some v) | BDelete n k => put_in t n k None end.

Definition open_with (p : bytes) (names : list bytes) (fs : FS) : outcome bytes DB * FS :=
  let want := {[DEFAULT_COLUMN_NAME]} ∪ list_to_set names in
  if bool_decide (p ∈ locks fs) then (Err (str "IO error: lock"), fs)
  else if bool_decide (want = dom (table_of fs p)) then
    (Ok (mkDB p match names with [] => ∅ | _ => want end), mkFS (<[p := table_of fs p]> (dbs fs)) ({[p]} ∪ locks fs) (files fs) (clock fs))
  else if bool_decide (want ⊆ dom (table_of fs p)) then
    (Err (str "Invalid argument: You have to open all column families."), fs)
  else (Err (str "Invalid argument: Column family not found"), fs).
End Ref.

#[export] Instance rocks_ref : RocksLib Ref.FS := {|
  DB := Ref.DB;
  CF := bytes;
  db_open_cf_descriptors _ p l fs := Ref.open_with p l.*1 fs;
  db_open_cf _ p l fs := Ref.open_with p l fs;
  db_open_cf_as_secondary _ p _ l fs := (Ok (Ref.mkDB p ({[DEFAULT_COLUMN_NAME]} ∪ list_to_set l)), fs);
  db_repair _ _ fs := (Ok tt, fs);
  db_drop x fs := Ref.mkFS (Ref.dbs fs) (Ref.locks fs ∖ {[Ref.dpath x]}) (Ref.files fs) (Ref.clock fs);
  db_cf_handle x n := if bool_decide (n ∈ Ref.known x) then Some n else None;
  db_create_cf x n _ fs :=
    if bool_decide (n ∈ {[DEFAULT_COLUMN_NAME]} ∪ Ref.known x)
    then (Err (str "Invalid argument: Column family already exists"), x, fs)
    else (Ok tt, Ref.mkDB (Ref.dpath x) ({[n]} ∪ Ref.known x),
          Ref.set_table fs (Ref.dpath x) (<[n := ∅]> (Ref.table_of fs (Ref.dpath x))));
  db_drop_cf x n fs :=
    if bool_decide (n = DEFAULT_COLUMN_NAME) then (Err (str "Invalid argument: Can't drop default column family"), x, fs)
    else if bool_decide (n ∈ Ref.known x)
    then (Ok tt, Ref.mkDB (Ref.dpath x) (Ref.known x ∖ {[n]}),
          Ref.set_table fs (Ref.dpath x) (delete n (Ref.table_of fs (Ref.dpath x))))
    else (Err (str "Invalid column family"), x, fs);
  db_write_opt x b _ fs :=
    (Ok tt, Ref.set_table fs (Ref.dpath x) (fold_left Ref.run_op b (Ref.table_of fs (Ref.dpath x))));
  db_get_pinned_cf_opt x c k _ fs := Ok (t ← Ref.table_of fs (Ref.dpath x) !! c; t !! k);
  db_property_int_value_cf x c _ fs :=
    Ok ((fun t => Z.of_nat (size t)) <$> Ref.table_of fs (Ref.dpath x) !! c);
  opts_get_statistics _ _ := None;
  path_exists p fs := bool_decide (p ∈ Ref.files fs);
  remove_file p fs := (Ok tt, Ref.mkFS (Ref.dbs fs) (Ref.locks fs) (Ref.files fs ∖ {[p]}) (Ref.clock fs));
  file_create p fs := Ref.mkFS (Ref.dbs fs) (Ref.locks fs) ({[p]} ∪ Ref.files fs) (Ref.clock fs);
  instant_now fs := (Ref.clock fs, Ref.mkFS (Ref.dbs fs) (Ref.locks fs) (Ref.files fs) (Ref.clock fs + 1));
  num_cpus := 4;
  set_iter := elements;
|}.

Definition ref_families (x : Ref.DB) : gset bytes := {[DEFAULT_COLUMN_NAME]} ∪ Ref.known x.

(** A handle is live while its database is on disk with the families it knows. *)
Definition ref_live (x : Ref.DB) (fs : Ref.FS) : Prop :=
  dom (Ref.table_of fs (Ref.dpath x)) = ref_families x.

Definition ref_contents (t : Ref.table) (n k : bytes) : option bytes := t ← t !! n; t !! k.

Lemma table_of_set fs p t : Ref.table_of (Ref.set_table fs p t) p = t.
Proof. unfold Ref.table_of, Ref.set_table. cbn. by rewrite lookup_insert_eq. Qed.

Lemma ref_put_in t n k v n' k' :
  n ∈ dom t -> ref_contents (Ref.put_in t n k v) n' k' = if decide (n' = n /\ k' = k) then v else ref_contents t n' k'.
Proof.
  intros Hn. apply elem_of_dom in Hn as [u Hu]. unfold ref_contents, Ref.put_in.
  destruct (decide (n' = n)) as [->|Hne].
  - rewrite lookup_alter_eq, Hu. cbn. destruct (decide (k' = k)) as [->|Hk].
    + rewrite lookup_partial_alter_eq, decide_True by done. done.
    + rewrite lookup_partial_alter_ne, decide_False by naive_solver. done.
  - rewrite lookup_alter_ne, decide_False by naive_solver. done.
Qed.

Lemma ref_run_ops b t n k :
  Forall (fun o => op_cf o ∈ dom t) b ->
  dom (fold_left Ref.run_op b t) = dom t /\
  ref_contents (fold_left Ref.run_op b t) n k = apply_batch (fun c => c) b (ref_contents t) n k.
Proof.
  revert t. induction b as [|o b IH]; intros t Hb; cbn; [done|].
  apply Forall_cons in Hb as [Ho Hb].
  assert (Hd : dom (Ref.run_op t o) = dom t) by (destruct o; cbn; apply dom_alter_L).
  destruct (IH (Ref.run_op t o)) as [H1 H2].
  { eapply Forall_impl; [exact Hb|]. cbn. intros o'. by rewrite Hd. }
  split; [congruence|]. rewrite H2. apply apply_batch_ext. intros n' k'.
  destruct o as [c k0 v|c k0]; cbn in *; by apply ref_put_in.
Qed.

Lemma ref_open_ok p names fs :
  p ∉ Ref.locks fs -> {[DEFAULT_COLUMN_NAME]} ∪ list_to_set names = dom (Ref.table_of fs p) ->
  exists fs', Ref.open_with p names fs
      = (Ok (Ref.mkDB p match names with [] => ∅ | _ => {[DEFAULT_COLUMN_NAME]} ∪ list_to_set names end), fs') /\
    Ref.table_of fs' p = Ref.table_of fs p.
Proof.
  intros Hp Hw. unfold Ref.open_with. rewrite bool_decide_false, bool_decide_true by done.
  eexists. split; [done|]. unfold Ref.table_of at 1. cbn. by rewrite lookup_insert_eq.
Qed.

#[export] Instance rocks_ref_laws : RocksLaws Ref.FS.
Proof.
  refine {| live := ref_live; families := ref_families; handles := Ref.known; db_path := Ref.dpath;
    cf_name := fun c : CF => c;
    contents x fs := ref_contents (Ref.table_of fs (Ref.dpath x));
    unlocked p fs := p ∉ Ref.locks fs;
    families_of p fs := dom (Ref.table_of fs p) ;
    stored p fs := ref_contents (Ref.table_of fs p) |}.
  - done.
  - intros x n. cbn. case_bool_decide; [|split; [by intros []|done]]. by split; eauto.
  - intros x n c. cbn. case_bool_decide; [by intros [= ->]|done].
  - intros x n c k o fs _. cbn. case_bool_decide; [by intros [= ->]|done].
  - intros x b o fs Hl Hb. cbn in *.
    assert (Hd : Forall (fun o => op_cf o ∈ dom (Ref.table_of fs (Ref.dpath x))) b).
    { eapply Forall_impl; [exact Hb|]. cbn. intros p. rewrite Hl. unfold ref_families. case_bool_decide; [set_solver|done]. }
    eexists. split; [done|]. unfold ref_live. rewrite table_of_set.
    split; [by rewrite (proj1 (ref_run_ops b _ [] [] Hd))|]. intros n k. by apply ref_run_ops.
  - intros x n o fs Hl Hn. cbn. rewrite bool_decide_false by done. eexists _, _. split; [done|].
    unfold ref_live. cbn. rewrite table_of_set. repeat split.
    + rewrite dom_insert_L, Hl. unfold ref_families. cbn. set_solver.
    + unfold ref_families. cbn. set_solver.
    + intros n' k. unfold ref_contents. destruct (decide (n' = n)) as [->|].
      * by rewrite lookup_insert_eq.
      * by rewrite lookup_insert_ne.
  - intros x n o fs Hl Hn. cbn. rewrite bool_decide_true by done. by eexists.
  - intros x n fs Hl Hn Hd. cbn. rewrite bool_decide_false by done.
    rewrite bool_decide_true by done. eexists _, _. split; [done|].
    unfold ref_live. cbn. rewrite table_of_set. repeat split.
    + rewrite dom_delete_L, Hl. unfold ref_families. cbn. set_solver.
    + unfold ref_families. cbn. set_solver.
    + intros n' k Hne. unfold ref_contents. by rewrite lookup_delete_ne.
  - intros x fs Hl. cbn. by eexists _, _.
  - intros o p l fs Hu _ Hw. destruct (ref_open_ok p _ fs Hu Hw) as (fs' & Ho & Ht). cbn.
    eexists _, fs'. split; [exact Ho|]. unfold ref_live, ref_families. cbn. rewrite Ht, <- Hw.
    destruct l as [|e l]; cbn; repeat split; try done; set_solver.
  - intros o p l fs Hu _ Hw. cbn. unfold Ref.open_with. rewrite bool_decide_false by done.
    rewrite bool_decide_false by done. case_bool_decide; by eexists _, _.
  - intros o p fs Hu _ Hf. cbn.
    destruct (ref_open_ok p [] fs Hu) as (fs' & Ho & Ht); [set_solver|].
    eexists _, fs'. split; [exact Ho|]. unfold ref_live, ref_families. cbn. rewrite Ht, Hf.
    repeat split; set_solver.
  - intros x fs Hl. cbn. split; [set_solver|]. split; [exact Hl|done].
  - done.
Defined.
