(* ===== verification/RocksStore.v ===== *)
(** * [ipfs/datastore-rocksdb/src/lib.rs]: the datastore over RocksDB

    [RocksDBDataStore], [RocksDBBatchDataStore] and [RocksDBTxnDataStore] hold an
    [Arc<Database>], here the index of a cell of the [heap], so that clones,
    batches and transactions work on the same database.  An open store whose
    database has the default column meets the store contract; a commit applies
    the recorded operations in order and as a whole. *)

From Stdlib Require Import ZArith Lia String.
From stdpp Require Import base numbers list gmap.
From S2P Require Import Prelude Decimal Key DataStore StoreWrappers Text RocksStats Rocks RocksLaws.

Local Open Scope Z_scope.

(** [key_column] *)
Definition key_column (k : key) : bytes := DEFAULT_COLUMN_NAME.

(** [From<io::Error> for DataStoreError] *)
Definition from_io {A} (r : outcome bytes A) : res A := map_err Custom r.

Section Store.
Context {FS : Type} `{RocksLib FS} (ck : bool).

Abbreviation world := (heap FS Database).

Record RocksDBDataStore := mkRocks { rocks_db : nat }.
Record RocksDBBatchDataStore := mkRocksBatch { rb_db : nat; rb_txn : DBTransaction }.
Record RocksDBTxnDataStore := mkRocksTxn { rt_db : nat; rt_txn : DBTransaction }.

(** A method of [Database] through an [Arc]; the cell of a live [Arc] exists. *)
Definition arc_get (i : nat) (col k : bytes) (h : world) : outcome bytes (option bytes) * world :=
  match cells h !! i with
  | Some d => let '(r, d) := get d col k (base h) in (r, mkHeap (<[i := d]> (cells h)) (base h))
  | None => (Panic, h)
  end.
Definition arc_upd {A} (i : nat) (f : Database -> FS -> A * Database * FS) (none : A) (h : world) : A * world :=
  match cells h !! i with
  | Some d => let '(r, d, fs) := f d (base h) in (r, mkHeap (<[i := d]> (cells h)) fs)
  | None => (none, h)
  end.
Definition arc_write (i : nat) (t : DBTransaction) : world -> outcome bytes unit * world :=
  arc_upd i (fun d => write d t) Panic.

(** [Arc::new(Database::open(config, path)?)] *)
Definition open_arc (cfg : DatabaseConfig) (p : bytes) (h : world) : res nat * world :=
  let '(r, fs) := open ck cfg p (base h) in
  match r with
  | Ok d => (Ok (length (cells h)), mkHeap (cells h ++ [d]) fs)
  | Err e => (Err (Custom e), mkHeap (cells h) fs)
  | Panic => (Panic, mkHeap (cells h) fs)
  | OutOfFuel => (OutOfFuel, mkHeap (cells h) fs)
  end.
Definition res_map {A B} (f : A -> B) (x : res A * world) : res B * world :=
  (a <- x.1 ;; Ok (f a), x.2).

Definition rocks_new (cfg : DatabaseConfig) (p : bytes) (h : world) : res RocksDBDataStore * world :=
  res_map mkRocks (open_arc cfg p h).
Definition rocks_batch_new (cfg : DatabaseConfig) (p : bytes) (h : world) : res RocksDBBatchDataStore * world :=
  res_map (fun i => mkRocksBatch i txn_new) (open_arc cfg p h).
Definition rocks_txn_new (cfg : DatabaseConfig) (p : bytes) (h : world) : res RocksDBTxnDataStore * world :=
  res_map (fun i => mkRocksTxn i txn_new) (open_arc cfg p h).

Definition rocks_add_column (s : RocksDBDataStore) (col : bytes) (h : world) : res unit * world :=
  arc_upd (rocks_db s) (fun d fs => let '(r, d, fs) := add_column ck d col fs in (from_io r, d, fs)) Panic h.
Definition rocks_remove_column (s : RocksDBDataStore) (col : bytes) (h : world) : res unit * world :=
  arc_upd (rocks_db s) (fun d fs => let '(r, d, fs) := remove_column d col fs in (from_io r, d, fs)) Panic h.
Definition rocks_num_columns (s : RocksDBDataStore) (h : world) : res Z :=
  d <- index_or_panic (cells h !! rocks_db s) ;; Ok (num_columns d).
Definition rocks_num_keys (s : RocksDBDataStore) (col : bytes) (h : world) : res Z :=
  d <- index_or_panic (cells h !! rocks_db s) ;; from_io (num_keys d col (base h)).
Definition rocks_get_statistics (s : RocksDBDataStore) (h : world) : res (gmap (list Z) RocksDBStatsValue) :=
  d <- index_or_panic (cells h !! rocks_db s) ;; get_statistics d (base h).
Definition rocks_io_stats (s : RocksDBDataStore) (kind : IoStatsKind) (h : world) : outcome bytes IoStats * world :=
  arc_upd (rocks_db s) (fun d fs => io_stats ck d kind fs) Panic h.

(** [DataStoreRead], the same for the three stores. *)
Definition rocks_get (i : nat) (k : key) (h : world) : res bytes * world :=
  let '(r, h) := arc_get i (key_column k) k h in
  (o <- from_io r ;; of_option (NotFound k) o, h).
Definition rocks_has (i : nat) (k : key) (h : world) : res bool * world :=
  let '(r, h) := arc_get i (key_column k) k h in
  (o <- from_io r ;; Ok (bool_decide (is_Some o)), h).
Definition rocks_size (i : nat) (k : key) (h : world) : res Z * world :=
  let '(r, h) := arc_get i (key_column k) k h in
  (o <- from_io r ;; v <- of_option (NotFound k) o ;; Ok (Z.of_nat (length v)), h).

(** [DataStoreWrite for RocksDBDataStore]: a transaction of one operation. *)
Definition rocks_put (s : RocksDBDataStore) (k : key) (v : bytes) (h : world)
  : res unit * RocksDBDataStore * world :=
  let txn := txn_put txn_new (key_column k) k v in
  let '(r, h) := arc_write (rocks_db s) txn h in (from_io r, s, h).
Definition rocks_delete (s : RocksDBDataStore) (k : key) (h : world)
  : res unit * RocksDBDataStore * world :=
  let txn := txn_delete txn_new (key_column k) k in
  let '(r, h) := arc_write (rocks_db s) txn h in (from_io r, s, h).

Definition rocks_close (s : RocksDBDataStore) (h : world) : res unit * RocksDBDataStore * world :=
  let '(r, h) := arc_upd (rocks_db s) (fun d fs => let '(d, fs) := close d fs in (Ok tt, d, fs)) Panic h in
  (r, s, h).

#[export] Instance rocks_store : DataStore world RocksDBDataStore := {|
  ds_get s := rocks_get (rocks_db s);
  ds_has s := rocks_has (rocks_db s);
  ds_size s := rocks_size (rocks_db s);
  ds_put := rocks_put;
  ds_delete := rocks_delete;
  ds_sync s _ h := (Ok tt, s, h);
  ds_close := rocks_close;
|}.

(** [ToBatch], [ToTxn] *)
Definition rocks_batch (s : RocksDBDataStore) : RocksDBBatchDataStore := mkRocksBatch (rocks_db s) txn_new.
Definition rocks_txn (s : RocksDBDataStore) (read_only : bool) : RocksDBTxnDataStore :=
  mkRocksTxn (rocks_db s) txn_new.
Definition rocks_batch_txn (b : RocksDBBatchDataStore) (read_only : bool) : RocksDBTxnDataStore :=
  mkRocksTxn (rb_db b) (rb_txn b).

(** Reads go to the database, past the recorded operations. *)
Definition rocks_batch_get (b : RocksDBBatchDataStore) : key -> world -> res bytes * world := rocks_get (rb_db b).
Definition rocks_batch_has (b : RocksDBBatchDataStore) : key -> world -> res bool * world := rocks_has (rb_db b).
Definition rocks_batch_size (b : RocksDBBatchDataStore) : key -> world -> res Z * world := rocks_size (rb_db b).
Definition rocks_txn_get (t : RocksDBTxnDataStore) : key -> world -> res bytes * world := rocks_get (rt_db t).
Definition rocks_txn_has (t : RocksDBTxnDataStore) : key -> world -> res bool * world := rocks_has (rt_db t).
Definition rocks_txn_size (t : RocksDBTxnDataStore) : key -> world -> res Z * world := rocks_size (rt_db t).

Definition rocks_batch_put (b : RocksDBBatchDataStore) (k : key) (v : bytes) : RocksDBBatchDataStore :=
  mkRocksBatch (rb_db b) (txn_put (rb_txn b) (key_column k) k v).
Definition rocks_batch_delete (b : RocksDBBatchDataStore) (k : key) : RocksDBBatchDataStore :=
  mkRocksBatch (rb_db b) (txn_delete (rb_txn b) (key_column k) k).
Definition rocks_txn_put (t : RocksDBTxnDataStore) (k : key) (v : bytes) : RocksDBTxnDataStore :=
  mkRocksTxn (rt_db t) (txn_put (rt_txn t) (key_column k) k v).
Definition rocks_txn_delete (t : RocksDBTxnDataStore) (k : key) : RocksDBTxnDataStore :=
  mkRocksTxn (rt_db t) (txn_delete (rt_txn t) (key_column k) k).

(** [self.db.write(&self.txn)?; self.txn.clear()] *)
Definition commit_arc (i : nat) (t : DBTransaction) (h : world) : res unit * DBTransaction * world :=
  let '(r, h) := arc_write i t h in
  match r with Ok _ => (Ok tt, txn_clear t, h) | r => (from_io r, t, h) end.
Definition rocks_batch_commit (b : RocksDBBatchDataStore) (h : world)
  : res unit * RocksDBBatchDataStore * world :=
  let '(r, t, h) := commit_arc (rb_db b) (rb_txn b) h in (r, mkRocksBatch (rb_db b) t, h).
Definition rocks_txn_commit (b : RocksDBTxnDataStore) (h : world)
  : res unit * RocksDBTxnDataStore * world :=
  let '(r, t, h) := commit_arc (rt_db b) (rt_txn b) h in (r, mkRocksTxn (rt_db b) t, h).
Definition rocks_txn_discard (t : RocksDBTxnDataStore) (h : world)
  : res unit * RocksDBTxnDataStore * world :=
  (Ok tt, mkRocksTxn (rt_db t) (txn_clear (rt_txn t)), h).

(** [db()]: the handles of a store, a batch and a transaction. *)
Definition rocks_handle (s : RocksDBDataStore) : nat := rocks_db s.
Definition rocks_batch_handle (b : RocksDBBatchDataStore) : nat := rb_db b.
Definition rocks_txn_handle (t : RocksDBTxnDataStore) : nat := rt_db t.

(** ** The contract *)
Context `{!RocksLaws FS}.

(** The database of cell [i] is open, RocksDB's handle works and knows the default
    column, and that is one of the store's columns. *)
Definition usable (i : nat) (h : world) : Prop :=
  exists d c, cells h !! i = Some d /\ db d = Some c /\ live (cfs_db c) (base h) /\
    DEFAULT_COLUMN_NAME ∈ handles (cfs_db c) /\ DEFAULT_COLUMN_NAME ∈ column_names c.

Definition rocks_view (i : nat) (h : world) (k : key) : option bytes :=
  match cells h !! i with
  | Some d => match db d with
              | Some c => contents (cfs_db c) (base h) DEFAULT_COLUMN_NAME k
              | None => None
              end
  | None => None
  end.

(** The operations of a transaction, seen from the default column. *)
Definition op_result (f : key -> option bytes) (o : DBOp) (k : key) : option bytes :=
  match o with
  | Insert _ k' v => if decide (k = k') then Some v else f k
  | DeleteOp _ k' => if decide (k = k') then None else f k
  end.
Definition ops_result (l : list DBOp) (f : key -> option bytes) : key -> option bytes := fold_left op_result l f.

Definition in_default (l : list DBOp) : Prop := Forall (fun o => op_col o = DEFAULT_COLUMN_NAME) l.

Lemma known_handle (x : DB) (n : bytes) : n ∈ handles x -> exists c, db_cf_handle x n = Some c.
Proof. apply handle_known. Qed.

Lemma ops_result_ext l f g k : (forall k, f k = g k) -> ops_result l f k = ops_result l g k.
Proof.
  unfold ops_result. revert f g k. induction l as [|o l IH]; intros f g k Hfg; cbn; [apply Hfg|].
  apply IH. intros k'. destruct o; cbn; case_decide; done.
Qed.

(** The batch entry of an operation on the family [f]. *)
Definition entry (f : CF) (o : DBOp) : batch_op CF :=
  match o with Insert _ k v => BPut f k v | DeleteOp _ k => BDelete f k end.

Lemma apply_entry (f : CF) (o : DBOp) g k :
  apply_batch_op cf_name (entry f o) g (cf_name f) k = op_result (g (cf_name f)) o k.
Proof.
  destruct o as [c k' v|c k']; unfold entry, apply_batch_op, op_result; repeat case_decide; naive_solver.
Qed.

(** With every operation on the default column the batch is built, and does
    what the operations say. *)
Lemma build_batch_default {E} (c : DBAndColumns) (f : CF) l b n :
  db_cf_handle (cfs_db c) DEFAULT_COLUMN_NAME = Some f -> in_default l ->
  exists n', @build_batch FS _ E c l b n = Ok (b ++ map (entry f) l, n').
Proof.
  intros Hf Hl. revert b n. induction Hl as [|o l Ho Hl IH]; intros b n; cbn [build_batch map].
  - exists n. by rewrite app_nil_r.
  - unfold cf. rewrite Ho, Hf. cbn [index_or_panic bind].
    replace (b ++ entry f o :: map (entry f) l) with ((b ++ [entry f o]) ++ map (entry f) l)
      by by rewrite <- app_assoc.
    destruct o; apply IH.
Qed.

Lemma apply_entries (f : CF) l g k :
  apply_batch cf_name (map (entry f) l) g (cf_name f) k = ops_result l (g (cf_name f)) k.
Proof.
  unfold apply_batch, ops_result. revert g k. induction l as [|o l IH]; intros g k; cbn; [done|].
  rewrite IH. apply ops_result_ext. intros k'. apply apply_entry.
Qed.

(** A write on an open database. *)
Lemma arc_write_spec i h t :
  usable i h -> in_default (txn_ops t) ->
  exists h', arc_write i t h = (Ok tt, h') /\ usable i h' /\
    forall k, rocks_view i h' k = ops_result (txn_ops t) (rocks_view i h) k.
Proof.
  intros (d & c & Hd & Hc & Hl & Hh & Hcol) Ht. unfold arc_write, arc_upd. rewrite Hd. unfold write. rewrite Hc.
  destruct (known_handle (cfs_db c) _ Hh) as [f Hf].
  destruct (build_batch_default (E := bytes) c f (txn_ops t) [] 0 Hf Ht) as (n & ->). cbn [app].
  assert (Hname : cf_name f = DEFAULT_COLUMN_NAME) by exact (handle_name _ _ _ Hf).
  destruct (write_law (cfs_db c) (map (entry f) (txn_ops t)) (write_opts d) (base h) Hl) as (fs' & -> & Hl' & Hres).
  { apply Forall_map, Forall_true. intros o. replace (op_cf (entry f o)) with f by by destruct o. by rewrite Hname. }
  cbn. assert (i < length (cells h))%nat by (by eapply lookup_lt_Some).
  eexists. split; [done|]. split.
  - eexists _, c. cbn. rewrite list_lookup_insert_eq by done. by repeat split.
  - intros k. unfold rocks_view. cbn. rewrite list_lookup_insert_eq by done. cbn. rewrite Hc, Hd, Hc, Hres.
    rewrite <- Hname. apply apply_entries.
Qed.

(** A read on an open database. *)
Lemma arc_get_spec i h k :
  usable i h ->
  exists h', arc_get i DEFAULT_COLUMN_NAME k h = (Ok (rocks_view i h k), h') /\ usable i h' /\
    forall k, rocks_view i h' k = rocks_view i h k.
Proof.
  intros (d & c & Hd & Hc & Hl & Hh & Hcol). unfold arc_get. rewrite Hd. unfold get. rewrite Hc.
  rewrite bool_decide_true by done. destruct (known_handle (cfs_db c) _ Hh) as [f Hf].
  unfold cf. rewrite Hf. cbn [index_or_panic bind].
  rewrite (get_law (cfs_db c) DEFAULT_COLUMN_NAME f k (read_opts d) (base h) Hl Hf).
  assert (i < length (cells h))%nat by (by eapply lookup_lt_Some).
  eexists. split; [|split].
  - unfold rocks_view. rewrite Hd, Hc. done.
  - eexists _, c. cbn. rewrite list_lookup_insert_eq by done. by repeat split.
  - intros k'. unfold rocks_view. cbn. rewrite list_lookup_insert_eq by done. cbn. by rewrite Hc, Hd, Hc.
Qed.

Local Ltac read k h :=
  let H := fresh in
  destruct (arc_get_spec _ h k ltac:(eassumption)) as (h' & H & Hu & Hv); unfold key_column; rewrite H; clear H.

#[export] Instance rocks_spec : StoreSpec (fun _ => True) world RocksDBDataStore.
Proof.
  refine {| inv s h := usable (rocks_db s) h; stays_open := False; view s := rocks_view (rocks_db s) |}; cbn.
  - intros s k h Hi _. unfold rocks_get. read k h. eexists _, _. split; [done|]. split; [|done].
    cbn. destruct (rocks_view (rocks_db s) h k); cbn; [done|by eexists].
  - intros s k h Hi _. unfold rocks_has. read k h. by eexists.
  - intros s k h Hi _. unfold rocks_size. read k h. eexists _, _. split; [done|]. split; [|done].
    cbn. destruct (rocks_view (rocks_db s) h k); cbn; [done|by eexists].
  - intros s k v h Hi _. unfold rocks_put.
    destruct (arc_write_spec _ h (txn_put txn_new (key_column k) k v) Hi) as (h' & -> & Hu & Hv);
      [by repeat constructor|]. eexists _, _. split; [done|]. by split.
  - intros s k h Hi _. unfold rocks_delete.
    destruct (arc_write_spec _ h (txn_delete txn_new (key_column k) k) Hi) as (h' & -> & Hu & Hv);
      [by repeat constructor|]. eexists _, _. split; [done|]. by split.
  - intros s k h Hi _. eexists _, _. split; [done|]. by split.
  - done.
Defined.
End Store.
