(* ===== verification/RocksTheorems.v ===== *)
(** * What the RocksDB datastore guarantees *)

From Stdlib Require Import ZArith Lia String.
From stdpp Require Import base numbers list gmap.
From S2P Require Import Prelude Decimal F64 Key DataStore StoreWrappers StoreTheorems Text RocksStats Rocks RocksLaws RocksStore.

Local Open Scope Z_scope.

(** ** Opening *)
Section Open.
Context {FS : Type} `{RocksLaws FS} (ck : bool).

(** No memory budget of the configuration overflows. *)
Definition budgets_ok (cfg : DatabaseConfig) : Prop :=
  (exists b, @memory_budget FS _ ck bytes cfg = Ok b) /\
  forall col, exists b, @column_budget ck bytes cfg col = Ok b.

Lemma column_config_ok cfg bo col :
  budgets_ok cfg -> exists o, @column_config ck bytes cfg bo col = Ok o.
Proof.
  intros [_ Hb]. unfold column_config, memory_budget_for_col. destruct (Hb col) as [b ->]. by eexists.
Qed.

Lemma block_options_ok cfg :
  budgets_ok cfg -> exists bo, @generate_block_based_options FS _ ck bytes cfg = Ok bo.
Proof. intros [[b Hb] _]. unfold generate_block_based_options. rewrite Hb. by eexists. Qed.

Lemma cf_descriptions_ok cfg bo names :
  budgets_ok cfg -> exists l, @cf_descriptions ck bytes cfg bo names = Ok l /\ l.*1 = names.
Proof.
  intros Hb. induction names as [|n names IH]; cbn; [by exists []|].
  destruct (column_config_ok cfg bo n Hb) as [o ->]. destruct IH as (l & -> & Hl).
  eexists. split; [done|]. cbn. by rewrite Hl.
Qed.

Lemma create_if_missing cfg : OCreateIfMissing true ∈ generate_options cfg.
Proof. unfold generate_options. rewrite !elem_of_app, !elem_of_cons. tauto. Qed.

(** The families of the configuration, created on a handle that has none of
    them. *)
Lemma create_cfs_new cfg bo names x fs :
  budgets_ok cfg -> live x fs -> NoDup names -> Forall (fun n => n ∉ families x) names ->
  exists x' fs', create_cfs ck cfg bo names x fs = (Ok x', fs') /\ live x' fs' /\
    families x' = list_to_set names ∪ families x /\ handles x' = list_to_set names ∪ handles x /\ db_path x' = db_path x /\
    forall n k, n ∉ names -> contents x' fs' n k = contents x fs n k.
Proof.
  intros Hb. revert x fs. induction names as [|n names IH]; intros x fs Hl Hnd Hnew; cbn.
  - exists x, fs. split; [done|]. split; [done|]. split; [set_solver|]. split; [set_solver|done].
  - apply NoDup_cons in Hnd as [Hn Hnd]. apply Forall_cons in Hnew as [Hx Hnew].
    destruct (column_config_ok cfg bo n Hb) as [o ->].
    destruct (create_law x n o fs Hl Hx) as (x1 & fs1 & -> & Hl1 & Hf1 & Hh1 & Hp1 & Hc1).
    destruct (IH x1 fs1 Hl1 Hnd) as (x2 & fs2 & -> & Hl2 & Hf2 & Hh2 & Hp2 & Hc2).
    { eapply Forall_impl; [apply Forall_and; split; [exact Hnew|apply Forall_forall; intros m Hm; exact Hm]|].
      cbn. intros m [Hm Hin]. rewrite Hf1. set_solver. }
    exists x2, fs2. split; [done|]. split; [done|]. split; [rewrite Hf2, Hf1; set_solver|].
    split; [rewrite Hh2, Hh1; set_solver|]. split; [congruence|]. intros m k Hm. apply not_elem_of_cons in Hm as [Hm1 Hm2].
    rewrite Hc2, Hc1 by done. by rewrite decide_False.
Qed.

(** A family of the list that is already there makes the loop fail. *)
Lemma create_cfs_twice cfg bo names x fs n :
  budgets_ok cfg -> live x fs -> NoDup names -> n ∈ names -> n ∈ families x ->
  exists e fs', create_cfs ck cfg bo names x fs = (Err e, fs').
Proof.
  intros Hb. revert x fs. induction names as [|m names IH]; intros x fs Hl Hnd Hn Hx; cbn; [set_solver|].
  apply NoDup_cons in Hnd as [Hm Hnd]. destruct (column_config_ok cfg bo m Hb) as [o ->].
  destruct (decide (m ∈ families x)) as [Hmx|Hmx].
  - destruct (create_twice x m o fs Hl Hmx) as [e ->]. by eexists _, _.
  - destruct (create_law x m o fs Hl Hmx) as (x1 & fs1 & -> & Hl1 & Hf1 & _).
    apply IH; [done|done|set_solver|set_solver].
Qed.

(** A primary database of a directory that is new, or has the default family
    only: what [open_primary] makes of the configured columns. *)
Lemma open_primary_fresh o p cfg bo fs :
  budgets_ok cfg -> OCreateIfMissing true ∈ o -> unlocked p fs ->
  families_of p fs = {[DEFAULT_COLUMN_NAME]} -> columns cfg <> ∅ ->
  if decide (columns cfg = {[DEFAULT_COLUMN_NAME]} \/ DEFAULT_COLUMN_NAME ∉ columns cfg) then
    exists x fs', open_primary ck o p cfg bo fs = (Ok x, fs') /\ live x fs' /\ db_path x = p /\
      families x = {[DEFAULT_COLUMN_NAME]} ∪ columns cfg /\ handles x = columns cfg /\
      forall k, contents x fs' DEFAULT_COLUMN_NAME k = stored p fs DEFAULT_COLUMN_NAME k
  else exists e fs', open_primary ck o p cfg bo fs = (Err e, fs').
Proof.
  intros Hb Ho Hu Hf Hne. unfold open_primary, io_bind, io_ret.
  destruct (cf_descriptions_ok cfg bo (set_iter (columns cfg)) Hb) as (l & -> & Hl).
  assert (Hset : list_to_set (set_iter (columns cfg)) = columns cfg).
  { apply set_eq. intros n. rewrite elem_of_list_to_set, set_iter_perm. apply elem_of_elements. }
  assert (Hnd : NoDup (set_iter (columns cfg))) by (rewrite set_iter_perm; apply NoDup_elements).
  destruct (decide (columns cfg = {[DEFAULT_COLUMN_NAME]})) as [Heq|Heq].
  - rewrite decide_True by tauto.
    destruct (open_law o p l fs Hu Ho) as (x & fs' & -> & Hl' & Hp & Hfam & Hh & Hc); [rewrite Hl, Hset, Heq, Hf; set_solver|].
    assert (Hne' : l <> []) by (intros ->; apply Hne; by rewrite <- Hset, <- Hl).
    exists x, fs'. split; [done|]. split; [done|]. split; [done|]. split; [rewrite Hfam, Hf, Heq; set_solver|].
    split; [by rewrite Hh, Hf by done|]. done.
  - destruct (open_mismatch o p l fs Hu Ho) as (e & fs1 & -> & Hu1 & Hf1 & Hs1).
    { rewrite Hl, Hset, Hf. intros He. apply Heq. apply set_eq. intros n.
      apply set_choose_L in Hne as [m Hm]. set_solver. }
    rewrite Hf in Hf1.
    destruct (open_cf_law o p fs1 Hu1 Ho Hf1) as (x & fs2 & -> & Hl2 & Hp2 & Hf2 & Hh2 & Hc2).
    case_decide as Hd.
    + destruct Hd as [|Hd]; [done|].
      destruct (create_cfs_new cfg bo (set_iter (columns cfg)) x fs2 Hb Hl2 Hnd) as (x3 & fs3 & -> & Hl3 & Hf3 & Hh3 & Hp3 & Hc3).
      { apply Forall_forall. intros n Hn. rewrite set_iter_perm in Hn. apply elem_of_elements in Hn.
        rewrite Hf2. set_solver. }
      exists x3, fs3. split; [done|]. split; [done|]. split; [congruence|].
      split; [rewrite Hf3, Hset, Hf2; set_solver|]. split; [rewrite Hh3, Hset, Hh2; set_solver|].
      intros k. rewrite Hc3, Hc2, Hs1; [done|]. rewrite set_iter_perm, elem_of_elements. done.
    + apply (create_cfs_twice cfg bo _ x fs2 DEFAULT_COLUMN_NAME Hb Hl2 Hnd).
      * rewrite set_iter_perm, elem_of_elements. destruct (decide (DEFAULT_COLUMN_NAME ∈ columns cfg)); tauto.
      * rewrite Hf2. set_solver.
Qed.

(** The rest of [open], where the primary handle was opened. *)
Lemma open_of_primary cfg p fs :
  columns cfg <> ∅ -> budgets_ok cfg -> secondary cfg = None ->
  path_exists (path_join p CORRUPTION_FILE_NAME) fs = false ->
  exists bo, 
    match open_primary ck (generate_options cfg) p cfg bo fs with
    | (Ok x, fs1) => live x fs1 ->
        exists d fs2, open ck cfg p fs = (Ok d, fs2) /\ db d = Some (mkCfs x (columns cfg)) /\ live x fs2 /\
          forall n k, contents x fs2 n k = contents x fs1 n k
    | (Err e, fs1) => open ck cfg p fs = (Err e, fs1)
    | _ => True
    end.
Proof.
  intros Hne Hb Hs Hm. destruct (block_options_ok cfg Hb) as [bo Hbo]. exists bo.
  unfold open. rewrite bool_decide_false by done. unfold io_bind, io_ret. rewrite Hbo, Hm, Hs.
  destruct (open_primary ck (generate_options cfg) p cfg bo fs) as [[x|e| |] fs1]; [|done..].
  intros Hl. unfold now. destruct (now_law x fs1 Hl) as [Hl1 Hc1]. destruct (instant_now fs1) as [t1 fs2] eqn:E1.
  destruct (now_law x fs2 Hl1) as [Hl2 Hc2]. cbn in *. destruct (instant_now fs2) as [t2 fs3] eqn:E2.
  eexists _, fs3. split; [done|]. split; [done|]. split; [done|]. intros n k. cbn in *. by rewrite Hc2, Hc1.
Qed.

(** C30: A fresh directory can be opened with the default column alone, or with
    columns that do not include it, and then it has access to exactly those
    columns; with the default column and any other one
    the database cannot be opened at all, whatever order the columns come in,
    because the retry creates the default family a second time. *)
Theorem fresh_open_iff (cfg : DatabaseConfig) (p : bytes) (fs : FS) :
  columns cfg <> ∅ -> budgets_ok cfg -> secondary cfg = None ->
  path_exists (path_join p CORRUPTION_FILE_NAME) fs = false ->
  unlocked p fs -> families_of p fs = {[DEFAULT_COLUMN_NAME]} ->
  if decide (columns cfg = {[DEFAULT_COLUMN_NAME]} \/ DEFAULT_COLUMN_NAME ∉ columns cfg) then
    exists d x fs', open ck cfg p fs = (Ok d, fs') /\ db d = Some (mkCfs x (columns cfg)) /\ live x fs' /\
      families x = {[DEFAULT_COLUMN_NAME]} ∪ columns cfg /\ handles x = columns cfg
  else exists e fs', open ck cfg p fs = (Err e, fs').
Proof.
  intros Hne Hb Hs Hm Hu Hf. destruct (open_of_primary cfg p fs Hne Hb Hs Hm) as [bo Hopen].
  pose proof (open_primary_fresh (generate_options cfg) p cfg bo fs Hb (create_if_missing cfg) Hu Hf Hne) as Hp.
  case_decide.
  - destruct Hp as (x & fs1 & Hp & Hl & _ & Hfam & Hh & _). rewrite Hp in Hopen.
    destruct (Hopen Hl) as (d & fs2 & Ho & Hd & Hl2 & _). by exists d, x, fs2.
  - destruct Hp as (e & fs1 & Hp). rewrite Hp in Hopen. by exists e, fs1.
Qed.

(** An existing database opened with the columns it has. *)
Lemma open_existing cfg p fs :
  columns cfg <> ∅ -> budgets_ok cfg -> secondary cfg = None ->
  path_exists (path_join p CORRUPTION_FILE_NAME) fs = false ->
  unlocked p fs -> {[DEFAULT_COLUMN_NAME]} ∪ columns cfg = families_of p fs ->
  exists d x fs', open ck cfg p fs = (Ok d, fs') /\ db d = Some (mkCfs x (columns cfg)) /\ live x fs' /\
    handles x = families_of p fs /\ forall n k, contents x fs' n k = stored p fs n k.
Proof.
  intros Hne Hb Hs Hm Hu Hf. destruct (open_of_primary cfg p fs Hne Hb Hs Hm) as [bo Hopen].
  destruct (cf_descriptions_ok cfg bo (set_iter (columns cfg)) Hb) as (l & Hdesc & Hl).
  assert (Hset : list_to_set (set_iter (columns cfg)) = columns cfg).
  { apply set_eq. intros n. rewrite elem_of_list_to_set, set_iter_perm. apply elem_of_elements. }
  destruct (open_law (generate_options cfg) p l fs Hu (create_if_missing cfg)) as (x & fs1 & Ho & Hl1 & _ & _ & Hh & Hc);
    [by rewrite Hl, Hset|].
  assert (Hne' : l <> []) by (intros ->; apply Hne; by rewrite <- Hset, <- Hl).
  unfold open_primary, io_bind, io_ret in Hopen. rewrite Hdesc, Ho in Hopen.
  destruct (Hopen Hl1) as (d & fs2 & Hd & Hdb & Hl2 & Hc2). exists d, x, fs2.
  split; [done|]. split; [done|]. split; [done|]. split; [by apply Hh|]. intros n k. by rewrite Hc2.
Qed.
End Open.

(** An empty file system. *)
Definition ref_fs : Ref.FS := Ref.mkFS ∅ ∅ ∅ 0.

Lemma ref_budgets_ok cols : (exists b, @memory_budget Ref.FS _ true bytes
    (mkConfig 512 ∅ compaction_default cols 1 false None) = Ok b) ->
  budgets_ok (FS := Ref.FS) true (mkConfig 512 ∅ compaction_default cols 1 false None).
Proof. intros Hm. split; [exact Hm|]. intros col. unfold column_budget. cbn -[u_mul]. rewrite lookup_empty. by eexists. Qed.

Definition two_columns : DatabaseConfig :=
  mkConfig 512 ∅ compaction_default {[DEFAULT_COLUMN_NAME; str "blocks"]} 1 false None.

Lemma fresh_open_iff_witness :
  exists e fs', open true two_columns (str "/db") ref_fs = (Err e, fs').
Proof.
  assert (Hn : ~ (columns two_columns = {[DEFAULT_COLUMN_NAME]} \/ DEFAULT_COLUMN_NAME ∉ columns two_columns))
    by (apply (bool_decide_unpack _); vm_compute; exact I).
  generalize (fresh_open_iff true two_columns (str "/db") ref_fs).
  rewrite decide_False by exact Hn. intros Ht. apply Ht.
  - apply (bool_decide_unpack _). vm_compute. exact I.
  - apply ref_budgets_ok. eexists. vm_compute. reflexivity.
  - done.
  - done.
  - cbn. set_solver.
  - apply (bool_decide_unpack _). vm_compute. exact I.
Defined.

(** ** The store *)
Section StoreGuarantees.
Context {FS : Type} `{RocksLaws FS} (ck : bool).

(** C9: A RocksDB datastore is a map: as long as it is open and has the default
    column, every sequence of gets, puts, deletes and syncs gets the answers an
    abstract map gives and leaves the abstract map's contents. *)
Theorem rocks_refines_map (cs : list cmd) (s : RocksDBDataStore) (h : heap FS Database) (f : key -> option bytes) :
  usable (rocks_db s) h -> Forall (cmd_ok (fun _ => True) False) cs -> (forall k, rocks_view (rocks_db s) h k = f k) ->
  exists s' h', run cs s h = ((abs_run cs f).1, s', h') /\ usable (rocks_db s') h' /\
    forall k, rocks_view (rocks_db s') h' k = (abs_run cs f).2 k.
Proof.
  intros Hu Hcs Hf. destruct (run_refines (fun _ => True) (StoreSpec0 := rocks_spec) cs s h f Hu Hcs) as (s' & h' & Hr & Hi & Hv);
    [intros k _; apply Hf|].
  exists s', h'. split; [done|]. split; [done|]. intros k. by apply Hv.
Qed.

(** Recording operations: [Some] is a put, [None] a delete. *)
Definition record (b : RocksDBBatchDataStore) (o : key * option bytes) : RocksDBBatchDataStore :=
  match o with (k, Some v) => rocks_batch_put b k v | (k, None) => rocks_batch_delete b k end.
Definition recorded (l : list (key * option bytes)) (f : key -> option bytes) (k : key) : option bytes :=
  fold_left (fun acc o => if decide (k = o.1) then o.2 else acc) l (f k).

Definition op_of (o : key * option bytes) : DBOp :=
  match o with (k, Some v) => Insert DEFAULT_COLUMN_NAME k v | (k, None) => DeleteOp DEFAULT_COLUMN_NAME k end.

Lemma record_ops l b :
  fold_left record l b = mkRocksBatch (rb_db b) (mkTxn (txn_ops (rb_txn b) ++ map op_of l)).
Proof.
  revert b. induction l as [|[k [v|]] l IH]; intros b; cbn.
  - rewrite app_nil_r. by destruct b as [i [l]].
  - rewrite IH. cbn. by rewrite <- app_assoc.
  - rewrite IH. cbn. by rewrite <- app_assoc.
Qed.

Lemma ops_result_recorded l f k : ops_result (map op_of l) f k = recorded l f k.
Proof.
  unfold ops_result, recorded. revert f. induction l as [|[k' [v|]] l IH]; intros f; cbn; [done|..];
    rewrite IH; f_equal; by destruct (decide (k = k')).
Qed.

(** A batch of an open store: whatever was recorded, its reads answer as the
    store's; its commit succeeds, applies all operations in the order they were
    recorded, so that the last one for a key counts, empties the batch, and the
    store it came from sees the result. *)
Theorem rocks_batch_commits (s : RocksDBDataStore) (l : list (key * option bytes)) (h : heap FS Database) (k : key) :
  usable (rocks_db s) h ->
  let b := fold_left record l (rocks_batch s) in
  rocks_batch_get b k h = ds_get s k h /\
  exists h', rocks_batch_commit b h = (Ok tt, mkRocksBatch (rocks_db s) (mkTxn []), h') /\
    usable (rocks_db s) h' /\
    (rocks_get (rocks_db s) k h').1 = of_option (NotFound k) (recorded l (rocks_view (rocks_db s) h) k).
Proof.
  intros Hu b. unfold b. rewrite record_ops. cbn [rb_db rb_txn rocks_batch txn_ops txn_new txn_with_capacity app].
  split; [done|]. unfold rocks_batch_commit, commit_arc. cbn [rb_db rb_txn].
  destruct (arc_write_spec (rocks_db s) h (mkTxn (map op_of l)) Hu) as (h' & -> & Hu' & Hv).
  { apply Forall_map, Forall_true. by intros [k' [v|]]. }
  eexists. split; [done|]. split; [done|]. unfold rocks_get, key_column.
  destruct (arc_get_spec (rocks_db s) h' k Hu') as (h2 & -> & _ & _). cbn [from_io map_err bind fst].
  rewrite Hv. cbn [txn_ops]. by rewrite ops_result_recorded.
Qed.

(** Closing through one handle closes the database for all of them: reads
    find nothing, [has] is false, and writes and commits fail without touching
    anything, the batch keeping its operations. *)
Theorem rocks_closed (s : RocksDBDataStore) (b : RocksDBBatchDataStore) (d : Database) (h : heap FS Database)
    (k : key) (v : bytes) :
  cells h !! rocks_db s = Some d -> rb_db b = rocks_db s ->
  let h' := (ds_close s h).2 in
  (ds_close s h).1.1 = Ok tt /\
  (ds_get s k h').1 = Err (NotFound k) /\ (ds_has s k h').1 = Ok false /\ (rocks_batch_get b k h').1 = Err (NotFound k) /\
  (exists d', ds_put s k v h' = (Err (Custom (str "Database is closed")), s, mkHeap (<[rocks_db s := d']> (cells h')) (base h'))) /\
  (exists d', rocks_batch_commit b h'
    = (Err (Custom (str "Database is closed")), b, mkHeap (<[rocks_db s := d']> (cells h')) (base h'))).
Proof.
  intros Hd Hb h'. assert (i : (rocks_db s < length (cells h))%nat) by (by eapply lookup_lt_Some).
  unfold h'. cbn. unfold rocks_close, arc_upd. rewrite Hd. cbn.
  unfold rocks_batch_get, rocks_get, rocks_has, rocks_put, rocks_batch_commit, commit_arc, arc_write, arc_upd, arc_get. cbn. rewrite Hb.
  rewrite !list_lookup_insert_eq by done. cbn.
  repeat split; try (by eexists). eexists. destruct b as [j t]; cbn in *. by subst j.
Qed.

(** Everything a store holds survives closing: reopened with the columns it
    had, the default one among them, the database answers as before. *)
Theorem rocks_reopen (s : RocksDBDataStore) (d : Database) (c : DBAndColumns) (cfg : DatabaseConfig)
    (h : heap FS Database) :
  cells h !! rocks_db s = Some d -> db d = Some c -> live (cfs_db c) (base h) ->
  DEFAULT_COLUMN_NAME ∈ column_names c ->
  budgets_ok (FS := FS) ck cfg -> secondary cfg = None -> DEFAULT_COLUMN_NAME ∈ columns cfg ->
  columns cfg = families (cfs_db c) ->
  let h1 := (ds_close s h).2 in
  path_exists (path_join (db_path (cfs_db c)) CORRUPTION_FILE_NAME) (base h1) = false ->
  exists s' h2, rocks_new ck cfg (db_path (cfs_db c)) h1 = (Ok s', h2) /\ usable (rocks_db s') h2 /\
    forall k, rocks_view (rocks_db s') h2 k = rocks_view (rocks_db s) h k.
Proof.
  intros Hd Hc Hl Hcol Hb Hs Hdef Hfam h1. unfold h1. cbn. unfold rocks_close, arc_upd. rewrite Hd. cbn. rewrite Hc. cbn.
  intros Hm. destruct (close_law (cfs_db c) (base h) Hl) as (Hu & Hf & Hst).
  destruct (open_existing ck cfg (db_path (cfs_db c)) (db_drop (cfs_db c) (base h))) as (d' & x & fs' & Ho & Hdb & Hl' & Hh & Hcont);
    [set_solver|done..|rewrite Hf; set_solver|].
  unfold rocks_new, open_arc, res_map. cbn [base]. rewrite Ho. cbn.
  eexists _, _. split; [done|]. cbn. unfold usable, rocks_view. cbn.
  rewrite list_lookup_middle by done. rewrite Hdb, Hd, Hc. cbn. split.
  - eexists _, _. split; [done|]. split; [exact Hdb|]. cbn. rewrite Hh, Hf, <- Hfam. by split.
  - intros k. rewrite Hcont, Hst; [done|]. by rewrite <- Hfam.
Qed.

(** An open database whose columns do not include the default one. *)
Definition unreadable (i : nat) (h : heap FS Database) : Prop :=
  exists d c, cells h !! i = Some d /\ db d = Some c /\ DEFAULT_COLUMN_NAME ∉ column_names c.

Lemma unreadable_get i k h : unreadable i h -> (rocks_get i k h).1 = Err (Custom (str "non-existing column")).
Proof.
  intros (d & c & Hd & Hc & Hcol). unfold rocks_get, arc_get, get, key_column.
  rewrite Hd, Hc, bool_decide_false by done. done.
Qed.

(** A store opened without the default column, as a fresh one with several columns
    has to be: nothing can be read from it, and writing to it panics. *)
Lemma rocks_without_default (s : RocksDBDataStore) (d : Database) (c : DBAndColumns) (h : heap FS Database) (k : key) (v : bytes) :
  cells h !! rocks_db s = Some d -> db d = Some c -> DEFAULT_COLUMN_NAME ∉ column_names c ->
  DEFAULT_COLUMN_NAME ∉ handles (cfs_db c) ->
  (ds_get s k h).1 = Err (Custom (str "non-existing column")) /\ (ds_put s k v h).1.1 = Panic.
Proof.
  intros Hd Hc Hcol Hh. split; [apply unreadable_get; by exists d, c|].
  cbn. unfold rocks_put, arc_write, arc_upd, write, key_column. rewrite Hd, Hc. cbn [txn_ops txn_put txn_new txn_with_capacity app build_batch op_col].
  unfold cf. destruct (db_cf_handle (cfs_db c) DEFAULT_COLUMN_NAME) eqn:Hf; [|done].
  destruct Hh. apply handle_known. by eexists.
Qed.

(** Removing the default column fails, and still leaves a store that can no longer
    be read, though nothing of the column is gone. *)
Theorem rocks_remove_default (s : RocksDBDataStore) (h : heap FS Database) (k : key) :
  usable (rocks_db s) h ->
  exists e h1, rocks_remove_column s DEFAULT_COLUMN_NAME h = (Err (Custom e), h1) /\ base h1 = base h /\
    (ds_get s k h1).1 = Err (Custom (str "non-existing column")).
Proof.
  intros (d & [x names] & Hd & Hc & Hl & Hh & Hcol). cbn in Hl, Hcol.
  destruct (drop_default x (base h) Hl) as (e & x' & He). unfold rocks_remove_column, arc_upd. rewrite Hd.
  unfold remove_column. rewrite Hc, bool_decide_true by done. rewrite He.
  eexists e, _. split; [done|]. split; [done|]. apply unreadable_get.
  eexists _, _. cbn. rewrite list_lookup_insert_eq by (by eapply lookup_lt_Some).
  split; [done|]. split; [done|]. cbn. set_solver.
Qed.
End StoreGuarantees.

(** A store over a new directory. *)
Definition ref_cfs : DBAndColumns := mkCfs (Ref.mkDB (str "/db") {[DEFAULT_COLUMN_NAME]}) {[DEFAULT_COLUMN_NAME]}.
Definition ref_db : Database := mkDatabase (Some ref_cfs) config_default (str "/db")
  (generate_options config_default)
  [OBlockSize 16384; OLruCache 44739242; OCacheIndexAndFilterBlocks true;
   OPinL0FilterAndIndexBlocksInCache true; OBloomFilter 10 true]
  default_write_options [OVerifyChecksums false] (running_new 0 1).
Definition ref_world : heap Ref.FS Database :=
  mkHeap [ref_db] (Ref.mkFS {[str "/db" := {[DEFAULT_COLUMN_NAME := ∅]}]} {[str "/db"]} ∅ 2).
Definition ref_store : RocksDBDataStore := mkRocks 0.

Example ref_opens : (rocks_new true config_default (str "/db") (mkHeap [] ref_fs)).1 = Ok ref_store.
Proof. vm_compute. reflexivity. Qed.

Lemma ref_cfs_live : live (cfs_db ref_cfs) (base ref_world).
Proof.
  change (ref_live (Ref.mkDB (str "/db") {[DEFAULT_COLUMN_NAME]}) (base ref_world)). unfold ref_live.
  apply (bool_decide_unpack _). vm_compute. exact I.
Qed.
Lemma ref_cfs_default : DEFAULT_COLUMN_NAME ∈ column_names ref_cfs.
Proof. cbn. set_solver. Qed.
Lemma ref_usable : usable (rocks_db ref_store) ref_world.
Proof.
  exists ref_db, ref_cfs. split; [done|]. split; [done|]. split; [exact ref_cfs_live|].
  split; [exact ref_cfs_default|exact ref_cfs_default].
Qed.

Lemma ref_view k : rocks_view (rocks_db ref_store) ref_world k = None.
Proof. reflexivity. Qed.

Lemma rocks_refines_map_witness :
  let cs := [CPut (str "/a") [1; 2]; CGet (str "/a"); CDelete (str "/a"); CHas (str "/a")] in
  exists s' h', run cs ref_store ref_world = ((abs_run cs (fun _ => None)).1, s', h') /\ usable (rocks_db s') h' /\
    forall k, rocks_view (rocks_db s') h' k = (abs_run cs (fun _ => None)).2 k.
Proof.
  intros cs. apply (rocks_refines_map cs ref_store ref_world (fun _ => None)).
  - exact ref_usable.
  - by repeat constructor.
  - exact ref_view.
Defined.

Lemma rocks_batch_commits_witness :
  let l := [(str "/a", Some [1]); (str "/b", None); (str "/a", Some [2])] in
  let b := fold_left record l (rocks_batch ref_store) in
  rocks_batch_get b (str "/a") ref_world = ds_get ref_store (str "/a") ref_world /\
  exists h', rocks_batch_commit b ref_world = (Ok tt, mkRocksBatch (rocks_db ref_store) (mkTxn []), h') /\
    usable (rocks_db ref_store) h' /\
    (rocks_get (rocks_db ref_store) (str "/a") h').1
      = of_option (NotFound (str "/a")) (recorded l (rocks_view (rocks_db ref_store) ref_world) (str "/a")).
Proof. intros l. apply (rocks_batch_commits ref_store l ref_world (str "/a") ref_usable). Defined.

Lemma rocks_closed_witness :
  (ds_get ref_store (str "/a") (ds_close ref_store ref_world).2).1 = Err (NotFound (str "/a")).
Proof.
  apply (rocks_closed ref_store (rocks_batch ref_store) ref_db ref_world (str "/a") [1]); reflexivity.
Defined.

Lemma rocks_reopen_witness :
  exists s' h2, rocks_new true config_default (db_path (cfs_db ref_cfs)) (ds_close ref_store ref_world).2 = (Ok s', h2) /\
    usable (rocks_db s') h2 /\ forall k, rocks_view (rocks_db s') h2 k = rocks_view (rocks_db ref_store) ref_world k.
Proof.
  refine (rocks_reopen true ref_store ref_db ref_cfs config_default ref_world eq_refl eq_refl
    ref_cfs_live ref_cfs_default _ eq_refl ref_cfs_default _ _).
  - apply ref_budgets_ok. eexists. vm_compute. reflexivity.
  - change ({[DEFAULT_COLUMN_NAME]} =@{gset bytes} {[DEFAULT_COLUMN_NAME]} ∪ {[DEFAULT_COLUMN_NAME]}). set_solver.
  - reflexivity.
Defined.

Lemma rocks_remove_default_witness :
  exists e h1, rocks_remove_column ref_store DEFAULT_COLUMN_NAME ref_world = (Err (Custom e), h1) /\ base h1 = base ref_world /\
    (ds_get ref_store (str "/a") h1).1 = Err (Custom (str "non-existing column")).
Proof. apply (rocks_remove_default ref_store ref_world (str "/a") ref_usable). Defined.

(** ** Statistics *)
Section Stats.
Context {FS : Type} `{RocksLib FS} (ck : bool).

Definition report (x : IoStats) : RawDBStats :=
  mkRaw (io_reads x) (io_bytes_read x) (io_writes x) (io_bytes_written x) (io_transactions x) (io_cache_reads x).

Lemma combine_zero (r : RawDBStats) : raw_small r -> @combine bytes ck r raw_default = Ok r.
Proof.
  intros Hr. rewrite combine_ok; cbn; destruct r; cbn in *; unfold total_stats; cbn; rewrite !Z.add_0_r; done.
Qed.

(** The two kinds of report are the wrong way round.  The overall report is
    always empty (the counters were drained a moment before it reads them), and
    the report since the previous query has the totals since the start.  RocksDB's
    own statistics are off here, as they are by default. *)
Theorem io_stats_kinds (d : Database) (fs : FS) :
  opts_get_statistics (opts d) fs = None ->
  cache_hit_count (current (db_stats d)) = 0 ->
  raw_small (total_stats (db_stats d)) ->
  (exists x d1 fs1, io_stats ck d Overall fs = (Ok x, d1, fs1) /\ report x = raw_default /\
     total_stats (db_stats d1) = total_stats (db_stats d)) /\
  (exists x d1 fs1, io_stats ck d SincePrevious fs = (Ok x, d1, fs1) /\ report x = total_stats (db_stats d) /\
     total_stats (db_stats d1) = total_stats (db_stats d)).
Proof.
  intros Hopt Hhit Hs. unfold io_stats, get_statistics. rewrite Hopt.
  rewrite lookup_empty. cbn [fmap option_fmap option_map default].
  destruct (instant_now fs) as [t fs1].
  destruct d as [x cfg p o bo wo ro [cur [tot lt st]]]. cbn in Hhit.
  set (total := total_stats _) in *.
  assert (Hc : @combine bytes ck tot cur = Ok total) by (by apply combine_ok).
  assert (Hz : @combine bytes ck total raw_default = Ok total) by (by apply combine_zero).
  assert (Ht : forall r a b, total_stats (mkRunning raw_default (mkOverall r a b)) = r).
  { intros [] ? ?. unfold total_stats. cbn. by rewrite !Z.add_0_r. }
  unfold overall, take_current. cbn [db_stats overall_lock current stats opts started last_taken]. rewrite Hc. cbn [bind raw fst snd].
  rewrite Hhit, u_sub_ok by done. cbn [bind raw cache_hit_count]. change (0 - 0) with 0.
  change (tally_cache_hit_count 0 (mkRunning raw_default (mkOverall total t st)))
    with (mkRunning raw_default (mkOverall total t st)).
  destruct (instant_now fs1) as [t1 fs2].
  split.
  - cbn [overall_lock current stats]. rewrite Hz. cbv beta iota.
    destruct (instant_now fs2) as [t2 fs3]. destruct (instant_now fs3) as [t3 fs4]. eexists _, _, _. split; [reflexivity|]. split; [done|]. apply Ht.
  - unfold since_previous, peek_current. cbn [overall_lock current stats]. rewrite Hz.
    destruct (instant_now fs2) as [t2 fs3]. eexists _, _, _. split; [reflexivity|]. split; [by destruct total|]. apply Ht.
Qed.
End Stats.

(** A database after one write of two bytes and two reads. *)
Definition busy_db : Database :=
  set_stats ref_db (mkRunning (mkRaw 2 5 1 2 1 0) (overall_new 0 0)).

Lemma io_stats_kinds_witness :
  (exists x d1 fs1, io_stats true busy_db Overall ref_fs = (Ok x, d1, fs1) /\ report x = raw_default /\
     total_stats (db_stats d1) = total_stats (db_stats busy_db)) /\
  (exists x d1 fs1, io_stats true busy_db SincePrevious ref_fs = (Ok x, d1, fs1) /\ report x = total_stats (db_stats busy_db) /\
     total_stats (db_stats d1) = total_stats (db_stats busy_db)).
Proof. apply (io_stats_kinds true busy_db ref_fs); [reflexivity|reflexivity|by vm_compute]. Defined.

(** The "writes per transaction" of two writes in one transaction is a half. *)
Example avg_batch_size_inverted :
  avg_batch_size (mkIoStats 1 0 0 2 0 0 0 0 0) = f64_of_decimal 5 1.
Proof. vm_compute. reflexivity. Qed.
