(* ===== verification/RocksTxn.v ===== *)
(** * Transactions of the RocksDB datastore

    [RocksDBTxnDataStore] (ipfs/datastore-rocksdb/src/lib.rs) meets the contract of
    a transaction: its operations are a list, of which the last one on a key
    counts, and a commit writes the list to the database as one batch. *)

From Stdlib Require Import ZArith Lia String.
From stdpp Require Import base numbers list gmap.
From S2P Require Import Prelude Decimal Key DataStore StoreWrappers StoreTheorems StoreBatches Text RocksStats Rocks RocksLaws RocksStore RocksTheorems.

Local Open Scope Z_scope.

Section RocksTxn.
Context {FS : Type} `{RocksLaws FS}.

Abbreviation world := (heap FS Database).

#[export] Instance rocks_txn_store : DataStoreTxn world RocksDBTxnDataStore := {|
  tx_get := rocks_txn_get; tx_has := rocks_txn_has; tx_size := rocks_txn_size;
  tx_put t k v h := (Ok tt, rocks_txn_put t k v, h);
  tx_delete t k h := (Ok tt, rocks_txn_delete t k, h);
  tx_commit := rocks_txn_commit;
  tx_discard := rocks_txn_discard;
|}.

(** The last operation on a key. *)
Definition last_op (l : list DBOp) (k : key) : option Op :=
  fold_left (fun o op => match op with
    | Insert _ k' v => if decide (k = k') then Some (Put v) else o
    | DeleteOp _ k' => if decide (k = k') then Some Delete else o
    end) l None.

#[local] Arguments last_op : simpl never.

Lemma last_op_snoc l o k :
  last_op (l ++ [o]) k = match o with
    | Insert _ k' v => if decide (k = k') then Some (Put v) else last_op l k
    | DeleteOp _ k' => if decide (k = k') then Some Delete else last_op l k
    end.
Proof. unfold last_op. by rewrite fold_left_app. Qed.

Lemma ops_result_last l f k :
  ops_result l f k = match last_op l k with Some (Put v) => Some v | Some Delete => None | None => f k end.
Proof.
  induction l as [|o l IH] using rev_ind; [done|]. unfold ops_result in *. rewrite fold_left_app, last_op_snoc. cbn.
  destruct o; cbn; by case_decide.
Qed.

(** For the transactions on the database of cell [db]. *)
Definition rocks_txn_spec (db : nat) : TxnSpec (fun _ => True) world RocksDBTxnDataStore.
Proof.
  refine {| t_inv t h := rt_db t = db /\ usable db h /\ in_default (txn_ops (rt_txn t));
            t_pending t h := last_op (txn_ops (rt_txn t)); t_view t := rocks_view (rt_db t) |};
    cbn; intros [i [l]]; cbn.
  - intros k h (-> & Hu & Hd) _. unfold rocks_txn_get, rocks_get, key_column. cbn.
    destruct (arc_get_spec db h k Hu) as (h' & -> & Hu' & Hv). eexists _, _. split; [done|]. split; [|done].
    cbn. destruct (rocks_view db h k); cbn; [done|by eexists].
  - intros k v h (-> & Hu & Hd) _. eexists _, _. split; [done|]. cbn. split.
    + split; [done|]. split; [done|]. apply Forall_app. split; [done|]. by repeat constructor.
    + intros k' _. by rewrite last_op_snoc.
  - intros k h (-> & Hu & Hd) _. eexists _, _. split; [done|]. cbn. split.
    + split; [done|]. split; [done|]. apply Forall_app. split; [done|]. by repeat constructor.
    + intros k' _. by rewrite last_op_snoc.
  - intros h (-> & Hu & Hd). unfold rocks_txn_commit, commit_arc. cbn.
    destruct (arc_write_spec db h (mkTxn l) Hu Hd) as (h' & -> & Hu' & Hv). eexists _, _. split; [done|]. cbn. split.
    + split; [done|]. split; [done|]. apply Forall_nil_2.
    + intros k' _. split; [done|]. rewrite Hv. apply ops_result_last.
  - intros h (-> & Hu & Hd). eexists _, _. split; [done|]. cbn. split; [|done]. split; [done|]. split; [done|]. apply Forall_nil_2.
Defined.

(** C35: A transaction taken from an open RocksDB store runs every sequence of
    reads, writes, deletes, commits and discards as the abstract transaction that
    starts with nothing recorded on the store's contents: reads see what was
    committed only, a commit applies the last write of each key, and the store
    the transaction was taken from then holds what the transaction committed,
    because both share the database. *)
Theorem rocks_txn_refines (s : RocksDBDataStore) (read_only : bool) (cs : list tcmd) (h : world) :
  usable (rocks_db s) h ->
  let abs := txn_run cs (StoreBatches.mkTxn (rocks_view (rocks_db s) h) (fun _ => None)) in
  exists t h', run_txn cs (rocks_txn s read_only) h = (abs.1, t, h') /\ usable (rocks_db s) h' /\
    forall k, rocks_view (rocks_db s) h' k = StoreBatches.contents abs.2 k.
Proof.
  intros Hu abs. pose (spec := rocks_txn_spec (rocks_db s)).
  destruct (run_txn_refines (fun _ => True) cs (rocks_txn s read_only) h
    (StoreBatches.mkTxn (rocks_view (rocks_db s) h) (fun _ => None))) as (t & h' & Hr & (Ht & Hu' & _) & Ha).
  - split; [done|]. split; [done|]. apply Forall_nil_2.
  - apply Forall_true. by intros [].
  - done.
  - exists t, h'. split; [exact Hr|]. split; [done|]. intros k. rewrite <- Ht. by apply Ha.
Qed.
End RocksTxn.

Lemma rocks_txn_refines_witness :
  let cs := [TPut (str "/a") [1]; TGet (str "/a"); TCommit; TGet (str "/a"); TDelete (str "/a"); TDiscard; TGet (str "/a")] in
  exists t h', run_txn cs (rocks_txn ref_store false) ref_world
      = ([TDone; TValue None; TDone; TValue (Some [1]); TDone; TDone; TValue (Some [1])], t, h') /\
    usable (rocks_db ref_store) h' /\ rocks_view (rocks_db ref_store) h' (str "/a") = Some [1].
Proof.
  intros cs. destruct (rocks_txn_refines ref_store false cs ref_world ref_usable) as (t & h' & Hr & Hu & Hv).
  exists t, h'. split; [|split; [exact Hu|rewrite Hv; reflexivity]]. rewrite Hr. reflexivity.
Defined.
