(* ===== verification/Ipld.v ===== *)
(** * [ipld]: values of the IPLD data model and their codecs

    [IpldValue] with DAG-CBOR (value/mod.rs, integer.rs, map.rs, bytes.rs over
    [minicbor]) and DAG-JSON (the same files over [serde_json]).  A JSON text is
    the tree [json] it denotes.  What the crates [minicbor], [cid], [multibase]
    and [serde_json] do is in classes; a [BTreeMap] is the list of its entries
    in key order. *)

From Stdlib Require Import ZArith Lia String.
From stdpp Require Import base numbers list.
From S2P Require Import Prelude Cbor F64 Tipset Json.

Local Open Scope Z_scope.

Abbreviation bytes := (list Z).

(** ** More of minicbor *)
Inductive cbor_type :=
| TNull | TBool | TU8 | TU16 | TU32 | TU64 | TI8 | TI16 | TI32 | TI64 | TF16 | TF32 | TF64
| TBytes | TString | TArray | TMap | TTag | TBreak | TUnknown (b : Z) | TUndefined | TSimple.

Class MinicborAny `{Minicbor} := {
  e_null : bytes;
  e_bool : bool -> bytes;
  e_u16 : Z -> bytes;
  e_u32 : Z -> bytes;
  e_i8 : Z -> bytes;
  e_i16 : Z -> bytes;
  e_i32 : Z -> bytes;
  e_f64 : f64 -> bytes;
  e_map : Z -> bytes;                 (* the header of a map of [n] entries *)
  d_datatype : bytes -> outcome decode_error cbor_type;
  d_skip : decoder unit;
  d_bool : decoder bool;
  d_u16 : decoder Z;
  d_u32 : decoder Z;
  d_i8 : decoder Z;
  d_i16 : decoder Z;
  d_i32 : decoder Z;
  d_f16 : decoder f64;                (* the value widened to [f64] *)
  d_f32 : decoder f64;
  d_f64 : decoder f64;
  d_map : forall {K V}, decoder K -> decoder V -> decoder (list (K * V));  (* the entries as they come *)
}.

(** The type reported for what was just written, and reading it back.  A
    negative integer [-1-n] is written in as few bytes as [n] needs, and the type
    goes by that number of bytes.  A signed type of that width has half the range,
    so that the decoder of the type refuses the upper half of the [n]s; and a
    sequence is refused at its first item that is. *)
Definition typed `{MinicborAny} (t : cbor_type) (bs : bytes) : Prop := forall rest, d_datatype (bs ++ rest) = Ok t.
Definition refuses {A} (d : decoder A) (bs : bytes) : Prop := forall rest, exists e, d (bs ++ rest) = Err e.

Class MinicborAnyLaws `{MinicborAny} : Prop := {
  null_law : typed TNull e_null /\ reads d_skip e_null tt;
  bool_law b : typed TBool (e_bool b) /\ reads d_bool (e_bool b) b;
  u8_type n : 0 <= n < 2 ^ 8 -> typed TU8 (e_u8 n);
  u16_law n : 2 ^ 8 <= n < 2 ^ 16 -> typed TU16 (e_u16 n) /\ reads d_u16 (e_u16 n) n;
  u32_law n : 2 ^ 16 <= n < 2 ^ 32 -> typed TU32 (e_u32 n) /\ reads d_u32 (e_u32 n) n;
  u64_type n : 2 ^ 32 <= n < 2 ^ 64 -> typed TU64 (e_u64 n);
  i8_law n : - 2 ^ 7 <= n < 0 -> typed TI8 (e_i8 n) /\ reads d_i8 (e_i8 n) n;
  i16_law n : - 2 ^ 15 <= n < - 2 ^ 8 -> typed TI16 (e_i16 n) /\ reads d_i16 (e_i16 n) n;
  i32_law n : - 2 ^ 31 <= n < - 2 ^ 16 -> typed TI32 (e_i32 n) /\ reads d_i32 (e_i32 n) n;
  i64_type n : - 2 ^ 63 <= n < - 2 ^ 32 -> typed TI64 (e_i64 n);
  i8_overflow n : - 2 ^ 8 <= n < - 2 ^ 7 -> typed TI8 (e_i16 n) /\ refuses d_i8 (e_i16 n);
  i16_overflow n : - 2 ^ 16 <= n < - 2 ^ 15 -> typed TI16 (e_i32 n) /\ refuses d_i16 (e_i32 n);
  i32_overflow n : - 2 ^ 32 <= n < - 2 ^ 31 -> typed TI32 (e_i64 n) /\ refuses d_i32 (e_i64 n);
  f64_law x : SpecFloat.valid_binary 53 1024 x = true -> typed TF64 (e_f64 x) /\ reads d_f64 (e_f64 x) x;
  bytes_type bs : vec_u8 bs -> typed TBytes (e_bytes bs);
  str_type bs : vec_u8 bs -> typed TString (e_str bs);
  vec_type {A} (e : A -> bytes) l : len_u64 l -> typed TArray (e_vec e l);
  vec_bytes {A} (e : A -> bytes) l : len_u64 l -> e_vec e l = e_array (Z.of_nat (length l)) ++ concat (map e l);
  vec_refuses {A} (e : A -> bytes) (d : decoder A) l a l' :
    len_u64 (l ++ a :: l') -> Forall (fun a => reads d (e a) a) l -> refuses d (e a) ->
    refuses (d_vec d) (e_vec e (l ++ a :: l'));
  array_header n : e_array n <> [];
  map_header n : e_map n <> [];
  map_type n : u64 n -> typed TMap (e_map n);
  reads_map {K V} (ek : K -> bytes) (ev : V -> bytes) (dk : decoder K) (dv : decoder V) l :
    len_u64 l -> Forall (fun e => reads dk (ek e.1) e.1 /\ reads dv (ev e.2) e.2) l ->
    reads (d_map dk dv) (e_map (Z.of_nat (length l)) ++ concat (map (fun e => ek e.1 ++ ev e.2) l)) l;
  map_refuses {K V} (ek : K -> bytes) (ev : V -> bytes) (dk : decoder K) (dv : decoder V) l k v l' :
    len_u64 (l ++ (k, v) :: l') -> Forall (fun e => reads dk (ek e.1) e.1 /\ reads dv (ev e.2) e.2) l ->
    reads dk (ek k) k -> refuses dv (ev v) ->
    refuses (d_map dk dv) (e_map (Z.of_nat (length (l ++ (k, v) :: l')))
      ++ concat (map (fun e => ek e.1 ++ ev e.2) (l ++ (k, v) :: l')));
}.

(** A [Cid] is a tagged item in CBOR, and has a text that parses back. *)
Class CidText `{CidLib} := {
  cid_to_string : Cid -> bytes;
  cid_from_string : bytes -> option Cid;
}.
Class CidTextLaws `{MinicborAny} `{CidText} : Prop := {
  cid_type c : typed TTag (e_cid c);
  cid_parse c : cid_from_string (cid_to_string c) = Some c;
}.

(** [multibase] *)
Class Multibase := {
  Base : Type;
  Base_eq_dec :: EqDecision Base;
  Base64 : Base;
  multibase_encode : Base -> bytes -> bytes;
  multibase_decode : bytes -> option (Base * bytes);
}.
Class MultibaseLaws (M : Multibase) : Prop := {
  multibase_roundtrip b bs : bytes_ok bs -> multibase_decode (multibase_encode b bs) = Some (b, bs);
  multibase_bytes s b bs : multibase_decode s = Some (b, bs) -> bytes_ok bs;
}.

(** ** [serde_json] *)
Class SerdeJson := { float_text : f64 -> f64 (* a finite float, printed and parsed *) }.

(** ** [map.rs] *)
Definition MapKey_cmp (a b : bytes) : comparison :=
  if decide (length a <> length b) then Nat.compare (length a) (length b) else bytes_cmp a b.

Section Map.
Context {V : Type}.

(** [BTreeMap::insert] *)
Fixpoint map_insert (k : bytes) (v : V) (m : list (bytes * V)) : list (bytes * V) :=
  match m with
  | [] => [(k, v)]
  | (k', v') :: m' =>
      match MapKey_cmp k k' with
      | Lt => (k, v) :: m
      | Eq => (k', v) :: m'
      | Gt => (k', v') :: map_insert k v m'
      end
  end.
Definition map_of (l : list (bytes * V)) : list (bytes * V) := fold_left (fun m e => map_insert e.1 e.2 m) l [].

(** [BTreeMap::get] with a [&str]: the search of a leaf (up to eleven entries)
    walks the keys and compares them as [str]s, through [Borrow<str>]. *)
Fixpoint map_get (k : bytes) (m : list (bytes * V)) : option V :=
  match m with
  | [] => None
  | (k', v') :: m' =>
      match bytes_cmp k k' with
      | Gt => map_get k m'
      | Eq => Some v'
      | Lt => None
      end
  end.
End Map.

Section Traverse.
Context {E A B : Type} (f : A -> outcome E B).
Fixpoint traverse (l : list A) : outcome E (list B) :=
  match l with
  | [] => Ok []
  | a :: l' => b <- f a ;; bs <- traverse l' ;; Ok (b :: bs)
  end.
Context {K : Type}.
Fixpoint traverse_map (l : list (K * A)) : outcome E (list (K * B)) :=
  match l with
  | [] => Ok []
  | (k, a) :: l' => b <- f a ;; bs <- traverse_map l' ;; Ok ((k, b) :: bs)
  end.
End Traverse.

Section Ipld.
Context `{MinicborAny} `{CidText} `{Multibase} `{SerdeJson}.

(** ** [integer.rs] *)
Definition integer_encode {E} (n : Z) : outcome E bytes :=
  if n <? 0 then
    if - 2 ^ 7 <=? n then Ok (e_i8 n)
    else if - 2 ^ 15 <=? n then Ok (e_i16 n)
    else if - 2 ^ 31 <=? n then Ok (e_i32 n)
    else if - 2 ^ 63 <=? n then Ok (e_i64 n)
    else Panic
  else
    if n <=? 2 ^ 8 - 1 then Ok (e_u8 n)
    else if n <=? 2 ^ 16 - 1 then Ok (e_u16 n)
    else if n <=? 2 ^ 32 - 1 then Ok (e_u32 n)
    else if n <=? 2 ^ 64 - 1 then Ok (e_u64 n)
    else Panic.

Definition integer_decode : decoder Z := fun bs =>
  t <- d_datatype bs ;;
  match t with
  | TU8 => d_u8 bs
  | TU16 => d_u16 bs
  | TU32 => d_u32 bs
  | TU64 => d_u64 bs
  | TI8 => d_i8 bs
  | TI16 => d_i16 bs
  | TI32 => d_i32 bs
  | TI64 => d_i64 bs
  | _ => Panic
  end.

Definition integer_serialize (n : Z) : json := JInt n.

Definition integer_deserialize (j : json) : outcome de_error Z :=
  match j with
  | JInt n => match json_int n with inl v => Ok v | inr _ => Err ForeignError end
  | _ => Err ForeignError
  end.

(** ** [bytes.rs] *)
Definition SLASH : bytes := str "/".
Definition BYTES : bytes := str "bytes".
#[global] Arguments SLASH : simpl never.
#[global] Arguments BYTES : simpl never.

Definition bytes_to_string (b : bytes) : bytes := multibase_encode Base64 b.
Definition bytes_serialize (b : bytes) : json := JObj [(SLASH, JObj [(BYTES, JStr (bytes_to_string b))])].

(** The text of a [bytes] object, here and in [visit_map]. *)
Definition bytes_from_text (s : bytes) : outcome de_error bytes :=
  match multibase_decode s with
  | Some (base, b) =>
      if decide (base <> Base64) then Err (CustomError (str "unexpected multibase algorithm")) else Ok b
  | None => Err ForeignError
  end.

Definition not_bytes : outcome de_error bytes := Err (CustomError (str "unexpected JSON object for IPLD Bytes kind")).

Definition bytes_deserialize (j : json) : outcome de_error bytes :=
  match j with
  | JObj l =>
      match obj_of l with
      | [(k, JObj l')] =>
          if decide (k = SLASH) then
            match obj_of l' with
            | [(k', JStr s)] =>
                if decide (k' = BYTES) then bytes_from_text s
                else not_bytes
            | _ => not_bytes
            end
          else not_bytes
      | _ => not_bytes
      end
  | _ => Err ForeignError
  end.

(** ** [mod.rs] *)
Unset Elimination Schemes.
Inductive IpldValue :=
| Null | Bool (b : bool) | Integer (n : Z) | Float (x : f64) | String (s : bytes) | Bytes (b : bytes)
| List (l : list IpldValue) | Map (m : list (bytes * IpldValue)) | Link (c : Cid).
Set Elimination Schemes.

(** [encode::Encode for MapKey] and for the entries of a [BTreeMap]. *)
Definition mapkey_encode (k : bytes) : bytes := e_str k.
Definition mapkey_decode : decoder bytes := d_str.
Definition entries_encode (l : list (bytes * bytes)) : bytes :=
  e_map (Z.of_nat (length l)) ++ concat (map (fun e => mapkey_encode e.1 ++ e.2) l).

Fixpoint encode {E} (v : IpldValue) : outcome E bytes :=
  match v with
  | Null => Ok e_null
  | Bool b => Ok (e_bool b)
  | Integer n => integer_encode n
  | Float x => Ok (e_f64 x)
  | Bytes b => Ok (e_bytes b)
  | String s => Ok (e_str s)
  | List l => bs <- traverse encode l ;; Ok (e_vec (fun b => b) bs)
  | Map m => es <- traverse_map encode m ;; Ok (entries_encode es)
  | Link c => Ok (e_cid c)
  end.

(** Each level of nesting takes one unit of fuel. *)
Fixpoint decode (fuel : nat) : decoder IpldValue := fun bs =>
  match fuel with
  | O => OutOfFuel
  | S fuel' =>
      t <- d_datatype bs ;;
      match t with
      | TNull => (_ <~ d_skip ;; dret Null) bs
      | TBool => (b <~ d_bool ;; dret (Bool b)) bs
      | TU8 | TU16 | TU32 | TU64 => (n <~ integer_decode ;; dret (Integer n)) bs
      | TI8 | TI16 | TI32 | TI64 => (n <~ integer_decode ;; dret (Integer n)) bs
      | TF16 => (x <~ d_f16 ;; dret (Float x)) bs
      | TF32 => (x <~ d_f32 ;; dret (Float x)) bs
      | TF64 => (x <~ d_f64 ;; dret (Float x)) bs
      | TBytes => (b <~ d_bytes ;; dret (Bytes b)) bs
      | TString => (s <~ d_str ;; dret (String s)) bs
      | TArray => (l <~ d_vec (decode fuel') ;; dret (List l)) bs
      | TMap => (l <~ d_map mapkey_decode (decode fuel') ;; dret (Map (map_of l))) bs
      | TTag => (c <~ d_cid ;; dret (Link c)) bs
      | TBreak | TUnknown _ | TUndefined | TSimple => Err (Message "unexpected type")
      end
  end.

(** [minicbor::decode]: an item is at least one byte, so its nesting is no
    deeper than the input is long. *)
Definition from_cbor (bs : bytes) : outcome decode_error IpldValue :=
  ' (v, _) <- decode (S (length bs)) bs ;; Ok v.

(** [serialize]: a float that is not finite is [null] in JSON; a [Cid] is an
    object with its text under a slash. *)
Definition float_serialize (x : f64) : json :=
  match x with SpecFloat.S754_zero _ | SpecFloat.S754_finite _ _ _ => JFloat x | _ => JNull end.
Definition cid_serialize (c : Cid) : json := JObj [(SLASH, JStr (cid_to_string c))].

Fixpoint serialize (v : IpldValue) : json :=
  match v with
  | Null => JNull
  | Bool b => JBool b
  | Integer n => integer_serialize n
  | Float x => float_serialize x
  | String s => JStr s
  | Bytes b => bytes_serialize b
  | List l => JArr (map serialize l)
  | Map m => JObj (map (fun e => match e with (k, v) => (k, serialize v) end) m)
  | Link c => cid_serialize c
  end.

(** [visit_map], after the loop. *)
Definition visit_entries (m : list (bytes * IpldValue)) : outcome de_error IpldValue :=
  match m with
  | [_] =>
      match map_get SLASH m with
      | Some (String s) =>
          match cid_from_string s with Some c => Ok (Link c) | None => Err ForeignError end
      | Some (Map m') =>
          match m' with
          | [_] =>
              match map_get BYTES m' with
              | Some (String s) => b <- bytes_from_text s ;; Ok (Bytes b)
              | _ => Ok (Map m)
              end
          | _ => Ok (Map m)
          end
      | _ => Ok (Map m)
      end
  | _ => Ok (Map m)
  end.

Fixpoint deserialize (j : json) : outcome de_error IpldValue :=
  match j with
  | JNull => Ok Null
  | JBool b => Ok (Bool b)
  | JInt n => match json_int n with inl v => Ok (Integer v) | inr x => Ok (Float x) end
  | JFloat x => Ok (Float (float_text x))
  | JStr s => Ok (String s)
  | JArr l => vs <- traverse deserialize l ;; Ok (List vs)
  | JObj l => es <- traverse_map deserialize l ;; visit_entries (map_of es)
  end.

(** [serde_json::from_str]: a text with more than 127 arrays and objects around
    a value is refused before it is read. *)
Fixpoint json_depth (j : json) : nat :=
  match j with
  | JArr l => S (list_max (map json_depth l))
  | JObj l => S (list_max (map (fun e => match e with (_, j) => json_depth j end) l))
  | _ => O
  end.
Definition from_str {T} (de : json -> outcome de_error T) (j : json) : outcome de_error T :=
  if decide (json_depth j < 128)%nat then de j else Err ForeignError.

(** ** [lib.rs]: through the codec of another type *)
Inductive IpldError := Codec (e : de_error + decode_error).  (* its text *)

Definition json_to_ipld {T} (ser : T -> outcome de_error json) (x : T) : outcome IpldError IpldValue :=
  j <- expect (ser x) ;; map_err (fun e => Codec (inl e)) (from_str deserialize j).
Definition json_from_ipld {T} (de : json -> outcome de_error T) (v : IpldValue) : outcome IpldError T :=
  map_err (fun e => Codec (inl e)) (from_str de (serialize v)).
Definition cbor_to_ipld {T} (enc : T -> outcome decode_error bytes) (x : T) : outcome IpldError IpldValue :=
  bs <- expect (enc x) ;; map_err (fun e => Codec (inr e)) (from_cbor bs).
Definition cbor_from_ipld {T} (dec : bytes -> outcome decode_error T) (v : IpldValue) : outcome IpldError T :=
  bs <- encode v ;; map_err (fun e => Codec (inr e)) (dec bs).
End Ipld.
