(* ===== verification/IpldRef.v ===== *)
(** * Implementations of the interfaces of Ipld.v

    CBOR's simple values, floats, negative integers and maps from RFC 7049, the
    text of a CID and a multibase with the hexadecimal alphabet: they satisfy
    the laws and let the codecs be evaluated. *)

From Stdlib Require Import ZArith Lia String.
From stdpp Require Import base numbers list.
From S2P Require Import Prelude Decimal Cbor CborRef F64 Tipset Json Ipld.

Local Open Scope Z_scope.

(** ** CBOR *)
Definition type_of (b : Z) : cbor_type :=
  let major := b / 32 in
  let info := b mod 32 in
  let wide (a c d e : cbor_type) :=
    if info <=? 24 then a else if info =? 25 then c else if info =? 26 then d else e in
  if major =? 0 then wide TU8 TU16 TU32 TU64
  else if major =? 1 then wide TI8 TI16 TI32 TI64
  else if major =? 2 then TBytes
  else if major =? 3 then TString
  else if major =? 4 then TArray
  else if major =? 5 then TMap
  else if major =? 6 then TTag
  else if (b =? 244) || (b =? 245) then TBool
  else if b =? 246 then TNull
  else if b =? 247 then TUndefined
  else if b =? 249 then TF16
  else if b =? 250 then TF32
  else if b =? 251 then TF64
  else if b =? 255 then TBreak
  else TSimple.

Definition peek_type (bs : list Z) : outcome decode_error cbor_type :=
  match bs with b :: _ => Ok (type_of b) | [] => Err (Native 0) end.

(** A negative integer of at least [-bound]. *)
Definition nint_below (bound : Z) : decoder Z :=
  h <~ read_head ;;
  match h with
  | (0, Some n) => if n <? bound then dret n else dfail (Native 2)
  | (1, Some n) => if n <? bound then dret (-1 - n) else dfail (Native 2)
  | _ => dfail (Native 2)
  end.
Definition enc_int (n : Z) : list Z := if 0 <=? n then head 0 n else head 1 (-1 - n).

Definition dec_byte : decoder Z := fun bs => match bs with b :: r => Ok (b, r) | [] => Err (Native 0) end.
Definition dec_bool : decoder bool :=
  b <~ dec_byte ;; if b =? 244 then dret false else if b =? 245 then dret true else dfail (Native 2).
Definition dec_null : decoder unit := b <~ dec_byte ;; if b =? 246 then dret tt else dfail (Native 2).
Definition dec_f64 : decoder f64 :=
  b <~ dec_byte ;; if b =? 251 then (l <~ take_bytes 8 ;; dret (from_bits (be_combine l))) else dfail (Native 2).

Definition dec_pair {K V} (dk : decoder K) (dv : decoder V) : decoder (K * V) :=
  k <~ dk ;; v <~ dv ;; dret (k, v).
Definition dec_map {K V} (dk : decoder K) (dv : decoder V) : decoder (list (K * V)) :=
  h <~ read_head ;;
  match h with
  | (5, Some n) => repeat_dec (dec_pair dk dv) (Z.to_nat n)
  | _ => dfail (Native 3)
  end.

#[export] Instance minicbor_any_ref : MinicborAny := {|
  e_null := [246];
  e_bool b := [if b then 245 else 244];
  e_u16 := head 0;
  e_u32 := head 0;
  e_i8 := enc_int;
  e_i16 := enc_int;
  e_i32 := enc_int;
  e_f64 x := 251 :: be_split 8 (to_bits x);
  e_map := head 5;
  d_datatype := peek_type;
  d_skip := dec_null;
  d_bool := dec_bool;
  d_u16 := uint_below (2 ^ 16);
  d_u32 := uint_below (2 ^ 32);
  d_i8 := nint_below (2 ^ 7);
  d_i16 := nint_below (2 ^ 15);
  d_i32 := nint_below (2 ^ 31);
  d_f16 := dfail (Native 5);
  d_f32 := dfail (Native 5);
  d_f64 := dec_f64;
  d_map _ _ := dec_map;
|}.

Lemma reads_nint bound n : - bound <= n < 0 -> bound <= 2 ^ 63 -> reads (nint_below bound) (enc_int n) n.
Proof.
  intros Hn Hb rest. unfold nint_below, enc_int, dbind. rewrite (proj2 (Z.leb_gt _ _)) by lia.
  rewrite reads_head by (unfold u64; lia). cbn [bind]. rewrite (proj2 (Z.ltb_lt _ _)) by lia.
  unfold dret. do 2 f_equal. lia.
Qed.

Lemma head_cons major n : exists b r, head major n = b :: r.
Proof. unfold head. repeat case_match; by eexists _, _. Qed.

(** The first byte of a head: its major type, and how wide the argument is. *)
Lemma type_head major n rest :
  0 <= n -> 
  peek_type (head major n ++ rest) = Ok (type_of (major * 32 +
    (if n <? 24 then n else if n <? 256 then 24 else if n <? 65536 then 25 else if n <? 4294967296 then 26 else 27))).
Proof. intros Hn. unfold head. repeat case_match; done. Qed.

Lemma type_of_head major i t :
  0 <= i < 32 -> (forall m j, m = major -> j = i -> (if m =? 0 then if j <=? 24 then TU8 else if j =? 25 then TU16 else if j =? 26 then TU32 else TU64
    else if m =? 1 then if j <=? 24 then TI8 else if j =? 25 then TI16 else if j =? 26 then TI32 else TI64
    else if m =? 2 then TBytes else if m =? 3 then TString else if m =? 4 then TArray else if m =? 5 then TMap else TTag) = t) ->
  0 <= major <= 6 -> type_of (major * 32 + i) = t.
Proof.
  intros Hi Ht Hm. unfold type_of. destruct (head_info major i Hi) as [-> ->].
  rewrite <- (Ht major i eq_refl eq_refl).
  assert (Hc : major = 0 \/ major = 1 \/ major = 2 \/ major = 3 \/ major = 4 \/ major = 5 \/ major = 6) by lia.
  repeat (destruct Hc as [->|Hc]; [reflexivity|]). by subst major.
Qed.

Lemma typed_head major n t :
  u64 n -> 0 <= major <= 6 ->
  (let i := if n <? 24 then n else if n <? 256 then 24 else if n <? 65536 then 25 else if n <? 4294967296 then 26 else 27 in
   (if major =? 0 then if i <=? 24 then TU8 else if i =? 25 then TU16 else if i =? 26 then TU32 else TU64
    else if major =? 1 then if i <=? 24 then TI8 else if i =? 25 then TI16 else if i =? 26 then TI32 else TI64
    else if major =? 2 then TBytes else if major =? 3 then TString else if major =? 4 then TArray
    else if major =? 5 then TMap else TTag) = t) ->
  typed t (head major n).
Proof.
  intros Hn Hm Ht rest. change (peek_type (head major n ++ rest) = Ok t). unfold u64 in Hn.
  rewrite type_head by lia. f_equal. eapply type_of_head; [|by intros m j -> ->|done].
  repeat case_match; lia.
Qed.

Local Ltac head_type := apply typed_head; [unfold u64, len_u64 in *; lia|lia|]; cbn [Z.eqb]; repeat case_match; (done || lia).

Lemma typed_nint n t bound lo :
  - bound <= n < - lo -> bound <= 2 ^ 63 -> 0 <= lo ->
  typed t (head 1 (-1 - n)) -> typed t (enc_int n).
Proof. intros Hn Hb Hl Ht. unfold enc_int. by rewrite (proj2 (Z.leb_gt _ _)) by lia. Qed.

Lemma refuses_nint bound n : n < - bound -> 0 <= bound -> - 2 ^ 64 <= n -> refuses (nint_below bound) (enc_int n).
Proof.
  intros Hn Hb Hl rest. unfold nint_below, enc_int, dbind. rewrite (proj2 (Z.leb_gt _ _)) by lia.
  rewrite reads_head by (unfold u64; lia). cbn [bind]. rewrite (proj2 (Z.ltb_ge _ _)) by lia. by eexists.
Qed.

Lemma refuses_bind {A B} (d : decoder A) (k : A -> decoder B) bs bs' a :
  reads d bs a -> refuses (k a) bs' -> refuses (dbind d k) (bs ++ bs').
Proof. intros Hd Hk rest. unfold dbind. rewrite <- app_assoc, Hd. apply Hk. Qed.

Lemma refuses_repeat {A} (e : A -> list Z) (d : decoder A) l a l' :
  Forall (fun a => reads d (e a) a) l -> refuses d (e a) ->
  refuses (repeat_dec d (length (l ++ a :: l'))) (concat (map e (l ++ a :: l'))).
Proof.
  intros Hl Ha. induction Hl as [|b l Hb _ IH]; intros rest; cbn -[concat]; unfold dbind.
  - cbn. rewrite <- app_assoc. destruct (Ha (concat (map e l') ++ rest)) as [err ->]. by exists err.
  - cbn [concat]. rewrite <- app_assoc, Hb. cbn [bind]. destruct (IH rest) as [err ->]. by exists err.
Qed.

#[export] Instance minicbor_any_ref_laws : MinicborAnyLaws.
Proof.
  split.
  - by split.
  - by intros [].
  - intros n Hn. cbn. head_type.
  - intros n Hn. cbn. split; [head_type|apply reads_uint; lia].
  - intros n Hn. cbn. split; [head_type|apply reads_uint; lia].
  - intros n Hn. cbn. head_type.
  - intros n Hn. split; [eapply (typed_nint n TI8 (2 ^ 7) 0); [lia..|]; head_type|apply reads_nint; lia].
  - intros n Hn. split; [eapply (typed_nint n TI16 (2 ^ 15) (2 ^ 8)); [lia..|]; head_type|apply reads_nint; lia].
  - intros n Hn. split; [eapply (typed_nint n TI32 (2 ^ 31) (2 ^ 16)); [lia..|]; head_type|apply reads_nint; lia].
  - intros n Hn. cbn. rewrite (proj2 (Z.leb_gt _ _)) by lia. head_type.
  - intros n Hn. split; [eapply (typed_nint n TI8 (2 ^ 8) (2 ^ 7)); [lia..|]; head_type|apply refuses_nint; lia].
  - intros n Hn. split; [eapply (typed_nint n TI16 (2 ^ 16) (2 ^ 15)); [lia..|]; head_type|apply refuses_nint; lia].
  - intros n Hn. split; [eapply (typed_nint n TI32 (2 ^ 32) (2 ^ 31)); [lia..|]; head_type|apply refuses_nint; lia].
  - intros x Hx. destruct (from_to_bits x Hx) as [Hr Hf]. split; [done|]. intros rest.
    change (dec_f64 ((251 :: be_split 8 (to_bits x)) ++ rest) = Ok (x, rest)). unfold dec_f64, dbind. cbn [app dec_byte bind].
    change (251 =? 251) with true. cbv beta iota. rewrite (reads_take (be_split 8 (to_bits x)) 8 (length_be_split 8 _)).
    cbn [bind]. rewrite be_combine_split by exact Hr. by rewrite Hf.
  - intros bs [_ Hl] rest. cbn [e_bytes minicbor_ref]. rewrite <- app_assoc. revert rest.
    assert (Ht : typed TBytes (head 2 (Z.of_nat (length bs)))) by head_type. intros rest. apply Ht.
  - intros bs [_ Hl] rest. cbn [e_str minicbor_ref]. rewrite <- app_assoc.
    assert (Ht : typed TString (head 3 (Z.of_nat (length bs)))) by head_type. apply Ht.
  - intros A e l Hl rest. cbn [e_vec minicbor_ref]. rewrite <- app_assoc.
    assert (Ht : typed TArray (head 4 (Z.of_nat (length l)))) by head_type. apply Ht.
  - done.
  - intros A e d l a l' Hl Hf Ha. cbn [e_vec d_vec minicbor_ref]. unfold dec_vec. eapply refuses_bind.
    + apply reads_dec_array. unfold u64, len_u64 in *. lia.
    + cbn. rewrite Nat2Z.id. by apply refuses_repeat.
  - intros n. cbn. destruct (head_cons 4 n) as (b & r & ->). done.
  - intros n. cbn. destruct (head_cons 5 n) as (b & r & ->). done.
  - intros n Hn. cbn. head_type.
  - intros K V ek ev dk dv l Hl Hf. cbn. unfold dec_map. eapply reads_bind.
    + apply reads_head. unfold u64, len_u64 in *. lia.
    + cbn. rewrite Nat2Z.id. apply (reads_repeat (fun e => ek e.1 ++ ev e.2)).
      eapply Forall_impl; [exact Hf|]. intros [k v] [Hk Hv]. cbn in *. unfold dec_pair.
      eapply reads_bind; [exact Hk|]. by apply (reads_last _ (fun v => (k, v))).
  - intros K V ek ev dk dv l k v l' Hl Hf Hk Hv. cbn [d_map e_map minicbor_any_ref]. unfold dec_map. eapply refuses_bind.
    + apply reads_head. unfold u64, len_u64 in *. lia.
    + cbn -[map]. rewrite Nat2Z.id. apply (refuses_repeat (fun e => ek e.1 ++ ev e.2)).
      * eapply Forall_impl; [exact Hf|]. intros [k2 v2] [Hk2 Hv2]. cbn in *. unfold dec_pair.
        eapply reads_bind; [exact Hk2|]. by apply (reads_last _ (fun v => (k2, v))).
      * cbn. unfold dec_pair. eapply refuses_bind; [exact Hk|]. intros rest. unfold dbind.
        destruct (Hv rest) as [e ->]. by exists e.
Qed.

(** ** Texts of CIDs and bytes *)
Fixpoint nibbles (bs : list Z) : list Z :=
  match bs with [] => [] | b :: bs' => 97 + b / 16 :: 97 + b mod 16 :: nibbles bs' end.
Fixpoint of_nibbles (s : list Z) : option (list Z) :=
  match s with
  | [] => Some []
  | a :: b :: s' =>
      if bool_decide (97 <= a < 113 /\ 97 <= b < 113) then cons ((a - 97) * 16 + (b - 97)) <$> of_nibbles s' else None
  | [_] => None
  end.

Lemma of_nibbles_nibbles bs : bytes_ok bs -> of_nibbles (nibbles bs) = Some bs.
Proof.
  induction 1 as [|b bs Hb _ IH]; [done|]. cbn [nibbles of_nibbles]. unfold u8 in Hb.
  pose proof (Z.div_mod b 16). pose proof (Z.mod_pos_bound b 16).
  assert (0 <= b / 16 < 16) by (split; [apply Z.div_pos; lia|apply Z.div_lt_upper_bound; lia]).
  rewrite bool_decide_true by lia. rewrite IH. cbn. do 2 f_equal. lia.
Qed.

Lemma of_nibbles_ok n : forall s bs, (length s <= n)%nat -> of_nibbles s = Some bs -> bytes_ok bs.
Proof.
  induction n as [|n IH]; intros [|a [|b s]] bs Hn; cbn; try (intros [= <-]; by constructor); cbn in Hn; try lia; try done.
  case_bool_decide as Hab; [|done]. destruct (of_nibbles s) as [bs'|] eqn:Hs; cbn; [|done]. intros [= <-].
  constructor; [unfold u8; lia|]. apply (IH s); [lia|done].
Qed.

#[export] Instance cid_text_ref : CidText := {|
  cid_to_string (c : Cid) := 98 :: nibbles (be_split 32 (cid_hash c));
  cid_from_string s :=
    match s with 98 :: t => bs ← of_nibbles t; make_cid (be_combine bs) | _ => None end;
|}.

#[export] Instance cid_text_ref_laws : CidTextLaws.
Proof.
  split.
  - done.
  - intros c. change (cid_from_string (cid_to_string c))
      with (bs ← of_nibbles (nibbles (be_split 32 (cid_hash c))); make_cid (be_combine bs)).
    rewrite of_nibbles_nibbles by apply be_split_ok. cbn [mbind option_bind]. rewrite be_combine_split; [apply make_cid_hash|].
    pose proof (cid_hash_ok c) as Hc. apply andb_true_iff in Hc as [H1%Z.leb_le H2%Z.ltb_lt]. split; [done|].
    by change (256 ^ Z.of_nat 32) with (2 ^ 256).
Qed.

Inductive base_ref := B64 | B32.
#[export] Instance base_ref_eq : EqDecision base_ref.
Proof. solve_decision. Defined.

#[export] Instance multibase_ref : Multibase := {|
  Base := base_ref;
  Base64 := B64;
  multibase_encode b bs := (match b with B64 => 109 | B32 => 98 end) :: nibbles bs;
  multibase_decode s :=
    match s with
    | 109 :: t => pair B64 <$> of_nibbles t
    | 98 :: t => pair B32 <$> of_nibbles t
    | _ => None
    end;
|}.

#[export] Instance multibase_ref_laws : MultibaseLaws multibase_ref.
Proof.
  split; [intros [] bs Hb; cbn; by rewrite of_nibbles_nibbles|].
  intros s b bs. cbn. destruct s as [|c t]; [done|].
  assert (Ht : forall x, pair x <$> of_nibbles t = Some (b, bs) -> bytes_ok bs).
  { intros x. destruct (of_nibbles t) eqn:Ho; cbn; [|done]. intros [= _ <-]. by eapply of_nibbles_ok. }
  repeat case_match; try done; by apply Ht.
Qed.

#[export] Instance serde_json_ref : SerdeJson := {| float_text x := x |}.
