(* ===== verification/IpldTheorems.v ===== *)
(** * What the IPLD codecs guarantee

    DAG-CBOR reads back what it wrote, unless it holds a negative integer of one
    of the ranges that the decoder refuses; DAG-JSON reads back exactly the values
    that do not use the reserved shapes, and whatever it reads is a normal form. *)

From Stdlib Require Import ZArith Lia String Sorted.
From stdpp Require Import base numbers list sorting.
From S2P Require Import Prelude Cbor CborRef F64 Tipset Json Ipld IpldRef.

Local Open Scope Z_scope.

(** ** The order of the keys *)
Lemma MapKey_cmp_eq a b : MapKey_cmp a b = Eq <-> a = b.
Proof.
  unfold MapKey_cmp. case_decide as Hl.
  - rewrite Nat.compare_eq_iff. split; [done|]. by intros ->.
  - apply bytes_cmp_eq.
Qed.

Lemma MapKey_cmp_lt a b :
  MapKey_cmp a b = Lt <-> (length a < length b)%nat \/ (length a = length b /\ bytes_cmp a b = Lt).
Proof.
  unfold MapKey_cmp. case_decide as Hl.
  - rewrite Nat.compare_lt_iff. split; [by left|]. intros [?|[? _]]; [done|]. done.
  - split; [by right|]. intros [?|[_ ?]]; [lia|done].
Qed.

Lemma MapKey_cmp_antisym a b : MapKey_cmp b a = CompOpp (MapKey_cmp a b).
Proof.
  unfold MapKey_cmp. destruct (decide (length a <> length b)).
  - rewrite decide_True by done. apply Nat.compare_antisym.
  - rewrite decide_False by (intros ?; apply n; congruence). apply bytes_cmp_antisym.
Qed.

Lemma MapKey_cmp_trans a b c : MapKey_cmp a b = Lt -> MapKey_cmp b c = Lt -> MapKey_cmp a c = Lt.
Proof.
  rewrite !MapKey_cmp_lt. intros [?|[? ?]] [?|[? ?]]; [left; lia..|].
  right. split; [lia|]. by eapply bytes_cmp_trans.
Qed.

(** Entries in strictly increasing key order. *)
Definition key_lt {V} (a b : bytes * V) : Prop := MapKey_cmp a.1 b.1 = Lt.
Abbreviation in_order := (StronglySorted key_lt).

Section Maps.
Context {V : Type}.
Implicit Types m l : list (bytes * V).

Lemma map_insert_last k v m :
  Forall (fun e => MapKey_cmp e.1 k = Lt) m -> map_insert k v m = m ++ [(k, v)].
Proof.
  induction 1 as [|[k' v'] m Hk _ IH]; cbn; [done|]. cbn in Hk.
  rewrite MapKey_cmp_antisym, Hk. cbn. by rewrite IH.
Qed.

Lemma map_of_acc l m :
  in_order (m ++ l) -> fold_left (fun m e => map_insert e.1 e.2 m) l m = m ++ l.
Proof.
  revert m. induction l as [|[k v] l IH]; intros m Hs; cbn; [by rewrite app_nil_r|].
  rewrite map_insert_last.
  - rewrite IH; rewrite <- app_assoc; done.
  - clear IH. induction m as [|e m IHm]; [constructor|]. cbn in Hs. apply StronglySorted_inv in Hs as [Hs Hf].
    constructor; [|by apply IHm]. apply Forall_app in Hf as [_ Hf]. apply Forall_inv in Hf. exact Hf.
Qed.

Lemma map_of_sorted m : in_order m -> map_of m = m.
Proof. apply (map_of_acc m []). Qed.

Lemma map_insert_keys k v m (P : bytes -> Prop) :
  P k -> Forall (fun e => P e.1) m -> Forall (fun e => P e.1) (map_insert k v m).
Proof.
  intros Hk. induction 1 as [|[k' v'] m Hp Hm IH]; cbn; [by constructor|].
  destruct (MapKey_cmp k k'); constructor; try done. by constructor.
Qed.

Lemma map_insert_sorted k v m : in_order m -> in_order (map_insert k v m).
Proof.
  induction 1 as [|[k' v'] m Hs IH Hf]; cbn; [repeat constructor|].
  destruct (MapKey_cmp k k') eqn:Hc.
  - constructor; done.
  - constructor; [by constructor|]. constructor; [done|].
    eapply Forall_impl; [exact Hf|]. intros [k2 v2] H2. unfold key_lt in *. cbn in *. by eapply MapKey_cmp_trans.
  - constructor; [done|]. apply (map_insert_keys k v m (fun x => MapKey_cmp k' x = Lt)); [|done].
    rewrite MapKey_cmp_antisym, Hc. done.
Qed.
End Maps.

(** ** Induction over values *)
Section Ind.
Context `{CidLib} (P : IpldValue -> Prop).
Context (Hnull : P Null) (Hbool : forall b, P (Bool b)) (Hint : forall n, P (Integer n))
  (Hfloat : forall x, P (Float x)) (Hstr : forall s, P (String s)) (Hbytes : forall b, P (Bytes b))
  (Hlist : forall l, Forall P l -> P (List l)) (Hmap : forall m, Forall (fun e => P e.2) m -> P (Map m))
  (Hlink : forall c, P (Link c)).

Definition IpldValue_ind : forall v, P v :=
  fix F v := match v with
  | Null => Hnull
  | Bool b => Hbool b
  | Integer n => Hint n
  | Float x => Hfloat x
  | String s => Hstr s
  | Bytes b => Hbytes b
  | List l => Hlist l ((fix G l : Forall P l := match l with
      | [] => Forall_nil_2 _
      | v :: l => Forall_cons_2 _ _ _ (F v) (G l)
      end) l)
  | Map m => Hmap m ((fix G m : Forall (fun e => P e.2) m := match m with
      | [] => Forall_nil_2 _
      | e :: m => Forall_cons_2 _ _ _ (F e.2) (G m)
      end) m)
  | Link c => Hlink c
  end.
End Ind.

(** ** Traversals *)
Lemma traverse_ok {E A B} (f : A -> outcome E B) (g : A -> B) (l : list A) :
  Forall (fun a => f a = Ok (g a)) l -> traverse f l = Ok (map g l).
Proof. induction 1 as [|a l Ha _ IH]; cbn; [done|]. by rewrite Ha, IH. Qed.

Lemma traverse_map_ok {E A B K} (f : A -> outcome E B) (g : A -> B) (l : list (K * A)) :
  Forall (fun e => f e.2 = Ok (g e.2)) l -> traverse_map f l = Ok (map (fun e => (e.1, g e.2)) l).
Proof. induction 1 as [|[k a] l Ha _ IH]; cbn; [done|]. cbn in Ha. by rewrite Ha, IH. Qed.

(** ** DAG-CBOR *)
Section Cbor.
Context {M : Minicbor} {MA : @MinicborAny M} {ML : MinicborLaws M} {MAL : @MinicborAnyLaws M MA}.
Context {C : CidLib} {CT : @CidText C} {CL : CidLaws C} {CTL : @CidTextLaws M MA C CT}.

(** The integers that are written: the others make [encode] panic. *)
Definition int_ok (n : Z) : Prop := - 2 ^ 63 <= n < 2 ^ 64.

(** The integers that are read back.  The negative ones left out are written in
    fewer bytes than the width they were written with, and the decoder then reads
    them at the width of those bytes, where they overflow. *)
Definition int_reads (n : Z) : bool :=
  (0 <=? n) || (- 2 ^ 7 <=? n) || (- 2 ^ 15 <=? n) && (n <? - 2 ^ 8)
  || (- 2 ^ 31 <=? n) && (n <? - 2 ^ 16) || (n <? - 2 ^ 32).
Fixpoint ints_read (v : IpldValue) : bool :=
  match v with
  | Integer n => int_reads n
  | List l => forallb ints_read l
  | Map m => forallb (fun e => match e with (_, v) => ints_read v end) m
  | _ => true
  end.

(** The values DAG-CBOR can carry. *)
Inductive cbor_ok : IpldValue -> Prop :=
| ok_null : cbor_ok Null
| ok_bool b : cbor_ok (Bool b)
| ok_int n : int_ok n -> cbor_ok (Integer n)
| ok_float x : SpecFloat.valid_binary 53 1024 x = true -> cbor_ok (Float x)
| ok_string s : vec_u8 s -> cbor_ok (String s)
| ok_bytes b : vec_u8 b -> cbor_ok (Bytes b)
| ok_list l : len_u64 l -> Forall cbor_ok l -> cbor_ok (List l)
| ok_map m : len_u64 m -> in_order m -> Forall (fun e => vec_u8 e.1) m -> Forall (fun e => cbor_ok e.2) m -> cbor_ok (Map m)
| ok_link c : cbor_ok (Link c).

Fixpoint depth (v : IpldValue) : nat :=
  match v with
  | List l => S (list_max (map depth l))
  | Map m => S (list_max (map (fun e => match e with (_, v) => depth v end) m))
  | _ => O
  end.

Lemma depth_le l v : v ∈ l -> (depth v <= list_max (map depth l))%nat.
Proof.
  intros Hv. pose proof (proj1 (List.list_max_le (map depth l) _) (le_n _)) as Hf.
  rewrite List.Forall_forall in Hf. apply Hf, List.in_map. by apply list_elem_of_In.
Qed.

(** An integer is read back by the decoder its type selects. *)
Definition integer_of_type (t : cbor_type) : decoder Z :=
  match t with
  | TU8 => d_u8 | TU16 => d_u16 | TU32 => d_u32 | TU64 => d_u64
  | TI8 => d_i8 | TI16 => d_i16 | TI32 => d_i32 | TI64 => d_i64
  | _ => dpanic
  end.
Definition integer_type (t : cbor_type) : Prop :=
  match t with TU8 | TU16 | TU32 | TU64 | TI8 | TI16 | TI32 | TI64 => True | _ => False end.

(** What a decoder makes of the bytes: the value if [b], an error otherwise. *)
Definition outcome_of {A} (b : bool) (d : decoder A) (bs : bytes) (a : A) : Prop :=
  if b then reads d bs a else refuses d bs.

Lemma outcome_last {A B} b (d : decoder A) (f : A -> B) bs a :
  outcome_of b d bs a -> outcome_of b (x <~ d ;; dret (f x)) bs (f a).
Proof.
  destruct b; cbn; [apply reads_last|]. intros Hd rest. unfold dbind. destruct (Hd rest) as [e ->]. by exists e.
Qed.

Lemma integer_decode_typed b t bs n :
  typed t bs -> outcome_of b (integer_of_type t) bs n -> outcome_of b integer_decode bs n.
Proof.
  intros Ht. assert (Hd : forall rest, integer_decode (bs ++ rest) = integer_of_type t (bs ++ rest)).
  { intros rest. unfold integer_decode. rewrite Ht. cbn [bind]. by destruct t. }
  destruct b; intros Hr rest; rewrite Hd; apply Hr.
Qed.

Local Ltac decide_reads := unfold int_reads;
  repeat match goal with
  | |- context [Z.leb ?a ?b] => destruct (Z.leb_spec a b)
  | |- context [Z.ltb ?a ?b] => destruct (Z.ltb_spec a b)
  end; cbn [orb andb]; (reflexivity || lia).

(** The widths of the encoder against the types the decoder goes by. *)
Lemma integer_widths n :
  int_ok n -> exists bs t, (forall E, @integer_encode _ _ E n = Ok bs) /\ typed t bs /\
    outcome_of (int_reads n) (integer_of_type t) bs n /\ integer_type t.
Proof.
  intros Hn. unfold int_ok in Hn.
  assert (Hok : forall t bs, int_reads n = true -> (forall E, @integer_encode _ _ E n = Ok bs) ->
    typed t bs /\ reads (integer_of_type t) bs n -> integer_type t ->
    exists bs t, (forall E, @integer_encode _ _ E n = Ok bs) /\ typed t bs /\
      outcome_of (int_reads n) (integer_of_type t) bs n /\ integer_type t).
  { intros t bs -> He [Ht Hr] Hi. by exists bs, t. }
  assert (Hno : forall t bs, int_reads n = false -> (forall E, @integer_encode _ _ E n = Ok bs) ->
    typed t bs /\ refuses (integer_of_type t) bs -> integer_type t ->
    exists bs t, (forall E, @integer_encode _ _ E n = Ok bs) /\ typed t bs /\
      outcome_of (int_reads n) (integer_of_type t) bs n /\ integer_type t).
  { intros t bs -> He [Ht Hr] Hi. by exists bs, t. }
  unfold integer_encode in *. destruct (Z.ltb_spec n 0).
  - destruct (Z.leb_spec (- 2 ^ 7) n); [apply (Hok TI8 (e_i8 n)); [decide_reads|done|apply i8_law; lia|done]|].
    destruct (Z.leb_spec (- 2 ^ 15) n).
    { destruct (Z.ltb_spec n (- 2 ^ 8)).
      - apply (Hok TI16 (e_i16 n)); [decide_reads|done|apply i16_law; lia|done].
      - apply (Hno TI8 (e_i16 n)); [decide_reads|done|apply i8_overflow; lia|done]. }
    destruct (Z.leb_spec (- 2 ^ 31) n).
    { destruct (Z.ltb_spec n (- 2 ^ 16)).
      - apply (Hok TI32 (e_i32 n)); [decide_reads|done|apply i32_law; lia|done].
      - apply (Hno TI16 (e_i32 n)); [decide_reads|done|apply i16_overflow; lia|done]. }
    destruct (Z.leb_spec (- 2 ^ 63) n); [|lia]. destruct (Z.ltb_spec n (- 2 ^ 32)).
    + apply (Hok TI64 (e_i64 n)); [decide_reads|done|split; [apply i64_type; lia|apply reads_i64; unfold i64; lia]|done].
    + apply (Hno TI32 (e_i64 n)); [decide_reads|done|apply i32_overflow; lia|done].
  - destruct (Z.leb_spec n (2 ^ 8 - 1)).
    { apply (Hok TU8 (e_u8 n)); [decide_reads|done|split; [apply u8_type; lia|apply reads_u8; unfold u8; lia]|done]. }
    destruct (Z.leb_spec n (2 ^ 16 - 1)); [apply (Hok TU16 (e_u16 n)); [decide_reads|done|apply u16_law; lia|done]|].
    destruct (Z.leb_spec n (2 ^ 32 - 1)); [apply (Hok TU32 (e_u32 n)); [decide_reads|done|apply u32_law; lia|done]|].
    destruct (Z.leb_spec n (2 ^ 64 - 1)); [|lia].
    apply (Hok TU64 (e_u64 n)); [decide_reads|done|split; [apply u64_type; lia|apply reads_u64; unfold u64; lia]|done].
Qed.

(** The decoder on an item whose type is known. *)
Lemma decode_typed {A} b n t bs (d : decoder A) (f : A -> IpldValue) a :
  typed t bs -> outcome_of b d bs a ->
  (forall x, d_datatype x = Ok t -> decode (S n) x = (y <~ d ;; dret (f y)) x) ->
  outcome_of b (decode (S n)) bs (f a).
Proof.
  intros Ht Hd%(outcome_last b d f) Hx. destruct b; intros rest; rewrite Hx by apply Ht; apply Hd.
Qed.

(** The bytes of a value that can be written. *)
Definition enc (v : IpldValue) : bytes := match @encode _ _ _ unit v with Ok b => b | _ => [] end.

Lemma concat_bound {A} (f : A -> bytes) (g : A -> nat) l :
  Forall (fun a => (g a <= length (f a))%nat) l -> (list_max (map g l) <= length (concat (map f l)))%nat.
Proof.
  induction 1 as [|a l Ha _ IH]; [done|]. cbn [map concat]. rewrite length_app.
  change (list_max (g a :: map g l)) with (Nat.max (g a) (list_max (map g l))). lia.
Qed.

Lemma length_pos (l : bytes) : l <> [] -> (1 <= length l)%nat.
Proof. destruct l; [done|cbn; lia]. Qed.

(** What [encode] writes, how long it is, and that it is read back with fuel
    for the nesting. *)
Definition good (v : IpldValue) : Prop :=
  (forall E, @encode _ _ _ E v = Ok (enc v)) /\ (depth v <= length (enc v))%nat /\
  forall n, (depth v < n)%nat -> outcome_of (ints_read v) (decode n) (enc v) v.

Lemma good_leaf {A} v t bs (d : decoder A) (f : A -> IpldValue) a :
  (forall E, @encode _ _ _ E v = Ok bs) -> depth v = 0%nat -> f a = v ->
  typed t bs -> outcome_of (ints_read v) d bs a ->
  (forall n x, d_datatype x = Ok t -> decode (S n) x = (y <~ d ;; dret (f y)) x) -> good v.
Proof.
  intros He Hd <- Ht Hr Hx. unfold good, enc. rewrite He, Hd. split; [done|]. split; [lia|].
  intros [|n] Hn; [lia|]. eapply decode_typed; [exact Ht|exact Hr|]. apply Hx.
Qed.

(** A sequence is read if all its items are, and refused at the first one that
    is not. *)
Lemma first_refused {A} (b : A -> bool) (R N : A -> Prop) (OK NO : Prop) l :
  Forall (fun a => if b a then R a else N a) l -> (Forall R l -> OK) ->
  (forall l1 a l2, l = l1 ++ a :: l2 -> Forall R l1 -> N a -> NO) -> if forallb b l then OK else NO.
Proof.
  intros Hl. revert OK NO. induction Hl as [|a l Ha _ IH]; intros OK NO Hok Hno; cbn; [by apply Hok|].
  destruct (b a); cbn; [|by apply (Hno [] a l)]. apply IH.
  - intros Hr. apply Hok. by constructor.
  - intros l1 x l2 -> Hr. apply (Hno (a :: l1) x l2); [done|by constructor].
Qed.

Local Ltac by_type := intros k y Hy; cbn [decode]; rewrite Hy; reflexivity.

Lemma good_list l : len_u64 l -> Forall good l -> good (List l).
Proof.
  intros Hlen Hl. set (bs := e_array (Z.of_nat (length l)) ++ concat (map enc l)).
  assert (He : forall E, @encode _ _ _ E (List l) = Ok bs).
  { intros E. cbn [encode]. rewrite (traverse_ok encode enc) by (eapply Forall_impl; [exact Hl|]; intros v Hv; apply Hv).
    cbn [bind]. rewrite vec_bytes by (unfold len_u64; by rewrite length_map).
    by rewrite length_map, map_id. }
  assert (Hbs : e_vec enc l = bs) by (by apply vec_bytes).
  unfold good. assert (Henc : enc (List l) = bs) by (unfold enc; by rewrite He). rewrite Henc.
  split; [done|]. split.
  - cbn [depth]. unfold bs. rewrite length_app. pose proof (length_pos _ (array_header (Z.of_nat (length l)))).
    enough (list_max (map depth l) <= length (concat (map enc l)))%nat by lia.
    apply concat_bound. eapply Forall_impl; [exact Hl|]. intros v Hv. apply Hv.
  - intros [|n] Hn; [lia|]. cbn [depth] in Hn. rewrite <- Hbs.
    apply (decode_typed _ n TArray (e_vec enc l) (d_vec (decode n)) List l); [by apply vec_type| |].
    + apply (first_refused ints_read (fun v => reads (decode n) (enc v) v) (fun v => refuses (decode n) (enc v))).
      * apply Forall_forall. intros v Hv. rewrite Forall_forall in Hl. apply (Hl v Hv). pose proof (depth_le l v Hv). lia.
      * by apply reads_vec.
      * intros l1 v l2 -> Hl1 Hv. by apply vec_refuses.
    + intros y Hy. cbn [decode]. rewrite Hy. reflexivity.
Qed.

Lemma depth_map_le (m : list (bytes * IpldValue)) e :
  e ∈ m -> (depth e.2 <= list_max (map (fun e => match e with (_, v) => depth v end) m))%nat.
Proof.
  intros He. pose proof (proj1 (List.list_max_le (map (fun e => match e with (_, v) => depth v end) m) _) (le_n _)) as Hf.
  rewrite List.Forall_forall in Hf. apply Hf, List.in_map_iff. exists e. split; [by destruct e|]. by apply list_elem_of_In.
Qed.

Lemma good_map m :
  len_u64 m -> in_order m -> Forall (fun e => vec_u8 e.1) m -> Forall (fun e => good e.2) m -> good (Map m).
Proof.
  intros Hlen Hs Hk Hm.
  set (bs := e_map (Z.of_nat (length m)) ++ concat (map (fun e => mapkey_encode e.1 ++ enc e.2) m)).
  assert (He : forall E, @encode _ _ _ E (Map m) = Ok bs).
  { intros E. cbn [encode]. rewrite (traverse_map_ok encode enc) by (eapply Forall_impl; [exact Hm|]; intros v Hv; apply Hv).
    cbn [bind]. unfold entries_encode. rewrite length_map, map_map. done. }
  unfold good. assert (Henc : enc (Map m) = bs) by (unfold enc; by rewrite He). rewrite Henc.
  split; [done|]. split.
  - cbn [depth]. unfold bs. rewrite length_app. pose proof (length_pos _ (map_header (Z.of_nat (length m)))).
    enough (list_max (map (fun e => match e with (_, v) => depth v end) m)
      <= length (concat (map (fun e => mapkey_encode e.1 ++ enc e.2) m)))%nat by lia.
    apply concat_bound. eapply Forall_impl; [exact Hm|]. intros [k v] (_ & Hv & _). cbn in *. rewrite length_app. lia.
  - intros [|n] Hn; [lia|]. cbn [depth] in Hn. 
    assert (Ho : outcome_of (ints_read (Map m)) (decode (S n)) bs (Map (map_of m))); [|by rewrite map_of_sorted in Ho].
    apply (decode_typed _ n TMap bs (d_map mapkey_decode (decode n)) (fun l => Map (map_of l)) m).
    + intros rest. unfold bs. rewrite <- app_assoc. apply map_type. unfold u64, len_u64 in *. lia.
    + apply (first_refused (fun e : bytes * IpldValue => match e with (_, v) => ints_read v end)
        (fun e => reads mapkey_decode (mapkey_encode e.1) e.1 /\ reads (decode n) (enc e.2) e.2)
        (fun e => reads mapkey_decode (mapkey_encode e.1) e.1 /\ refuses (decode n) (enc e.2))).
      * apply Forall_forall. intros [k v] Hin. rewrite Forall_forall in Hk, Hm.
        pose proof (reads_str k (Hk _ Hin)) as Hrk. destruct (Hm _ Hin) as (_ & _ & Hv).
        specialize (Hv n ltac:(pose proof (depth_map_le m _ Hin); lia)). cbn [fst snd] in *. destruct (ints_read v); exact (conj Hrk Hv).
      * by apply reads_map.
      * unfold bs. intros l1 [k v] l2 -> Hl1 [Hkk Hv]. by apply map_refuses.
    + intros y Hy. cbn [decode]. rewrite Hy. reflexivity.
Qed.

Lemma encode_good v : cbor_ok v -> good v.
Proof.
  induction v as [|b|n|x|s|b|l IH|m IH|c] using IpldValue_ind; inversion 1; subst.
  - eapply (good_leaf Null TNull e_null d_skip (fun _ => Null) tt); [done..|apply null_law|apply null_law|by_type].
  - eapply (good_leaf _ TBool (e_bool b) d_bool Bool b); [done..|apply bool_law|apply bool_law|by_type].
  - destruct (integer_widths n) as (bs & t & He & Ht & Hr & Hty); [done|].
    eapply (good_leaf _ t bs integer_decode Integer n); [done..|by eapply integer_decode_typed|].
    intros k y Hy. cbn [decode]. rewrite Hy. by destruct t.
  - eapply (good_leaf _ TF64 (e_f64 x) d_f64 Float x); [done..|by apply f64_law|by apply f64_law|by_type].
  - eapply (good_leaf _ TString (e_str s) d_str String s); [done..|by apply str_type|by apply reads_str|by_type].
  - eapply (good_leaf _ TBytes (e_bytes b) d_bytes Bytes b); [done..|by apply bytes_type|by apply reads_bytes|by_type].
  - apply good_list; [done|]. rewrite Forall_forall in *. auto.
  - apply good_map; [done..|]. rewrite Forall_forall in *. auto.
  - eapply (good_leaf _ TTag (e_cid c) d_cid Link c); [done..|apply cid_type|apply reads_cid|by_type].
Qed.

(** C12: DAG-CBOR round trip, exactly: every value whose integers are between
    [- 2 ^ 63] and [2 ^ 64 - 1], whose strings and sequences have lengths that fit
    the format and whose maps are in order is encoded without panicking, however
    deep it is.  Decoding the bytes, the fuel being the length of the input, gives
    the value back if no integer of it is in [-256..-129], [-65536..-32769] or
    [- 2 ^ 32 .. - 2 ^ 31 - 1]; with any such integer in it, at whatever depth,
    what was just encoded is refused. *)
Theorem ipld_cbor_roundtrip (v : IpldValue) :
  cbor_ok v -> exists bs, @encode _ _ _ decode_error v = Ok bs /\
    if ints_read v then from_cbor bs = Ok v /\ cbor_from_ipld from_cbor v = Ok v
    else exists e, from_cbor bs = Err e /\ cbor_from_ipld from_cbor v = Err (Codec (inr e)).
Proof.
  intros Hv. destruct (encode_good v Hv) as (He & Hd & Hr). exists (enc v). split; [done|].
  specialize (Hr (S (length (enc v))) ltac:(lia)). unfold cbor_from_ipld, from_cbor. rewrite He. cbn [bind].
  destruct (ints_read v); specialize (Hr []); rewrite app_nil_r in Hr; [by rewrite Hr|].
  destruct Hr as [e ->]. by exists e.
Qed.

(** Outside the range of CBOR's integers the encoder panics. *)
Lemma integer_encode_panics E n :
  n < - 2 ^ 63 \/ 2 ^ 64 <= n <-> @integer_encode _ _ E n = Panic.
Proof.
  unfold integer_encode. destruct (Z.ltb_spec n 0);
    repeat (match goal with |- context [Z.leb ?a ?b] => destruct (Z.leb_spec a b) end); split; (done || lia).
Qed.
End Cbor.

(** ** DAG-JSON *)
Section Json.
Context {M : Minicbor} {MA : @MinicborAny M} {C : CidLib} {CT : @CidText C} {CTL : @CidTextLaws M MA C CT}.
Context {B : Multibase} {BL : MultibaseLaws B} {J : SerdeJson}.

(** Maps in order, bytes that are bytes. *)
Inductive value_ok : IpldValue -> Prop :=
| vok_null : value_ok Null
| vok_bool b : value_ok (Bool b)
| vok_int n : value_ok (Integer n)
| vok_float x : value_ok (Float x)
| vok_string s : value_ok (String s)
| vok_bytes b : bytes_ok b -> value_ok (Bytes b)
| vok_list l : Forall value_ok l -> value_ok (List l)
| vok_map m : in_order m -> Forall (fun e => value_ok e.2) m -> value_ok (Map m)
| vok_link c : value_ok (Link c).

(** The maps that JSON reads as something else. *)
Definition reserved (m : list (bytes * IpldValue)) : bool :=
  match m with
  | [(k, String _)] => bool_decide (k = SLASH)
  | [(k, Map [(k', String _)])] => bool_decide (k = SLASH /\ k' = BYTES)
  | _ => false
  end.

Definition finite (x : f64) : bool :=
  match x with SpecFloat.S754_zero _ | SpecFloat.S754_finite _ _ _ => true | _ => false end.

Fixpoint json_safe (v : IpldValue) : bool :=
  match v with
  | Integer n => (- 2 ^ 63 <=? n) && (n <? 2 ^ 64)
  | Float x => finite x && bool_decide (float_text x = x)
  | List l => forallb json_safe l
  | Map m => forallb (fun e => match e with (_, v) => json_safe v end) m && negb (reserved m)
  | _ => true
  end.

Lemma map_get_one {V} k k' (v : V) : map_get k [(k', v)] = if decide (k = k') then Some v else None.
Proof.
  cbn. case_decide as Hk.
  - subst. by rewrite (proj2 (bytes_cmp_eq k' k') eq_refl).
  - destruct (bytes_cmp k k') eqn:Hc; [|done..]. by apply bytes_cmp_eq in Hc.
Qed.

Lemma visit_plain m : reserved m = false -> visit_entries m = Ok (Map m).
Proof.
  intros Hr. destruct m as [|[k v] [|e m]]; [done| |done]. unfold visit_entries. rewrite map_get_one.
  case_decide as Hk; [subst k|done]. destruct v as [| | | |s| | |m'|]; try done.
  destruct m' as [|[k' v'] [|e m']]; [done| |done]. rewrite map_get_one.
  case_decide as Hk'; [subst k'|done]. destruct v'; try done.
Qed.

Lemma visit_map_inv m m' : visit_entries m = Ok (Map m') -> m = m' /\ reserved m = false.
Proof.
  destruct m as [|[k v] [|e m]]; [by intros [= <-]| |intros [= <-]; split; [done|]; cbn; destruct v as [| | | | | | |[|[? []] []]|]; done].
  unfold visit_entries. rewrite map_get_one. case_decide as Hk.
  - subst k. destruct v as [| | | |s| | |m1|]; try by intros [= <-].
    + destruct (cid_from_string s); done.
    + destruct m1 as [|[k' v'] [|e m1]]; [by intros [= <-]| |intros [= <-]; split; [done|]; cbn; by destruct v'].
      rewrite map_get_one. case_decide as Hk'.
      * subst k'. destruct v'; try by intros [= <-].
        unfold bytes_from_text. destruct (multibase_decode s) as [[b bs]|]; [|done]. by destruct (decide (b <> Base64)).
      * intros [= <-]. split; [done|]. cbn. destruct v'; try done. apply bool_decide_false. intros [_ He]. congruence.
  - intros [= <-]. split; [done|]. cbn. destruct v as [| | | |s| | |m1|]; try done.
    + apply bool_decide_false. congruence.
    + destruct m1 as [|[k' v'] [|e m1]]; try done; destruct v'; try done.
      apply bool_decide_false. intros [He _]. congruence.
Qed.

Lemma traverse_map_inv {E A V K} (f : A -> outcome E V) (l : list (K * A)) es :
  traverse_map f l = Ok es -> es.*1 = l.*1 /\ Forall2 (fun e e' => f e.2 = Ok e'.2) l es.
Proof.
  revert es. induction l as [|[k a] l IH]; intros es; cbn; [by intros [= <-]|].
  destruct (f a) as [b| | |] eqn:Ha; cbn [bind]; [|done..].
  destruct (traverse_map f l) as [bs| | |]; cbn [bind]; [|done..]. intros [= <-].
  destruct (IH bs eq_refl) as [Hk Hf]. cbn. rewrite Hk. split; [done|]. by constructor.
Qed.

Lemma traverse_inv {E A V} (f : A -> outcome E V) (l : list A) bs :
  traverse f l = Ok bs -> Forall2 (fun a b => f a = Ok b) l bs.
Proof.
  revert bs. induction l as [|a l IH]; intros bs; cbn; [intros [= <-]; constructor|].
  destruct (f a) as [b| | |] eqn:Ha; cbn [bind]; [|done..].
  destruct (traverse f l) as [bs'| | |]; cbn [bind]; [|done..]. intros [= <-]. constructor; [done|]. by apply IH.
Qed.

Lemma in_order_keys {V W} (a : list (bytes * V)) (b : list (bytes * W)) :
  a.*1 = b.*1 -> in_order b -> in_order a.
Proof.
  revert b. induction a as [|[k v] a IH]; intros [|[k' w] b] Hk Hb; try done; [constructor|].
  cbn in Hk. injection Hk as -> Hk. apply StronglySorted_inv in Hb as [Hb Hf]. constructor; [by eapply IH|].
  clear IH Hb. revert b Hk Hf. induction a as [|[k v'] a IH]; intros [|[k2 w2] b] Hk Hf; try done.
  cbn in Hk. injection Hk as -> Hk. apply Forall_cons in Hf as [H1 H2]. constructor; [done|]. by eapply IH.
Qed.

(** What the children do decides what a list or a map does. *)
Definition comes_back (v : IpldValue) : Prop := deserialize (serialize v) = Ok v.

Lemma traverse_comes_back l : traverse deserialize (map serialize l) = Ok l <-> Forall comes_back l.
Proof.
  induction l as [|v l IH]; cbn; [by split|]. rewrite Forall_cons, <- IH. unfold comes_back.
  destruct (deserialize (serialize v)) as [v'| | |]; cbn [bind]; [|by split; [|intros []]..].
  destruct (traverse deserialize (map serialize l)) as [vs| | |]; cbn [bind];
    [|by split; [|intros []]..].
  split; [by intros [= -> ->]|]. by intros [[= ->] [= ->]].
Qed.

Abbreviation serialize_entry := (fun e : bytes * IpldValue => match e with (k, v) => (k, serialize v) end).

Lemma traverse_map_comes_back m :
  traverse_map deserialize (map serialize_entry m) = Ok m <-> Forall (fun e => comes_back e.2) m.
Proof.
  induction m as [|[k v] m IH]; cbn; [by split|]. rewrite Forall_cons, <- IH. unfold comes_back. cbn.
  destruct (deserialize (serialize v)) as [v'| | |]; cbn [bind]; [|by split; [|intros []]..].
  destruct (traverse_map deserialize (map serialize_entry m)) as [vs| | |]; cbn [bind];
    [|by split; [|intros []]..].
  split; [by intros [= -> ->]|]. by intros [[= ->] [= ->]].
Qed.

Lemma comes_back_map m :
  in_order m -> comes_back (Map m) <-> Forall (fun e => comes_back e.2) m /\ reserved m = false.
Proof.
  intros Hs. rewrite <- traverse_map_comes_back. unfold comes_back. cbn [serialize deserialize].
  destruct (traverse_map deserialize (map serialize_entry m)) as [es| | |] eqn:Ht; cbn [bind];
    [|by split; [|intros []]..].
  apply traverse_map_inv in Ht as [Hk _].
  assert (Hes : map_of es = es).
  { apply map_of_sorted. eapply in_order_keys; [|exact Hs]. rewrite Hk. rewrite map_map. by apply map_ext; intros [? ?]. }
  rewrite Hes. split.
  - intros [-> Hr]%visit_map_inv. done.
  - intros [[= ->] Hr]. by apply visit_plain.
Qed.

Lemma comes_back_int n : comes_back (Integer n) <-> (- 2 ^ 63 <=? n) && (n <? 2 ^ 64) = true.
Proof.
  unfold comes_back, serialize, integer_serialize, deserialize, json_int.
  destruct (Z.leb_spec 0 n), (Z.ltb_spec n (2 ^ 64)), (Z.leb_spec (- 2 ^ 63) n), (Z.ltb_spec n 0); cbn [andb];
    (split; congruence || lia).
Qed.

Lemma comes_back_bytes b : bytes_ok b -> comes_back (Bytes b).
Proof.
  intros Hb. unfold comes_back, serialize, bytes_serialize.
  cbn [deserialize traverse_map bind map_of fold_left map_insert fst snd].
  rewrite visit_plain by reflexivity. cbn [bind map_of fold_left map_insert fst snd].
  unfold visit_entries. rewrite map_get_one, decide_True by done. rewrite map_get_one, decide_True by done.
  unfold bytes_from_text, bytes_to_string. rewrite multibase_roundtrip by done. by rewrite decide_False by tauto.
Qed.

Lemma comes_back_link c : comes_back (Link c).
Proof.
  unfold comes_back, serialize, cid_serialize. cbn [deserialize traverse_map bind map_of fold_left map_insert fst snd].
  unfold visit_entries. rewrite map_get_one, decide_True by done. by rewrite cid_parse.
Qed.

(** A map with the one key "/" and the text of a CID has the JSON of the link. *)
Lemma slash_map_is_a_link c : deserialize (serialize (Map [(SLASH, String (cid_to_string c))])) = Ok (Link c).
Proof. apply (comes_back_link c). Qed.

Lemma comes_back_list l : comes_back (List l) <-> Forall comes_back l.
Proof.
  rewrite <- traverse_comes_back. unfold comes_back. cbn [serialize deserialize].
  destruct (traverse deserialize (map serialize l)); cbn [bind]; split; congruence.
Qed.

Lemma forallb_iff {A} (P Q : A -> Prop) (f : A -> bool) (l : list A) :
  Forall (fun a => Q a -> (P a <-> f a = true)) l -> Forall Q l -> Forall P l <-> forallb f l = true.
Proof.
  induction 1 as [|a l Ha _ IH]; cbn; [by split|]. intros [Hq Hl]%Forall_cons.
  rewrite Forall_cons, andb_true_iff, (Ha Hq), (IH Hl). done.
Qed.

Lemma comes_back_iff v : value_ok v -> comes_back v <-> json_safe v = true.
Proof.
  induction v as [|b|n|x|s|b|l IH|m IH|c] using IpldValue_ind; inversion 1; subst; cbn [json_safe]; try done.
  - apply comes_back_int.
  - unfold comes_back. cbn. destruct x; cbn; try done; rewrite bool_decide_eq_true; (split; [by intros [= ->]|by intros ->]).
  - split; [done|]. intros _. by apply comes_back_bytes.
  - rewrite comes_back_list. by eapply forallb_iff.
  - rewrite comes_back_map, andb_true_iff, negb_true_iff by done.
    assert (Hf : Forall (fun e => comes_back e.2) m
      <-> forallb (fun e : bytes * IpldValue => match e with (_, v) => json_safe v end) m = true).
    { apply (forallb_iff _ (fun e => value_ok e.2)); [|done]. eapply Forall_impl; [exact IH|]. by intros [k w]. }
    by rewrite Hf.
  - split; [done|]. intros _. apply comes_back_link.
Qed.

(** C13: DAG-JSON round trip, exactly: a value comes back from its own JSON if and
    only if its integers fit an [i64] or a [u64], its floats are finite and
    survive their text, and no map in it has the shape JSON keeps for links
    ([{"/": string}]) or for bytes ([{"/": {"bytes": string}}]). *)
Theorem ipld_json_roundtrip_iff (v : IpldValue) :
  value_ok v -> deserialize (serialize v) = Ok v <-> json_safe v = true.
Proof. apply comes_back_iff. Qed.

(** ** Reading JSON *)

(** The floats of a value survive their text. *)
Fixpoint floats_back (v : IpldValue) : bool :=
  match v with
  | Float x => finite x && bool_decide (float_text x = x)
  | List l => forallb floats_back l
  | Map m => forallb (fun e => match e with (_, v) => floats_back v end) m
  | _ => true
  end.

(** What the reader yields, floats apart. *)
Definition normal (v : IpldValue) : Prop := value_ok v /\ (floats_back v = true -> json_safe v = true).

Lemma forallb_impl {A} (f g : A -> bool) l :
  Forall (fun a => f a = true -> g a = true) l -> forallb f l = true -> forallb g l = true.
Proof.
  induction 1 as [|a l Ha _ IH]; [done|]. cbn. rewrite !andb_true_iff. intros [Hf Hl]. auto.
Qed.

Lemma normal_list l : Forall normal l -> normal (List l).
Proof.
  intros Hl. split; [constructor; eapply Forall_impl; [exact Hl|]; by intros v []|].
  apply forallb_impl. eapply Forall_impl; [exact Hl|]. by intros v [].
Qed.

Lemma normal_map m : in_order m -> reserved m = false -> Forall (fun e => normal e.2) m -> normal (Map m).
Proof.
  intros Hs Hr Hm. split; [constructor; [done|]; eapply Forall_impl; [exact Hm|]; by intros e []|].
  cbn. rewrite Hr, andb_true_r. apply forallb_impl. eapply Forall_impl; [exact Hm|]. by intros [k v] [].
Qed.

Lemma normal_entries m v :
  in_order m -> Forall (fun e => normal e.2) m -> visit_entries m = Ok v -> normal v.
Proof.
  intros Hs Hm Hv. destruct v as [| | | | |b| |m'|c].
  8: { apply visit_map_inv in Hv as [-> Hr]. by apply normal_map. }
  8: { by split; [constructor|]. }
  6: { split; [constructor|done]. revert Hv. unfold visit_entries, bytes_from_text.
       repeat case_match; try done. cbn. intros [= <-]. by eapply multibase_bytes. }
  all: exfalso; revert Hv; unfold visit_entries, bytes_from_text; repeat case_match; done.
Qed.

Lemma map_insert_values {V} (Q : V -> Prop) k v (m : list (bytes * V)) :
  Q v -> Forall (fun e => Q e.2) m -> Forall (fun e => Q e.2) (map_insert k v m).
Proof.
  intros Hv. induction 1 as [|[k' v'] m Hq Hm IH]; cbn; [by constructor|].
  destruct (MapKey_cmp k k'); constructor; try done. by constructor.
Qed.

Lemma map_of_snoc {V} (l : list (bytes * V)) e : map_of (l ++ [e]) = map_insert e.1 e.2 (map_of l).
Proof. unfold map_of. by rewrite fold_left_app. Qed.

Lemma map_of_ok {V} (Q : V -> Prop) (l : list (bytes * V)) :
  Forall (fun e => Q e.2) l -> in_order (map_of l) /\ Forall (fun e => Q e.2) (map_of l).
Proof.
  induction l as [|e l IH] using rev_ind; [by repeat constructor|]. intros [Hl [He _]%Forall_cons]%Forall_app.
  rewrite map_of_snoc. destruct (IH Hl). split; [by apply map_insert_sorted|by apply map_insert_values].
Qed.

Lemma deserialize_yields j v : deserialize j = Ok v -> normal v.
Proof.
  revert v. induction j as [|b|n|x|s|l IH|l IH] using json_ind; intros v; cbn [deserialize].
  - intros [= <-]. by split; [constructor|].
  - intros [= <-]. by split; [constructor|].
  - unfold json_int. destruct (_ && _) eqn:H1; [|destruct ((- _ <=? n) && _) eqn:H2]; intros [= <-];
      (split; [constructor|]); cbn; try done; intros _; lia.
  - intros [= <-]. by split; [constructor|].
  - intros [= <-]. by split; [constructor|].
  - intros (vs & Ht%traverse_inv & [= <-])%bind_ok. apply normal_list.
    clear -IH Ht. induction Ht as [|a b l vs Hab _ IHt]; [constructor|]. apply Forall_cons in IH as [Ha IH].
    constructor; [by apply Ha|by apply IHt].
  - intros (es & Ht & Hv)%bind_ok. apply traverse_map_inv in Ht as [_ Ht].
    assert (He : Forall (fun e => normal e.2) es).
    { clear -IH Ht. induction Ht as [|a b l vs Hab _ IHt]; [constructor|]. apply Forall_cons in IH as [Ha IH].
      constructor; [by apply Ha|by apply IHt]. }
    destruct (map_of_ok normal es He) as [Hs Hq]. by eapply normal_entries.
Qed.

(** The last entry of a key. *)
Definition last_of {V} (k : bytes) (l : list (bytes * V)) : option V := snd <$> last (filter (fun e => e.1 = k) l).

Lemma last_of_snoc {V} k (l : list (bytes * V)) e : last_of k (l ++ [e]) = if decide (e.1 = k) then Some e.2 else last_of k l.
Proof.
  unfold last_of. rewrite filter_app, filter_cons, filter_nil. case_decide; [by rewrite last_snoc|by rewrite app_nil_r].
Qed.

Lemma in_map_insert {V} k' v (m : list (bytes * V)) k x :
  in_order m -> (k, x) ∈ map_insert k' v m <-> if decide (k' = k) then x = v else (k, x) ∈ m.
Proof.
  assert (Hself : forall a, MapKey_cmp a a <> Lt) by (intros a; by rewrite (proj2 (MapKey_cmp_eq a a) eq_refl)).
  induction 1 as [|[k1 v1] m Hs IH Hf]; cbn.
  { rewrite list_elem_of_singleton. case_decide; [subst|]; split; try naive_solver. intros []%not_elem_of_nil. }
  assert (Hlater : (k, x) ∈ m -> MapKey_cmp k1 k = Lt) by (intros Hin; rewrite Forall_forall in Hf; exact (Hf _ Hin)).
  destruct (MapKey_cmp k' k1) eqn:Hc; rewrite ?elem_of_cons.
  - apply MapKey_cmp_eq in Hc as ->. case_decide as Hk.
    + subst k1. split; [intros [[= ->]|Hin]; [done|by destruct (Hself k (Hlater Hin))]|intros ->; by left].
    + rewrite elem_of_cons. split; intros [He|Hin]; auto; congruence.
  - case_decide as Hk.
    + subst k'. split; [|intros ->; by left]. intros [He|[He|Hin]]; [congruence|injection He as -> _; by destruct (Hself k1)|].
      destruct (Hself k). eapply MapKey_cmp_trans; [exact Hc|by apply Hlater].
    + rewrite elem_of_cons. split; [intros [He|Hin]; [congruence|done]|by right].
  - rewrite IH. case_decide as Hk; [subst k'|by rewrite elem_of_cons]. split; [|by right]. intros [He|]; [|done]. injection He as -> _.
    by rewrite (proj2 (MapKey_cmp_eq k1 k1) eq_refl) in Hc.
Qed.

Lemma in_map_of {V} (l : list (bytes * V)) k x : (k, x) ∈ map_of l <-> last_of k l = Some x.
Proof.
  induction l as [|[k' v] l IH] using rev_ind; [split; [by intros []%not_elem_of_nil|done]|].
  assert (Hs : in_order (map_of l)) by (apply (map_of_ok (fun _ => True)), Forall_true; done).
  rewrite map_of_snoc, (in_map_insert k' v _ k x Hs), last_of_snoc. cbn. case_decide; [naive_solver|exact IH].
Qed.

Lemma last_of_cons {V} k (e : bytes * V) l :
  last_of k (e :: l) = match last_of k l with Some x => Some x | None => if decide (e.1 = k) then Some e.2 else None end.
Proof.
  unfold last_of. rewrite filter_cons. destruct (decide (e.1 = k)); [rewrite last_cons|]; by destruct (last (filter _ l)).
Qed.

Lemma last_of_traverse l es k :
  traverse_map deserialize l = Ok es ->
  match last_of k l, last_of k es with Some j, Some x => deserialize j = Ok x | None, None => True | _, _ => False end.
Proof.
  intros [Hk Hf]%traverse_map_inv. revert Hk.
  induction Hf as [|[k1 j] [k2 v] l es Hj Hf IH]; cbn; [done|]. intros [= -> Hk]. specialize (IH Hk).
  rewrite !last_of_cons. cbn in *. destruct (last_of k l), (last_of k es); try done. by case_decide.
Qed.

(** C31: reading JSON gives a normal form.  Whatever the text, with keys in any
    order or repeated, the value read from it has its maps in key order, and if
    its floats survive their text it is written as JSON that reads back as the
    same value, which a map with a shape that JSON keeps for links or bytes would
    not.  A map read from an object has exactly the keys of the object,
    each with the value of its last occurrence. *)
Theorem deserialize_normal (j : json) (v : IpldValue) :
  deserialize j = Ok v ->
  value_ok v /\ (floats_back v = true -> deserialize (serialize v) = Ok v) /\
  forall l m, j = JObj l -> v = Map m ->
    forall k x, (k, x) ∈ m <-> exists i, last_of k l = Some i /\ deserialize i = Ok x.
Proof.
  intros Hj. destruct (deserialize_yields j v Hj) as [Hv Hs]. split; [done|]. split.
  - intros Hf. by apply comes_back_iff, Hs.
  - intros l m -> ->. cbn [deserialize] in Hj. apply bind_ok in Hj as (es & Ht & [<- _]%visit_map_inv). intros k x.
    rewrite in_map_of. pose proof (last_of_traverse l es k Ht) as Hl.
    destruct (last_of k l) as [i|], (last_of k es) as [y|]; try done; split.
    + intros [= ->]. by exists i.
    + intros (i' & [= <-] & Hx). congruence.
    + done.
    + by intros (? & ? & _).
Qed.
End Json.

(** ** The witnesses' value *)
Definition sample_cid : cid_ref := dag_cbor_cid (str "block").

Definition sample_sorted : IpldValue :=
  Map [(str "/", String (str "path")); (str "a", List [Null; Bool true; Integer (-5); Integer 65536; Float (f64_of_int 3)]);
       (str "b", Bytes [0; 255]); (str "link", Link sample_cid); (str "list", List [Map []])].

Local Ltac sorted := repeat (constructor; [|by repeat constructor]); constructor.

Lemma sample_order : in_order [(str "/", String (str "path"));
  (str "a", List [Null; Bool true; Integer (-5); Integer 65536; Float (f64_of_int 3)]);
  (str "b", Bytes [0; 255]); (str "link", Link sample_cid); (str "list", List [Map []])].
Proof. sorted. Qed.

Lemma short_text s : (String.length s < 100)%nat -> vec_u8 (str s).
Proof.
  intros Hl. split; [apply str_bytes_ok|]. unfold len_u64.
  assert (He : length (str s) = String.length s) by (clear; induction s; cbn; congruence). lia.
Qed.

Lemma sample_cbor_ok : cbor_ok sample_sorted.
Proof.
  apply ok_map; [done|exact sample_order|repeat (constructor; [apply short_text; cbn; lia|]); constructor|].
  repeat (apply Forall_cons; split); try apply Forall_nil_2; cbn [snd].
  - apply ok_string, short_text. cbn. lia.
  - apply ok_list; [done|]. repeat (apply Forall_cons; split); try apply Forall_nil_2.
    + constructor.
    + constructor.
    + constructor. unfold int_ok. lia.
    + constructor. unfold int_ok. lia.
    + constructor. reflexivity.
  - apply ok_bytes. split; [|done]. repeat (constructor; [unfold u8; lia|]). constructor.
  - constructor.
  - apply ok_list; [done|]. constructor; [|constructor]. apply ok_map; [done|constructor..].
Qed.

(** A value that comes back, and a list whose second element does not. *)
Lemma ipld_cbor_roundtrip_witness :
  (exists bs, @encode _ _ _ decode_error sample_sorted = Ok bs /\
    (from_cbor bs = Ok sample_sorted /\ cbor_from_ipld from_cbor sample_sorted = Ok sample_sorted)) /\
  (exists bs, @encode _ _ _ decode_error (List [Integer 1; Integer (-200)]) = Ok bs /\
    exists e, from_cbor bs = Err e /\ cbor_from_ipld from_cbor (List [Integer 1; Integer (-200)]) = Err (Codec (inr e))).
Proof.
  split; [exact (ipld_cbor_roundtrip sample_sorted sample_cbor_ok)|].
  apply (ipld_cbor_roundtrip (List [Integer 1; Integer (-200)])).
  apply ok_list; [done|]. repeat constructor; unfold int_ok; lia.
Defined.

Lemma ipld_json_roundtrip_iff_witness :
  deserialize (serialize sample_sorted) = Ok sample_sorted <-> json_safe sample_sorted = true.
Proof.
  apply (ipld_json_roundtrip_iff sample_sorted). apply vok_map; [exact sample_order|].
  repeat (apply Forall_cons; split); try apply Forall_nil_2; cbn [snd]; try constructor.
  - repeat constructor.
  - repeat (constructor; [unfold u8; lia|]). constructor.
  - constructor; [|constructor]. constructor; constructor.
Defined.

(** ** Looking keys up by [&str] *)
Definition str_lt {V} (a b : bytes * V) : Prop := bytes_cmp a.1 b.1 = Lt.

Lemma map_get_skip {V} k k' (v : V) m :
  bytes_cmp k' k = Lt -> map_get k ((k', v) :: m) = map_get k m.
Proof. intros Hc. cbn. by rewrite bytes_cmp_antisym, Hc. Qed.

(** [MapKey] lends itself as a [str] but is ordered differently.  In a map of
    one node, [get] with a string finds all the keys exactly when the order by
    length and the order of strings agree on them; otherwise some entry of the
    map cannot be found. *)
Theorem map_get_by_str_iff {V} (m : list (bytes * V)) :
  in_order m -> (length m <= 11)%nat ->
  (forall k v, (k, v) ∈ m -> map_get k m = Some v) <-> StronglySorted str_lt m.
Proof.
  intros Hs _. split.
  - induction Hs as [|[k v] m Hs IH Hf]; intros Hget; [constructor|].
    assert (Hlt : Forall (str_lt (k, v)) m).
    { apply Forall_forall. intros [k2 v2] Hin. unfold str_lt. cbn.
      rewrite Forall_forall in Hf. specialize (Hf _ Hin). unfold key_lt in Hf. cbn in Hf.
      specialize (Hget k2 v2 ltac:(apply elem_of_cons; by right)). cbn in Hget.
      rewrite bytes_cmp_antisym. destruct (bytes_cmp k2 k) eqn:Hc; [|done|done].
      apply bytes_cmp_eq in Hc as ->. by rewrite (proj2 (MapKey_cmp_eq k k) eq_refl) in Hf. }
    constructor; [|done]. apply IH. intros k2 v2 Hin.
    rewrite <- (Hget k2 v2) by (apply elem_of_cons; by right). symmetry. apply map_get_skip.
    rewrite Forall_forall in Hlt. apply (Hlt _ Hin).
  - clear Hs. induction 1 as [|[k v] m Hs IH Hf]; intros k2 v2 Hin; [by apply elem_of_nil in Hin|].
    apply elem_of_cons in Hin as [[= -> ->]|Hin].
    + cbn. by rewrite (proj2 (bytes_cmp_eq k k) eq_refl).
    + rewrite map_get_skip; [by apply IH|]. rewrite Forall_forall in Hf. apply (Hf _ Hin).
Qed.

(** The two keys of the witness: ["b"] comes before ["aa"], and ["aa"] is lost. *)
Lemma map_get_by_str_iff_witness :
  let m := [(str "b", 1); (str "aa", 2)] in
  ((forall k v, (k, v) ∈ m -> map_get k m = Some v) <-> StronglySorted str_lt m) /\ map_get (str "aa") m = None.
Proof.
  intros m. split; [|done]. apply (map_get_by_str_iff m); [|cbn; lia]. repeat constructor.
Defined.


(** Keys out of order, one of them twice. *)
Lemma deserialize_normal_witness :
  let m := [(str "a", Integer 3); (str "b", Null)] in
  value_ok (Map m) /\ deserialize (serialize (Map m)) = Ok (Map m) /\
  ((str "a", Integer 3) ∈ m <->
     exists i, last_of (str "a") [(str "b", JNull); (str "a", JInt 1); (str "a", JInt 3)] = Some i /\ deserialize i = Ok (Integer 3)).
Proof.
  intros m. destruct (deserialize_normal (JObj [(str "b", JNull); (str "a", JInt 1); (str "a", JInt 3)]) (Map m)) as (Hv & Hb & Hm).
  - reflexivity.
  - split; [exact Hv|]. split; [exact (Hb eq_refl)|exact (Hm _ m eq_refl eq_refl (str "a") (Integer 3))].
Defined.
