(* ===== verification/IpldMacro.v ===== *)
(** * [ipld!]: the literal macro of [ipld/src/value/macros.rs]

    The macro rules are a push-down parser over token trees, so they are modelled
    as functions on token trees: [ipld_internal_list] is the muncher [@list],
    [ipld_internal_map] the muncher [@map], [ipld_internal] the main rules.  What
    a rule expands to is a piece of [code], and [eval] runs it.  An input that no
    rule takes, or that expands to code that does not type-check, is an [Err]; a
    panic of the expanded code is [Panic].

    A Rust expression is one token here: it has its type's JSON and, if it is a
    string, the [MapKey] its [into] gives.  An expression is the longest one that
    starts at its place, as the compiler takes it: [v [0]] and [f (x)] are one
    token [KExpr] each, so that a literal has no expression in front of a bracket
    or a parenthesis that would continue it.  (The compiler's recursion limit,
    which a crate sets for itself, is not modelled.) *)

From Stdlib Require Import ZArith Lia String Sorted.
From stdpp Require Import base numbers list sorting.
From S2P Require Import Prelude Cbor CborRef F64 Tipset Json Ipld IpldRef IpldTheorems.

Local Open Scope Z_scope.

(** ** Token trees *)
Record expr := Expr {
  expr_json : outcome de_error json;   (* [Serialize] *)
  expr_key : option bytes;             (* [Into<MapKey>] *)
}.

(** What stands between the brackets of [bytes![..]]. *)
Inductive btok := BNum (n : Z) | BComma | BSemi.

Unset Elimination Schemes.
Inductive tt :=
| KNull | KTrue | KFalse
| KBytes (body : list btok)            (* [bytes![..]] *)
| KLink (text : bytes)                 (* [link!(..)] *)
| KBracket (ts : list tt)              (* [[..]] *)
| KBrace (ts : list tt)                (* [{..}] *)
| KParen (e : expr)                    (* [(..)] *)
| KExpr (e : expr)                     (* any other expression *)
| KComma | KColon.
Set Elimination Schemes.

Section TtInd.
Context (P : tt -> Prop).
Context (Hflat : forall t, match t with KBracket _ | KBrace _ => False | _ => True end -> P t)
  (Hbracket : forall ts, Forall P ts -> P (KBracket ts)) (Hbrace : forall ts, Forall P ts -> P (KBrace ts)).
Definition tt_ind : forall t, P t :=
  fix F t := match t with
  | KBracket ts => Hbracket ts ((fix G ts : Forall P ts := match ts with
      | [] => Forall_nil_2 _
      | t :: ts => Forall_cons_2 _ _ _ (F t) (G ts)
      end) ts)
  | KBrace ts => Hbrace ts ((fix G ts : Forall P ts := match ts with
      | [] => Forall_nil_2 _
      | t :: ts => Forall_cons_2 _ _ _ (F t) (G ts)
      end) ts)
  | t => Hflat t I
  end.
End TtInd.

(** The tokens a rule names, the ones an [expr] fragment takes, and the others. *)
Inductive token_kind := Named | Expression | Punct.
Definition kind (t : tt) : token_kind :=
  match t with
  | KNull | KTrue | KFalse | KBytes _ | KLink _ | KBracket _ | KBrace _ => Named
  | KParen _ | KExpr _ => Expression
  | KComma | KColon => Punct
  end.

Inductive macro_error :=
| Unexpected (t : tt)          (* [ipld_unexpected!], or no rule for the token *)
| UnexpectedEnd                (* [ipld_internal!()] *)
| NotAKey (key : list tt)      (* [(key).into()] is not a [MapKey] *)
| NotBytes (body : list btok). (* no rule for the body, or its elements are no [u8] *)

(** ** The expansion *)
Inductive byte_code := BVec (bs : bytes) | BFill (b n : Z).

Inductive code :=
| CNull | CBool (b : bool) | CBytes (b : byte_code) | CLink (text : bytes)
| CList (l : list code) | CMap (m : list (bytes * code))   (* the insertions, in order *)
| COther (e : expr).

Definition is_u8 (n : Z) : bool := (0 <=? n) && (n <? 256).

(** [$($byte:expr),*] and [$($byte:expr,)*] *)
Fixpoint byte_list (body : list btok) : option bytes :=
  match body with
  | [] => Some []
  | [BNum n] => if is_u8 n then Some [n] else None
  | BNum n :: BComma :: body' => if is_u8 n then cons n <$> byte_list body' else None
  | _ => None
  end.

Definition ipld_internal_bytes (body : list btok) : outcome macro_error byte_code :=
  match body with
  | [BNum b; BSemi; BNum n] =>
      if is_u8 b && (0 <=? n) && (n <? 2 ^ 64) then Ok (BFill b n) else Err (NotBytes body)
  | _ => match byte_list body with Some bs => Ok (BVec bs) | None => Err (NotBytes body) end
  end.

(** The key of an entry: its tokens in parentheses, [into] a [MapKey]. *)
Definition key_of (key : list tt) : outcome macro_error bytes :=
  match key with
  | [KExpr e] | [KParen e] => match expr_key e with Some k => Ok k | None => Err (NotAKey key) end
  | _ => Err (NotAKey key)
  end.

Section Munchers.
Context (ipld_internal : tt -> outcome macro_error code).

(** [(@list [elems] ts)]; [comma] says whether [elems] ends with a comma, and an
    empty [elems] has both forms. *)
Fixpoint ipld_internal_list (elems : list code) (comma : bool) (ts : list tt) : outcome macro_error (list code) :=
  match ts with
  | [] => Ok elems
  | t :: rest =>
      match elems, comma with
      | _ :: _, false => match t with KComma => ipld_internal_list elems true rest | _ => Err (Unexpected t) end
      | _, _ =>
          match kind t with
          | Named => c <- ipld_internal t ;; ipld_internal_list (elems ++ [c]) false rest
          | Expression =>
              match rest with
              | [] => c <- ipld_internal t ;; Ok (elems ++ [c])
              | KComma :: rest' => c <- ipld_internal t ;; ipld_internal_list (elems ++ [c]) true rest'
              | _ => Err (Unexpected t)
              end
          | Punct =>
              match t, elems with
              | KComma, [] => ipld_internal_list [] true rest
              | _, _ => Err (Unexpected t)
              end
          end
      end
  end.

(** [(@map map (key) (ts) (ts))] with the entries [acc] inserted so far. *)
Fixpoint ipld_internal_map (acc : list (bytes * code)) (key : list tt) (ts : list tt)
  : outcome macro_error (list (bytes * code)) :=
  match ts with
  | [] => match key with [] => Ok acc | _ => Err UnexpectedEnd end
  | t :: rest =>
      match t, key with
      | KColon, [] => Err (Unexpected KColon)
      | KColon, _ :: _ =>
          match rest with
          | [] => Err UnexpectedEnd
          | v :: rest2 =>
              match kind v, rest2 with
              | Named, [] | Expression, [] =>
                  c <- ipld_internal v ;; k <- key_of key ;; Ok (acc ++ [(k, c)])
              | Named, KComma :: rest3 | Expression, KComma :: rest3 =>
                  c <- ipld_internal v ;; k <- key_of key ;; ipld_internal_map (acc ++ [(k, c)]) [] rest3
              | Named, u :: _ => Err (Unexpected u)
              | _, _ => ipld_internal_map acc (key ++ [KColon]) rest
              end
          end
      | KComma, _ => Err (Unexpected KComma)
      | KParen e, [] =>
          match rest with
          | KColon :: _ => ipld_internal_map acc [KExpr e] rest
          | _ => ipld_internal_map acc [t] rest
          end
      | _, _ => ipld_internal_map acc (key ++ [t]) rest
      end
  end.
End Munchers.

(** The main rules, on one token tree. *)
Fixpoint ipld_internal (t : tt) : outcome macro_error code :=
  match t with
  | KNull => Ok CNull
  | KTrue => Ok (CBool true)
  | KFalse => Ok (CBool false)
  | KBytes body => b <- ipld_internal_bytes body ;; Ok (CBytes b)
  | KLink text => Ok (CLink text)
  | KBracket ts => l <- ipld_internal_list ipld_internal [] true ts ;; Ok (CList l)
  | KBrace ts => m <- ipld_internal_map ipld_internal [] [] ts ;; Ok (CMap m)
  | KParen e | KExpr e => Ok (COther e)
  | KComma | KColon => Err (Unexpected t)
  end.

Section Run.
Context `{CidText} `{Multibase} `{SerdeJson}.

Definition ISIZE_MAX : Z := 2 ^ 63 - 1.

(** The expanded code: [vec!], [parse().unwrap()], [json_to_ipld(..).unwrap()]
    and the insertions into a fresh map. *)
Fixpoint eval (c : code) : outcome macro_error IpldValue :=
  match c with
  | CNull => Ok Null
  | CBool b => Ok (Bool b)
  | CBytes (BVec bs) => Ok (Bytes bs)
  | CBytes (BFill b n) => if n <=? ISIZE_MAX then Ok (Bytes (replicate (Z.to_nat n) b)) else Panic
  | CLink text => match cid_from_string text with Some c => Ok (Link c) | None => Panic end
  | CList l => vs <- traverse eval l ;; Ok (List vs)
  | CMap m => es <- traverse_map eval m ;; Ok (Map (map_of es))
  | COther e => expect (json_to_ipld expr_json e)
  end.

(** [ipld!(ts)] *)
Definition ipld (ts : list tt) : outcome macro_error IpldValue :=
  match ts with
  | [] => Err UnexpectedEnd
  | [t] => c <- ipld_internal t ;; eval c
  | t :: _ => Err (Unexpected t)
  end.
End Run.

(** ** The grammar the rules accept *)
Section Grammar.
Context (R : tt -> code -> Prop).

(** Elements separated by commas, with or without a last one. *)
Inductive elements : list tt -> list code -> Prop :=
| elements_nil : elements [] []
| elements_last t c : R t c -> elements [t] [c]
| elements_cons t c ts cs : R t c -> elements ts cs -> elements (t :: KComma :: ts) (c :: cs).

(** What may follow an element. *)
Definition elements_tail (ts : list tt) (cs : list code) : Prop :=
  (ts = [] /\ cs = []) \/ exists ts', ts = KComma :: ts' /\ elements ts' cs.

Inductive list_body : list tt -> list code -> Prop :=
| body_elements ts cs : elements ts cs -> list_body ts cs
| body_comma ts cs : list_body ts cs -> list_body (KComma :: ts) cs.

Inductive key_token : tt -> bytes -> Prop :=
| key_expr e k : expr_key e = Some k -> key_token (KExpr e) k
| key_paren e k : expr_key e = Some k -> key_token (KParen e) k.

(** Entries [key : value] separated by commas, with or without a last one. *)
Inductive map_body : list tt -> list (bytes * code) -> Prop :=
| map_nil : map_body [] []
| map_last t k v c : key_token t k -> R v c -> map_body [t; KColon; v] [(k, c)]
| map_cons t k v c ts m : key_token t k -> R v c -> map_body ts m -> map_body (t :: KColon :: v :: KComma :: ts) ((k, c) :: m).
End Grammar.

Inductive literal : tt -> code -> Prop :=
| lit_null : literal KNull CNull
| lit_true : literal KTrue (CBool true)
| lit_false : literal KFalse (CBool false)
| lit_bytes body b : ipld_internal_bytes body = Ok b -> literal (KBytes body) (CBytes b)
| lit_link text : literal (KLink text) (CLink text)
| lit_list ts cs : list_body literal ts cs -> literal (KBracket ts) (CList cs)
| lit_map ts m : map_body literal ts m -> literal (KBrace ts) (CMap m)
| lit_paren e : literal (KParen e) (COther e)
| lit_expr e : literal (KExpr e) (COther e).

(** ** The munchers accept the grammar *)
Section Accept.
Context (f : tt -> outcome macro_error code) (R : tt -> code -> Prop).
Context (Hcomma : forall c, f KComma <> Ok c) (Hcolon : forall c, f KColon <> Ok c).
Definition agrees (t : tt) : Prop := forall c, f t = Ok c <-> R t c.

Lemma agrees_punct t c : agrees t -> R t c -> kind t <> Punct.
Proof. intros Ha Hr%Ha. destruct t; try discriminate; intros _; [by eapply Hcomma|by eapply Hcolon]. Qed.

(** One element, then what follows it: whatever rule took it. *)
Lemma list_step elems t rest out :
  agrees t -> ipld_internal_list f elems true (t :: rest) = Ok out <->
  (exists c, R t c /\
     ((rest = [] /\ out = elems ++ [c]) \/
      exists rest', rest = KComma :: rest' /\ ipld_internal_list f (elems ++ [c]) true rest' = Ok out))
  \/ (t = KComma /\ elems = [] /\ ipld_internal_list f [] true rest = Ok out).
Proof.
  intros Ha.
  assert (Hgo : ipld_internal_list f elems true (t :: rest) = match kind t with
    | Named => c <- f t ;; ipld_internal_list f (elems ++ [c]) false rest
    | Expression => match rest with
        | [] => c <- f t ;; Ok (elems ++ [c])
        | KComma :: rest' => c <- f t ;; ipld_internal_list f (elems ++ [c]) true rest'
        | _ => Err (Unexpected t) end
    | Punct => match t, elems with KComma, [] => ipld_internal_list f [] true rest | _, _ => Err (Unexpected t) end
    end) by (cbn; by destruct elems).
  assert (Hpost : forall c, ipld_internal_list f (elems ++ [c]) false rest =
    match rest with
    | [] => Ok (elems ++ [c])
    | KComma :: rest' => ipld_internal_list f (elems ++ [c]) true rest'
    | u :: _ => Err (Unexpected u) end).
  { intros c. destruct rest as [|u rest]; [done|]. cbn. destruct (elems ++ [c]) eqn:Happ; [by destruct elems|]. by destruct u. }
  rewrite Hgo. clear Hgo. split.
  - intros Ht. destruct (kind t) eqn:Hk.
    + apply bind_ok in Ht as (c & Hc & Ht). rewrite Hpost in Ht. left. exists c. split; [by apply Ha|].
      destruct rest as [|[] rest]; simplify_eq; eauto.
    + assert (Hr : exists c, f t = Ok c /\ match rest with
        | [] => out = elems ++ [c] | KComma :: rest' => ipld_internal_list f (elems ++ [c]) true rest' = Ok out
        | _ => False end).
      { destruct rest as [|[] rest]; try discriminate; apply bind_ok in Ht as (c & Hc & Ht); exists c; split; congruence. }
      destruct Hr as (c & Hc & Hr). left. exists c. split; [by apply Ha|]. destruct rest as [|[] rest]; eauto; done.
    + right. destruct t; try discriminate. destruct elems; [done|discriminate].
  - intros [(c & Hr & Hrest)|(-> & -> & Ht)]; [|done].
    pose proof (agrees_punct t c Ha Hr) as Hk. apply Ha in Hr.
    destruct (kind t); [| |done]; rewrite Hr; cbn [bind];
      try rewrite Hpost; destruct Hrest as [[-> ->]|(rest' & -> & Ht)]; done.
Qed.

Lemma list_elements n : forall ts elems out,
  (length ts <= n)%nat -> Forall agrees ts -> elems <> [] ->
  ipld_internal_list f elems true ts = Ok out <-> exists cs, elements R ts cs /\ out = elems ++ cs.
Proof.
  induction n as [|n IH]; intros [|t rest] elems out Hn Hts Hne; cbn [length] in Hn; try lia.
  1,2: cbn; split; [intros [= <-]; exists []; rewrite app_nil_r; split; [constructor|done]
                   |intros (cs & Hcs & ->); inversion Hcs; by rewrite app_nil_r].
  apply Forall_cons in Hts as [Ha Hts]. rewrite list_step by done. split.
  - intros [(c & Hr & [[-> ->]|(rest' & -> & Ht)])|(_ & ? & _)]; [|apply Forall_cons in Hts as [_ Hts]|done].
    + exists [c]. by split; [apply elements_last|].
    + apply IH in Ht as (cs & Hcs & ->); [|cbn in Hn; lia|done|by destruct elems].
      exists (c :: cs). split; [by apply elements_cons|]. by rewrite <- app_assoc.
  - intros (cs & Hcs & ->). left. inversion Hcs as [|? c|? c ts' cs']; subst; exists c; (split; [done|]); [by left|].
    right. exists ts'. split; [done|]. apply Forall_cons in Hts as [_ Hts].
    apply IH; [cbn in Hn; lia|done|by destruct elems|]. exists cs'. by rewrite <- app_assoc.
Qed.

Lemma list_accepts ts out : Forall agrees ts -> ipld_internal_list f [] true ts = Ok out <-> list_body R ts out.
Proof.
  revert out. induction ts as [|t rest IH]; intros out Hts.
  { split; [intros [= <-]; do 2 constructor|]. inversion 1 as [? ? He|]; by inversion He. }
  apply Forall_cons in Hts as [Ha Hts]. rewrite list_step by done. split.
  - intros [(c & Hr & [[-> ->]|(rest' & -> & Ht)])|(-> & _ & Ht)].
    + by apply body_elements, elements_last.
    + apply Forall_cons in Hts as [_ Hts]. apply (list_elements (length rest')) in Ht as (cs & Hcs & ->); [|done..].
      by apply body_elements, elements_cons.
    + by apply body_comma, IH.
  - inversion 1 as [? ? He|]; subst; [|right; split; [done|]; split; [done|]; by apply IH].
    left. inversion He as [|? c|? c ts' cs']; subst; exists c; (split; [done|]); [by left|].
    right. exists ts'. split; [done|]. apply Forall_cons in Hts as [_ Hts].
    apply (list_elements (length ts')); [done..|]. by exists cs'.
Qed.

(** A key of more than one token, or of the wrong type, is never inserted. *)
Lemma key_of_extend key t : key <> [] -> exists e, key_of (key ++ [t]) = Err e.
Proof. destruct key as [|[] [|? ?]]; cbn; eauto; done. Qed.

Lemma dead_key ts : forall acc key out,
  key <> [] -> (exists e, key_of key = Err e) -> ipld_internal_map f acc key ts <> Ok out.
Proof.
  assert (Hext : forall ts, (forall acc key out,
      key <> [] -> (exists e, key_of key = Err e) -> ipld_internal_map f acc key ts <> Ok out) ->
    forall acc key t out, key <> [] -> ipld_internal_map f acc (key ++ [t]) ts <> Ok out).
  { intros ts' IH acc key t out Hk. apply IH; [by destruct key|by apply key_of_extend]. }
  induction ts as [|t rest IH]; intros acc key out Hk [e He]; cbn; [by destruct key|].
  pose proof (Hext rest IH acc key) as Hgo.
  destruct key as [|k0 key'] eqn:Hkey; [done|]. rewrite <- Hkey in *.
  destruct t; try (apply Hgo; by rewrite Hkey); [done|]. rewrite He.
  destruct rest as [|v [|u rest]]; [done| |];
    destruct (kind v); try destruct u; try (apply Hgo; by rewrite Hkey); try done;
    destruct (f v); done.
Qed.

(** With one string as its key, an entry is read exactly when a colon and a
    value follow, then a comma or the end. *)
Lemma entry_step acc e k rest out :
  Forall agrees rest -> expr_key e = Some k ->
  ipld_internal_map f acc [KExpr e] rest = Ok out <->
  exists v c rest2, rest = KColon :: v :: rest2 /\ R v c /\
    ((rest2 = [] /\ out = acc ++ [(k, c)]) \/
     exists rest3, rest2 = KComma :: rest3 /\ ipld_internal_map f (acc ++ [(k, c)]) [] rest3 = Ok out).
Proof.
  intros Hrest Hk.
  assert (Hdead : forall t ts, ipld_internal_map f acc [KExpr e; t] ts <> Ok out).
  { intros t ts. apply dead_key; [done|]. by eexists. }
  split.
  - destruct rest as [|t rest]; [done|]. intros Hm.
    destruct t; try (by destruct (Hdead _ _ Hm)); try done. cbn in Hm.
    destruct rest as [|v rest2]; [done|]. apply Forall_cons in Hrest as [_ [Ha _]%Forall_cons].
    exists v. rewrite Hk in Hm.
    assert (Hv : exists c, f v = Ok c /\ match rest2 with
      | [] => acc ++ [(k, c)] = out
      | KComma :: rest3 => ipld_internal_map f (acc ++ [(k, c)]) [] rest3 = Ok out
      | _ => False end).
    { destruct (kind v), rest2 as [|[] rest2]; try (by destruct (Hdead _ _ Hm)); try done;
        apply bind_ok in Hm as (c & Hc & Hm); exists c; (split; [done|by simplify_eq/=]). }
    destruct Hv as (c & Hc & Hv). exists c, rest2. split; [done|]. split; [by apply Ha|].
    destruct rest2 as [|[] rest2]; try done; [left; by simplify_eq|eauto].
  - intros (v & c & rest2 & -> & Hr & Hm). apply Forall_cons in Hrest as [_ [Ha _]%Forall_cons].
    pose proof (agrees_punct v c Ha Hr) as Hp. apply Ha in Hr. cbn. rewrite Hk.
    destruct Hm as [[-> ->]|(rest3 & -> & Hm)]; destruct (kind v); try done; by rewrite Hr.
Qed.

(** The first token of an entry is its key. *)
Lemma key_step acc t rest out :
  ipld_internal_map f acc [] (t :: rest) = Ok out <->
  exists e k, (t = KExpr e \/ t = KParen e) /\ expr_key e = Some k /\ ipld_internal_map f acc [KExpr e] rest = Ok out.
Proof.
  assert (Hnocolon : forall e, (forall r, rest <> KColon :: r) -> ipld_internal_map f acc [KParen e] rest <> Ok out).
  { intros e Hr. destruct rest as [|t' rest]; [done|].
    destruct t'; cbn [ipld_internal_map]; try (apply dead_key; [done|by eexists]); [done|by destruct (Hr rest)]. }
  split.
  - intros Hm. destruct t; cbn in Hm; try done;
      try (exfalso; revert Hm; apply dead_key; [done|by eexists]).
    + assert (Hm' : ipld_internal_map f acc [KExpr e] rest = Ok out).
      { destruct rest as [|[] rest]; try done; by destruct (Hnocolon e ltac:(done) Hm). }
      destruct (expr_key e) as [k|] eqn:Hk; [by exists e, k; auto|].
      exfalso. revert Hm'. apply dead_key; [done|]. cbn. rewrite Hk. by eexists.
    + destruct (expr_key e) as [k|] eqn:Hk; [by exists e, k; auto|].
      exfalso. revert Hm. apply dead_key; [done|]. cbn. rewrite Hk. by eexists.
  - intros (e & k & [->| ->] & Hk & Hm); cbn; [done|].
    destruct rest as [|t' rest]; [done|].
    destruct t'; try done; exfalso; revert Hm; cbn [ipld_internal_map]; (apply dead_key; [done|by eexists]).
Qed.

Lemma map_entries n : forall ts acc out,
  (length ts <= n)%nat -> Forall agrees ts ->
  ipld_internal_map f acc [] ts = Ok out <-> exists m, map_body R ts m /\ out = acc ++ m.
Proof.
  induction n as [|n IH]; intros [|t rest] acc out Hn Hts; cbn [length] in Hn; try lia.
  1,2: cbn; split; [intros [= <-]; exists []; rewrite app_nil_r; split; [constructor|done]
                   |intros (cs & Hcs & ->); inversion Hcs; by rewrite app_nil_r].
  apply Forall_cons in Hts as [_ Hts]. rewrite key_step. split.
  - intros (e & k & Ht & Hk & Hm).
    assert (Hkey : key_token t k) by (destruct Ht as [->| ->]; by constructor).
    apply (entry_step acc e k) in Hm as (v & c & rest2 & -> & Hr & Hm); [|done..].
    destruct Hm as [[-> ->]|(rest3 & -> & Hm)]; [exists [(k, c)]; by split; [apply map_last|]|].
    do 3 apply Forall_cons in Hts as [_ Hts]. apply IH in Hm as (m & Hm & ->); [|cbn in Hn; lia|done].
    exists ((k, c) :: m). split; [by apply map_cons|]. by rewrite <- app_assoc.
  - intros (m & Hm & ->).
    assert (Hkey : forall k, key_token t k -> exists e, (t = KExpr e \/ t = KParen e) /\ expr_key e = Some k).
    { intros k Hk. inversion Hk; subst; eauto. }
    inversion Hm as [|? k v c Hk Hr|? k v c ts m' Hk Hr Hb]; subst; destruct (Hkey k Hk) as (e & Ht & He);
      exists e, k; (split; [done|]); (split; [done|]); apply (entry_step _ e k); try done;
      eexists v, c, _; (split; [done|]); (split; [done|]); [by left|].
    right. exists ts. split; [done|]. do 3 apply Forall_cons in Hts as [_ Hts].
    apply IH; [cbn in Hn; lia|done|]. exists m'. by rewrite <- app_assoc.
Qed.
End Accept.

Lemma internal_agrees t : agrees ipld_internal literal t.
Proof.
  assert (Hc : forall c, ipld_internal KComma <> Ok c) by done.
  assert (Hl : forall c, ipld_internal KColon <> Ok c) by done.
  induction t as [t Hflat|ts IH|ts IH] using tt_ind; intros c.
  - destruct t; try done; cbn; try (split; [intros [= <-]; constructor|by inversion 1]); try (split; [done|by inversion 1]).
    split; [intros (b & Hb & [= <-])%bind_ok; by constructor|inversion 1 as [| | |? b Hb| | | | |]; subst; by rewrite Hb].
  - cbn. split; [intros (l & Hb & [= <-])%bind_ok; apply lit_list; by eapply list_accepts|].
    inversion 1 as [| | | | |? l Hb| | |]; subst. by rewrite (proj2 (list_accepts _ _ Hc Hl _ _ IH) Hb).
  - cbn. split.
    + intros (m & Hb & [= <-])%bind_ok. apply (map_entries _ literal Hc Hl (length ts)) in Hb as (m' & Hb & ->); [|done..].
      by apply lit_map.
    + inversion 1 as [| | | | | |? m Hb| |]; subst.
      rewrite (proj2 (map_entries _ literal Hc Hl (length ts) ts [] m ltac:(done) IH)); [done|]. by exists m.
Qed.

(** C37: The macro rules accept exactly this grammar, and expand a literal to the
    code the grammar gives it: [null], [true], [false], [bytes!], [link!],
    expressions, lists of elements separated by commas and maps of entries
    [key : value] separated by commas, both with an optional last comma; a key is
    one string expression, in parentheses or not.  A list may also start with any
    number of commas. *)
Theorem ipld_macro_grammar (t : tt) (c : code) : ipld_internal t = Ok c <-> literal t c.
Proof. apply internal_agrees. Qed.

(** ** Every value has a literal *)
Section Spell.
Context {M : Minicbor} {MA : @MinicborAny M} {C : CidLib} {CT : @CidText C} {CTL : @CidTextLaws M MA C CT}.
Context {B : Multibase} {J : SerdeJson}.

Definition of_json (j : json) : expr := Expr (Ok j) (match j with JStr s => Some s | _ => None end).

Fixpoint spell_bytes (bs : bytes) : list btok :=
  match bs with [] => [] | b :: bs => BNum b :: BComma :: spell_bytes bs end.

(** The literal of a value, with a comma after every element. *)
Fixpoint spell (v : IpldValue) : tt :=
  match v with
  | Null => KNull
  | Bool true => KTrue
  | Bool false => KFalse
  | Integer n => KExpr (of_json (JInt n))
  | Float x => KExpr (of_json (JFloat x))
  | String s => KExpr (of_json (JStr s))
  | Bytes b => KBytes (spell_bytes b)
  | List l => KBracket (concat (map (fun v => [spell v; KComma]) l))
  | Map m => KBrace (concat (map (fun e => match e with (k, v) => [KExpr (of_json (JStr k)); KColon; spell v; KComma] end) m))
  | Link c => KLink (cid_to_string c)
  end.

(** The code of that literal. *)
Fixpoint spelled (v : IpldValue) : code :=
  match v with
  | Null => CNull
  | Bool b => CBool b
  | Integer n => COther (of_json (JInt n))
  | Float x => COther (of_json (JFloat x))
  | String s => COther (of_json (JStr s))
  | Bytes b => CBytes (BVec b)
  | List l => CList (map spelled l)
  | Map m => CMap (map (fun e => match e with (k, v) => (k, spelled v) end) m)
  | Link c => CLink (cid_to_string c)
  end.

(** The values with numbers that JSON has: integers of 64 bits, and finite floats
    that survive their text. *)
Fixpoint numbers_ok (v : IpldValue) : bool :=
  match v with
  | Integer n => (- 2 ^ 63 <=? n) && (n <? 2 ^ 64)
  | Float x => finite x && bool_decide (float_text x = x)
  | List l => forallb numbers_ok l
  | Map m => forallb (fun e => match e with (_, v) => numbers_ok v end) m
  | _ => true
  end.

Lemma byte_list_spell b : bytes_ok b -> byte_list (spell_bytes b) = Some b.
Proof.
  induction 1 as [|x b Hx _ IH]; [done|]. cbn [spell_bytes byte_list]. unfold is_u8, u8 in *.
  rewrite (proj2 (Z.leb_le 0 x)), (proj2 (Z.ltb_lt x 256)) by lia. cbn [andb]. by rewrite IH.
Qed.

Lemma bytes_spell b : bytes_ok b -> ipld_internal_bytes (spell_bytes b) = Ok (BVec b).
Proof.
  intros Hb. unfold ipld_internal_bytes. rewrite byte_list_spell by done. by destruct b.
Qed.

Lemma spell_literal v : value_ok v -> literal (spell v) (spelled v).
Proof.
  induction v as [|b|n|x|s|b|l IH|m IH|c] using IpldValue_ind; inversion 1 as [| | | | |? Hb|? Hl|? Ho Hm|]; subst;
    cbn; try by constructor.
  - destruct b; constructor.
  - constructor. by apply bytes_spell.
  - apply lit_list, body_elements. clear -IH Hl. induction Hl as [|v l Hv Hl IHl]; cbn; [constructor|].
    apply Forall_cons in IH as [Hs IH]. apply elements_cons; [by apply Hs|by apply IHl].
  - apply lit_map. clear -IH Hm. induction Hm as [|[k v] m Hv Hm IHm]; cbn; [constructor|].
    apply Forall_cons in IH as [Hs IH]. apply map_cons; [by constructor|by apply Hs|by apply IHm].
Qed.

Lemma eval_json j v : (json_depth j < 128)%nat -> deserialize j = Ok v -> eval (COther (of_json j)) = Ok v.
Proof. intros Hd Hj. cbn. unfold json_to_ipld, from_str. cbn. rewrite decide_True by done. by rewrite Hj. Qed.

Lemma eval_spelled v : value_ok v -> numbers_ok v = true -> eval (spelled v) = Ok v.
Proof.
  induction v as [|b|n|x|s|b|l IH|m IH|c] using IpldValue_ind; inversion 1 as [| | | | |? Hb|? Hl|? Ho Hm|]; subst;
    cbn [numbers_ok]; intros Hn; try done.
  - apply eval_json; [cbn; lia|by apply comes_back_int].
  - apply andb_true_iff in Hn as [Hf Hn%bool_decide_eq_true]. apply eval_json; cbn; [lia|by rewrite Hn].
  - cbn [spelled eval].
    assert (Ht : traverse eval (map spelled l) = Ok l).
    { clear -IH Hl Hn. induction Hl as [|v l Hv Hl IHl]; [done|]. apply Forall_cons in IH as [Hs IH].
      cbn in Hn. apply andb_true_iff in Hn as [Hv' Hn]. cbn. by rewrite Hs, IHl. }
    by rewrite Ht.
  - cbn [spelled eval].
    assert (Ht : traverse_map eval (map (fun e : bytes * IpldValue => match e with (k, v) => (k, spelled v) end) m) = Ok m).
    { clear -IH Hm Hn. induction Hm as [|[k v] m Hv Hm IHm]; [done|]. apply Forall_cons in IH as [Hs IH].
      cbn in Hn. apply andb_true_iff in Hn as [Hv' Hn]. cbn in Hs, Hv |- *. by rewrite Hs, IHm. }
    rewrite Ht. cbn [bind]. by rewrite map_of_sorted.
  - cbn. by rewrite cid_parse.
Qed.

(** C38: Every value has a literal: for a value with its maps in order, its
    integers within 64 bits and its floats finite and unchanged by their text, the
    macro accepts the literal that spells it out and the expanded code builds that
    value, however deep it is, the maps included that its own JSON reads back as a
    link or as bytes. *)
Theorem ipld_macro_spells (v : IpldValue) : value_ok v -> numbers_ok v = true -> ipld [spell v] = Ok v.
Proof.
  intros Hv Hn. unfold ipld. rewrite (proj2 (internal_agrees _ _) (spell_literal v Hv)). cbn [bind].
  by apply eval_spelled.
Qed.
End Spell.

(** The map that JSON takes for a link, the one it takes for bytes, and more. *)
Definition sample_literal : IpldValue :=
  Map [(str "/", String (str "bafy")); (str "a", List [Null; Bool true; Integer (-5); Integer 65536; Float (f64_of_int 3)]);
       (str "b", Bytes [0; 255]); (str "link", Link sample_cid); (str "list", List [Map []])].

Lemma ipld_macro_spells_witness : ipld [spell sample_literal] = Ok sample_literal.
Proof.
  apply (ipld_macro_spells sample_literal); [|reflexivity].
  apply vok_map; [repeat (constructor; [|by repeat constructor]); constructor|].
  repeat (apply Forall_cons; split); try apply Forall_nil_2; cbn [snd]; try constructor.
  - repeat constructor.
  - repeat (constructor; [unfold u8; lia|]). constructor.
  - constructor; [|constructor]. constructor; constructor.
Defined.

(** Repeated keys keep the last value; a leading comma in a list is accepted, a
    doubled one is not; a missing value and a second key are errors. *)
Example ipld_macro_runs :
  let s x := KExpr (of_json (JStr (str x))) in
  ipld [KBrace [s "b"%string; KColon; KNull; KComma; s "a"%string; KColon; KTrue; KComma; s "b"%string; KColon; KFalse]]
    = Ok (Map [(str "a", Bool true); (str "b", Bool false)]) /\
  ipld [KBracket [KComma; KComma; KTrue; KComma; KBytes [BNum 7; BSemi; BNum 3]; KComma]]
    = Ok (List [Bool true; Bytes [7; 7; 7]]) /\
  ipld [KBracket [s "x"%string; KComma; KComma; KTrue]] = Err (Unexpected KComma) /\
  ipld [KBrace [s "x"%string; KColon]] = Err UnexpectedEnd /\
  ipld [KLink (str "not a cid")] = Panic.
Proof. repeat split. Qed.
