(* ===== verification/Wallet.v ===== *)
(** * [wallet]: keys, key stores and the wallet

    The wallet is one record behind a lock; every method of [Wallet] takes the
    lock for the whole call, so a call is one step of [WalletImpl].  The network
    that [Display] of an address reads from a global is an argument, and so are
    the random secrets. *)

From Stdlib Require Import ZArith Lia String.
From stdpp Require Import base numbers gmap sorting list.
From S2P Require Import Prelude Cbor CborRef Address AddressRef Crypto Tipset.

Local Open Scope Z_scope.

#[export] Instance Address_countable : Countable Address.
Proof.
  refine (inj_countable' (fun a => (u8_of_Protocol (protocol a), payload a))
            (fun x => mkAddress (match Protocol_try_from (fst x) with Ok p => p | _ => Id end) (snd x)) _).
  intros [p pl]. by destruct p.
Defined.

Module Wallet.
Import Crypto.Crypto.

(** ** key_info.rs *)
Inductive KeyType := KtSecp256k1 | KtBls | Libp2pHost | JwtHmacSecret | Other (s : list Z).

#[export] Instance KeyType_eq_dec : EqDecision KeyType.
Proof. solve_decision. Defined.

(** [Debug] and [Display], which JSON serialization uses. *)
Definition keytype_to_string (t : KeyType) : list Z :=
  match t with
  | KtSecp256k1 => str "secp256k1"
  | KtBls => str "bls"
  | Libp2pHost => str "libp2p-host"
  | JwtHmacSecret => str "jwt-hmac-secret"
  | Other s => s
  end.

Definition keytype_deserialize (s : list Z) : KeyType :=
  if decide (s = str "secp256k1") then KtSecp256k1
  else if decide (s = str "bls") then KtBls
  else if decide (s = str "libp2p-host") then Libp2pHost
  else if decide (s = str "jwt-hmac-secret") then JwtHmacSecret
  else Other s.

Record KeyInfo := mkKeyInfo { ki_type : KeyType; private_key : list Z }.

#[export] Instance KeyInfo_eq_dec : EqDecision KeyInfo.
Proof. solve_decision. Defined.

(** ** keystore/mod.rs, keystore/memory.rs *)
Class KeyStore (KS : Type) := {
  ks_list : KS -> outcome (list Z) (list (list Z));
  ks_get : KS -> list Z -> outcome (list Z) (option KeyInfo);
  ks_put : KS -> list Z -> KeyInfo -> outcome (list Z) unit * KS;
  ks_delete : KS -> list Z -> outcome (list Z) unit * KS;
}.

Record MemKeyStore := mkMemKeyStore { map : gmap (list Z) KeyInfo }.

Definition mem_new : MemKeyStore := mkMemKeyStore ∅.

#[export] Instance mem_key_store : KeyStore MemKeyStore := {|
  ks_list s := Ok (map_to_list (map s)).*1;
  ks_get s k := Ok (map s !! k);
  ks_put s k info := (Ok tt, mkMemKeyStore (<[k := info]> (map s)));
  ks_delete s k := (Ok tt, mkMemKeyStore (delete k (map s)));
|}.

(** ** wallet.rs *)
Definition WALLET_NAME_PREFIX : list Z := str "wallet-".
Definition DEFAULT_KEY_NAME : list Z := str "default".

Record Key := mkKey { info : KeyInfo; pubkey : list Z; address : Address }.

#[export] Instance Key_eq_dec : EqDecision Key.
Proof. solve_decision. Defined.

Section Wallet.
Context `{AddressDeps} `{Curves}.

Inductive WalletError :=
| WAddress (e : AddressError)
| WCrypto (e : CryptoError)
| UnknownKeyType
| WKeyStore (msg : list Z).

Definition key_new_secp256k1 (privkey : list Z) : outcome WalletError Key :=
  seckey <- map_err (fun e => WCrypto (Secp256k1Error e)) (secret_parse_slice privkey) ;;
  let pk := secp_pub_serialize (from_secret_key seckey) in
  a <- map_err WAddress (new_secp256k1_addr pk) ;;
  Ok (mkKey (mkKeyInfo KtSecp256k1 (secret_serialize seckey)) pk a).

Definition key_new_bls (privkey : list Z) : outcome WalletError Key :=
  seckey <- map_err (fun e => WCrypto (BlsError e)) (bls_priv_from_bytes privkey) ;;
  let pk := bls_pub_as_bytes (bls_public_key seckey) in
  a <- map_err WAddress (new_bls_addr pk) ;;
  Ok (mkKey (mkKeyInfo KtBls (bls_priv_as_bytes seckey)) pk a).

Definition key_new (i : KeyInfo) : outcome WalletError Key :=
  match ki_type i with
  | KtSecp256k1 => key_new_secp256k1 (private_key i)
  | KtBls => key_new_bls (private_key i)
  | _ => Err UnknownKeyType
  end.

(** [generate_key], given the secrets the random generator returns. *)
Definition generate_key (t : KeyType) (secret : SecretKey) (bls_secret : BlsPrivateKey)
  : outcome WalletError Key :=
  match t with
  | KtSecp256k1 => key_new_secp256k1 (secret_serialize secret)
  | KtBls => key_new_bls (bls_priv_as_bytes bls_secret)
  | _ => Err UnknownKeyType
  end.

Record WalletImpl (KS : Type) := mkWallet { keys : gmap Address Key; keystore : KS }.
Arguments mkWallet {KS}.
Arguments keys {KS}.
Arguments keystore {KS}.

Section Impl.
Context {KS : Type} `{KeyStore KS} (net : Network).
Implicit Types w : WalletImpl KS.

Definition wallet_new (ks : KS) : WalletImpl KS := mkWallet ∅ ks.
Definition wallet_new_with_keys (ks : list Key) (store : KS) : WalletImpl KS :=
  mkWallet (fold_left (fun m k => <[address k := k]> m) ks ∅) store.

Definition find_key (w : WalletImpl KS) (a : Address) : option Key := keys w !! a.

(** The name an address has in the key store. *)
Definition wallet_name {E} (a : Address) : outcome E (list Z) :=
  s <- to_string net a ;; Ok (WALLET_NAME_PREFIX ++ s).

Definition wallet_sign (w : WalletImpl KS) (a : Address) (msg : list Z) : outcome WalletError Signature :=
  match find_key w a with
  | Some key =>
      match ki_type (info key) with
      | KtSecp256k1 => map_err WCrypto (sign_secp256k1 (private_key (info key)) msg)
      | KtBls => map_err WCrypto (sign_bls (private_key (info key)) msg)
      | _ => Err UnknownKeyType
      end
  | None => n <- wallet_name a ;; Err (WKeyStore (str "key `" ++ n ++ str "` not found"))
  end.

Definition wallet_export (w : WalletImpl KS) (a : Address) : option KeyInfo := info <$> find_key w a.

Definition wallet_import (w : WalletImpl KS) (i : KeyInfo) : outcome WalletError Address * WalletImpl KS :=
  match key_new i with
  | Ok key =>
      match wallet_name (address key) with
      | Ok name =>
          let '(r, ks) := ks_put (keystore w) name (info key) in
          match r with
          | Ok _ => (Ok (address key), mkWallet (<[address key := key]> (keys w)) ks)
          | Err e => (Err (WKeyStore e), mkWallet (keys w) ks)
          | Panic => (Panic, mkWallet (keys w) ks)
          | OutOfFuel => (OutOfFuel, mkWallet (keys w) ks)
          end
      | Err e => (Err e, w) | Panic => (Panic, w) | OutOfFuel => (OutOfFuel, w)
      end
  | Err e => (Err e, w) | Panic => (Panic, w) | OutOfFuel => (OutOfFuel, w)
  end.

(** [Vec<String>::sort]: byte order. *)
Fixpoint insert_string (x : list Z) (l : list (list Z)) : list (list Z) :=
  match l with
  | [] => [x]
  | y :: l' => match bytes_cmp x y with Gt => y :: insert_string x l' | _ => x :: l end
  end.
Definition sort_strings (l : list (list Z)) : list (list Z) := fold_right insert_string [] l.

Definition starts_with (s p : list Z) : bool := bool_decide (take (length p) s = p).

(** [trim_start_matches]: the pattern is removed as often as it matches; every
    round shortens the string. *)
Fixpoint trim_start_matches_in (fuel : nat) (s p : list Z) : list Z :=
  match fuel with
  | O => s
  | S fuel' => if starts_with s p then trim_start_matches_in fuel' (drop (length p) s) p else s
  end.
Definition trim_start_matches (s p : list Z) : list Z := trim_start_matches_in (S (length s)) s p.

Fixpoint parse_names (l : list (list Z)) : outcome WalletError (list Address) :=
  match l with
  | [] => Ok []
  | n :: l' =>
      if starts_with n WALLET_NAME_PREFIX then
        a <- map_err WAddress (from_str net (trim_start_matches n WALLET_NAME_PREFIX)) ;;
        r <- parse_names l' ;; Ok (a :: r)
      else parse_names l'
  end.

Definition wallet_list_addrs (w : WalletImpl KS) : outcome WalletError (list Address) :=
  addrs <- map_err WKeyStore (ks_list (keystore w)) ;;
  parse_names (sort_strings addrs).

Definition wallet_get_default (w : WalletImpl KS) : outcome WalletError (option Address) :=
  i <- map_err WKeyStore (ks_get (keystore w) DEFAULT_KEY_NAME) ;;
  match i with
  | Some key_info =>
      match ki_type key_info with
      | KtSecp256k1 => k <- key_new_secp256k1 (private_key key_info) ;; Ok (Some (address k))
      | KtBls => k <- key_new_bls (private_key key_info) ;; Ok (Some (address k))
      | _ => Err UnknownKeyType
      end
  | None => Ok None
  end.

(** A fallible call on the key store, with [map_err] and [?]. *)
Definition on_store {A} (w : WalletImpl KS) (x : outcome (list Z) unit * KS)
    (k : WalletImpl KS -> outcome WalletError A * WalletImpl KS) : outcome WalletError A * WalletImpl KS :=
  let '(r, ks) := x in
  let w := mkWallet (keys w) ks in
  match r with
  | Ok _ => k w
  | Err e => (Err (WKeyStore e), w)
  | Panic => (Panic, w)
  | OutOfFuel => (OutOfFuel, w)
  end.

(** [expect] on an address the memory does not hold. *)
Definition wallet_set_default (w : WalletImpl KS) (a : Address) : outcome WalletError unit * WalletImpl KS :=
  match keys w !! a with
  | None => (Panic, w)
  | Some k =>
      on_store w (ks_delete (keystore w) DEFAULT_KEY_NAME) (fun w =>
      on_store w (ks_put (keystore w) DEFAULT_KEY_NAME (info k)) (fun w =>
      (Ok tt, w)))
  end.

Definition wallet_generate_key (w : WalletImpl KS) (t : KeyType) (secret : SecretKey)
    (bls_secret : BlsPrivateKey) : outcome WalletError Address * WalletImpl KS :=
  match generate_key t secret bls_secret with
  | Ok key =>
      match wallet_name (address key) with
      | Ok name =>
          on_store w (ks_put (keystore w) name (info key)) (fun w =>
          let old := keys w !! address key in
          let w := mkWallet (<[address key := key]> (keys w)) (keystore w) in
          if decide (old = None) then
            match ks_get (keystore w) DEFAULT_KEY_NAME with
            | Ok None =>
                on_store w (ks_put (keystore w) DEFAULT_KEY_NAME (info key)) (fun w =>
                (Ok (address key), w))
            | Ok (Some _) => (Ok (address key), w)
            | Err e => (Err (WKeyStore e), w)
            | Panic => (Panic, w)
            | OutOfFuel => (OutOfFuel, w)
            end
          else (Panic, w))
      | Err e => (Err e, w) | Panic => (Panic, w) | OutOfFuel => (OutOfFuel, w)
      end
  | Err e => (Err e, w) | Panic => (Panic, w) | OutOfFuel => (OutOfFuel, w)
  end.

Definition wallet_has_key (w : WalletImpl KS) (a : Address) : bool := bool_decide (is_Some (find_key w a)).
End Impl.
End Wallet.
Arguments mkWallet {KS}.
Arguments keys {KS}.
Arguments keystore {KS}.
End Wallet.
