(* ===== verification/WalletTheorems.v ===== *)
(** * The wallet over the memory key store

    The calls that change a wallet are the steps of a transition system; what
    holds in every reachable wallet is proved by induction on the steps. *)

From Stdlib Require Import ZArith Lia String.
From stdpp Require Import base numbers gmap sorting list relations.
From S2P Require Import Prelude Cbor CborRef Decimal Address AddressRef Crypto Tipset Wallet.

Local Open Scope Z_scope.

Module WalletTheorems.
Import Crypto.Crypto.
Import Wallet.Wallet.

Section Theorems.
Context `{AddressDepsLaws} `{CurvesLaws} (net : Network).
Abbreviation MemWallet := (WalletImpl MemKeyStore).
Implicit Types w : MemWallet.
Implicit Types k : Key.

(** ** Keys *)

(** A key as the constructors make it: its own key info gives it back. *)
Definition key_wf (k : Key) : Prop :=
  key_new (info k) = Ok k /\ valid_addr (address k) /\
  forall msg, exists s,
    match ki_type (info k) with
    | KtSecp256k1 => map_err WCrypto (sign_secp256k1 (private_key (info k)) msg)
    | KtBls => map_err WCrypto (sign_bls (private_key (info k)) msg)
    | _ => Err UnknownKeyType
    end = Ok s /\ verify s (address k) msg = Ok true.

Lemma key_new_secp256k1_wf p k : key_new_secp256k1 p = Ok k -> key_wf k.
Proof.
  unfold key_new_secp256k1. intros (sk & _ & (a & Ha & [= <-])%bind_ok)%bind_ok.
  unfold key_wf, key_new, key_new_secp256k1. cbn [info ki_type private_key address].
  rewrite secret_roundtrip. cbn [map_err bind]. rewrite Ha. split; [done|].
  destruct (new_secp256k1_addr _) as [a'| | |] eqn:Ha'; [|done..]. injection Ha as ->. split.
  - unfold new_secp256k1_addr in Ha'. destruct (_ && _); [done|].
    by eapply new_hash_valid; [..|exact Ha'].
  - intros msg. destruct (sign_verify_secp256k1 sk msg) as (s & a' & Hs & Ha2 & Hv & _).
    cbn in Hs, Ha2. rewrite Hs. exists s. split; [done|]. congruence.
Qed.

Lemma key_new_bls_wf p k : key_new_bls p = Ok k -> key_wf k.
Proof.
  unfold key_new_bls. intros (sk & _ & (a & Ha & [= <-])%bind_ok)%bind_ok.
  unfold key_wf, key_new, key_new_bls. cbn [info ki_type private_key address].
  rewrite bls_priv_roundtrip. cbn [map_err bind]. rewrite Ha. split; [done|].
  destruct (new_bls_addr _) as [a'| | |] eqn:Ha'; [|done..]. injection Ha as ->. split.
  - unfold new_bls_addr, new in Ha'. destruct (decide _); [|done]. injection Ha' as <-.
    split; [apply bls_pub_bytes|done].
  - intros msg. destruct (sign_verify_bls sk msg) as (s & a' & Hs & Ha2 & Hv & _).
    rewrite Hs. exists s. split; [done|]. congruence.
Qed.

Lemma imported_key_wf i k : key_new i = Ok k -> key_wf k.
Proof.
  unfold key_new. destruct (ki_type i); try done;
    [apply key_new_secp256k1_wf|apply key_new_bls_wf].
Qed.

Lemma generate_key_wf t s b k : generate_key t s b = Ok k -> key_wf k.
Proof.
  destruct t; cbn; try done; [apply key_new_secp256k1_wf|apply key_new_bls_wf].
Qed.
Hint Resolve imported_key_wf generate_key_wf : core.

(** ** Names *)
Lemma trim_once s p :
  starts_with s p = false -> p <> [] -> trim_start_matches (p ++ s) p = s.
Proof.
  intros Hs Hp. unfold trim_start_matches. rewrite length_app.
  assert (Hb : starts_with (p ++ s) p = true)
    by (unfold starts_with; rewrite take_app_length; by apply bool_decide_eq_true_2).
  cbn [trim_start_matches_in]. rewrite Hb, drop_app_length.
  destruct p as [|c p]; [done|]. cbn [length Nat.add trim_start_matches_in]. by rewrite Hs.
Qed.

(** The name of a valid address: it exists, it is recognized and read back by
    [list_addrs], and it is never the name of the default entry. *)
Lemma wallet_name_valid a :
  valid_addr a ->
  exists n, (forall E, @wallet_name _ net E a = Ok n) /\
    starts_with n WALLET_NAME_PREFIX = true /\
    from_str net (trim_start_matches n WALLET_NAME_PREFIX) = Ok a /\
    n <> DEFAULT_KEY_NAME.
Proof.
  intros Hv. destruct (to_string_valid net a Hv) as (body & Hs & Hl & Ha & Hb).
  eexists. split; [intros E; unfold wallet_name; rewrite Hs; reflexivity|].
  split; [unfold starts_with; rewrite take_app_length; by apply bool_decide_eq_true_2|].
  split; [|by destruct net].
  rewrite trim_once; [|by destruct net|done].
  rewrite from_str_body by done. by rewrite decide_True.
Qed.

Lemma wallet_name_inj {E F} a b n :
  valid_addr a -> valid_addr b ->
  @wallet_name _ net E a = Ok n -> @wallet_name _ net F b = Ok n -> a = b.
Proof.
  intros (x & Hx & _ & Ha & _)%wallet_name_valid (y & Hy & _ & Hb & _)%wallet_name_valid Hn Hm.
  rewrite Hx in Hn. rewrite Hy in Hm. congruence.
Qed.

(** ** The transition system *)
Inductive wallet_step : MemWallet -> MemWallet -> Prop :=
| step_import w i r w' : wallet_import net w i = (r, w') -> wallet_step w w'
| step_generate w t s b r w' : wallet_generate_key net w t s b = (r, w') -> wallet_step w w'
| step_set_default w a r w' : wallet_set_default w a = (r, w') -> wallet_step w w'.

Definition wallet_reachable (w : MemWallet) : Prop := rtc wallet_step (wallet_new mem_new) w.

(** Memory and key store agree: every held key is stored under its name, and
    every stored entry is the key info of a held address, under that address's
    name or as the default. *)
Record wallet_inv (w : MemWallet) : Prop := {
  inv_keys a k : keys w !! a = Some k ->
    address k = a /\ key_wf k /\
    exists n, @wallet_name _ net WalletError a = Ok n /\ map (keystore w) !! n = Some (info k);
  inv_store n i : map (keystore w) !! n = Some i ->
    exists k, info k = i /\ key_wf k /\ is_Some (keys w !! address k) /\
      (n = DEFAULT_KEY_NAME \/ @wallet_name _ net WalletError (address k) = Ok n);
}.

Lemma wallet_inv_new : wallet_inv (wallet_new mem_new).
Proof. by split; cbn; intros ??; rewrite lookup_empty. Qed.

(** What [import] and [generate_key] do with a new key. *)
Definition add_key (w : MemWallet) (n : list Z) (k : Key) : MemWallet :=
  mkWallet (<[address k := k]> (keys w)) (mkMemKeyStore (<[n := info k]> (map (keystore w)))).

Definition put_default (w : MemWallet) (i : KeyInfo) : MemWallet :=
  mkWallet (keys w) (mkMemKeyStore (<[DEFAULT_KEY_NAME := i]> (map (keystore w)))).

Lemma wallet_inv_add w n k :
  wallet_inv w -> key_wf k -> @wallet_name _ net WalletError (address k) = Ok n ->
  wallet_inv (add_key w n k).
Proof.
  intros Hinv Hk Hn. split; cbn.
  - intros a k'. destruct (decide (address k = a)) as [<-|Hne].
    + rewrite lookup_insert_eq. intros [= <-]. split; [done|]. split; [done|].
      exists n. by rewrite lookup_insert_eq.
    + rewrite lookup_insert_ne by done. intros Hk'.
      destruct (inv_keys _ Hinv a k' Hk') as (Ha & Hwf & m & Hm & Hs).
      split; [done|]. split; [done|]. exists m. split; [done|].
      rewrite lookup_insert_ne; [done|]. intros ->. apply Hne.
      subst a. eapply wallet_name_inj; [apply Hk|apply Hwf|exact Hn|exact Hm].
  - intros m i. destruct (decide (n = m)) as [<-|Hne].
    + rewrite lookup_insert_eq. intros [= <-]. exists k. rewrite lookup_insert_eq.
      repeat split; eauto; apply Hk.
    + rewrite lookup_insert_ne by done. intros Hi.
      destruct (inv_store _ Hinv m i Hi) as (k' & ? & Hwf & [x Hx] & ?).
      exists k'. split; [done|]. split; [done|]. split; [|done].
      destruct (decide (address k = address k')) as [->|]; [by rewrite lookup_insert_eq; eexists|].
      rewrite lookup_insert_ne by done. by eexists.
Qed.

Lemma wallet_inv_default w a k :
  wallet_inv w -> keys w !! a = Some k -> wallet_inv (put_default w (info k)).
Proof.
  intros Hinv Hk. split; cbn.
  - intros b k' Hk'. destruct (inv_keys _ Hinv b k' Hk') as (<- & Hwf & n & Hn & Hs).
    split; [done|]. split; [done|]. exists n. split; [done|].
    rewrite lookup_insert_ne; [done|].
    destruct (wallet_name_valid (address k') (proj1 (proj2 Hwf))) as (m & Hm & _ & _ & Hne).
    rewrite Hm in Hn. injection Hn as <-. by apply not_eq_sym.
  - intros n i. destruct (decide (DEFAULT_KEY_NAME = n)) as [<-|Hne].
    + rewrite lookup_insert_eq. intros [= <-]. exists k.
      destruct (inv_keys _ Hinv a k Hk) as (Ha & Hwf & _).
      split; [done|]. split; [done|]. rewrite Ha. eauto.
    + rewrite lookup_insert_ne by done. apply (inv_store _ Hinv).
Qed.

Lemma set_default_put w a k :
  keys w !! a = Some k ->
  wallet_set_default w a = (Ok tt, put_default w (info k)).
Proof.
  intros Hk. unfold wallet_set_default. rewrite Hk. cbn. unfold put_default.
  by rewrite insert_delete_eq.
Qed.

Lemma import_add w i k :
  key_new i = Ok k ->
  exists n, @wallet_name _ net WalletError (address k) = Ok n /\
    wallet_import net w i = (Ok (address k), add_key w n k).
Proof.
  intros Hk. destruct (wallet_name_valid (address k)) as (n & Hn & _); [by apply (imported_key_wf i)|].
  exists n. split; [done|]. unfold wallet_import. by rewrite Hk, Hn.
Qed.

Lemma import_failed w i :
  (forall k, key_new i <> Ok k) ->
  exists e, wallet_import net w i = (e, w) /\ is_ok e = false.
Proof.
  intros Hk. unfold wallet_import. destruct (key_new i) as [k| | |]; [by destruct (Hk k)|..]; eauto.
Qed.

Lemma generate_add w t s b k :
  generate_key t s b = Ok k ->
  exists n, @wallet_name _ net WalletError (address k) = Ok n /\ n <> DEFAULT_KEY_NAME /\
    wallet_generate_key net w t s b =
      if decide (keys w !! address k = None) then
        (Ok (address k),
         match map (keystore w) !! DEFAULT_KEY_NAME with
         | None => put_default (add_key w n k) (info k)
         | Some _ => add_key w n k
         end)
      else (Panic, add_key w n k).
Proof.
  intros Hk. destruct (wallet_name_valid (address k)) as (n & Hn & _ & _ & Hne);
    [by eapply generate_key_wf|].
  exists n. split; [done|]. split; [done|]. unfold wallet_generate_key. rewrite Hk, Hn. cbn -[DEFAULT_KEY_NAME].
  destruct (decide _); [|done]. rewrite lookup_insert_ne by done.
  by destruct (map (keystore w) !! DEFAULT_KEY_NAME).
Qed.

Lemma generate_failed w t s b :
  (forall k, generate_key t s b <> Ok k) ->
  exists e, wallet_generate_key net w t s b = (e, w) /\ is_ok e = false.
Proof.
  intros Hk. unfold wallet_generate_key.
  destruct (generate_key t s b) as [k| | |]; [by destruct (Hk k)|..]; eauto.
Qed.

Lemma wallet_step_inv w w' : wallet_step w w' -> wallet_inv w -> wallet_inv w'.
Proof.
  intros Hstep Hinv. destruct Hstep as [w i r w' Hs|w t s b r w' Hs|w a r w' Hs].
  - destruct (key_new i) as [k| | |] eqn:Hk.
    2-4: destruct (import_failed w i) as (er & He & _); [congruence|]; congruence.
    destruct (import_add w i k Hk) as (n & Hn & He). rewrite He in Hs. injection Hs as <- <-.
    by apply wallet_inv_add; eauto.
  - destruct (generate_key t s b) as [k| | |] eqn:Hk.
    2-4: destruct (generate_failed w t s b) as (er & He & _); [congruence|]; congruence.
    destruct (generate_add w t s b k Hk) as (n & Hn & _ & He). rewrite He in Hs.
    assert (Ha : wallet_inv (add_key w n k)) by (by apply wallet_inv_add; eauto).
    destruct (decide _); injection Hs as <- <-; [|done].
    destruct (map (keystore w) !! DEFAULT_KEY_NAME); [done|]. eapply (wallet_inv_default _ (address k)); [done|].
    apply lookup_insert_eq.
  - destruct (keys w !! a) as [k|] eqn:Hk.
    + rewrite (set_default_put w a k Hk) in Hs. injection Hs as <- <-.
      by eapply wallet_inv_default.
    + unfold wallet_set_default in Hs. rewrite Hk in Hs. by injection Hs as <- <-.
Qed.

Lemma reachable_inv w : wallet_reachable w -> wallet_inv w.
Proof.
  intros Hr. unfold wallet_reachable in Hr. remember (wallet_new mem_new) as w0 eqn:Hw.
  assert (Hi : wallet_inv w0) by (subst; apply wallet_inv_new). clear Hw.
  induction Hr as [|w0 w1 w2 Hs _ IH]; [done|]. apply IH. by eapply wallet_step_inv.
Qed.

(** ** Listing *)
Lemma insert_string_perm x l : insert_string x l ≡ₚ x :: l.
Proof.
  induction l as [|y l IH]; [done|]. cbn. destruct (bytes_cmp x y); try done.
  rewrite IH. by apply Permutation_swap.
Qed.

Lemma sort_strings_perm l : sort_strings l ≡ₚ l.
Proof. induction l as [|x l IH]; [done|]. cbn. by rewrite insert_string_perm, IH. Qed.

(** Names that are the default's or an address's parse to those addresses. *)
Lemma parse_names_ok l :
  (forall n, n ∈ l -> n = DEFAULT_KEY_NAME \/
     exists a, valid_addr a /\ @wallet_name _ net WalletError a = Ok n) ->
  NoDup l ->
  exists r, parse_names net l = Ok r /\ NoDup r /\
    forall a, a ∈ r <-> valid_addr a /\ exists n, n ∈ l /\ @wallet_name _ net WalletError a = Ok n.
Proof.
  induction l as [|n l IH]; intros Hl Hd.
  { exists []. split; [done|]. split; [constructor|]. intros a. split; [by intros ?%not_elem_of_nil|].
    by intros (_ & n & ?%not_elem_of_nil & _). }
  apply NoDup_cons in Hd as [Hn Hd].
  destruct IH as (r & Hr & Hrd & Hin); [intros m Hm; apply Hl; by right|done|].
  cbn [parse_names]. destruct (Hl n) as [->|(a & Hv & Ha)]; [by left|..].
  - exists r. split; [done|]. split; [done|]. intros a. rewrite Hin.
    split; intros (Hv & m & Hm & Hname); (split; [done|]); exists m; (split; [|done]);
      [by right|]. apply elem_of_cons in Hm as [->|]; [|done].
    destruct (wallet_name_valid a Hv) as (m & Hm & _ & _ & Hne). rewrite Hm in Hname. congruence.
  - destruct (wallet_name_valid a Hv) as (m & Hm & Hp & Hf & _).
    rewrite Hm in Ha. injection Ha as ->. rewrite Hp, Hf. cbn [map_err bind]. rewrite Hr.
    exists (a :: r). split; [done|]. split.
    + apply NoDup_cons. split; [|done]. rewrite Hin. intros (_ & m & Hml & Hname).
      rewrite Hm in Hname. by injection Hname as ->.
    + intros b. rewrite elem_of_cons, Hin. split.
      * intros [->|(Hb & m & Hml & Hname)]; [|split; [done|]; exists m; split; [by right|done]].
        split; [done|]. exists n. split; [by left|done].
      * intros (Hb & m & Hml & Hname). apply elem_of_cons in Hml as [->|]; [left|right; eauto].
        apply (wallet_name_inj (E:=WalletError) (F:=WalletError) b a n); auto.
Qed.

(** ** The properties *)

(** C4: in every wallet reached from an empty one by imports, key generation and
    changes of the default (failing calls included), memory and key store
    agree: a held key is the one its key info makes, it is filed under its own
    address and stored under that address's name; and every stored entry,
    the default included, is the key info of an address that is held. *)
Theorem wallet_invariant (w : MemWallet) : wallet_reachable w -> wallet_inv w.
Proof. apply reachable_inv. Qed.

(** C25: importing a key info either fails and leaves the wallet as it was, or
    returns the address of its key; from then on that address is held, exports
    a key info of the same key, and what the wallet signs for it verifies
    against the address; other addresses are untouched. *)
Theorem wallet_import_then_sign (w : MemWallet) (i : KeyInfo) (msg : list Z) :
  (forall k, key_new i = Ok k ->
   exists w', wallet_import net w i = (Ok (address k), w') /\
     wallet_has_key w' (address k) = true /\
     wallet_export w' (address k) = Some (info k) /\ key_new (info k) = Ok k /\
     (exists s, wallet_sign net w' (address k) msg = Ok s /\ verify s (address k) msg = Ok true) /\
     forall a, a <> address k -> keys w' !! a = keys w !! a) /\
  ((forall k, key_new i <> Ok k) ->
   exists e, wallet_import net w i = (e, w) /\ is_ok e = false).
Proof.
  split; [|apply import_failed]. intros k Hk.
  destruct (import_add w i k Hk) as (n & Hn & He). exists (add_key w n k). split; [done|].
  unfold wallet_has_key, wallet_export, wallet_sign, find_key. cbn [add_key keys].
  rewrite lookup_insert_eq. destruct (imported_key_wf i k Hk) as (Hw & Hv & Hs).
  split; [by apply bool_decide_eq_true_2|]. split; [done|]. split; [done|]. split; [apply Hs|].
  intros a Ha. by apply lookup_insert_ne.
Qed.

(** Making a held address the default is read back by [get_default]; for an
    address that is not held the call panics and changes nothing. *)
Theorem wallet_default_roundtrip (w : MemWallet) (a : Address) :
  wallet_reachable w ->
  match keys w !! a with
  | Some k => exists w', wallet_set_default w a = (Ok tt, w') /\
                wallet_get_default w' = Ok (Some a) /\ keys w' = keys w
  | None => wallet_set_default w a = (Panic, w)
  end.
Proof.
  intros Hinv%reachable_inv. destruct (keys w !! a) as [k|] eqn:Hk.
  - exists (put_default w (info k)). split; [by apply set_default_put|]. split; [|done].
    destruct (inv_keys _ Hinv a k Hk) as (<- & [Hn _] & _).
    unfold wallet_get_default. cbn [put_default keystore ks_get mem_key_store map map_err].
    rewrite lookup_insert_eq. cbn [bind]. unfold key_new in Hn.
    by destruct (ki_type (info k)); try done; rewrite Hn.
  - unfold wallet_set_default. by rewrite Hk.
Qed.

(** [list_addrs] of a reachable wallet succeeds and lists each held address
    exactly once, and nothing else: the default entry is not listed. *)
Theorem wallet_lists_held_addresses (w : MemWallet) :
  wallet_reachable w ->
  exists l, wallet_list_addrs net w = Ok l /\ NoDup l /\
    forall a, a ∈ l <-> wallet_has_key w a = true.
Proof.
  intros Hinv%reachable_inv. unfold wallet_list_addrs. cbn [ks_list mem_key_store map_err bind].
  destruct (parse_names_ok (sort_strings (map_to_list (map (keystore w))).*1)) as (r & Hr & Hd & Hin).
  - intros n. rewrite sort_strings_perm. intros ([m i] & -> & Hm)%list_elem_of_fmap.
    apply elem_of_map_to_list in Hm. cbn.
    destruct (inv_store _ Hinv m i Hm) as (k & _ & (_ & Hv & _) & _ & [|]); [by left|right; eauto].
  - rewrite sort_strings_perm. apply NoDup_fst_map_to_list.
  - exists r. split; [done|]. split; [done|]. intros a. rewrite Hin.
    unfold wallet_has_key, find_key. rewrite bool_decide_eq_true. split.
    + intros (Hv & n & Hn & Hname). rewrite sort_strings_perm in Hn.
      apply list_elem_of_fmap in Hn as ([m i] & -> & Hm). apply elem_of_map_to_list in Hm.
      destruct (inv_store _ Hinv m i Hm) as (k & _ & (_ & Hvk & _) & Hh & Hc). cbn in Hname.
      destruct (wallet_name_valid a Hv) as (n & Hna & _ & _ & Hne). rewrite Hna in Hname.
      injection Hname as ->. destruct Hc as [->|Hc]; [done|].
      assert (Ha : a = address k) by (apply (wallet_name_inj (E:=WalletError) (F:=WalletError) a (address k) m); auto).
      by rewrite Ha.
    + intros [k Hk]. destruct (inv_keys _ Hinv a k Hk) as (<- & (_ & Hv & _) & n & Hn & Hs).
      split; [done|]. exists n. split; [|done]. rewrite sort_strings_perm.
      apply list_elem_of_fmap. exists (n, info k). split; [done|]. by apply elem_of_map_to_list.
Qed.

(** A freshly generated key of a supported type is held afterwards, and it
    becomes the default exactly when there was none; otherwise the default
    stays what it was.  If the address was already held the call panics; other
    key types are refused. *)
Theorem wallet_generate_sets_default (w : MemWallet) (t : KeyType) (s : SecretKey) (b : BlsPrivateKey) :
  (forall k, generate_key t s b = Ok k ->
   (keys w !! address k = None ->
    exists w', wallet_generate_key net w t s b = (Ok (address k), w') /\
      wallet_has_key w' (address k) = true /\
      wallet_get_default w' =
        match wallet_get_default w with Ok None => Ok (Some (address k)) | d => d end) /\
   (keys w !! address k <> None -> exists w', wallet_generate_key net w t s b = (Panic, w'))) /\
  (t <> KtSecp256k1 -> t <> KtBls ->
   wallet_generate_key net w t s b = (Err UnknownKeyType, w)).
Proof.
  split; [|by destruct t]. intros k Hk.
  destruct (generate_add w t s b k Hk) as (n & Hn & Hne & He). rewrite He. split; intros Hh.
  - rewrite decide_True by done. eexists. split; [done|].
    destruct (generate_key_wf t s b k Hk) as (Hw & _).
    unfold wallet_get_default, wallet_has_key, find_key. cbn [ks_get mem_key_store map_err].
    destruct (map (keystore w) !! DEFAULT_KEY_NAME) as [i|] eqn:Hd;
      cbn [put_default add_key keys keystore map]; rewrite lookup_insert_eq;
      (split; [by apply bool_decide_eq_true_2|]).
    + rewrite lookup_insert_ne, Hd by done. cbn [bind].
      destruct (ki_type i); cbn [bind]; try done;
        [destruct (key_new_secp256k1 _)|destruct (key_new_bls _)]; done.
    + rewrite lookup_insert_eq. cbn [bind]. unfold key_new in Hw. by destruct (ki_type (info k)); try done; rewrite Hw.
  - rewrite decide_False by done. by eexists.
Qed.
End Theorems.

(** The JSON name of a key type is read back, except that an [Other] type with
    a reserved name turns into the reserved type. *)
Lemma keytype_roundtrip t :
  keytype_deserialize (keytype_to_string t) = t <->
  forall s, t = Other s ->
    s ∉ [str "secp256k1"; str "bls"; str "libp2p-host"; str "jwt-hmac-secret"].
Proof.
  unfold keytype_deserialize. split.
  - intros Ht s ->. cbn [keytype_to_string] in Ht. rewrite !elem_of_cons, elem_of_nil.
    repeat (destruct (decide _); [done|]). tauto.
  - intros Ho. destruct t as [| | | |s]; try done. specialize (Ho s eq_refl).
    rewrite !elem_of_cons, elem_of_nil in Ho. cbn [keytype_to_string].
    by repeat (rewrite decide_False by tauto).
Qed.

(** ** A wallet with one generated key *)
Module WalletRef.
Import CryptoRef.

Definition secp_key (b : bool) : @SecretKey curves_ref := b.
Definition bls_key (b : bool) : @BlsPrivateKey curves_ref := b.

Definition ref_wallet : WalletImpl MemKeyStore :=
  snd (wallet_generate_key Test (wallet_new mem_new) KtBls (secp_key true) (bls_key true)).
Definition ref_info : KeyInfo := mkKeyInfo KtBls (bool_bytes 32 false).
Definition ref_address (b : bool) : Address := mkAddress Address.Bls (bool_bytes 48 b).

Lemma ref_wallet_reachable : wallet_reachable Test ref_wallet.
Proof.
  apply rtc_once. eapply (step_generate Test _ KtBls (secp_key true) (bls_key true)). apply surjective_pairing.
Qed.

Lemma ref_key_new b :
  key_new_bls (bool_bytes 32 b)
  = Ok (mkKey (mkKeyInfo KtBls (bool_bytes 32 b)) (bool_bytes 48 b) (ref_address b)).
Proof. by destruct b. Qed.

Lemma ref_wallet_holds : exists k, keys ref_wallet !! ref_address true = Some k.
Proof.
  unfold ref_wallet. eexists.
  destruct (generate_add Test (wallet_new mem_new) KtBls (secp_key true) (bls_key true) _
              (ref_key_new true)) as (n & _ & _ & ->).
  apply lookup_insert_eq.
Qed.

Lemma wallet_invariant_witness : wallet_inv Test ref_wallet.
Proof. apply (wallet_invariant Test ref_wallet). apply ref_wallet_reachable. Defined.

Lemma wallet_import_then_sign_witness :
  exists w', wallet_import Test ref_wallet ref_info = (Ok (ref_address false), w') /\
    wallet_has_key w' (ref_address false) = true.
Proof.
  destruct (wallet_import_then_sign Test ref_wallet ref_info [1; 2]) as [Hi _].
  destruct (Hi _ (ref_key_new false)) as (w' & Hw & Hh & _). exists w'. by split.
Defined.

Lemma wallet_default_roundtrip_witness :
  exists w', wallet_set_default ref_wallet (ref_address true) = (Ok tt, w') /\
    wallet_get_default w' = Ok (Some (ref_address true)).
Proof.
  pose proof (wallet_default_roundtrip Test ref_wallet (ref_address true) ref_wallet_reachable) as Hd.
  destruct ref_wallet_holds as [k Hk]. rewrite Hk in Hd. destruct Hd as (w' & Hw & Hg & _). exists w'. by split.
Defined.

Lemma wallet_lists_held_addresses_witness :
  exists l, wallet_list_addrs Test ref_wallet = Ok l /\ NoDup l /\
    forall a, a ∈ l <-> wallet_has_key ref_wallet a = true.
Proof. apply (wallet_lists_held_addresses Test ref_wallet ref_wallet_reachable). Defined.

Lemma wallet_generate_sets_default_witness :
  exists w', wallet_generate_key Test (wallet_new mem_new) KtBls (secp_key true) (bls_key false) = (Ok (ref_address false), w') /\
    wallet_get_default w' = Ok (Some (ref_address false)).
Proof.
  destruct (wallet_generate_sets_default Test (wallet_new mem_new) KtBls (secp_key true) (bls_key false)) as [Hg _].
  destruct (Hg _ (ref_key_new false)) as [Hn _]. destruct Hn as (w' & Hw & _ & Hd); [done|].
  exists w'. split; [exact Hw|]. exact Hd.
Defined.
End WalletRef.
End WalletTheorems.
