(* ===== verification/WalletHandle.v ===== *)
(** * [Wallet]: the wallet behind its lock

    [Wallet] of wallet/src/wallet.rs is [Arc<RwLock<WalletImpl>>], and each of its
    methods takes the lock, calls the method of [WalletImpl] and lets go.  The lock
    of parking_lot is not poisoned: after a panic inside a call it is free again
    and guards what the call had done so far.  A run is the list of the calls in
    the order in which they got the lock. *)

From Stdlib Require Import ZArith Lia String.
From stdpp Require Import base numbers gmap sorting list relations.
From S2P Require Import Prelude Cbor CborRef Decimal Address AddressRef Crypto Tipset Wallet WalletTheorems.

Local Open Scope Z_scope.

Module WalletHandle.
Import Crypto.Crypto Wallet.Wallet WalletTheorems.WalletTheorems.

(** What the lock guards. *)
Record Wallet `{AddressDeps} `{Curves} (KS : Type) := mkHandle { imp : WalletImpl KS }.
Arguments mkHandle {_ _ KS}.
Arguments imp {_ _ KS}.

Section Handle.
Context `{AddressDeps} `{Curves} {KS : Type} `{KeyStore KS} (net : Network).

Definition handle_new (ks : KS) : Wallet KS := mkHandle (wallet_new ks).
Definition handle_new_with_keys (keys : list Key) (ks : KS) : Wallet KS := mkHandle (wallet_new_with_keys keys ks).

(** [self.imp.read()] *)
Definition handle_sign (h : Wallet KS) (a : Address) (msg : list Z) : outcome WalletError Signature := wallet_sign net (imp h) a msg.
Definition handle_export (h : Wallet KS) (a : Address) : option KeyInfo := wallet_export (imp h) a.
Definition handle_list_addrs (h : Wallet KS) : outcome WalletError (list Address) := wallet_list_addrs net (imp h).
Definition handle_get_default (h : Wallet KS) : outcome WalletError (option Address) := wallet_get_default (imp h).
Definition handle_has_key (h : Wallet KS) (a : Address) : bool := wallet_has_key (imp h) a.

(** [self.imp.write()] *)
Definition handle_import (h : Wallet KS) (i : KeyInfo) : outcome WalletError Address * Wallet KS :=
  let '(r, w) := wallet_import net (imp h) i in (r, mkHandle w).
Definition handle_set_default (h : Wallet KS) (a : Address) : outcome WalletError unit * Wallet KS :=
  let '(r, w) := wallet_set_default (imp h) a in (r, mkHandle w).
Definition handle_generate_key (h : Wallet KS) (t : KeyType) (secret : SecretKey) (bls_secret : BlsPrivateKey)
  : outcome WalletError Address * Wallet KS :=
  let '(r, w) := wallet_generate_key net (imp h) t secret bls_secret in (r, mkHandle w).

(** ** Runs *)
Inductive call :=
| CSign (a : Address) (msg : list Z) | CExport (a : Address) | CImport (i : KeyInfo) | CListAddrs | CGetDefault
| CSetDefault (a : Address) | CGenerateKey (t : KeyType) (secret : SecretKey) (bls_secret : BlsPrivateKey)
| CHasKey (a : Address).
Inductive reply :=
| RSignature (r : outcome WalletError Signature) | RKeyInfo (r : option KeyInfo) | RAddress (r : outcome WalletError Address)
| RAddresses (r : outcome WalletError (list Address)) | RDefault (r : outcome WalletError (option Address))
| RUnit (r : outcome WalletError unit) | RBool (r : bool).

Definition perform (c : call) (h : Wallet KS) : reply * Wallet KS :=
  match c with
  | CSign a msg => (RSignature (handle_sign h a msg), h)
  | CExport a => (RKeyInfo (handle_export h a), h)
  | CImport i => let '(r, h) := handle_import h i in (RAddress r, h)
  | CListAddrs => (RAddresses (handle_list_addrs h), h)
  | CGetDefault => (RDefault (handle_get_default h), h)
  | CSetDefault a => let '(r, h) := handle_set_default h a in (RUnit r, h)
  | CGenerateKey t s b => let '(r, h) := handle_generate_key h t s b in (RAddress r, h)
  | CHasKey a => (RBool (handle_has_key h a), h)
  end.
Definition perform_all (cs : list call) (h : Wallet KS) : Wallet KS := fold_left (fun h c => (perform c h).2) cs h.
End Handle.

(** ** Keys are never lost *)
Section Persist.
Context `{AddressDepsLaws} `{CurvesLaws} (net : Network).
Abbreviation MemHandle := (Wallet MemKeyStore).

Lemma perform_step (c : call) (h : MemHandle) : rtc (wallet_step net) (imp h) (imp (perform net c h).2).
Proof.
  destruct c; cbn; unfold handle_import, handle_set_default, handle_generate_key; try apply rtc_refl.
  - destruct (wallet_import net (imp h) i) as [r w] eqn:Hs. apply rtc_once. by eapply step_import.
  - destruct (wallet_set_default (imp h) a) as [r w] eqn:Hs. apply rtc_once. by eapply step_set_default.
  - destruct (wallet_generate_key net (imp h) t secret bls_secret) as [r w] eqn:Hs. apply rtc_once. by eapply step_generate.
Qed.

Lemma perform_all_steps (cs : list call) (h : MemHandle) : rtc (wallet_step net) (imp h) (imp (perform_all net cs h)).
Proof.
  revert h. induction cs as [|c cs IH]; intros h; [apply rtc_refl|]. cbn. etrans; [apply (perform_step c)|apply IH].
Qed.

(** An address that is held stays so. *)
Lemma step_keeps w w' a : wallet_step net w w' -> is_Some (keys w !! a) -> is_Some (keys w' !! a).
Proof.
  intros Hs Ha. assert (Hadd : forall n k, is_Some (keys (add_key w n k) !! a)).
  { intros n k. cbn. destruct (decide (address k = a)) as [->|]; [rewrite lookup_insert_eq; by eexists|by rewrite lookup_insert_ne]. }
  destruct Hs as [w i r w' Hs|w t s b r w' Hs|w a' r w' Hs].
  - destruct (key_new i) as [k| | |] eqn:Hk.
    2-4: destruct (import_failed net w i) as (er & He & _); [congruence|]; congruence.
    destruct (import_add net w i k Hk) as (n & _ & He). rewrite He in Hs. by injection Hs as <- <-.
  - destruct (generate_key t s b) as [k| | |] eqn:Hk.
    2-4: destruct (generate_failed net w t s b) as (er & He & _); [congruence|]; congruence.
    destruct (generate_add net w t s b k Hk) as (n & _ & _ & He). rewrite He in Hs.
    destruct (decide _); injection Hs as <- <-; [|done].
    destruct (map (keystore w) !! DEFAULT_KEY_NAME); exact (Hadd n k).
  - destruct (keys w !! a') as [k|] eqn:Hk.
    + rewrite (set_default_put w a' k Hk) in Hs. by injection Hs as <- <-.
    + unfold wallet_set_default in Hs. rewrite Hk in Hs. by injection Hs as <- <-.
Qed.

Lemma steps_keep w w' a : rtc (wallet_step net) w w' -> is_Some (keys w !! a) -> is_Some (keys w' !! a).
Proof. induction 1; eauto using step_keeps. Qed.

(** A call that answers with an address holds it. *)
Lemma address_held c (h h' : MemHandle) a : perform net c h = (RAddress (Ok a), h') -> is_Some (keys (imp h') !! a).
Proof.
  destruct c; cbn; try done; unfold handle_import, handle_set_default, handle_generate_key.
  - destruct (key_new i) as [k| | |] eqn:Hk.
    2-4: destruct (import_failed net (imp h) i) as (er & -> & He); [congruence|]; intros [= -> _]; done.
    destruct (import_add net (imp h) i k Hk) as (n & _ & ->). intros [= <- <-]. cbn. rewrite lookup_insert_eq. by eexists.
  - by destruct (wallet_set_default _ _).
  - destruct (generate_key t secret bls_secret) as [k| | |] eqn:Hk.
    2-4: destruct (generate_failed net (imp h) t secret bls_secret) as (er & -> & He); [congruence|]; intros [= -> _]; done.
    destruct (generate_add net (imp h) t secret bls_secret k Hk) as (n & _ & _ & ->).
    destruct (decide _); intros [= <- <-]. cbn. destruct (map _ !! _); cbn; rewrite lookup_insert_eq; by eexists.
Qed.

Lemma held_usable w a :
  wallet_reachable net w -> is_Some (keys w !! a) ->
  (exists i k, wallet_export w a = Some i /\ key_new i = Ok k /\ address k = a) /\
  forall msg, exists s, wallet_sign net w a msg = Ok s /\ verify s a msg = Ok true.
Proof.
  intros Hr [k Hk]. destruct (inv_keys _ _ (reachable_inv net w Hr) a k Hk) as (<- & (Hn & _ & Hs) & _).
  unfold wallet_export, wallet_sign, find_key. rewrite Hk. split; [by exists (info k), k|exact Hs].
Qed.

(** C5: A wallet never loses a key: once an import or a generation has returned an
    address, then after any calls of any users, failing and panicking ones
    included, the wallet still has the key, lists the address, exports a key info
    that makes a key of that address, and what it signs for the address verifies
    against it. *)
Theorem wallet_keys_persist (before after : list call) (c : call) (h : MemHandle) (a : Address) :
  perform net c (perform_all net before (handle_new mem_new)) = (RAddress (Ok a), h) ->
  let h' := perform_all net after h in
  handle_has_key h' a = true /\
  (exists l, handle_list_addrs net h' = Ok l /\ a ∈ l) /\
  (exists i k, handle_export h' a = Some i /\ key_new i = Ok k /\ address k = a) /\
  forall msg, exists s, handle_sign net h' a msg = Ok s /\ verify s a msg = Ok true.
Proof.
  intros Hc h'. assert (Hr : wallet_reachable net (imp h')).
  { unfold wallet_reachable. etrans; [exact (perform_all_steps before (handle_new mem_new))|].
    etrans; [exact (perform_step c (perform_all net before (handle_new mem_new)))|]. rewrite Hc. apply perform_all_steps. }
  assert (Ha : is_Some (keys (imp h') !! a)).
  { eapply steps_keep; [apply perform_all_steps|]. by eapply address_held. }
  assert (Hh : wallet_has_key (imp h') a = true) by (by apply bool_decide_eq_true_2).
  destruct (wallet_lists_held_addresses net (imp h') Hr) as (l & Hl & _ & Hin).
  destruct (held_usable (imp h') a Hr Ha) as [He Hs].
  split; [exact Hh|]. split; [exists l; split; [exact Hl|by apply Hin]|]. split; [exact He|exact Hs].
Qed.
End Persist.

Section Witness.
Import CryptoRef WalletRef.

Lemma wallet_keys_persist_witness :
  let h := (perform Test (CImport ref_info) (perform_all Test [CGenerateKey KtBls (secp_key true) (bls_key true)] (handle_new mem_new))).2 in
  let h' := perform_all Test [CSetDefault (mkAddress Id [0]); CSetDefault (ref_address true); CListAddrs;
                              CGenerateKey KtBls (secp_key true) (bls_key true)] h in
  handle_has_key h' (ref_address false) = true /\
  exists s, handle_sign Test h' (ref_address false) [1; 2] = Ok s /\ verify s (ref_address false) [1; 2] = Ok true.
Proof.
  intros h h'.
  destruct (wallet_keys_persist Test [CGenerateKey KtBls (secp_key true) (bls_key true)]
    [CSetDefault (mkAddress Id [0]); CSetDefault (ref_address true); CListAddrs; CGenerateKey KtBls (secp_key true) (bls_key true)]
    (CImport ref_info) h (ref_address false)) as (Hh & _ & _ & Hs).
  - unfold h. cbn [perform]. unfold handle_import.
    set (w := imp _). destruct (import_add Test w ref_info _ (ref_key_new false)) as (n & _ & ->). reflexivity.
  - split; [exact Hh|exact (Hs [1; 2])].
Defined.
End Witness.
End WalletHandle.
