(* ===== verification/Fc.v ===== *)
(** * [primitives/fc]: commitments as CIDs; [ipfs/block]

    commcid.rs, over the multihashes of the [cid] crate, and the IPFS block, a CID
    with the bytes it names. *)

From Stdlib Require Import ZArith Lia String.
From stdpp Require Import base numbers list.
From S2P Require Import Prelude Cbor CborRef Address AddressRef Crypto Message Block.

Local Open Scope Z_scope.

(** ** The crate [cid] *)
Class FcCid := {
  FcCidT : Type;
  Multihash : Type;
  OtherCode : Type;
  FilecoinMultihashCode : Type;
  FilecoinMultihashCode_eq_dec :: EqDecision FilecoinMultihashCode;
  FcUnsealedV1 : FilecoinMultihashCode;
  FcSealedV1 : FilecoinMultihashCode;
  (** [ExtCode]: [FL] or another family of codes. *)
  algorithm : Multihash -> FilecoinMultihashCode + OtherCode;
  digest : Multihash -> list Z;
  FilecoinUnsealedV1_digest : list Z -> Multihash;
  FilecoinSealedV1_digest : list Z -> Multihash;
  new_v1_raw : Multihash -> FcCidT;
  hash : FcCidT -> Multihash;
}.
(** The two Filecoin codes mark 32 bytes that are a hash already. *)
Class FcCidLaws (C : FcCid) : Prop := {
  codes_differ : FcUnsealedV1 <> FcSealedV1;
  unsealed_code c : algorithm (FilecoinUnsealedV1_digest c) = inl FcUnsealedV1;
  sealed_code c : algorithm (FilecoinSealedV1_digest c) = inl FcSealedV1;
  unsealed_digest c : length c = 32%nat -> digest (FilecoinUnsealedV1_digest c) = c;
  sealed_digest c : length c = 32%nat -> digest (FilecoinSealedV1_digest c) = c;
  hash_new_v1 m : hash (new_v1_raw m) = m;
}.

(** ** commcid.rs *)
Section CommCid.
Context `{FcCid}.

Inductive CommCidErr :=
| InvalidHash (code : OtherCode)
| UnsupportedMultihashCode (code : FilecoinMultihashCode)
| UnexpectedMultihashCode (expected found : FilecoinMultihashCode).

Definition commitment_to_cid (commitment : list Z) (code : FilecoinMultihashCode) : outcome CommCidErr FcCidT :=
  if decide (code = FcUnsealedV1) then Ok (new_v1_raw (FilecoinUnsealedV1_digest commitment))
  else if decide (code = FcSealedV1) then Ok (new_v1_raw (FilecoinSealedV1_digest commitment))
  else Err (UnsupportedMultihashCode code).

Definition cid_to_multihash (cid : FcCidT) (expected : FilecoinMultihashCode) : outcome CommCidErr Multihash :=
  match algorithm (hash cid) with
  | inl fl_code => if decide (fl_code = expected) then Ok (hash cid) else Err (UnexpectedMultihashCode expected fl_code)
  | inr code => Err (InvalidHash code)
  end.
(** [copy_from_slice] panics unless the digest has 32 bytes. *)
Definition cid_to_commitment (cid : FcCidT) (multihash_code : FilecoinMultihashCode) : outcome CommCidErr (list Z) :=
  hash <- cid_to_multihash cid multihash_code ;;
  if decide (length (digest hash) = 32%nat) then Ok (digest hash) else Panic.

Definition replica_commitment_v1_to_cid (commitment : list Z) : outcome CommCidErr FcCidT :=
  expect (commitment_to_cid commitment FcSealedV1).
Definition data_commitment_v1_to_cid (commitment : list Z) : outcome CommCidErr FcCidT :=
  expect (commitment_to_cid commitment FcUnsealedV1).
Definition piece_commitment_v1_to_cid (commitment : list Z) : outcome CommCidErr FcCidT :=
  data_commitment_v1_to_cid commitment.
Definition cid_to_replica_commitment_v1 (cid : FcCidT) : outcome CommCidErr (list Z) := cid_to_commitment cid FcSealedV1.
Definition cid_to_data_commitment_v1 (cid : FcCidT) : outcome CommCidErr (list Z) := cid_to_commitment cid FcUnsealedV1.
Definition cid_to_piece_commitment_v1 (cid : FcCidT) : outcome CommCidErr (list Z) := cid_to_data_commitment_v1 cid.
End CommCid.

(** C18: A 32-byte commitment is recovered from its CID: a replica commitment as
    replica commitment, a data commitment as data and as piece commitment; asking
    for the other kind is an error that names both codes.  No other code makes a
    CID.  Reading any CID panics exactly when its code is the expected one and its
    digest does not have 32 bytes. *)
Theorem commitment_roundtrip `{FcCidLaws} (c : list Z) :
  length c = 32%nat ->
  (exists cid, replica_commitment_v1_to_cid c = Ok cid /\ cid_to_replica_commitment_v1 cid = Ok c /\
     cid_to_data_commitment_v1 cid = Err (UnexpectedMultihashCode FcUnsealedV1 FcSealedV1)) /\
  (exists cid, data_commitment_v1_to_cid c = Ok cid /\ piece_commitment_v1_to_cid c = Ok cid /\
     cid_to_data_commitment_v1 cid = Ok c /\ cid_to_piece_commitment_v1 cid = Ok c /\
     cid_to_replica_commitment_v1 cid = Err (UnexpectedMultihashCode FcSealedV1 FcUnsealedV1)) /\
  (forall code, is_ok (commitment_to_cid c code) = true <-> code = FcUnsealedV1 \/ code = FcSealedV1) /\
  (forall cid code, cid_to_commitment cid code = Panic <->
     algorithm (hash cid) = inl code /\ length (digest (hash cid)) <> 32%nat).
Proof.
  intros Hc. pose proof codes_differ as Hne. pose proof (not_eq_sym Hne) as Hne'.
  unfold replica_commitment_v1_to_cid, data_commitment_v1_to_cid, piece_commitment_v1_to_cid, data_commitment_v1_to_cid,
    cid_to_replica_commitment_v1, cid_to_piece_commitment_v1, cid_to_data_commitment_v1, cid_to_commitment, cid_to_multihash,
    commitment_to_cid.
  split; [|split; [|split]].
  - exists (new_v1_raw (FilecoinSealedV1_digest c)). rewrite hash_new_v1, sealed_code.
    repeat ((rewrite decide_True by done) || (rewrite decide_False by done)). split; [done|]. split; [|done]. cbn.
    rewrite sealed_digest by done. by rewrite decide_True.
  - exists (new_v1_raw (FilecoinUnsealedV1_digest c)). rewrite hash_new_v1, unsealed_code.
    repeat ((rewrite decide_True by done) || (rewrite decide_False by done)). cbn.
    rewrite unsealed_digest by done. by rewrite decide_True.
  - intros code. destruct (decide (code = FcUnsealedV1)); [tauto|]. destruct (decide (code = FcSealedV1)); [tauto|].
    cbn. split; [done|tauto].
  - intros cid code. destruct (algorithm (hash cid)) as [fl|o]; [|cbn; split; [done|intros [? _]; done]].
    destruct (decide (fl = code)) as [->|Hfl]; cbn.
    + destruct (decide (length (digest (hash cid)) = 32%nat)); split; try done; tauto.
    + split; [done|]. intros [[= ?] _]. done.
Qed.

(** ** lib.rs *)
Definition to_prove_id `{AddressDeps} (actor_id : Z) : outcome AddressError (list Z) :=
  addr <- new_id_addr actor_id ;;
  let len := Nat.min (length (payload addr)) 32 in
  Ok (take len (payload addr) ++ replicate (32 - len) 0).

(** 32 bytes: the varint of the id, filled up with zeros. *)
Lemma to_prove_id_ok `{AddressDepsLaws} (id : Z) :
  u64 id -> exists bs, to_prove_id id = Ok bs /\ length bs = 32%nat /\ take (length (varint_encode id)) bs = varint_encode id.
Proof.
  intros Hid. assert (Hl := varint_short id Hid). unfold to_prove_id.
  destruct (new_id_addr_valid id Hid) as (a & Ha & _ & Hp). rewrite Ha. cbn [bind].
  assert (Hv : payload a = varint_encode id).
  { unfold new_id_addr, new in Ha. repeat case_match; simplify_eq/=; done. }
  rewrite Hv, Nat.min_l, firstn_all by lia. eexists. split; [done|]. rewrite length_app, length_replicate. split; [lia|].
  by rewrite take_app_length.
Qed.

(** ** [ipfs/block] *)
Section IpfsBlock.
Context `{CidLib}.
Record IpfsBlock := mkIpfsBlock { block_cid : Cid; block_data : list Z }.

(** [encode] is the entity's encoder. *)
Definition ipfs_block_new {T} (encode : T -> list Z) (entity : T) : IpfsBlock :=
  let data := encode entity in mkIpfsBlock (dag_cbor_cid data) data.
Definition ipfs_block_display (cid_to_string : Cid -> list Z) (b : IpfsBlock) : list Z :=
  str "[Block " ++ cid_to_string (block_cid b) ++ str "]".
End IpfsBlock.

(** The block of a header is named by the header's own CID and decodes to it. *)
Lemma header_ipfs_block `{MinicborLaws} `{NumBigintLaws} `{CidLaws} `{AddressDepsLaws} `{Curves} (h : Block.Block.BlockHeader) :
  Block.Block.header_ok h ->
  let b := ipfs_block_new Block.Block.encode_BlockHeader h in
  block_cid b = Block.Block.header_cid h /\ Block.Block.decode_BlockHeader (block_data b) = Ok (h, []).
Proof.
  intros Hh b. split; [done|]. rewrite <- (app_nil_r (block_data b)). by apply Block.Block.reads_BlockHeader.
Qed.

(** ** An instance *)
#[local] Instance fc_cid_ref : FcCid := {|
  FcCidT := Z * list Z;
  Multihash := Z * list Z;
  OtherCode := Z;
  FilecoinMultihashCode := Z;
  FcUnsealedV1 := 61697;
  FcSealedV1 := 61698;
  algorithm m := if (61697 <=? m.1) && (m.1 <=? 61706) then inl m.1 else inr m.1;
  digest m := m.2;
  FilecoinUnsealedV1_digest c := (61697, c);
  FilecoinSealedV1_digest c := (61698, c);
  new_v1_raw m := m;
  hash m := m;
|}.
#[local] Instance fc_cid_ref_laws : FcCidLaws fc_cid_ref.
Proof. by split. Qed.

Lemma commitment_roundtrip_witness :
  (exists cid, replica_commitment_v1_to_cid (replicate 32 7) = Ok cid /\
     cid_to_replica_commitment_v1 cid = Ok (replicate 32 7)) /\
  cid_to_commitment (61698, [1]) FcSealedV1 = Panic.
Proof.
  destruct (commitment_roundtrip (replicate 32 7) eq_refl) as ((cid & H1 & H2 & _) & _ & _ & Hp).
  split; [by exists cid|]. apply Hp. by split.
Defined.
