(* ===== verification/BlockStore.v ===== *)
(** * [ipfs/blockstore] and the trait of [ipfs/block]

    The block store is an interface that no type of the sources implements.  Its
    operations are a class, what their documentation promises a second one, and
    the client that puts block headers and reads them back is proved against
    them. *)

From Stdlib Require Import ZArith Lia String.
From stdpp Require Import base numbers list sets.
From S2P Require Import Prelude Cbor CborRef Address AddressRef Crypto Message Block Fc.

Local Open Scope Z_scope.

(** ** The interfaces *)
Section Interfaces.
Context `{CidLib}.

(** [trait Block] *)
Class BlockLike (B : Type) := { data : B -> list Z; cid : B -> Cid }.
#[export] Instance ipfs_block_like : BlockLike IpfsBlock := {| data := block_data; cid := block_cid |}.

Inductive BlockStoreError := NotFound (c : Cid) | Custom (msg : list Z).
Definition block_store_error_display (cid_to_string : Cid -> list Z) (e : BlockStoreError) : list Z :=
  match e with
  | NotFound c => str "block '" ++ cid_to_string c ++ str "' not found"
  | Custom msg => msg
  end.

(** The operations, for one type of blocks. *)
Class BlockStore (S B : Type) := {
  delete_block : Cid -> S -> outcome BlockStoreError unit * S;
  has : Cid -> S -> outcome BlockStoreError bool;
  get : Cid -> S -> outcome BlockStoreError B;
  get_size : Cid -> S -> outcome BlockStoreError Z;
  put : B -> S -> outcome BlockStoreError unit * S;
  put_many : list B -> S -> outcome BlockStoreError unit * S;
  hash_on_read : bool -> S -> S;
}.

Definition stored {B} `{BlockLike B} (bs : list B) (f : Cid -> option B) : Cid -> option B :=
  fold_left (fun f b c => if decide (c = cid b) then Some b else f c) bs f.

(** What the documentation says of the operations, about the blocks a store
    holds. *)
Class BlockStoreSpec (S B : Type) `{BlockLike B} `{BlockStore S B} := {
  blocks : S -> Cid -> option B;
  delete_law c s : exists s', delete_block c s = (Ok tt, s') /\
    forall c', blocks s' c' = if decide (c' = c) then None else blocks s c';
  has_law c s : has c s = Ok (bool_decide (is_Some (blocks s c)));
  get_law c s : get c s = of_option (NotFound c) (blocks s c);
  size_law c s : get_size c s = match blocks s c with Some b => Ok (Z.of_nat (length (data b))) | None => Err (NotFound c) end;
  put_law b s : exists s', put b s = (Ok tt, s') /\ forall c, blocks s' c = stored [b] (blocks s) c;
  put_many_law bs s : exists s', put_many bs s = (Ok tt, s') /\ forall c, blocks s' c = stored bs (blocks s) c;
  rehash_law on s c : blocks (hash_on_read on s) c = blocks s c;
}.

Lemma stored_app {B} `{BlockLike B} bs b (f : Cid -> option B) c :
  stored (bs ++ [b]) f c = if decide (c = cid b) then Some b else stored bs f c.
Proof. unfold stored. by rewrite fold_left_app. Qed.

(** Blocks that are their CID's only block are found by it. *)
Lemma stored_found {B} `{BlockLike B} bs (f : Cid -> option B) b :
  (forall b', b' ∈ bs -> cid b' = cid b -> b' = b) -> b ∈ bs -> stored bs f (cid b) = Some b.
Proof.
  induction bs as [|b' bs IH] using rev_ind; intros Hu Hb; [by apply not_elem_of_nil in Hb|]. rewrite stored_app.
  case_decide as Hc; [f_equal; apply Hu; [set_solver|done]|].
  apply elem_of_app in Hb as [Hb|Hb]; [apply IH; [set_solver|done]|].
  apply list_elem_of_singleton in Hb as ->. done.
Qed.
End Interfaces.

(** ** Block headers in a block store *)

(** A block store keeps block headers under their own CIDs: after the blocks of
    some headers, no two of which share a CID, were put, each of them is found
    under the CID of its header, with bytes that decode to the header, and the
    size reported is their number. *)
Theorem headers_in_block_store `{MinicborLaws} `{NumBigintLaws} `{CidLaws} `{AddressDepsLaws} `{Curves}
    {S : Type} `{!BlockStore S IpfsBlock} `{!BlockStoreSpec S IpfsBlock} (hs : list Block.Block.BlockHeader) (s : S) :
  Forall Block.Block.header_ok hs ->
  (forall a b, a ∈ hs -> b ∈ hs -> Block.Block.header_cid a = Block.Block.header_cid b -> a = b) ->
  exists s', put_many (map (ipfs_block_new Block.Block.encode_BlockHeader) hs) s = (Ok tt, s') /\
    forall h, h ∈ hs -> exists b, get (Block.Block.header_cid h) s' = Ok b /\
      Block.Block.decode_BlockHeader (data b) = Ok (h, []) /\
      has (Block.Block.header_cid h) s' = Ok true /\
      get_size (Block.Block.header_cid h) s' = Ok (Z.of_nat (length (Block.Block.encode_BlockHeader h))).
Proof.
  intros Hok Hu. set (new := ipfs_block_new Block.Block.encode_BlockHeader).
  destruct (put_many_law (map new hs) s) as (s' & -> & Hs). exists s'. split; [done|]. intros h Hh.
  assert (Hb : blocks s' (Block.Block.header_cid h) = Some (new h)).
  { rewrite Hs. change (Block.Block.header_cid h) with (cid (new h)). apply (stored_found (map new hs) _ (new h)); [|by apply list_elem_of_fmap_2].
    intros b' Hb' Hc. apply list_elem_of_fmap in Hb' as (h' & -> & Hh'). by rewrite (Hu h' h). }
  rewrite Forall_forall in Hok. destruct (header_ipfs_block h (Hok h Hh)) as [_ Hd].
  exists (new h). rewrite get_law, has_law, size_law, Hb. by rewrite bool_decide_true.
Qed.

(** ** An instance: the blocks put so far, the latest first *)
Section Ref.
Context `{CidLib}.
#[local] Abbreviation blocks_list := (list IpfsBlock).

Definition find_block (c : Cid) (s : blocks_list) : option IpfsBlock := snd <$> list_find (fun b => block_cid b = c) s.

#[export] Instance list_block_store : BlockStore blocks_list IpfsBlock := {|
  delete_block c s := (Ok tt, filter (fun b => block_cid b <> c) s);
  has c s := Ok (bool_decide (is_Some (find_block c s)));
  get c s := of_option (NotFound c) (find_block c s);
  get_size c s := match find_block c s with Some b => Ok (Z.of_nat (length (block_data b))) | None => Err (NotFound c) end;
  put b s := (Ok tt, b :: s);
  put_many bs s := (Ok tt, rev bs ++ s);
  hash_on_read _ s := s;
|}.

Lemma find_block_cons b s c : find_block c (b :: s) = if decide (c = block_cid b) then Some b else find_block c s.
Proof.
  unfold find_block. cbn. repeat case_decide; try done; try congruence.
  rewrite <- option_fmap_compose. by destruct (list_find _ s).
Qed.
Lemma find_block_delete s c c' :
  find_block c' (filter (fun b => block_cid b <> c) s) = if decide (c' = c) then None else find_block c' s.
Proof.
  induction s as [|b s IH]; [by case_decide|]. rewrite filter_cons.
  destruct (decide (block_cid b <> c)) as [Hb|Hb%dec_stable]; rewrite !find_block_cons, ?IH; repeat case_decide; congruence.
Qed.
Lemma find_block_many bs s c : find_block c (rev bs ++ s) = stored bs (fun c => find_block c s) c.
Proof.
  induction bs as [|b bs IH] using rev_ind; [done|]. rewrite rev_app_distr, stored_app. cbn [rev app].
  by rewrite find_block_cons, IH.
Qed.

#[export] Instance list_block_store_spec : BlockStoreSpec blocks_list IpfsBlock.
Proof.
  refine {| blocks s c := find_block c s |}; try done.
  - intros c s. eexists. split; [done|]. apply find_block_delete.
  - intros b s. eexists. split; [done|]. intros c. apply find_block_cons.
  - intros bs s. eexists. split; [done|]. intros c. apply find_block_many.
Defined.
End Ref.

Import Crypto.CryptoRef.

Lemma headers_in_block_store_witness :
  let h := Block.Block.dummy_block_header in
  exists s', put_many (map (ipfs_block_new Block.Block.encode_BlockHeader) [h]) ([] : list IpfsBlock) = (Ok tt, s') /\
    exists b, get (Block.Block.header_cid h) s' = Ok b /\ Block.Block.decode_BlockHeader (data b) = Ok (h, []).
Proof.
  intros h. destruct (headers_in_block_store (S := list IpfsBlock) [h] []) as (s' & Hp & Hg).
  - apply Forall_singleton. exact Block.Block.dummy_header_ok.
  - intros a b Ha Hb _. apply list_elem_of_singleton in Ha, Hb. exact (eq_trans Ha (eq_sym Hb)).
  - exists s'. split; [exact Hp|]. destruct (Hg h) as (b & Hb & Hd & _); [apply list_elem_of_here|].
    exists b. split; [exact Hb|exact Hd].
Defined.
