(* ===== verification/Params.v ===== *)
(** * [params]: the network's constants

    The record of constants, what each network sets, and the global that
    [init_params] fills at most once. *)

From Stdlib Require Import ZArith Lia.
From stdpp Require Import base numbers list.
From S2P Require Import Prelude.

Local Open Scope Z_scope.

Module Params.

Inductive Network := Mainnet | Testnet | Dev.

Record Chain := mkChain {
  sector_sizes : list Z;
  block_delay : Z;
  propagation_delay : Z;
  fallback_po_st_delay : Z;
  slashable_power_delay : Z;
  interactive_po_rep_delay : Z;
  interactive_po_rep_confidence : Z;
  minimum_miner_power : Z;
}.

Record Fil := mkFil {
  total_filecoin : Z;
  mining_reward_total : Z;
  initial_reward : Z;
  filecoin_precision : Z;
}.

Record Params := mkParams {
  unixfs_chunk_size : Z;
  unixfs_links_per_level : Z;
  sector_challenge_ratio_div : Z;
  payment_channel_closing_delay : Z;
  allowable_clock_drift : Z;
  fork_length_threshold : Z;
  blocks_per_epoch : Z;
  finality : Z;
  wratio_num : Z;
  wratio_den : Z;
  seal_randomness_lookback : Z;
  seal_randomness_lookback_limit : Z;
  max_seal_lookback : Z;
  ec_randomness_lookback : Z;
  power_collateral_proportion : Z;
  per_capita_collateral_proportion : Z;
  collateral_precision : Z;
  bad_block_cache_size : Z;
  bls_signature_cache_size : Z;
  block_message_limit : Z;
  miner_max_sectors : Z;
  chain : Chain;
  fil : Fil;
}.

Definition testnet_chain : Chain := {|
  sector_sizes := [Z.shiftl 32 30; 0; 0; 0; 0; 0; 0; 0];
  block_delay := 45;
  propagation_delay := 6;
  fallback_po_st_delay := 30;
  slashable_power_delay := 200;
  interactive_po_rep_delay := 8;
  interactive_po_rep_confidence := 6;
  minimum_miner_power := Z.shiftl 512 30;
|}.
Definition dev_chain : Chain := {|
  sector_sizes := [1024; 0; 0; 0; 0; 0; 0; 0];
  block_delay := 6;
  propagation_delay := 3;
  fallback_po_st_delay := 10;
  slashable_power_delay := 20;
  interactive_po_rep_delay := 2;
  interactive_po_rep_confidence := 6;
  minimum_miner_power := Z.shiftl 2 10;
|}.
Definition dev_fil : Fil := {|
  total_filecoin := 2000000000;
  mining_reward_total := 1400000000;
  initial_reward := 153856861913558700202;
  filecoin_precision := 1000000000000000000;
|}.
Definition testnet_fil : Fil := dev_fil.

(** [Params::init] *)
Definition init (network : Network) : outcome unit Params :=
  '(chain, fil) <- match network with
    | Mainnet => Panic  (* [unimplemented!] *)
    | Testnet => Ok (testnet_chain, testnet_fil)
    | Dev => Ok (dev_chain, dev_fil)
    end ;;
  let finality := 500 in
  let seal_randomness_lookback := finality in
  let seal_randomness_lookback_limit := seal_randomness_lookback + 2000 in
  Ok {|
    unixfs_chunk_size := Z.shiftl 1 20;
    unixfs_links_per_level := 1024;
    sector_challenge_ratio_div := 25;
    payment_channel_closing_delay := 6 * 60 * 60 / block_delay chain;
    allowable_clock_drift := 1;
    fork_length_threshold := finality;
    blocks_per_epoch := 5;
    finality := finality;
    wratio_num := 1;
    wratio_den := 2;
    seal_randomness_lookback := seal_randomness_lookback;
    seal_randomness_lookback_limit := seal_randomness_lookback_limit;
    max_seal_lookback := seal_randomness_lookback_limit + 2000;
    ec_randomness_lookback := 300;
    power_collateral_proportion := 5;
    per_capita_collateral_proportion := 1;
    collateral_precision := 1000;
    bad_block_cache_size := Z.shiftl 1 15;
    bls_signature_cache_size := 40000;
    block_message_limit := 512;
    miner_max_sectors := Z.shiftl 1 48;
    chain := chain;
    fil := fil;
  |}.

(** ** The global

    [std::sync::Once]: it runs a closure to the end at most once; one that
    panics poisons it, and every later call panics. *)
Inductive Once := Incomplete | Complete | Poisoned.

Record Global := mkGlobal { INIT : Once; PARAMS : Params }.

(** The initial value of the static. *)
Definition zero_params : Params :=
  mkParams 0 0 0 0 0 0 0 0 0 0 0 0 0 0 0 0 0 0 0 0 0 (mkChain (replicate 8 0) 0 0 0 0 0 0 0) (mkFil 0 0 0 0).
Definition global_new : Global := mkGlobal Incomplete zero_params.

Definition init_params (network : Network) (g : Global) : outcome unit unit * Global :=
  match INIT g with
  | Complete => (Ok tt, g)
  | Poisoned => (Panic, g)
  | Incomplete =>
      match init network with
      | Ok p => (Ok tt, mkGlobal Complete p)
      | _ => (Panic, mkGlobal Poisoned (PARAMS g))
      end
  end.

(** Without [init_params] before it, the test network's. *)
Definition params (g : Global) : outcome unit Params * Global :=
  let '(r, g) := init_params Testnet g in
  (_ <- r ;; Ok (PARAMS g), g).

(** ** Sequences of calls *)
Inductive op := OInit (n : Network) | OParams.

Definition run_op (o : op) (g : Global) : outcome unit (option Params) * Global :=
  match o with
  | OInit n => let '(r, g) := init_params n g in (_ <- r ;; Ok None, g)
  | OParams => let '(r, g) := params g in (p <- r ;; Ok (Some p), g)
  end.
(** A caller may catch the panic of one call and make another. *)
Fixpoint run (l : list op) (g : Global) : list (outcome unit (option Params)) * Global :=
  match l with
  | [] => ([], g)
  | o :: l' => let '(r, g) := run_op o g in let '(rs, g) := run l' g in (r :: rs, g)
  end.

Definition network_of (o : op) : Network := match o with OInit n => n | OParams => Testnet end.

(** What a call gives once the network is settled. *)
Definition settled (n : Network) (o : op) : outcome unit (option Params) :=
  p <- init n ;; Ok (match o with OInit _ => None | OParams => Some p end).

Lemma run_settled n (p : Params) l :
  init n = Ok p -> run l (mkGlobal Complete p) = (map (settled n) l, mkGlobal Complete p).
Proof.
  intros Hn. induction l as [|o l IH]; [done|]. cbn [run].
  assert (Ho : run_op o (mkGlobal Complete p) = (settled n o, mkGlobal Complete p)).
  { unfold settled. rewrite Hn. by destruct o. }
  rewrite Ho. by rewrite IH.
Qed.

Lemma run_poisoned l p :
  run l (mkGlobal Poisoned p) = (map (fun _ => Panic) l, mkGlobal Poisoned p).
Proof. induction l as [|o l IH]; [done|]. cbn [run]. destruct o; cbn -[run]; by rewrite IH. Qed.

(** C17: The first call settles the network for good: every read returns the
    constants of the network that was initialised first, which is the test network
    when nothing was initialised before the first read, and later initialisations
    change nothing.  The constants that a
    read returns are consistent: the lookbacks increase, the delays are positive
    and fit 64 bits.  Initialising the main network first panics, and so does
    every call after it. *)
Theorem params_settled_by_first_call (o : op) (l : list op) :
  (run (o :: l) global_new).1 = map (settled (network_of o)) (o :: l) /\
  (forall p, init (network_of o) = Ok p ->
     seal_randomness_lookback p < seal_randomness_lookback_limit p < max_seal_lookback p /\
     0 < payment_channel_closing_delay p < 2 ^ 63 /\
     payment_channel_closing_delay p * block_delay (chain p) = 6 * 60 * 60 /\
     length (sector_sizes (chain p)) = 8%nat /\
     mining_reward_total (fil p) <= total_filecoin (fil p) < 2 ^ 64 /\
     initial_reward (fil p) < 2 ^ 128) /\
  (network_of o = Mainnet -> Forall (fun r => r = Panic) (run (o :: l) global_new).1).
Proof.
  assert (Hm : network_of o = Mainnet -> (run (o :: l) global_new).1 = map (fun _ => Panic) (o :: l)).
  { destruct o as [[]|]; try done. intros _. cbn -[run]. cbn [run run_op init_params INIT global_new]. cbn -[run].
    by rewrite run_poisoned. }
  split; [|split].
  - destruct (network_of o) eqn:Hn.
    + rewrite Hm by done. done.
    + destruct o as [[]|]; try done; cbn [run run_op params init_params INIT global_new]; cbn -[run map];
        by erewrite run_settled.
    + destruct o as [[]|]; try done. cbn [run run_op init_params INIT global_new]. cbn -[run map].
      by erewrite run_settled.
  - intros p. destruct (network_of o); [done| |]; intros [= <-]; cbn; repeat split; try lia; done.
  - intros Hn. rewrite Hm by done. apply Forall_map, Forall_true. done.
Qed.

Lemma params_settled_by_first_call_witness :
  (run [OParams; OInit Dev; OParams] global_new).1 = map (settled Testnet) [OParams; OInit Dev; OParams] /\
  Forall (fun r => r = Panic) (run [OInit Mainnet; OParams] global_new).1.
Proof.
  split; [apply (params_settled_by_first_call OParams [OInit Dev; OParams])|].
  apply (params_settled_by_first_call (OInit Mainnet) [OParams]). reflexivity.
Defined.
End Params.
