(* ===== verification/PrimJson.v ===== *)
(** * JSON forms of the primitives

    The [Serialize] and [Deserialize] impls and derives of addresses, big
    integers, bytes, hashes, peer ids, signatures, keys, messages, blocks,
    tipsets, bit fields, pieces and sectors.  A struct is an object with its
    fields in order, under the names its attributes give them. *)

From Stdlib Require Import ZArith Lia String Sorted.
From stdpp Require Import base numbers list gmap.
From S2P Require Import Prelude Decimal F64 Json Serde SerdeLaws Rle RleCorrect RleTotal Cbor CborRef Address.
From S2P Require Import AddressRef Wrappers BitField Piece Sector Crypto Message Block Tipset Wallet.

Local Open Scope Z_scope.

#[local] Existing Instance Crypto.Crypto.SignatureType_eq_dec.

(** The crates [cid], [base64] and [num-bigint]. *)
Class JsonLib `{CidLib} := {
  cid_codec : codec Cid;
  base64_encode : list Z -> text;
  base64_decode : text -> option (list Z);
  bigint_to_string : Z -> text;
  bigint_parse : text -> option Z;
}.
Class JsonLibLaws `{CidLib} (L : JsonLib) : Prop := {
  cid_lawful : lawful cid_codec (fun _ => True);
  base64_decodes bs : bytes_ok bs -> base64_decode (base64_encode bs) = Some bs;
  bigint_parses n : bigint_parse (bigint_to_string n) = Some n;
}.

Module PrimJson.
Section PrimJson.
Context `{CidLib} `{!JsonLib} `{PeerIdLib} `{AddressDeps} (net : Network) (ck : bool).

(** ** Values written as text *)

(** [plum_bytes]: base 64; the library's text in the error is left out. *)
Definition bytes_codec : codec (list Z) :=
  iso_codec text_codec base64_encode
    (fun s => of_option (CustomError (str "base64 decode error")) (base64_decode s)).
(** [bigint_json] *)
Definition bigint_codec : codec Z :=
  iso_codec text_codec bigint_to_string (fun s => of_option ForeignError (bigint_parse s)).
Definition h256_codec : codec (list Z) :=
  mkCodec (enc bytes_codec)
    (fun j => bytes <- dec bytes_codec j ;;
      if decide (length bytes = 32%nat) then Ok bytes else Err (CustomError (str "H256 length must be 32 Bytes"))).
(** [plum_peerid] *)
Definition peer_id_codec : codec PeerId :=
  iso_codec text_codec peer_to_string (fun s => of_option ForeignError (peer_parse s)).

(** Without the text that the base 32 library adds. *)
Definition address_error_display (e : AddressError) : text :=
  match e with
  | UnknownNetwork => str "unknown network"
  | MismatchNetwork => str "Network do not match default network (current: " ++ prefix net ++ str ")"
  | UnknownProtocol => str "unknown protocol"
  | InvalidPayload => str "invalid address payload"
  | InvalidLength => str "invalid address length"
  | InvalidChecksum => str "invalid address checksum"
  | Base32Decode => str "base32 decode error"
  end.
Definition address_codec : codec Address :=
  mkCodec (fun a => s <- to_string net a ;; Ok (JStr s))
    (fun j => s <- de_string j ;; map_err (fun e => CustomError (address_error_display e)) (from_str net s)).

(** ** Enums *)
Definition signature_type_codec : codec Crypto.Crypto.SignatureType :=
  enum_codec [(Crypto.Crypto.Secp256k1, str "secp256k1"); (Crypto.Crypto.Bls, str "bls")].
Definition key_type_codec : codec Wallet.Wallet.KeyType :=
  iso_codec text_codec Wallet.Wallet.keytype_to_string (fun s => Ok (Wallet.Wallet.keytype_deserialize s)).
Definition all_proofs : list RegisteredProof :=
  [StackedDRG32GiBSeal; StackedDRG2KiBSeal; StackedDRG8MiBSeal; StackedDRG512MiBSeal; StackedDRG2KiBWinningPoSt;
   StackedDRG2KiBWindowPoSt; StackedDRG8MiBWinningPoSt; StackedDRG8MiBWindowPoSt; StackedDRG512MiBWinningPoSt;
   StackedDRG512MiBWindowPoSt; StackedDRG32GiBWinningPoSt; StackedDRG32GiBWindowPoSt; StackedDRG64GiBSeal;
   StackedDRG64GiBWinningPoSt; StackedDRG64GiBWindowPoSt].
Definition registered_proof_codec : codec RegisteredProof := repr_codec (map (fun p => (p, u64_of_proof p)) all_proofs).

(** ** Sets and keys *)

(** [serde_bytes] writes the RLE+ bytes as an array of numbers and reads that, or
    the bytes of a text. *)
Definition de_bytes (j : json) : de (list Z) :=
  match j with JStr s => Ok s | j => dec (list_codec u8_codec) j end.
Definition bitfield_codec : codec (list Z) :=
  mkCodec (fun s => v <- Rle.encode ck 8 s ;; enc (list_codec u8_codec) v)
    (fun j => bytes <- de_bytes j ;;
      set <- map_err (fun _ => ForeignError) (Rle.decode ck 8 bytes) ;; Ok (BitField.BitField.collect set)).
Definition tipset_key_codec : codec Tipset.Tipset.TipsetKey :=
  iso_codec (list_codec cid_codec) Tipset.Tipset.key_cids (fun l => Ok (Tipset.Tipset.mkTipsetKey _ l)).

(** ** Structs *)
Definition signature_codec : codec Crypto.Crypto.Signature := struct_codec
  [str "Type"; str "Data"]
  (fun x => [enc signature_type_codec (Crypto.Crypto.type x); enc bytes_codec (Crypto.Crypto.data x)])
  (fun l => match l with
   | [s0; s1] =>
       a0 <- field signature_type_codec s0 ;;
       a1 <- field bytes_codec s1 ;;
       Ok (Crypto.Crypto.mkSignature a0 a1)
   | _ => Err ForeignError
   end).
Definition key_info_codec : codec Wallet.Wallet.KeyInfo := struct_codec
  [str "Type"; str "PrivateKey"]
  (fun x => [enc key_type_codec (Wallet.Wallet.ki_type x); enc bytes_codec (Wallet.Wallet.private_key x)])
  (fun l => match l with
   | [s0; s1] =>
       a0 <- field key_type_codec s0 ;;
       a1 <- field bytes_codec s1 ;;
       Ok (Wallet.Wallet.mkKeyInfo a0 a1)
   | _ => Err ForeignError
   end).
Definition unsigned_message_codec : codec Message.Message.UnsignedMessage := struct_codec
  [str "Version"; str "To"; str "From"; str "Nonce"; str "Value"; str "GasPrice"; str "GasLimit"; str "Method";
   str "Params"]
  (fun x => [enc i64_codec (Message.Message.version x); enc address_codec (Message.Message.to x);
             enc address_codec (Message.Message.from x); enc u64_codec (Message.Message.nonce x);
             enc bigint_codec (Message.Message.value x); enc bigint_codec (Message.Message.gas_price x);
             enc bigint_codec (Message.Message.gas_limit x); enc u64_codec (Message.Message.method x);
             enc bytes_codec (Message.Message.params x)])
  (fun l => match l with
   | [s0; s1; s2; s3; s4; s5; s6; s7; s8] =>
       a0 <- field i64_codec s0 ;;
       a1 <- field address_codec s1 ;;
       a2 <- field address_codec s2 ;;
       a3 <- field u64_codec s3 ;;
       a4 <- field bigint_codec s4 ;;
       a5 <- field bigint_codec s5 ;;
       a6 <- field bigint_codec s6 ;;
       a7 <- field u64_codec s7 ;;
       a8 <- field bytes_codec s8 ;;
       Ok (Message.Message.mkUnsignedMessage a0 a1 a2 a3 a4 a5 a6 a7 a8)
   | _ => Err ForeignError
   end).
Definition signed_message_codec : codec Message.Message.SignedMessage := struct_codec
  [str "Message"; str "Signature"]
  (fun x => [enc unsigned_message_codec (Message.Message.message x);
             enc signature_codec (Message.Message.signature x)])
  (fun l => match l with
   | [s0; s1] =>
       a0 <- field unsigned_message_codec s0 ;;
       a1 <- field signature_codec s1 ;;
       Ok (Message.Message.mkSignedMessage a0 a1)
   | _ => Err ForeignError
   end).
Definition message_receipt_codec : codec Message.Message.MessageReceipt := struct_codec
  [str "ExitCode"; str "Return"; str "GasUsed"]
  (fun x => [enc u8_codec (Message.Message.exit_code x); enc bytes_codec (Message.Message.return_ x);
             enc bigint_codec (Message.Message.gas_used x)])
  (fun l => match l with
   | [s0; s1; s2] =>
       a0 <- field u8_codec s0 ;;
       a1 <- field bytes_codec s1 ;;
       a2 <- field bigint_codec s2 ;;
       Ok (Message.Message.mkMessageReceipt a0 a1 a2)
   | _ => Err ForeignError
   end).
Definition actor_codec : codec Sector.Actor := struct_codec
  [str "Code"; str "Head"; str "Nonce"; str "Balance"]
  (fun x => [enc cid_codec (Sector.code x); enc cid_codec (Sector.head x); enc u64_codec (Sector.nonce x);
             enc bigint_codec (Sector.balance x)])
  (fun l => match l with
   | [s0; s1; s2; s3] =>
       a0 <- field cid_codec s0 ;;
       a1 <- field cid_codec s1 ;;
       a2 <- field u64_codec s2 ;;
       a3 <- field bigint_codec s3 ;;
       Ok (Sector.mkActor _ a0 a1 a2 a3)
   | _ => Err ForeignError
   end).
Definition piece_info_codec : codec Piece.PieceInfo := struct_codec
  [str "Size"; str "PieceCID"]
  (fun x => [enc u64_codec (Piece.size x); enc cid_codec (Piece.piece_cid x)])
  (fun l => match l with
   | [s0; s1] =>
       a0 <- field u64_codec s0 ;;
       a1 <- field cid_codec s1 ;;
       Ok (Piece.mkPieceInfo _ a0 a1)
   | _ => Err ForeignError
   end).
Definition sector_id_codec : codec Sector.SectorId := struct_codec
  [str "Miner"; str "Number"]
  (fun x => [enc u64_codec (Sector.miner x); enc u64_codec (Sector.number x)])
  (fun l => match l with
   | [s0; s1] =>
       a0 <- field u64_codec s0 ;;
       a1 <- field u64_codec s1 ;;
       Ok (Sector.mkSectorId a0 a1)
   | _ => Err ForeignError
   end).
Definition sector_info_codec : codec Sector.SectorInfo := struct_codec
  [str "RegisteredProof"; str "SectorNumber"; str "SealedCID"]
  (fun x => [enc registered_proof_codec (Sector.registered_proof x); enc u64_codec (Sector.sector_number x);
             enc cid_codec (Sector.sealed_cid x)])
  (fun l => match l with
   | [s0; s1; s2] =>
       a0 <- field registered_proof_codec s0 ;;
       a1 <- field u64_codec s1 ;;
       a2 <- field cid_codec s2 ;;
       Ok (Sector.mkSectorInfo _ a0 a1 a2)
   | _ => Err ForeignError
   end).
Definition post_proof_codec : codec Sector.PoStProof := struct_codec
  [str "RegisteredProof"; str "ProofBytes"]
  (fun x => [enc registered_proof_codec (Sector.post_registered_proof x); enc bytes_codec (Sector.proof_bytes x)])
  (fun l => match l with
   | [s0; s1] =>
       a0 <- field registered_proof_codec s0 ;;
       a1 <- field bytes_codec s1 ;;
       Ok (Sector.mkPoStProof a0 a1)
   | _ => Err ForeignError
   end).
Definition ticket_codec : codec Block.Block.Ticket := struct_codec
  [str "VRFProof"]
  (fun x => [enc bytes_codec (Block.Block.vrf_proof x)])
  (fun l => match l with
   | [s0] =>
       a0 <- field bytes_codec s0 ;;
       Ok (Block.Block.mkTicket a0)
   | _ => Err ForeignError
   end).
Definition election_proof_codec : codec Block.Block.ElectionProof := struct_codec
  [str "VRFProof"]
  (fun x => [enc bytes_codec (Block.Block.election_vrf_proof x)])
  (fun l => match l with
   | [s0] =>
       a0 <- field bytes_codec s0 ;;
       Ok (Block.Block.mkElectionProof a0)
   | _ => Err ForeignError
   end).
Definition beacon_entry_codec : codec Block.Block.BeaconEntry := struct_codec
  [str "Round"; str "Data"]
  (fun x => [enc u64_codec (Block.Block.round x); enc bytes_codec (Block.Block.beacon_data x)])
  (fun l => match l with
   | [s0; s1] =>
       a0 <- field u64_codec s0 ;;
       a1 <- field bytes_codec s1 ;;
       Ok (Block.Block.mkBeaconEntry a0 a1)
   | _ => Err ForeignError
   end).
Definition block_header_codec : codec Block.Block.BlockHeader := struct_codec
  [str "Miner"; str "Ticket"; str "ElectionProof"; str "BeaconEntries"; str "WinPoStProof"; str "Parents";
   str "ParentWeight"; str "Height"; str "ParentStateRoot"; str "ParentMessageReceipts"; str "Messages";
   str "BLSAggregate"; str "Timestamp"; str "BlockSig"; str "ForkSignaling"]
  (fun x => [enc address_codec (Block.Block.miner x); enc ticket_codec (Block.Block.ticket x);
             enc election_proof_codec (Block.Block.election_proof x);
             enc (list_codec beacon_entry_codec) (Block.Block.beacon_entries x);
             enc (list_codec post_proof_codec) (Block.Block.win_post_proof x);
             enc (list_codec cid_codec) (Block.Block.parents x); enc bigint_codec (Block.Block.parent_weight x);
             enc i64_codec (Block.Block.height x); enc cid_codec (Block.Block.parent_state_root x);
             enc cid_codec (Block.Block.parent_message_receipts x); enc cid_codec (Block.Block.messages x);
             enc signature_codec (Block.Block.bls_aggregate x); enc u64_codec (Block.Block.timestamp x);
             enc signature_codec (Block.Block.block_sig x); enc u64_codec (Block.Block.fork_signaling x)])
  (fun l => match l with
   | [s0; s1; s2; s3; s4; s5; s6; s7; s8; s9; s10; s11; s12; s13; s14] =>
       a0 <- field address_codec s0 ;;
       a1 <- field ticket_codec s1 ;;
       a2 <- field election_proof_codec s2 ;;
       a3 <- field (list_codec beacon_entry_codec) s3 ;;
       a4 <- field (list_codec post_proof_codec) s4 ;;
       a5 <- field (list_codec cid_codec) s5 ;;
       a6 <- field bigint_codec s6 ;;
       a7 <- field i64_codec s7 ;;
       a8 <- field cid_codec s8 ;;
       a9 <- field cid_codec s9 ;;
       a10 <- field cid_codec s10 ;;
       a11 <- field signature_codec s11 ;;
       a12 <- field u64_codec s12 ;;
       a13 <- field signature_codec s13 ;;
       a14 <- field u64_codec s14 ;;
       Ok (Block.Block.mkBlockHeader _ a0 a1 a2 a3 a4 a5 a6 a7 a8 a9 a10 a11 a12 a13 a14)
   | _ => Err ForeignError
   end).
Definition msg_meta_codec : codec Block.Block.MsgMeta := struct_codec
  [str "BlsMessages"; str "SecpkMessages"]
  (fun x => [enc cid_codec (Block.Block.meta_bls_messages x); enc cid_codec (Block.Block.meta_secpk_messages x)])
  (fun l => match l with
   | [s0; s1] =>
       a0 <- field cid_codec s0 ;;
       a1 <- field cid_codec s1 ;;
       Ok (Block.Block.mkMsgMeta _ a0 a1)
   | _ => Err ForeignError
   end).
Definition full_block_codec : codec Block.Block.FullBlock := struct_codec
  [str "Header"; str "BlsMessages"; str "SecpkMessages"]
  (fun x => [enc block_header_codec (Block.Block.header x);
             enc (list_codec unsigned_message_codec) (Block.Block.bls_messages x);
             enc (list_codec signed_message_codec) (Block.Block.secpk_messages x)])
  (fun l => match l with
   | [s0; s1; s2] =>
       a0 <- field block_header_codec s0 ;;
       a1 <- field (list_codec unsigned_message_codec) s1 ;;
       a2 <- field (list_codec signed_message_codec) s2 ;;
       Ok (Block.Block.mkFullBlock _ a0 a1 a2)
   | _ => Err ForeignError
   end).
Definition block_msg_codec : codec Block.Block.BlockMsg := struct_codec
  [str "Header"; str "BlsMessages"; str "SecpkMessages"]
  (fun x => [enc block_header_codec (Block.Block.bm_header x);
             enc (list_codec cid_codec) (Block.Block.bm_bls_messages x);
             enc (list_codec cid_codec) (Block.Block.bm_secpk_messages x)])
  (fun l => match l with
   | [s0; s1; s2] =>
       a0 <- field block_header_codec s0 ;;
       a1 <- field (list_codec cid_codec) s1 ;;
       a2 <- field (list_codec cid_codec) s2 ;;
       Ok (Block.Block.mkBlockMsg _ a0 a1 a2)
   | _ => Err ForeignError
   end).
Definition tipset_codec : codec Tipset.Tipset.Tipset := struct_codec
  [str "Cids"; str "Blocks"; str "Height"]
  (fun x => [enc tipset_key_codec (Tipset.Tipset.key x);
             enc (list_codec block_header_codec) (Tipset.Tipset.blocks x);
             enc i64_codec (Tipset.Tipset.tipset_height x)])
  (fun l => match l with
   | [s0; s1; s2] =>
       a0 <- field tipset_key_codec s0 ;;
       a1 <- field (list_codec block_header_codec) s1 ;;
       a2 <- field i64_codec s2 ;;
       Ok (Tipset.Tipset.mkTipset _ a0 a1 a2)
   | _ => Err ForeignError
   end).

(** ** What can be written *)
Definition u8_ok (n : Z) : Prop := 0 <= n < 2 ^ 8.
Definition u32_ok (n : Z) : Prop := 0 <= n < 2 ^ 32.
Definition u64_ok (n : Z) : Prop := 0 <= n < 2 ^ 64.
Definition i64_ok (n : Z) : Prop := - 2 ^ 63 <= n < 2 ^ 63.
Definition h256_ok (bs : list Z) : Prop := bytes_ok bs /\ length bs = 32%nat.
(** An [Other] key type that is not named like a known one. *)
Definition key_type_ok (t : Wallet.Wallet.KeyType) : Prop :=
  Wallet.Wallet.keytype_deserialize (Wallet.Wallet.keytype_to_string t) = t.
Definition bitfield_ok (s : list Z) : Prop :=
  BitField.BitField.is_set s /\ Forall (fun x => x <> 2 ^ 64 - 1) s /\ Z.of_nat (length s) <= 131072.

Definition signature_ok (x : Crypto.Crypto.Signature) : Prop :=
  bytes_ok (Crypto.Crypto.data x).
Definition key_info_ok (x : Wallet.Wallet.KeyInfo) : Prop :=
  key_type_ok (Wallet.Wallet.ki_type x) /\ bytes_ok (Wallet.Wallet.private_key x).
Definition unsigned_message_ok (x : Message.Message.UnsignedMessage) : Prop :=
  i64_ok (Message.Message.version x) /\
  valid_addr (Message.Message.to x) /\
  valid_addr (Message.Message.from x) /\
  u64_ok (Message.Message.nonce x) /\
  u64_ok (Message.Message.method x) /\
  bytes_ok (Message.Message.params x).
Definition signed_message_ok (x : Message.Message.SignedMessage) : Prop :=
  unsigned_message_ok (Message.Message.message x) /\ signature_ok (Message.Message.signature x).
Definition message_receipt_ok (x : Message.Message.MessageReceipt) : Prop :=
  u8_ok (Message.Message.exit_code x) /\ bytes_ok (Message.Message.return_ x).
Definition actor_ok (x : Sector.Actor) : Prop :=
  u64_ok (Sector.nonce x).
Definition piece_info_ok (x : Piece.PieceInfo) : Prop :=
  u64_ok (Piece.size x).
Definition sector_id_ok (x : Sector.SectorId) : Prop :=
  u64_ok (Sector.miner x) /\ u64_ok (Sector.number x).
Definition sector_info_ok (x : Sector.SectorInfo) : Prop :=
  u64_ok (Sector.sector_number x).
Definition post_proof_ok (x : Sector.PoStProof) : Prop :=
  bytes_ok (Sector.proof_bytes x).
Definition ticket_ok (x : Block.Block.Ticket) : Prop :=
  bytes_ok (Block.Block.vrf_proof x).
Definition election_proof_ok (x : Block.Block.ElectionProof) : Prop :=
  bytes_ok (Block.Block.election_vrf_proof x).
Definition beacon_entry_ok (x : Block.Block.BeaconEntry) : Prop :=
  u64_ok (Block.Block.round x) /\ bytes_ok (Block.Block.beacon_data x).
Definition block_header_ok (x : Block.Block.BlockHeader) : Prop :=
  valid_addr (Block.Block.miner x) /\
  ticket_ok (Block.Block.ticket x) /\
  election_proof_ok (Block.Block.election_proof x) /\
  Forall beacon_entry_ok (Block.Block.beacon_entries x) /\
  Forall post_proof_ok (Block.Block.win_post_proof x) /\
  i64_ok (Block.Block.height x) /\
  signature_ok (Block.Block.bls_aggregate x) /\
  u64_ok (Block.Block.timestamp x) /\
  signature_ok (Block.Block.block_sig x) /\
  u64_ok (Block.Block.fork_signaling x).
Definition full_block_ok (x : Block.Block.FullBlock) : Prop :=
  block_header_ok (Block.Block.header x) /\
  Forall unsigned_message_ok (Block.Block.bls_messages x) /\
  Forall signed_message_ok (Block.Block.secpk_messages x).
Definition block_msg_ok (x : Block.Block.BlockMsg) : Prop :=
  block_header_ok (Block.Block.bm_header x).
Definition tipset_ok (x : Tipset.Tipset.Tipset) : Prop :=
  Forall block_header_ok (Tipset.Tipset.blocks x) /\ i64_ok (Tipset.Tipset.tipset_height x).

(** ** Reading back *)
Context `{!JsonLibLaws _} `{!PeerIdLaws _} `{!AddressDepsLaws _}.

Lemma bytes_lawful : lawful bytes_codec bytes_ok.
Proof.
  eapply lawful_weaken; [apply iso_lawful, text_lawful|]. intros bs Hbs. split; [done|]. by rewrite base64_decodes.
Qed.
Lemma bigint_lawful : lawful bigint_codec (fun _ => True).
Proof. eapply lawful_weaken; [apply iso_lawful, text_lawful|]. intros n _. split; [done|]. by rewrite bigint_parses. Qed.
Lemma h256_lawful : lawful h256_codec h256_ok.
Proof.
  intros bs [Hb Hl]. destruct (bytes_lawful bs Hb) as (j & He & Hp & Hn & Hd). exists j. cbn [enc dec h256_codec].
  rewrite Hd. cbn [bind]. by rewrite decide_True.
Qed.
Lemma peer_id_lawful : lawful peer_id_codec (fun _ => True).
Proof.
  eapply lawful_weaken; [apply iso_lawful, text_lawful|]. intros p _. split; [done|]. by rewrite peer_parse_to_string.
Qed.
Lemma address_lawful : lawful address_codec valid_addr.
Proof.
  intros a Ha. destruct (to_string_valid net a Ha) as (body & Hs & Hl & Hr & Hb).
  cbn [enc dec address_codec]. rewrite Hs. eexists. split; [done|]. split; [done|]. split; [done|].
  cbn [de_string bind].   rewrite from_str_body by done. by rewrite decide_True, Hb by done.
Qed.
Lemma signature_type_lawful : lawful signature_type_codec (fun _ => True).
Proof.
  eapply lawful_weaken; [apply enum_lawful; nodup_names|]. intros [] _; cbn; set_solver.
Qed.
Lemma key_type_lawful : lawful key_type_codec key_type_ok.
Proof. eapply lawful_weaken; [apply iso_lawful, text_lawful|]. intros t Ht. split; [done|]. by rewrite Ht. Qed.
Lemma registered_proof_lawful : lawful registered_proof_codec (fun _ => True).
Proof.
  eapply lawful_weaken; [apply repr_lawful; [nodup_names|nodup_names|apply (bool_decide_unpack _); vm_compute; exact I]|].
  intros p _. apply (bool_decide_unpack _). by destruct p.
Qed.
Lemma bitfield_lawful : lawful bitfield_codec bitfield_ok.
Proof.
  intros s ([Hs Hu] & Hmax & Hlen).
  destruct (decode_encode ck 8 ltac:(lia) (E := de_error) s Hs) as (v & He & Hok & Hd).
  - rewrite Forall_forall in Hu, Hmax |- *. intros x Hx. specialize (Hu x Hx). specialize (Hmax x Hx).
    unfold u64 in Hu. change (width 8) with 64. lia.
  - cbn [enc dec bitfield_codec]. rewrite He. cbn [bind].
    destruct (list_lawful u8_codec _ u8_lawful v) as (j & Hj & Hp & Hn & Hdj).
    { eapply Forall_impl; [exact Hok|]. unfold u8. intros b ?. cbn. lia. }
    assert (Hb : de_bytes j = Ok v) by (by destruct j). exists j. rewrite Hb. cbn [bind].
    rewrite Hd, (proj2 (Z.ltb_ge _ _)) by (change (OBJECT_MAX_SIZE / 8) with 131072; lia).
    cbn. rewrite BitField.BitField.collect_sorted_id by (by apply BitField.BitField.sorted_strong). done.
Qed.
Lemma tipset_key_lawful : lawful tipset_key_codec (fun _ => True).
Proof.
  eapply lawful_weaken; [apply iso_lawful, list_lawful, cid_lawful|]. intros [l] _. split; [|done]. by apply Forall_true.
Qed.

#[local] Hint Resolve cid_lawful bytes_lawful bigint_lawful h256_lawful peer_id_lawful address_lawful signature_type_lawful
  key_type_lawful registered_proof_lawful bitfield_lawful tipset_key_lawful : codec.

Lemma signature_lawful : lawful signature_codec signature_ok.
Proof. solve_struct. Qed.
#[local] Hint Resolve signature_lawful : codec.
Lemma key_info_lawful : lawful key_info_codec key_info_ok.
Proof. solve_struct. Qed.
#[local] Hint Resolve key_info_lawful : codec.
Lemma unsigned_message_lawful : lawful unsigned_message_codec unsigned_message_ok.
Proof. solve_struct. Qed.
#[local] Hint Resolve unsigned_message_lawful : codec.
Lemma signed_message_lawful : lawful signed_message_codec signed_message_ok.
Proof. solve_struct. Qed.
#[local] Hint Resolve signed_message_lawful : codec.
Lemma message_receipt_lawful : lawful message_receipt_codec message_receipt_ok.
Proof. solve_struct. Qed.
#[local] Hint Resolve message_receipt_lawful : codec.
Lemma actor_lawful : lawful actor_codec actor_ok.
Proof. solve_struct. Qed.
#[local] Hint Resolve actor_lawful : codec.
Lemma piece_info_lawful : lawful piece_info_codec piece_info_ok.
Proof. solve_struct. Qed.
#[local] Hint Resolve piece_info_lawful : codec.
Lemma sector_id_lawful : lawful sector_id_codec sector_id_ok.
Proof. solve_struct. Qed.
#[local] Hint Resolve sector_id_lawful : codec.
Lemma sector_info_lawful : lawful sector_info_codec sector_info_ok.
Proof. solve_struct. Qed.
#[local] Hint Resolve sector_info_lawful : codec.
Lemma post_proof_lawful : lawful post_proof_codec post_proof_ok.
Proof. solve_struct. Qed.
#[local] Hint Resolve post_proof_lawful : codec.
Lemma ticket_lawful : lawful ticket_codec ticket_ok.
Proof. solve_struct. Qed.
#[local] Hint Resolve ticket_lawful : codec.
Lemma election_proof_lawful : lawful election_proof_codec election_proof_ok.
Proof. solve_struct. Qed.
#[local] Hint Resolve election_proof_lawful : codec.
Lemma beacon_entry_lawful : lawful beacon_entry_codec beacon_entry_ok.
Proof. solve_struct. Qed.
#[local] Hint Resolve beacon_entry_lawful : codec.
Lemma block_header_lawful : lawful block_header_codec block_header_ok.
Proof. solve_struct. Qed.
#[local] Hint Resolve block_header_lawful : codec.
Lemma msg_meta_lawful : lawful msg_meta_codec (fun _ => True).
Proof. solve_struct. Qed.
#[local] Hint Resolve msg_meta_lawful : codec.
Lemma full_block_lawful : lawful full_block_codec full_block_ok.
Proof. solve_struct. Qed.
#[local] Hint Resolve full_block_lawful : codec.
Lemma block_msg_lawful : lawful block_msg_codec block_msg_ok.
Proof. solve_struct. Qed.
#[local] Hint Resolve block_msg_lawful : codec.
Lemma tipset_lawful : lawful tipset_codec tipset_ok.
Proof. solve_struct. Qed.
#[local] Hint Resolve tipset_lawful : codec.
End PrimJson.
End PrimJson.
Export PrimJson.

#[export] Hint Resolve cid_lawful bytes_lawful bigint_lawful h256_lawful peer_id_lawful address_lawful signature_type_lawful
  key_type_lawful registered_proof_lawful bitfield_lawful tipset_key_lawful : codec.
#[export] Hint Resolve signature_lawful key_info_lawful unsigned_message_lawful signed_message_lawful message_receipt_lawful
  actor_lawful piece_info_lawful sector_id_lawful sector_info_lawful post_proof_lawful ticket_lawful
  election_proof_lawful beacon_entry_lawful block_header_lawful msg_meta_lawful full_block_lawful
  block_msg_lawful tipset_lawful : codec.
