(* ===== verification/Actors.v ===== *)
(** * [actor]: the states and parameters of the builtin actors

    Miner, market, payment channel and power records with their JSON forms, the
    CBOR forms of the miner's state, and the constants of the policy files. *)

From Stdlib Require Import ZArith Lia String Sorted.
From stdpp Require Import base numbers list.
From S2P Require Import Prelude Decimal F64 Json Serde SerdeLaws Rle RleCorrect RleTotal Cbor CborRef Address.
From S2P Require Import AddressRef Wrappers BitField Piece Sector Crypto Message Block Tipset Wallet PrimJson.

Local Open Scope Z_scope.

Module Actors.

Section Actors.
Context `{CidLib} `{!JsonLib} `{PeerIdLib} `{AddressDeps} (net : Network) (ck : bool).

#[local] Abbreviation address_codec := (address_codec net).
#[local] Abbreviation bitfield_codec := (bitfield_codec ck).

(** ** The records and their JSON forms *)
Record WorkerKeyChange := mkWorkerKeyChange {
  wk_new_worker : Address;
  wk_effective_at : Z;
}.
Definition worker_key_change_codec : codec WorkerKeyChange := struct_codec
  [str "NewWorker"; str "EffectiveAt"]
  (fun x => [enc address_codec (wk_new_worker x); enc i64_codec (wk_effective_at x)])
  (fun l => match l with
   | [s0; s1] =>
       a0 <- field address_codec s0 ;;
       a1 <- field i64_codec s1 ;;
       Ok (mkWorkerKeyChange a0 a1)
   | _ => Err ForeignError
   end).
Record MinerInfo := mkMinerInfo {
  mi_owner : Address;
  mi_worker : Address;
  mi_pending_worker_key : WorkerKeyChange;
  mi_peer_id : PeerId;
  mi_seal_proof_type : RegisteredProof;
  mi_sector_size : Z;
  mi_window_post_partition_sectors : Z;
}.
Definition miner_info_codec : codec MinerInfo := struct_codec
  [str "Owner"; str "Worker"; str "PendingWorkerKey"; str "PeerId"; str "SealProofType"; str "SectorSize";
   str "WindowPoStPartitionSectors"]
  (fun x => [enc address_codec (mi_owner x); enc address_codec (mi_worker x);
             enc worker_key_change_codec (mi_pending_worker_key x); enc peer_id_codec (mi_peer_id x);
             enc registered_proof_codec (mi_seal_proof_type x); enc u64_codec (mi_sector_size x);
             enc u64_codec (mi_window_post_partition_sectors x)])
  (fun l => match l with
   | [s0; s1; s2; s3; s4; s5; s6] =>
       a0 <- field address_codec s0 ;;
       a1 <- field address_codec s1 ;;
       a2 <- field worker_key_change_codec s2 ;;
       a3 <- field peer_id_codec s3 ;;
       a4 <- field registered_proof_codec s4 ;;
       a5 <- field u64_codec s5 ;;
       a6 <- field u64_codec s6 ;;
       Ok (mkMinerInfo a0 a1 a2 a3 a4 a5 a6)
   | _ => Err ForeignError
   end).
Record SectorPreCommitInfo := mkSectorPreCommitInfo {
  spc_registered_proof : RegisteredProof;
  spc_sector_number : Z;
  spc_sealed_cid : Cid;
  spc_seal_rand_epoch : Z;
  spc_deal_ids : list Z;
  spc_expiration : Z;
}.
Definition sector_pre_commit_info_codec : codec SectorPreCommitInfo := struct_codec
  [str "RegisteredProof"; str "SectorNumber"; str "SealedCID"; str "SealRandEpoch"; str "DealIDs"; str "Expiration"]
  (fun x => [enc registered_proof_codec (spc_registered_proof x); enc u64_codec (spc_sector_number x);
             enc cid_codec (spc_sealed_cid x); enc i64_codec (spc_seal_rand_epoch x);
             enc (list_codec u64_codec) (spc_deal_ids x); enc i64_codec (spc_expiration x)])
  (fun l => match l with
   | [s0; s1; s2; s3; s4; s5] =>
       a0 <- field registered_proof_codec s0 ;;
       a1 <- field u64_codec s1 ;;
       a2 <- field cid_codec s2 ;;
       a3 <- field i64_codec s3 ;;
       a4 <- field (list_codec u64_codec) s4 ;;
       a5 <- field i64_codec s5 ;;
       Ok (mkSectorPreCommitInfo a0 a1 a2 a3 a4 a5)
   | _ => Err ForeignError
   end).
Record SectorPreCommitOnChainInfo := mkSectorPreCommitOnChainInfo {
  spo_info : SectorPreCommitInfo;
  spo_pre_commit_deposit : Z;
  spo_pre_commit_epoch : Z;
}.
Definition sector_pre_commit_on_chain_info_codec : codec SectorPreCommitOnChainInfo := struct_codec
  [str "Info"; str "PreCommitDeposit"; str "PreCommitEpoch"]
  (fun x => [enc sector_pre_commit_info_codec (spo_info x); enc bigint_codec (spo_pre_commit_deposit x);
             enc i64_codec (spo_pre_commit_epoch x)])
  (fun l => match l with
   | [s0; s1; s2] =>
       a0 <- field sector_pre_commit_info_codec s0 ;;
       a1 <- field bigint_codec s1 ;;
       a2 <- field i64_codec s2 ;;
       Ok (mkSectorPreCommitOnChainInfo a0 a1 a2)
   | _ => Err ForeignError
   end).
Record SectorOnChainInfo := mkSectorOnChainInfo {
  soc_info : SectorPreCommitInfo;
  soc_activation_epoch : Z;
  soc_deal_weight : Z;
  soc_verified_deal_weight : Z;
}.
Definition sector_on_chain_info_codec : codec SectorOnChainInfo := struct_codec
  [str "Info"; str "ActivationEpoch"; str "DealWeight"; str "VerifiedDealWeight"]
  (fun x => [enc sector_pre_commit_info_codec (soc_info x); enc i64_codec (soc_activation_epoch x);
             enc bigint_codec (soc_deal_weight x); enc bigint_codec (soc_verified_deal_weight x)])
  (fun l => match l with
   | [s0; s1; s2; s3] =>
       a0 <- field sector_pre_commit_info_codec s0 ;;
       a1 <- field i64_codec s1 ;;
       a2 <- field bigint_codec s2 ;;
       a3 <- field bigint_codec s3 ;;
       Ok (mkSectorOnChainInfo a0 a1 a2 a3)
   | _ => Err ForeignError
   end).
Record Deadlines := mkDeadlines {
  dl_due : list Z;
}.
Definition deadlines_codec : codec Deadlines := struct_codec
  [str "Due"]
  (fun x => [enc bitfield_codec (dl_due x)])
  (fun l => match l with
   | [s0] =>
       a0 <- field bitfield_codec s0 ;;
       Ok (mkDeadlines a0)
   | _ => Err ForeignError
   end).
Record DeadlineInfo := mkDeadlineInfo {
  di_current_epoch : Z;
  di_period_start : Z;
  di_index : Z;
  di_open : Z;
  di_close : Z;
  di_challenge : Z;
  di_fault_cutoff : Z;
}.
Definition deadline_info_codec : codec DeadlineInfo := struct_codec
  [str "CurrentEpoch"; str "PeriodStart"; str "Index"; str "Open"; str "Close"; str "Challenge"; str "FaultCutoff"]
  (fun x => [enc i64_codec (di_current_epoch x); enc i64_codec (di_period_start x); enc u64_codec (di_index x);
             enc i64_codec (di_open x); enc i64_codec (di_close x); enc i64_codec (di_challenge x);
             enc i64_codec (di_fault_cutoff x)])
  (fun l => match l with
   | [s0; s1; s2; s3; s4; s5; s6] =>
       a0 <- field i64_codec s0 ;;
       a1 <- field i64_codec s1 ;;
       a2 <- field u64_codec s2 ;;
       a3 <- field i64_codec s3 ;;
       a4 <- field i64_codec s4 ;;
       a5 <- field i64_codec s5 ;;
       a6 <- field i64_codec s6 ;;
       Ok (mkDeadlineInfo a0 a1 a2 a3 a4 a5 a6)
   | _ => Err ForeignError
   end).
Record State := mkState {
  st_info : MinerInfo;
  st_pre_commit_deposits : Z;
  st_locked_funds : Z;
  st_vesting_funds : Cid;
  st_pre_committed_sectors : Cid;
  st_sectors : Cid;
  st_proving_period_start : Z;
  st_new_sectors : list Z;
  st_sector_expirations : Cid;
  st_deadlines : Cid;
  st_faults : list Z;
  st_fault_epochs : Cid;
  st_recoveries : list Z;
  st_post_submissions : list Z;
}.
Definition miner_state_codec : codec State := struct_codec
  [str "Info"; str "PreCommitDeposits"; str "LockedFunds"; str "VestingFunds"; str "PreCommittedSectors";
   str "Sectors"; str "ProvingPeriodStart"; str "NewSectors"; str "SectorExpirations"; str "Deadlines";
   str "Faults"; str "FaultEpochs"; str "Recoveries"; str "PostSubmissions"]
  (fun x => [enc miner_info_codec (st_info x); enc bigint_codec (st_pre_commit_deposits x);
             enc bigint_codec (st_locked_funds x); enc cid_codec (st_vesting_funds x);
             enc cid_codec (st_pre_committed_sectors x); enc cid_codec (st_sectors x);
             enc i64_codec (st_proving_period_start x); enc bitfield_codec (st_new_sectors x);
             enc cid_codec (st_sector_expirations x); enc cid_codec (st_deadlines x);
             enc bitfield_codec (st_faults x); enc cid_codec (st_fault_epochs x);
             enc bitfield_codec (st_recoveries x); enc bitfield_codec (st_post_submissions x)])
  (fun l => match l with
   | [s0; s1; s2; s3; s4; s5; s6; s7; s8; s9; s10; s11; s12; s13] =>
       a0 <- field miner_info_codec s0 ;;
       a1 <- field bigint_codec s1 ;;
       a2 <- field bigint_codec s2 ;;
       a3 <- field cid_codec s3 ;;
       a4 <- field cid_codec s4 ;;
       a5 <- field cid_codec s5 ;;
       a6 <- field i64_codec s6 ;;
       a7 <- field bitfield_codec s7 ;;
       a8 <- field cid_codec s8 ;;
       a9 <- field cid_codec s9 ;;
       a10 <- field bitfield_codec s10 ;;
       a11 <- field cid_codec s11 ;;
       a12 <- field bitfield_codec s12 ;;
       a13 <- field bitfield_codec s13 ;;
       Ok (mkState a0 a1 a2 a3 a4 a5 a6 a7 a8 a9 a10 a11 a12 a13)
   | _ => Err ForeignError
   end).
Record DealProposal := mkDealProposal {
  dp_piece_cid : Cid;
  dp_piece_size : Z;
  dp_verified_deal : bool;
  dp_client : Address;
  dp_provider : Address;
  dp_start_epoch : Z;
  dp_end_epoch : Z;
  dp_storage_price_per_epoch : Z;
  dp_provider_collateral : Z;
  dp_client_collateral : Z;
}.
Definition deal_proposal_codec : codec DealProposal := struct_codec
  [str "PieceCID"; str "PieceSize"; str "VerifiedDeal"; str "Client"; str "Provider"; str "StartEpoch";
   str "EndEpoch"; str "StoragePricePerEpoch"; str "ProviderCollateral"; str "ClientCollateral"]
  (fun x => [enc cid_codec (dp_piece_cid x); enc u64_codec (dp_piece_size x); enc bool_codec (dp_verified_deal x);
             enc address_codec (dp_client x); enc address_codec (dp_provider x); enc i64_codec (dp_start_epoch x);
             enc i64_codec (dp_end_epoch x); enc bigint_codec (dp_storage_price_per_epoch x);
             enc bigint_codec (dp_provider_collateral x); enc bigint_codec (dp_client_collateral x)])
  (fun l => match l with
   | [s0; s1; s2; s3; s4; s5; s6; s7; s8; s9] =>
       a0 <- field cid_codec s0 ;;
       a1 <- field u64_codec s1 ;;
       a2 <- field bool_codec s2 ;;
       a3 <- field address_codec s3 ;;
       a4 <- field address_codec s4 ;;
       a5 <- field i64_codec s5 ;;
       a6 <- field i64_codec s6 ;;
       a7 <- field bigint_codec s7 ;;
       a8 <- field bigint_codec s8 ;;
       a9 <- field bigint_codec s9 ;;
       Ok (mkDealProposal a0 a1 a2 a3 a4 a5 a6 a7 a8 a9)
   | _ => Err ForeignError
   end).
Record DealState := mkDealState {
  ds_sector_start_epoch : Z;
  ds_last_updated_epoch : Z;
  ds_slash_epoch : Z;
}.
Definition deal_state_codec : codec DealState := struct_codec
  [str "SectorStartEpoch"; str "LastUpdatedEpoch"; str "SlashEpoch"]
  (fun x => [enc i64_codec (ds_sector_start_epoch x); enc i64_codec (ds_last_updated_epoch x);
             enc i64_codec (ds_slash_epoch x)])
  (fun l => match l with
   | [s0; s1; s2] =>
       a0 <- field i64_codec s0 ;;
       a1 <- field i64_codec s1 ;;
       a2 <- field i64_codec s2 ;;
       Ok (mkDealState a0 a1 a2)
   | _ => Err ForeignError
   end).
Record Merge := mkMerge {
  mg_lane : Z;
  mg_nonce : Z;
}.
Definition merge_codec : codec Merge := struct_codec
  [str "Lane"; str "Nonce"]
  (fun x => [enc u64_codec (mg_lane x); enc u64_codec (mg_nonce x)])
  (fun l => match l with
   | [s0; s1] =>
       a0 <- field u64_codec s0 ;;
       a1 <- field u64_codec s1 ;;
       Ok (mkMerge a0 a1)
   | _ => Err ForeignError
   end).
Record ModVerifyParams := mkModVerifyParams {
  mv_actor : Address;
  mv_method : Z;
  mv_data : list Z;
}.
Definition mod_verify_params_codec : codec ModVerifyParams := struct_codec
  [str "Actor"; str "Method"; str "Data"]
  (fun x => [enc address_codec (mv_actor x); enc u64_codec (mv_method x); enc bytes_codec (mv_data x)])
  (fun l => match l with
   | [s0; s1; s2] =>
       a0 <- field address_codec s0 ;;
       a1 <- field u64_codec s1 ;;
       a2 <- field bytes_codec s2 ;;
       Ok (mkModVerifyParams a0 a1 a2)
   | _ => Err ForeignError
   end).
Record SignedVoucher := mkSignedVoucher {
  sv_time_lock_min : Z;
  sv_time_lock_max : Z;
  sv_secret_preimage : list Z;
  sv_extra : ModVerifyParams;
  sv_lane : Z;
  sv_nonce : Z;
  sv_amount : Z;
  sv_min_settle_height : Z;
  sv_mergers : list Merge;
  sv_signature : Crypto.Crypto.Signature;
}.
Definition signed_voucher_codec : codec SignedVoucher := struct_codec
  [str "TimeLockMin"; str "TimeLockMax"; str "SecretPreimage"; str "Extra"; str "Lane"; str "Nonce"; str "Amount";
   str "MinSettleHeight"; str "Mergers"; str "Signature"]
  (fun x => [enc i64_codec (sv_time_lock_min x); enc i64_codec (sv_time_lock_max x);
             enc bytes_codec (sv_secret_preimage x); enc mod_verify_params_codec (sv_extra x);
             enc u64_codec (sv_lane x); enc u64_codec (sv_nonce x); enc bigint_codec (sv_amount x);
             enc i64_codec (sv_min_settle_height x); enc (list_codec merge_codec) (sv_mergers x);
             enc signature_codec (sv_signature x)])
  (fun l => match l with
   | [s0; s1; s2; s3; s4; s5; s6; s7; s8; s9] =>
       a0 <- field i64_codec s0 ;;
       a1 <- field i64_codec s1 ;;
       a2 <- field bytes_codec s2 ;;
       a3 <- field mod_verify_params_codec s3 ;;
       a4 <- field u64_codec s4 ;;
       a5 <- field u64_codec s5 ;;
       a6 <- field bigint_codec s6 ;;
       a7 <- field i64_codec s7 ;;
       a8 <- field (list_codec merge_codec) s8 ;;
       a9 <- field signature_codec s9 ;;
       Ok (mkSignedVoucher a0 a1 a2 a3 a4 a5 a6 a7 a8 a9)
   | _ => Err ForeignError
   end).
Record Claim := mkClaim {
  cl_raw_byte_power : Z;
  cl_quality_adj_power : Z;
}.
Definition claim_codec : codec Claim := struct_codec
  [str "RawBytePower"; str "QualityAdjPower"]
  (fun x => [enc bigint_codec (cl_raw_byte_power x); enc bigint_codec (cl_quality_adj_power x)])
  (fun l => match l with
   | [s0; s1] =>
       a0 <- field bigint_codec s0 ;;
       a1 <- field bigint_codec s1 ;;
       Ok (mkClaim a0 a1)
   | _ => Err ForeignError
   end).

(** ** What can be written *)
Definition worker_key_change_ok (x : WorkerKeyChange) : Prop :=
  valid_addr (wk_new_worker x) /\ i64_ok (wk_effective_at x).
Definition miner_info_ok (x : MinerInfo) : Prop :=
  valid_addr (mi_owner x) /\
  valid_addr (mi_worker x) /\
  worker_key_change_ok (mi_pending_worker_key x) /\
  u64_ok (mi_sector_size x) /\
  u64_ok (mi_window_post_partition_sectors x).
Definition sector_pre_commit_info_ok (x : SectorPreCommitInfo) : Prop :=
  u64_ok (spc_sector_number x) /\
  i64_ok (spc_seal_rand_epoch x) /\
  Forall u64_ok (spc_deal_ids x) /\
  i64_ok (spc_expiration x).
Definition sector_pre_commit_on_chain_info_ok (x : SectorPreCommitOnChainInfo) : Prop :=
  sector_pre_commit_info_ok (spo_info x) /\ i64_ok (spo_pre_commit_epoch x).
Definition sector_on_chain_info_ok (x : SectorOnChainInfo) : Prop :=
  sector_pre_commit_info_ok (soc_info x) /\ i64_ok (soc_activation_epoch x).
Definition deadlines_ok (x : Deadlines) : Prop :=
  bitfield_ok (dl_due x).
Definition deadline_info_ok (x : DeadlineInfo) : Prop :=
  i64_ok (di_current_epoch x) /\
  i64_ok (di_period_start x) /\
  u64_ok (di_index x) /\
  i64_ok (di_open x) /\
  i64_ok (di_close x) /\
  i64_ok (di_challenge x) /\
  i64_ok (di_fault_cutoff x).
Definition miner_state_ok (x : State) : Prop :=
  miner_info_ok (st_info x) /\
  i64_ok (st_proving_period_start x) /\
  bitfield_ok (st_new_sectors x) /\
  bitfield_ok (st_faults x) /\
  bitfield_ok (st_recoveries x) /\
  bitfield_ok (st_post_submissions x).
Definition deal_proposal_ok (x : DealProposal) : Prop :=
  u64_ok (dp_piece_size x) /\
  valid_addr (dp_client x) /\
  valid_addr (dp_provider x) /\
  i64_ok (dp_start_epoch x) /\
  i64_ok (dp_end_epoch x).
Definition deal_state_ok (x : DealState) : Prop :=
  i64_ok (ds_sector_start_epoch x) /\ i64_ok (ds_last_updated_epoch x) /\ i64_ok (ds_slash_epoch x).
Definition merge_ok (x : Merge) : Prop :=
  u64_ok (mg_lane x) /\ u64_ok (mg_nonce x).
Definition mod_verify_params_ok (x : ModVerifyParams) : Prop :=
  valid_addr (mv_actor x) /\ u64_ok (mv_method x) /\ bytes_ok (mv_data x).
Definition signed_voucher_ok (x : SignedVoucher) : Prop :=
  i64_ok (sv_time_lock_min x) /\
  i64_ok (sv_time_lock_max x) /\
  bytes_ok (sv_secret_preimage x) /\
  mod_verify_params_ok (sv_extra x) /\
  u64_ok (sv_lane x) /\
  u64_ok (sv_nonce x) /\
  i64_ok (sv_min_settle_height x) /\
  Forall merge_ok (sv_mergers x) /\
  signature_ok (sv_signature x).

(** ** Reading back *)
Context `{!JsonLibLaws _} `{!PeerIdLaws _} `{!AddressDepsLaws _}.

Lemma worker_key_change_lawful : lawful worker_key_change_codec worker_key_change_ok.
Proof. solve_struct. Qed.
#[local] Hint Resolve worker_key_change_lawful : codec.
Lemma miner_info_lawful : lawful miner_info_codec miner_info_ok.
Proof. solve_struct. Qed.
#[local] Hint Resolve miner_info_lawful : codec.
Lemma sector_pre_commit_info_lawful : lawful sector_pre_commit_info_codec sector_pre_commit_info_ok.
Proof. solve_struct. Qed.
#[local] Hint Resolve sector_pre_commit_info_lawful : codec.
Lemma sector_pre_commit_on_chain_info_lawful : lawful sector_pre_commit_on_chain_info_codec sector_pre_commit_on_chain_info_ok.
Proof. solve_struct. Qed.
#[local] Hint Resolve sector_pre_commit_on_chain_info_lawful : codec.
Lemma sector_on_chain_info_lawful : lawful sector_on_chain_info_codec sector_on_chain_info_ok.
Proof. solve_struct. Qed.
#[local] Hint Resolve sector_on_chain_info_lawful : codec.
Lemma deadlines_lawful : lawful deadlines_codec deadlines_ok.
Proof. solve_struct. Qed.
#[local] Hint Resolve deadlines_lawful : codec.
Lemma deadline_info_lawful : lawful deadline_info_codec deadline_info_ok.
Proof. solve_struct. Qed.
#[local] Hint Resolve deadline_info_lawful : codec.
Lemma miner_state_lawful : lawful miner_state_codec miner_state_ok.
Proof. solve_struct. Qed.
#[local] Hint Resolve miner_state_lawful : codec.
Lemma deal_proposal_lawful : lawful deal_proposal_codec deal_proposal_ok.
Proof. solve_struct. Qed.
#[local] Hint Resolve deal_proposal_lawful : codec.
Lemma deal_state_lawful : lawful deal_state_codec deal_state_ok.
Proof. solve_struct. Qed.
#[local] Hint Resolve deal_state_lawful : codec.
Lemma merge_lawful : lawful merge_codec merge_ok.
Proof. solve_struct. Qed.
#[local] Hint Resolve merge_lawful : codec.
Lemma mod_verify_params_lawful : lawful mod_verify_params_codec mod_verify_params_ok.
Proof. solve_struct. Qed.
#[local] Hint Resolve mod_verify_params_lawful : codec.
Lemma signed_voucher_lawful : lawful signed_voucher_codec signed_voucher_ok.
Proof. solve_struct. Qed.
#[local] Hint Resolve signed_voucher_lawful : codec.
Lemma claim_lawful : lawful claim_codec (fun _ => True).
Proof. solve_struct. Qed.
#[local] Hint Resolve claim_lawful : codec.
End Actors.
End Actors.
Export Actors.

#[export] Hint Resolve worker_key_change_lawful miner_info_lawful sector_pre_commit_info_lawful
  sector_pre_commit_on_chain_info_lawful sector_on_chain_info_lawful deadlines_lawful deadline_info_lawful
  miner_state_lawful deal_proposal_lawful deal_state_lawful merge_lawful mod_verify_params_lawful
  signed_voucher_lawful claim_lawful : codec.
