(* ===== verification/JsonRef.v ===== *)
(** * JSON forms: implementations of the libraries, and the round trip

    The text of a CID in an object, bytes in a text alphabet, decimal big
    integers and a peer id: they satisfy the laws of PrimJson.v.  What the
    primitives and the actors' records write is read back. *)

From Stdlib Require Import ZArith Lia String Sorted.
From stdpp Require Import base numbers list gmap.
From S2P Require Import Prelude Decimal F64 Text Json Serde SerdeLaws Rle RleCorrect RleTotal Cbor CborRef Address.
From S2P Require Import AddressRef Wrappers BitField Piece Sector Crypto Message Block Tipset Wallet Ipld IpldRef.
From S2P Require Import PrimJson Actors.

Local Open Scope Z_scope.

(** ** Decimal text of an integer *)
Definition show_int (n : Z) : list Z := if n <? 0 then 45 :: to_decimal (- n) else to_decimal n.
Definition read_int (s : list Z) : option Z :=
  match s with
  | [] | [45] => None
  | c :: s' =>
      if c =? 45 then (if forallb is_digit s' then Some (- digits_value 0 s') else None)
      else if forallb is_digit s then Some (digits_value 0 s) else None
  end.

Lemma digits_value_fuel fuel n acc :
  0 <= n -> (Z.to_nat (Z.log2 n) < fuel)%nat -> digits_value 0 (digits_fuel fuel n acc) = digits_value n acc.
Proof.
  revert n acc. induction fuel as [|fuel IH]; intros n acc Hn Hf; [lia|]. cbn [digits_fuel]. destruct (Z.ltb_spec n 10).
  - cbn [digits_value]. f_equal. lia.
  - assert (Hl := fuel_div10 fuel n H Hf). rewrite IH by (done || apply Z.div_pos; lia). cbn [digits_value]. f_equal.
    pose proof (Z.div_mod n 10). lia.
Qed.

Lemma read_digits n : 0 <= n -> forallb is_digit (to_decimal n) = true /\ digits_value 0 (to_decimal n) = n.
Proof.
  intros Hn. unfold to_decimal. split; [|by rewrite digits_value_fuel by lia].
  apply forallb_forall. intros c Hc. pose proof (digits_fuel_ok (S (Z.to_nat (Z.log2 n))) n [] Hn (Forall_nil_2 _)) as Hd.
  rewrite Forall_forall in Hd. specialize (Hd c (proj2 (list_elem_of_In _ _) Hc)). unfold digit in Hd. unfold is_digit.
  by rewrite !(proj2 (Z.leb_le _ _)) by lia.
Qed.

Lemma to_decimal_head n : 0 <= n -> exists c s, to_decimal n = c :: s /\ 48 <= c.
Proof.
  intros Hn. pose proof (digits_fuel_nonempty (Z.to_nat (Z.log2 n)) n []) as He.
  pose proof (digits_fuel_ok (S (Z.to_nat (Z.log2 n))) n [] Hn (Forall_nil_2 _)) as Hd. unfold to_decimal.
  destruct (digits_fuel _ _ _) as [|c s]; [done|]. exists c, s. split; [done|]. apply Forall_inv in Hd. apply Hd.
Qed.

Lemma read_show_int n : read_int (show_int n) = Some n.
Proof.
  unfold show_int. destruct (Z.ltb_spec n 0).
  - destruct (read_digits (- n)) as [Hf Hv]; [lia|]. destruct (to_decimal_head (- n)) as (c & s & He & _); [lia|].
    rewrite He in *. unfold read_int. rewrite Z.eqb_refl, Hf, Hv. f_equal. lia.
  - destruct (read_digits n) as [Hf Hv]; [lia|]. destruct (to_decimal_head n) as (c & s & He & Hc); [lia|].
    rewrite He in *. unfold read_int. rewrite (proj2 (Z.eqb_neq c 45)), Hf, Hv by lia.
    destruct s; [|by destruct c as [|p|p]; repeat (destruct p as [p|p|]; try done)]. 
    by destruct c as [|p|p]; repeat (destruct p as [p|p|]; try done).
Qed.

(** ** The libraries *)
#[export] Instance json_lib_ref : JsonLib := {|
  cid_codec := mkCodec (fun c => Ok (JObj [(str "/", JStr (cid_to_string c))]))
    (fun j => match j with
     | JObj [(k, JStr s)] => if decide (k = str "/") then of_option ForeignError (cid_from_string s) else Err ForeignError
     | _ => Err ForeignError
     end);
  base64_encode := nibbles;
  base64_decode := of_nibbles;
  bigint_to_string := show_int;
  bigint_parse := read_int;
|}.
#[export] Instance json_lib_ref_laws : JsonLibLaws json_lib_ref.
Proof.
  split.
  - intros c _. exists (JObj [(str "/", JStr (cid_to_string c))]). split; [done|]. split; [done|]. split; [done|].
    cbn [dec cid_codec json_lib_ref]. rewrite decide_True by done. by rewrite cid_parse.
  - apply of_nibbles_nibbles.
  - apply read_show_int.
Qed.

#[export] Instance peer_text : PeerIdLib := {|
  PeerId := unit;
  peer_to_string _ := str "12D3KooW";
  peer_parse s := if decide (s = str "12D3KooW") then Some tt else None;
|}.
#[export] Instance peer_text_laws : PeerIdLaws peer_text.
Proof. split; intros []; [done|]. split; [apply str_bytes_ok|]. done. Qed.

(** ** Round trips *)
Import PrimJson.PrimJson Actors.Actors.

(** Written, held as a [Value], and read. *)
Definition reread {A} (c : codec A) (x : A) : de A := j <- enc c x ;; dec c (to_value j).

Lemma lawful_reread {A} (c : codec A) ok x : lawful c ok -> ok x -> reread c x = Ok x.
Proof. intros Hc Hx. destruct (Hc x Hx) as (j & He & Hp & _ & Hd). unfold reread. by rewrite He; cbn; rewrite Hp. Qed.

(** C16: The JSON forms read back: a signed message, a full block with its header,
    proofs and messages, a tipset, a key, a bit field, a miner actor's state, a deal
    proposal and a payment voucher, when addresses are valid, integers fit their
    widths, bit fields can be encoded and a key type is not named like another. *)
Theorem json_roundtrip `{CidLib} `{!JsonLib} `{PeerIdLib} `{AddressDeps} `{!JsonLibLaws _} `{!PeerIdLaws _}
    `{!AddressDepsLaws _} (net : Network) (ck : bool) (m : Message.Message.SignedMessage) (b : Block.Block.FullBlock)
    (t : Tipset.Tipset.Tipset) (k : Wallet.Wallet.KeyInfo) (s : list Z) (st : State) (d : DealProposal) (v : SignedVoucher) :
  signed_message_ok m -> full_block_ok b -> tipset_ok t -> key_info_ok k -> bitfield_ok s -> miner_state_ok st ->
  deal_proposal_ok d -> signed_voucher_ok v ->
  reread (signed_message_codec net) m = Ok m /\
  reread (full_block_codec net) b = Ok b /\
  reread (tipset_codec net) t = Ok t /\
  reread key_info_codec k = Ok k /\
  reread (bitfield_codec ck) s = Ok s /\
  reread (miner_state_codec net ck) st = Ok st /\
  reread (deal_proposal_codec net) d = Ok d /\
  reread (signed_voucher_codec net) v = Ok v.
Proof.
  intros. repeat apply conj; (eapply lawful_reread; [typeclasses eauto 8 with codec typeclass_instances|assumption]).
Qed.

(** ** Samples *)
Definition some_actor : Address := mkAddress Address.Actor (replicate 20 7).
Definition some_cid : Cid := dag_cbor_cid [1; 2; 3].
Definition some_state : State :=
  mkState (mkMinerInfo some_actor some_actor (mkWorkerKeyChange some_actor 100) tt StackedDRG2KiBSeal 2048 2)
    1000 (-5) some_cid some_cid some_cid 12 [2; 7] some_cid some_cid [] some_cid [] [2; 7].
Definition some_header : Block.Block.BlockHeader :=
  Block.Block.mkBlockHeader _ some_actor (Block.Block.mkTicket [1; 2]) (Block.Block.mkElectionProof [3])
    [Block.Block.mkBeaconEntry 4 [5]] [] [some_cid] 9 10 some_cid some_cid some_cid Block.Block.sample_sig 11
    Block.Block.sample_sig 0.
Definition some_block : Block.Block.FullBlock :=
  Block.Block.mkFullBlock _ some_header [Message.Message.sample_message] [Message.Message.sample_signed].
Definition some_key : Tipset.Tipset.TipsetKey := Tipset.Tipset.mkTipsetKey _ [some_cid].
Definition some_tipset : Tipset.Tipset.Tipset := Tipset.Tipset.mkTipset _ some_key [some_header] 10.
Definition some_deal : DealProposal := mkDealProposal some_cid 2048 true some_actor some_actor 5 500 3 0 (-1).
Definition some_voucher : SignedVoucher :=
  mkSignedVoucher 0 100 [7; 8] (mkModVerifyParams some_actor 2 [9]) 1 3 1000 (-1) [mkMerge 1 2] Block.Block.sample_sig.

Lemma some_actor_valid : valid_addr some_actor.
Proof. split; [|reflexivity]. apply Forall_replicate. unfold u8. lia. Qed.
Lemma bls_addr_valid b : u8 b -> valid_addr (Message.Message.bls_addr b).
Proof. intros Hb. split; [by apply Forall_replicate|done]. Qed.
Lemma sample_sig_ok : signature_ok Block.Block.sample_sig.
Proof. apply str_bytes_ok. Qed.
Lemma sample_message_json_ok : unsigned_message_ok Message.Message.sample_message.
Proof.
  split; [unfold i64_ok; cbn; lia|]. split; [apply bls_addr_valid; unfold u8; lia|].
  split; [apply bls_addr_valid; unfold u8; lia|]. do 2 (split; [unfold u64_ok; cbn; lia|]). apply str_bytes_ok.
Qed.
Lemma sample_signed_ok : signed_message_ok Message.Message.sample_signed.
Proof. split; [apply sample_message_json_ok|apply sample_sig_ok]. Qed.
Lemma two_bits_ok : bitfield_ok [2; 7].
Proof. split; [|split; [|cbn; lia]]; [split; [repeat constructor|repeat constructor; discriminate]|repeat constructor; discriminate]. Qed.
Lemma no_bits_ok : bitfield_ok [].
Proof. split; [split; [apply Sorted_nil|apply Forall_nil_2]|split; [apply Forall_nil_2|cbn; lia]]. Qed.

Create HintDb samples.
#[export] Hint Resolve some_actor_valid sample_sig_ok sample_message_json_ok sample_signed_ok two_bits_ok no_bits_ok : samples.

(** The bounds of a sample, one by one. *)
Ltac in_bounds :=
  repeat match goal with
  | |- _ /\ _ => split
  | |- Forall _ [] => apply Forall_nil_2
  | |- Forall _ (_ :: _) => apply Forall_cons_2
  | |- bytes_ok _ => unfold bytes_ok
  | |- _ => solve [auto with samples]
  | |- _ => progress cbn -[Z.pow]
  | |- _ => progress unfold u8, u8_ok, u32_ok, u64_ok, i64_ok
  | |- _ => lia
  end.

Lemma some_header_ok : block_header_ok some_header.
Proof. unfold block_header_ok, ticket_ok, election_proof_ok, beacon_entry_ok, some_header. in_bounds. Qed.
#[export] Hint Resolve some_header_ok : samples.
Lemma some_block_ok : full_block_ok some_block.
Proof. unfold full_block_ok, some_block. in_bounds. Qed.
Lemma some_tipset_ok : tipset_ok some_tipset.
Proof. unfold tipset_ok, some_tipset. in_bounds. Qed.
Lemma some_info_ok : miner_info_ok (st_info some_state).
Proof. unfold miner_info_ok, worker_key_change_ok, some_state. in_bounds. Qed.
#[export] Hint Resolve some_block_ok some_tipset_ok some_info_ok : samples.

Lemma json_roundtrip_witness :
  reread (full_block_codec Test) some_block = Ok some_block /\
  reread (miner_state_codec Test true) some_state = Ok some_state.
Proof.
  destruct (json_roundtrip Test true Message.Message.sample_signed some_block some_tipset
    (Wallet.Wallet.mkKeyInfo Wallet.Wallet.KtBls [1; 2; 3]) [2; 7] some_state some_deal some_voucher)
    as (_ & Hb & _ & _ & _ & Hs & _).
  - auto with samples.
  - auto with samples.
  - auto with samples.
  - split; [reflexivity|]. unfold bytes_ok, u8. repeat constructor; cbn; lia.
  - auto with samples.
  - unfold miner_state_ok. in_bounds.
  - unfold deal_proposal_ok. in_bounds.
  - unfold signed_voucher_ok, mod_verify_params_ok, merge_ok. in_bounds.
  - by split.
Defined.
