(* ===== verification/ValueWrappers.v ===== *)
(** * The wrapper types of the primitives

    [primitives/bigint] (bigint.rs, biguint.rs), [primitives/bytes] and
    [primitives/peerid] each have a type that owns a value and a type that borrows
    one.  The owning type reads and writes CBOR and JSON, the borrowing one only
    writes, with code of its own.  [wrapper] is what such a pair offers and
    [WrapperLaws] what its clients rely on. *)

From Stdlib Require Import ZArith Lia String.
From stdpp Require Import base numbers list.
From S2P Require Import Prelude Decimal Json Serde SerdeLaws Cbor CborRef Address AddressRef.
From S2P Require Import Wrappers Piece Tipset Key PrimJson JsonRef.

Local Open Scope Z_scope.

(** ** The interface *)
Record wrapper (A W R : Type) := mkWrapper {
  w_from : A -> W;                   (* [From<A>] *)
  w_into_inner : W -> A;
  w_as_inner : W -> A;
  w_as_mut_inner : (A -> A) -> W -> W;   (* a write through the mutable borrow *)
  w_encode : W -> list Z;
  w_decode : decoder W;
  w_serialize : W -> de json;
  w_deserialize : json -> de W;
  r_from : A -> R;                   (* the borrowing type *)
  r_as_inner : R -> A;
  r_encode : R -> list Z;
  r_serialize : R -> de json;
}.
Arguments mkWrapper {A W R}.
Arguments w_from {A W R}. Arguments w_into_inner {A W R}. Arguments w_as_inner {A W R}. Arguments w_as_mut_inner {A W R}.
Arguments w_encode {A W R}. Arguments w_decode {A W R}. Arguments w_serialize {A W R}. Arguments w_deserialize {A W R}.
Arguments r_from {A W R}. Arguments r_as_inner {A W R}. Arguments r_encode {A W R}. Arguments r_serialize {A W R}.

(** A value comes back from either form, the borrowing type writes what the
    owning one does, and a write through the borrow is seen by both. *)
Class WrapperLaws {A W R} (w : wrapper A W R) (ok : A -> Prop) : Prop := {
  wl_inner a : w_into_inner w (w_from w a) = a /\ w_as_inner w (w_from w a) = a /\ r_as_inner w (r_from w a) = a;
  wl_write f a : w_as_mut_inner w f (w_from w a) = w_from w (f a);
  wl_cbor a : ok a -> reads (w_decode w) (w_encode w (w_from w a)) (w_from w a);
  wl_json a : ok a -> exists j, w_serialize w (w_from w a) = Ok j /\ w_deserialize w j = Ok (w_from w a);
  wl_ref_cbor a : ok a -> r_encode w (r_from w a) = w_encode w (w_from w a);
  wl_ref_json a : r_serialize w (r_from w a) = w_serialize w (w_from w a);
}.

(** The JSON of an owning type is its value's, wrapped. *)
Section Derived.
Context {A W : Type} (from : A -> W) (inner : W -> A) (c : codec A).
Definition serialize_inner (w : W) : de json := enc c (inner w).
Definition deserialize_inner (j : json) : de W := a <- dec c j ;; Ok (from a).
Lemma inner_roundtrip a ok :
  (forall a, inner (from a) = a) -> lawful c ok -> ok a ->
  exists j, serialize_inner (from a) = Ok j /\ deserialize_inner j = Ok (from a).
Proof.
  intros Hi Hc Ha. destruct (Hc a Ha) as (j & He & _ & _ & Hd). exists j.
  unfold serialize_inner, deserialize_inner. by rewrite Hi, Hd.
Qed.
End Derived.

(** ** [bigint.rs] *)
Record BigIntWrapper := mkBigInt { bigint_0 : Z }.
Record BigIntRefWrapper := mkBigIntRef { bigint_ref_0 : Z }.

(** [encode::Encode for BigIntRefWrapper] *)
Definition encode_bigint_ref `{Minicbor} `{NumBigint} (w : BigIntRefWrapper) : list Z :=
  let '(sign, v) := bigint_to_bytes_be (bigint_ref_0 w) in
  e_bytes (match sign with
           | Plus => [0] ++ v
           | Minus => [1] ++ v
           | NoSign => []
           end).

(** ** [biguint.rs] *)
Record BigUintWrapper := mkBigUint { biguint_0 : Z }.
Record BigUintRefWrapper := mkBigUintRef { biguint_ref_0 : Z }.

(** [encode::Encode for BigUintRefWrapper] *)
Definition encode_biguint_ref `{Minicbor} `{NumBigint} (w : BigUintRefWrapper) : list Z :=
  let v := biguint_to_bytes_be (biguint_ref_0 w) in
  e_bytes (if decide (v = [0]) then [] else [0] ++ v).

(** [BigUint]'s text, of [num-bigint]. *)
Class BigUintText := {
  biguint_to_string : Z -> text;
  biguint_parse : text -> option Z;
}.
Class BigUintTextLaws (L : BigUintText) : Prop :=
  biguint_parses n : 0 <= n -> biguint_parse (biguint_to_string n) = Some n.

(** [biguint_json] *)
Definition biguint_codec `{BigUintText} : codec Z :=
  iso_codec text_codec biguint_to_string (fun s => of_option ForeignError (biguint_parse s)).

Lemma biguint_lawful `{BigUintTextLaws} : lawful biguint_codec (fun n => 0 <= n).
Proof. eapply lawful_weaken; [apply iso_lawful, text_lawful|]. intros n Hn. split; [done|]. by rewrite biguint_parses. Qed.

(** ** [bytes] and [peerid] *)
Record Bytes := mkBytes { bytes_0 : list Z }.
Record BytesRef := mkBytesRef { bytes_ref_0 : list Z }.
Record PeerIdWrapper `{PeerIdLib} := mkPeerId { peer_0 : PeerId }.
Record PeerIdRefWrapper `{PeerIdLib} := mkPeerIdRef { peer_ref_0 : PeerId }.
Arguments mkPeerId {_}. Arguments peer_0 {_}. Arguments mkPeerIdRef {_}. Arguments peer_ref_0 {_}.

Definition encode_BytesRef `{Minicbor} (w : BytesRef) : list Z := e_bytes (bytes_ref_0 w).
Definition encode_PeerIdRef `{Minicbor} `{PeerIdLib} (w : PeerIdRefWrapper) : list Z := e_str (peer_to_string (peer_ref_0 w)).

(** ** The four pairs *)
Section Pairs.
Context `{Minicbor} `{NumBigint} `{CidLib} `{!JsonLib} `{PeerIdLib} `{BigUintText}.

Definition bigint_wrapper : wrapper Z BigIntWrapper BigIntRefWrapper := {|
  w_from := mkBigInt; w_into_inner := bigint_0; w_as_inner := bigint_0;
  w_as_mut_inner f w := mkBigInt (f (bigint_0 w));
  w_encode w := encode_bigint (bigint_0 w);
  w_decode := z <~ decode_bigint ;; dret (mkBigInt z);
  w_serialize := serialize_inner bigint_0 PrimJson.bigint_codec;
  w_deserialize := deserialize_inner mkBigInt PrimJson.bigint_codec;
  r_from := mkBigIntRef; r_as_inner := bigint_ref_0;
  r_encode := encode_bigint_ref;
  r_serialize := serialize_inner bigint_ref_0 PrimJson.bigint_codec;
|}.

Definition biguint_wrapper : wrapper Z BigUintWrapper BigUintRefWrapper := {|
  w_from := mkBigUint; w_into_inner := biguint_0; w_as_inner := biguint_0;
  w_as_mut_inner f w := mkBigUint (f (biguint_0 w));
  w_encode w := encode_biguint (biguint_0 w);
  w_decode := z <~ decode_biguint ;; dret (mkBigUint z);
  w_serialize := serialize_inner biguint_0 biguint_codec;
  w_deserialize := deserialize_inner mkBigUint biguint_codec;
  r_from := mkBigUintRef; r_as_inner := biguint_ref_0;
  r_encode := encode_biguint_ref;
  r_serialize := serialize_inner biguint_ref_0 biguint_codec;
|}.

(** The mutable borrow is of a slice: a write keeps the length. *)
Definition bytes_wrapper : wrapper (list Z) Bytes BytesRef := {|
  w_from := mkBytes; w_into_inner := bytes_0; w_as_inner := bytes_0;
  w_as_mut_inner f w := mkBytes (f (bytes_0 w));
  w_encode w := encode_Bytes (bytes_0 w);
  w_decode := b <~ decode_Bytes ;; dret (mkBytes b);
  w_serialize := serialize_inner bytes_0 PrimJson.bytes_codec;
  w_deserialize := deserialize_inner mkBytes PrimJson.bytes_codec;
  r_from := mkBytesRef; r_as_inner := bytes_ref_0;
  r_encode := encode_BytesRef;
  r_serialize := serialize_inner bytes_ref_0 PrimJson.bytes_codec;
|}.

Definition peer_id_wrapper : wrapper PeerId PeerIdWrapper PeerIdRefWrapper := {|
  w_from := mkPeerId; w_into_inner := peer_0; w_as_inner := peer_0;
  w_as_mut_inner f w := mkPeerId (f (peer_0 w));
  w_encode w := encode_PeerId (peer_0 w);
  w_decode := p <~ decode_PeerId ;; dret (mkPeerId p);
  w_serialize := serialize_inner peer_0 PrimJson.peer_id_codec;
  w_deserialize := deserialize_inner mkPeerId PrimJson.peer_id_codec;
  r_from := mkPeerIdRef; r_as_inner := peer_ref_0;
  r_encode := encode_PeerIdRef;
  r_serialize := serialize_inner peer_ref_0 PrimJson.peer_id_codec;
|}.

Context `{!MinicborLaws _} `{!NumBigintLaws _} `{!JsonLibLaws _} `{!PeerIdLaws _} `{!BigUintTextLaws _}.

Lemma reads_wrapped {A W} (d : decoder A) (f : A -> W) bs a :
  reads d bs a -> reads (x <~ d ;; dret (f x)) bs (f a).
Proof. intros Hd rest. unfold dbind. by rewrite Hd. Qed.

Lemma bigint_wrapper_laws : WrapperLaws bigint_wrapper bigint_fits.
Proof.
  split; cbn; [done|done|intros a Ha; by apply reads_wrapped, reads_bigint| |done|done].
  intros a Ha. by apply (inner_roundtrip mkBigInt bigint_0 PrimJson.bigint_codec a _ (fun _ => eq_refl) PrimJson.bigint_lawful).
Qed.

Lemma biguint_wrapper_laws : WrapperLaws biguint_wrapper (fun n => 0 <= n /\ bigint_fits n).
Proof.
  split; cbn; [done|done|intros a [Ha Hf]; by apply reads_wrapped, reads_biguint| |done|done].
  intros a [Ha _]. by apply (inner_roundtrip mkBigUint biguint_0 biguint_codec a _ (fun _ => eq_refl) biguint_lawful).
Qed.

Lemma bytes_wrapper_laws : WrapperLaws bytes_wrapper vec_u8.
Proof.
  split; cbn; [done|done|intros a Ha; by apply reads_wrapped, reads_bytes| |done|done].
  intros a [Ha _]. by apply (inner_roundtrip mkBytes bytes_0 PrimJson.bytes_codec a _ (fun _ => eq_refl) PrimJson.bytes_lawful).
Qed.

Lemma peer_id_wrapper_laws : WrapperLaws peer_id_wrapper (fun _ => True).
Proof.
  split; cbn; [done|done|intros a _; by apply reads_wrapped, reads_PeerId| |done|done].
  intros a _. by apply (inner_roundtrip mkPeerId peer_0 PrimJson.peer_id_codec a _ (fun _ => eq_refl) PrimJson.peer_id_lawful).
Qed.
End Pairs.

(** ** What a client of a pair gets *)

(** Whatever is written, by either type and after any write through the borrow,
    is read back by the owning type. *)
Definition faithful {A W R} (w : wrapper A W R) (a : A) : Prop :=
  forall rest : list Z,
    w_decode w (r_encode w (r_from w a) ++ rest) = Ok (w_from w a, rest) /\
    (exists j, r_serialize w (r_from w a) = Ok j /\ w_deserialize w j = Ok (w_from w a)) /\
    forall (f : A -> A) (b : A), f b = a -> w_decode w (w_encode w (w_as_mut_inner w f (w_from w b)) ++ rest) = Ok (w_from w a, rest).

Lemma faithful_of_laws {A W R} (w : wrapper A W R) ok a : WrapperLaws w ok -> ok a -> faithful w a.
Proof.
  intros Hw Ha rest. split; [rewrite wl_ref_cbor by done; by apply wl_cbor|]. split.
  - destruct (wl_json a Ha) as (j & Hj & Hd). exists j. by rewrite wl_ref_json.
  - intros f b <-. rewrite wl_write. by apply wl_cbor.
Qed.

(** The borrowing wrappers of big integers, byte strings and peer ids, whose
    encoders are separate code, write CBOR and JSON that the owning wrappers read
    back to the same value, as they do for what they write themselves. *)
Theorem wrapper_pairs_faithful `{MinicborLaws} `{NumBigintLaws} `{CidLib} `{!JsonLib} `{!JsonLibLaws _} `{PeerIdLaws}
    `{BigUintTextLaws} (z : Z) (n : Z) (bs : list Z) (p : PeerId) :
  bigint_fits z -> 0 <= n /\ bigint_fits n -> vec_u8 bs ->
  faithful bigint_wrapper z /\ faithful biguint_wrapper n /\ faithful bytes_wrapper bs /\ faithful peer_id_wrapper p.
Proof.
  intros Hz Hn Hb.
  split; [by eapply faithful_of_laws; [apply bigint_wrapper_laws|]|].
  split; [by eapply faithful_of_laws; [apply biguint_wrapper_laws|]|].
  split; [by eapply faithful_of_laws; [apply bytes_wrapper_laws|]|].
  by eapply faithful_of_laws; [apply peer_id_wrapper_laws|].
Qed.

#[export] Instance biguint_text_ref : BigUintText := {|
  biguint_to_string := show_int;
  biguint_parse s := match read_int s with Some n => if 0 <=? n then Some n else None | None => None end;
|}.
#[export] Instance biguint_text_ref_laws : BigUintTextLaws biguint_text_ref.
Proof. intros n Hn. cbn. rewrite read_show_int. by rewrite (proj2 (Z.leb_le _ _)). Qed.

Lemma wrapper_pairs_faithful_witness :
  faithful bigint_wrapper (-1000) /\ faithful biguint_wrapper 1000 /\ faithful bytes_wrapper [1; 2] /\
  faithful peer_id_wrapper (tt : PeerId).
Proof.
  apply (wrapper_pairs_faithful (-1000) 1000 [1; 2]); [vm_compute; reflexivity|split; [lia|vm_compute; reflexivity]|].
  split; [repeat constructor; lia|vm_compute; reflexivity].
Defined.

(** ** [piece/src/size.rs]: the newtypes and their arithmetic *)
Record UnpaddedPieceSize := mkUnpadded { unpadded_0 : Z }.
Record PaddedPieceSize := mkPadded { padded_0 : Z }.

Section Sizes.
Context (ck : bool) {E : Type}.
Definition unpadded_add (a b : UnpaddedPieceSize) : outcome E UnpaddedPieceSize :=
  z <- Piece.size_add ck (unpadded_0 a) (unpadded_0 b) ;; Ok (mkUnpadded z).
Definition unpadded_sub (a b : UnpaddedPieceSize) : outcome E UnpaddedPieceSize :=
  z <- Piece.size_sub ck (unpadded_0 a) (unpadded_0 b) ;; Ok (mkUnpadded z).
Definition padded_add (a b : PaddedPieceSize) : outcome E PaddedPieceSize :=
  z <- Piece.size_add ck (padded_0 a) (padded_0 b) ;; Ok (mkPadded z).
Definition padded_sub (a b : PaddedPieceSize) : outcome E PaddedPieceSize :=
  z <- Piece.size_sub ck (padded_0 a) (padded_0 b) ;; Ok (mkPadded z).

Lemma size_add_sub (a b : Z) :
  u64 a -> u64 b ->
  (c <- @Piece.size_add ck E a b ;; Piece.size_sub ck c b) = if (a + b <? 2 ^ 64) || negb ck then Ok a else Panic.
Proof.
  unfold u64, Piece.size_add, Piece.size_sub, u_add, u_sub. intros Ha Hb.
  destruct (Z.ltb_spec (a + b) (2 ^ 64)); cbn [bind orb].
  - rewrite (proj2 (Z.leb_le _ _)) by lia. f_equal. lia.
  - destruct ck; [done|]. cbn [bind negb]. assert (Hm : (a + b) mod 2 ^ 64 = a + b - 2 ^ 64)
      by (rewrite <- (Z.mod_add _ (-1)) by lia; apply Z.mod_small; lia).
    rewrite Hm, (proj2 (Z.leb_gt _ _)) by lia. f_equal.
    rewrite <- (Z.mod_add _ 1) by lia. rewrite Z.mod_small; lia.
Qed.
End Sizes.

(** Adding a size and taking it away again gives the first size back, unless the
    build checks arithmetic and the sum overflows: then the addition panics. *)
Theorem piece_size_add_sub (ck : bool) (a b : Z) :
  u64 a -> u64 b ->
  (c <- @padded_add ck unit (mkPadded a) (mkPadded b) ;; padded_sub ck c (mkPadded b))
    = (if (a + b <? 2 ^ 64) || negb ck then Ok (mkPadded a) else Panic) /\
  (c <- @unpadded_add ck unit (mkUnpadded a) (mkUnpadded b) ;; unpadded_sub ck c (mkUnpadded b))
    = (if (a + b <? 2 ^ 64) || negb ck then Ok (mkUnpadded a) else Panic).
Proof.
  intros Ha Hb. pose proof (size_add_sub ck (E := unit) a b Ha Hb) as Hs.
  unfold padded_add, padded_sub, unpadded_add, unpadded_sub. cbn [padded_0 unpadded_0].
  destruct (@Piece.size_add ck unit a b) as [c| | |]; cbn [bind padded_0 unpadded_0] in *;
    try (destruct (_ || _); [done|by split]).
  rewrite Hs. destruct (_ || _); by split.
Qed.

(** ** [ipfs/datastore/src/key.rs]: the conversions and JSON of a key *)
Section DataStoreKey.
Context `{Key.PathClean}.

(** [From<String>] and [From<&str>]; [From<&Key>] clones. *)
Definition key_from (s : list Z) : list Z := Key.key_new s.

(** [Key::random], of the text of a fresh UUID. *)
Definition key_random (uuid : list Z) : list Z := Key.key_new (filter (fun c => c <> 45) uuid).

Definition serialize_key (k : list Z) : de json := enc text_codec k.
Definition deserialize_key (j : json) : de (list Z) := s <- dec text_codec j ;; Ok (Key.key_new s).

(** Every key read from JSON is in normal form, whatever the text, and a key in
    normal form comes back from its JSON. *)
Theorem key_json_normal `{!Key.PathCleanLaws _} (k : list Z) (j : json) :
  (forall k', deserialize_key j = Ok k' -> Key.wf k') /\
  (Key.wf k -> exists j, serialize_key k = Ok j /\ deserialize_key j = Ok k).
Proof.
  split.
  - intros k' (s & _ & [= <-])%bind_ok. apply Key.key_new_wf.
  - intros (l & Hl & ->). destruct (text_lawful (Key.render l) I) as (j' & He & _ & _ & Hd). exists j'.
    split; [exact He|]. unfold deserialize_key. rewrite Hd. cbn [bind]. by rewrite Key.key_new_render.
Qed.
End DataStoreKey.
