(* ===== verification/SectorJson.v ===== *)
(** * [primitives/sector]: the proof records in JSON, and [WindowPoStVerifyInfo]

    posting.rs and sealing.rs.  [WindowPoStVerifyInfo] has the fields of
    [WinningPoStVerifyInfo] and encoders of its own.  [SealVerifyInfo] flattens
    its sector id into its own fields and writes its proof as a list of numbers
    where the other proofs are base 64. *)

From Stdlib Require Import ZArith Lia String.
From stdpp Require Import base numbers list.
From S2P Require Import Prelude Json Serde SerdeLaws Cbor CborRef Address AddressRef Wrappers Sector Tipset.
From S2P Require Import PrimJson JsonRef.

Local Open Scope Z_scope.

(** ** [posting.rs]: [WindowPoStVerifyInfo] in CBOR *)
Section Window.
Context `{Minicbor} `{CidLib}.

Definition encode_WindowPoStVerifyInfo (i : PoStVerifyInfo) : list Z :=
  e_array 4 ++ encode_H256 (randomness i) ++ e_vec encode_PoStProof (proofs i)
  ++ e_vec encode_SectorInfo (challenged_sectors i) ++ e_u64 (prover i).

Definition decode_WindowPoStVerifyInfo : decoder PoStVerifyInfo :=
  array_of 4
    (r <~ decode_H256 ;; ps <~ d_vec decode_PoStProof ;; cs <~ d_vec decode_SectorInfo ;;
     pr <~ d_u64 ;; dret (mkPoStVerifyInfo _ r ps cs pr)).
End Window.

(** ** JSON *)
(** A struct with a flattened field is read from an object only. *)
Definition flat_codec {A} (names : list text) (ser : A -> list (de json)) (rd : list slot -> de A) : codec A :=
  mkCodec (enc (struct_codec names ser rd))
    (fun j => match j with JObj _ => dec (struct_codec names ser rd) j | _ => Err ForeignError end).

Section SectorJson.
Context `{CidLib} `{!JsonLib}.

(** Both [WinningPoStVerifyInfo] and [WindowPoStVerifyInfo]. *)
Definition post_verify_info_codec : codec PoStVerifyInfo := struct_codec
  [str "Randomness"; str "Proofs"; str "ChallengedSectors"; str "Prover"]
  (fun x => [enc PrimJson.h256_codec (randomness x); enc (list_codec PrimJson.post_proof_codec) (proofs x);
             enc (list_codec PrimJson.sector_info_codec) (challenged_sectors x); enc u64_codec (prover x)])
  (fun l => match l with
   | [s0; s1; s2; s3] =>
       a0 <- field PrimJson.h256_codec s0 ;;
       a1 <- field (list_codec PrimJson.post_proof_codec) s1 ;;
       a2 <- field (list_codec PrimJson.sector_info_codec) s2 ;;
       a3 <- field u64_codec s3 ;;
       Ok (mkPoStVerifyInfo _ a0 a1 a2 a3)
   | _ => Err ForeignError
   end).

Definition seal_verify_info_codec : codec SealVerifyInfo := flat_codec
  [str "RegisteredProof"; str "Miner"; str "Number"; str "DealIDs"; str "Randomness"; str "InteractiveRandomness";
   str "Proof"; str "SealedCID"; str "UnsealedCID"]
  (fun x => [enc PrimJson.registered_proof_codec (svi_registered_proof x); enc u64_codec (miner (svi_sector_id x));
             enc u64_codec (number (svi_sector_id x)); enc (list_codec u64_codec) (svi_deal_ids x);
             enc PrimJson.h256_codec (svi_randomness x); enc PrimJson.h256_codec (svi_interactive_randomness x);
             enc (list_codec u8_codec) (svi_proof x); enc cid_codec (svi_sealed_cid x); enc cid_codec (svi_unsealed_cid x)])
  (fun l => match l with
   | [s0; s1; s2; s3; s4; s5; s6; s7; s8] =>
       a0 <- field PrimJson.registered_proof_codec s0 ;;
       a1 <- field u64_codec s1 ;;
       a2 <- field u64_codec s2 ;;
       a3 <- field (list_codec u64_codec) s3 ;;
       a4 <- field PrimJson.h256_codec s4 ;;
       a5 <- field PrimJson.h256_codec s5 ;;
       a6 <- field (list_codec u8_codec) s6 ;;
       a7 <- field cid_codec s7 ;;
       a8 <- field cid_codec s8 ;;
       Ok (mkSealVerifyInfo _ a0 (mkSectorId a1 a2) a3 a4 a5 a6 a7 a8)
   | _ => Err ForeignError
   end).

Context `{!JsonLibLaws _}.
#[local] Hint Resolve PrimJson.h256_lawful PrimJson.post_proof_lawful PrimJson.sector_info_lawful cid_lawful
  PrimJson.registered_proof_lawful : codec.

Definition post_info_json_ok (x : PoStVerifyInfo) : Prop :=
  h256_ok (randomness x) /\ Forall PrimJson.post_proof_ok (proofs x) /\
  Forall PrimJson.sector_info_ok (challenged_sectors x) /\ 0 <= prover x < 2 ^ 64.

Lemma post_verify_info_lawful : lawful post_verify_info_codec post_info_json_ok.
Proof. solve_struct. Qed.

Definition seal_info_json_ok (x : SealVerifyInfo) : Prop :=
  PrimJson.u64_ok (miner (svi_sector_id x)) /\ PrimJson.u64_ok (number (svi_sector_id x)) /\ Forall PrimJson.u64_ok (svi_deal_ids x) /\
  h256_ok (svi_randomness x) /\ h256_ok (svi_interactive_randomness x) /\ Forall PrimJson.u8_ok (svi_proof x).

Lemma flat_lawful {A} names (ser : A -> list (de json)) rd ok :
  lawful (struct_codec names ser rd) ok -> lawful (flat_codec names ser rd) ok.
Proof.
  intros Hl x Hx. destruct (Hl x Hx) as (j & He & Hp & Hn & Hd). exists j. split; [done|]. split; [done|]. split; [done|].
  cbn [dec flat_codec]. cbn [enc struct_codec] in He. apply bind_ok in He as (js & _ & [= <-]). done.
Qed.

Lemma seal_verify_info_lawful : lawful seal_verify_info_codec seal_info_json_ok.
Proof.
  apply flat_lawful, struct_lawful; [nodup_names|]. intros x Hx. hnf in Hx.
  repeat match goal with H : _ /\ _ |- _ => destruct H end.
  repeat write_field. eexists. split; [collect_fields|split; [reflexivity|]].
  cbn [map]. unfold field. cbn [required].
  repeat match goal with H : dec _ _ = Ok _ |- _ => rewrite H; clear H; cbn [bind] end.
  by destruct x as [? [] ? ? ? ? ? ?].
Qed.
End SectorJson.

#[local] Hint Resolve reads_PoStProof reads_SectorInfo : cbor.

Lemma reads_WindowPoStVerifyInfo `{MinicborLaws} `{CidLaws} i :
  post_verify_info_ok i -> reads decode_WindowPoStVerifyInfo (encode_WindowPoStVerifyInfo i) i.
Proof. intros (?&?&?&?&?&?). destruct i. cbn in *. read_struct. Qed.

Lemma post_info_json_of_cbor `{CidLib} i : post_verify_info_ok i -> post_info_json_ok i.
Proof.
  intros (Hr & _ & Hp & _ & Hs & Hv). split; [done|]. split; [|split; [done|exact Hv]].
  eapply Forall_impl; [exact Hp|]. by intros p [Hb _].
Qed.

Lemma seal_info_json_of_cbor `{CidLib} i : seal_verify_info_ok i -> seal_info_json_ok i.
Proof.
  intros ((Hm & Hn) & _ & Hd & Hr & Hi & [Hb _]). repeat split; try done; try apply Hm; try apply Hn; try apply Hr; try apply Hi.
Qed.

(** The records that carry proofs of spacetime and of sealing are read back
    from their CBOR and from their JSON to the same record: winning and window
    proofs, whose encoders are separate code and write the same bytes, and seal
    proofs, whose sector id is flattened into the object. *)
Theorem proof_records_roundtrip `{MinicborLaws} `{CidLaws} `{!JsonLib} `{!JsonLibLaws _}
    (i : PoStVerifyInfo) (s : SealVerifyInfo) (rest : list Z) :
  post_verify_info_ok i -> seal_verify_info_ok s ->
  encode_WindowPoStVerifyInfo i = encode_WinningPoStVerifyInfo i /\
  decode_WindowPoStVerifyInfo (encode_WindowPoStVerifyInfo i ++ rest) = Ok (i, rest) /\
  decode_SealVerifyInfo (encode_SealVerifyInfo s ++ rest) = Ok (s, rest) /\
  reread post_verify_info_codec i = Ok i /\ reread seal_verify_info_codec s = Ok s.
Proof.
  intros Hi Hs. split; [done|]. split; [by apply reads_WindowPoStVerifyInfo|]. split; [by apply reads_SealVerifyInfo|].
  split; (eapply lawful_reread; [|by (apply post_info_json_of_cbor || apply seal_info_json_of_cbor)]).
  - apply post_verify_info_lawful.
  - apply seal_verify_info_lawful.
Qed.

Definition sample_post : PoStVerifyInfo :=
  mkPoStVerifyInfo _ (repeat 1 32) [mkPoStProof StackedDRG512MiBSeal [1; 2; 3]]
    [mkSectorInfo _ StackedDRG512MiBSeal 1111 (dag_cbor_cid [7])] 0.
Definition sample_seal : SealVerifyInfo :=
  mkSealVerifyInfo _ StackedDRG512MiBSeal (mkSectorId 100 100) [8; 7; 6] (repeat 1 32) (repeat 2 32) [1; 2; 3]
    (dag_cbor_cid [7]) (dag_cbor_cid [8]).

Local Ltac in_range :=
  cbn; repeat first [apply Forall_nil_2 | apply Forall_cons; split | split];
  first [reflexivity | unfold u64, u8, post_proof_ok, sector_info_ok, len_u64, u64; cbn; lia].

Lemma proof_records_roundtrip_witness :
  encode_WindowPoStVerifyInfo sample_post = encode_WinningPoStVerifyInfo sample_post /\
  decode_WindowPoStVerifyInfo (encode_WindowPoStVerifyInfo sample_post ++ [9]) = Ok (sample_post, [9]) /\
  decode_SealVerifyInfo (encode_SealVerifyInfo sample_seal ++ [9]) = Ok (sample_seal, [9]) /\
  reread post_verify_info_codec sample_post = Ok sample_post /\ reread seal_verify_info_codec sample_seal = Ok sample_seal.
Proof.
  apply (proof_records_roundtrip sample_post sample_seal [9]).
  - unfold post_verify_info_ok, h256_ok. cbn [randomness proofs challenged_sectors prover sample_post]. split_and!; in_range.
  - unfold seal_verify_info_ok, sector_id_ok, h256_ok.
    cbn [svi_sector_id svi_deal_ids svi_randomness svi_interactive_randomness svi_proof miner number sample_seal].
    split_and!; in_range.
Defined.
