(* ===== verification/ActorCbor.v ===== *)
(** * [actor]: CBOR forms of the miner's state and parameters, and constants

    miner/state.rs, miner/actor.rs, miner/policy.rs, power/policy.rs, network.rs
    and methods.rs.  The decoder that [minicbor]'s derive writes for
    [WorkerKeyChange] is a parameter. *)

From Stdlib Require Import ZArith Lia String Sorted.
From stdpp Require Import base numbers list.
From S2P Require Import Prelude Rle RleCorrect RleTotal Cbor CborRef Address AddressRef Wrappers BitField Sector.
From S2P Require Import PrimJson Actors JsonRef.
Import BitField.BitField.

Local Open Scope Z_scope.

(** ** Constants *)
Definition SECONDS_IN_HOUR : Z := 3600.
Definition SECONDS_IN_DAY : Z := 86400.
Definition SECONDS_IN_YEAR : Z := 31556925.
Definition EPOCH_DURATION_SECONDS : Z := 25.
Definition EPOCH_IN_HOUR : Z := SECONDS_IN_HOUR / EPOCH_DURATION_SECONDS.
Definition EPOCH_IN_DAY : Z := SECONDS_IN_DAY / EPOCH_DURATION_SECONDS.
Definition EPOCH_IN_YEAR : Z := SECONDS_IN_YEAR / EPOCH_DURATION_SECONDS.
Definition W_POST_PROVING_PERIOD : Z := EPOCH_IN_DAY.
Definition W_POST_CHALLENGE_WINDOW : Z := 3600 / EPOCH_DURATION_SECONDS.
Definition W_POST_PERIOD_DEADLINES : Z := W_POST_PROVING_PERIOD / W_POST_CHALLENGE_WINDOW.
Definition NEW_SECTORS_PER_PERIOD_MAX : Z := Z.shiftl 128 10.
Definition CHAIN_FINALITYISH : Z := 500.
Definition CONSENSUS_MINER_MIN_POWER : Z := Z.shiftl 1 40.
Definition MethodConstructor : Z := 1.
Definition MethodPlaceholder : Z := Z.shiftl 1 30.

(** The deadlines tile the proving period, as they are meant to. *)
Example deadlines_tile : W_POST_PERIOD_DEADLINES = 24 /\ W_POST_PERIOD_DEADLINES * W_POST_CHALLENGE_WINDOW = W_POST_PROVING_PERIOD.
Proof. done. Qed.

(** ** [ProveCommitSectorParams] *)
Record ProveCommitSectorParams := mkProveCommit { pc_sector_number : Z; pc_proof : list Z }.

Section Cbor.
Context `{Minicbor} `{NumBigint} `{CidLib} `{PeerIdLib} `{AddressDeps} (ck : bool).

Definition encode_ProveCommit (p : ProveCommitSectorParams) : list Z :=
  e_array 2 ++ e_u64 (pc_sector_number p) ++ e_bytes (pc_proof p).
Definition decode_ProveCommit : decoder ProveCommitSectorParams :=
  array_of 2 (sector_number <~ d_u64 ;; proof <~ d_bytes ;; dret (mkProveCommit sector_number proof)).

(** ** [MinerInfo] and [State] *)

(** [#[cbor(array)]]: the fields in order. *)
Definition encode_WorkerKeyChange (w : WorkerKeyChange) : list Z :=
  e_array 2 ++ encode_address (wk_new_worker w) ++ e_i64 (wk_effective_at w).
Context (decode_WorkerKeyChange : decoder WorkerKeyChange).

Definition encode_MinerInfo (m : MinerInfo) : list Z :=
  e_array 7 ++ encode_address (mi_owner m) ++ encode_address (mi_worker m) ++
  encode_WorkerKeyChange (mi_pending_worker_key m) ++ encode_PeerId (mi_peer_id m) ++
  encode_proof (mi_seal_proof_type m) ++ e_u64 (mi_sector_size m) ++ e_u64 (mi_window_post_partition_sectors m).
Definition decode_MinerInfo : decoder MinerInfo :=
  array_of 7
    (owner <~ decode_address ;; worker <~ decode_address ;; pending <~ decode_WorkerKeyChange ;;
     peer <~ decode_PeerId ;; proof <~ decode_proof ;; size <~ d_u64 ;; sectors <~ d_u64 ;;
     dret (mkMinerInfo owner worker pending peer proof size sectors)).

Definition encode_State (s : State) : outcome decode_error (list Z) :=
  new_sectors <- encode_bitfield ck (st_new_sectors s) ;;
  faults <- encode_bitfield ck (st_faults s) ;;
  recoveries <- encode_bitfield ck (st_recoveries s) ;;
  post_submissions <- encode_bitfield ck (st_post_submissions s) ;;
  Ok (e_array 14 ++ encode_MinerInfo (st_info s) ++ encode_bigint (st_pre_commit_deposits s) ++
      encode_bigint (st_locked_funds s) ++ e_cid (st_vesting_funds s) ++ e_cid (st_pre_committed_sectors s) ++
      e_cid (st_sectors s) ++ e_i64 (st_proving_period_start s) ++ new_sectors ++ e_cid (st_sector_expirations s) ++
      e_cid (st_deadlines s) ++ faults ++ e_cid (st_fault_epochs s) ++ recoveries ++ post_submissions).
Definition decode_State : decoder State :=
  array_of 14
    (info <~ decode_MinerInfo ;; pre <~ decode_bigint ;; locked <~ decode_bigint ;;
     vesting <~ d_cid ;; committed <~ d_cid ;; sectors <~ d_cid ;; start <~ d_i64 ;;
     new_sectors <~ decode_bitfield ck ;; expirations <~ d_cid ;; deadlines <~ d_cid ;;
     faults <~ decode_bitfield ck ;; fault_epochs <~ d_cid ;; recoveries <~ decode_bitfield ck ;;
     post <~ decode_bitfield ck ;;
     dret (mkState info pre locked vesting committed sectors start new_sectors expirations deadlines faults fault_epochs
             recoveries post)).
End Cbor.

(** ** Reading back *)
Section Reads.
Context `{MinicborLaws} `{NumBigintLaws} `{CidLaws} `{PeerIdLaws} `{AddressDepsLaws} (ck : bool).
Context (decode_WorkerKeyChange : decoder WorkerKeyChange).

(** The derived decoder reads what the derived encoder writes. *)
Definition reads_worker_key_changes : Prop :=
  forall w, valid_addr (wk_new_worker w) -> i64 (wk_effective_at w) ->
    reads decode_WorkerKeyChange (encode_WorkerKeyChange w) w.

Definition miner_info_fits (m : MinerInfo) : Prop :=
  valid_addr (mi_owner m) /\ valid_addr (mi_worker m) /\ valid_addr (wk_new_worker (mi_pending_worker_key m)) /\
  i64 (wk_effective_at (mi_pending_worker_key m)) /\ u64 (mi_sector_size m) /\ u64 (mi_window_post_partition_sectors m).

Lemma reads_MinerInfo m :
  reads_worker_key_changes -> miner_info_fits m ->
  reads (decode_MinerInfo decode_WorkerKeyChange) (encode_MinerInfo m) m.
Proof.
  intros Hw (? & ? & ? & ? & ? & ?). destruct m as [o w k p pr sz ws]. cbn in *.
  assert (Hk : reads decode_WorkerKeyChange (encode_WorkerKeyChange k) k) by (by apply Hw).
  assert (Hp : reads decode_PeerId (encode_PeerId p) p) by apply reads_PeerId.
  read_struct.
Qed.

Definition bitfield_fits (s : list Z) : Prop :=
  bitfield_ok s /\ forall v, @Rle.encode ck 8 decode_error s = Ok v -> len_u64 v.

Lemma bitfield_reads s :
  bitfield_fits s -> exists bs, encode_bitfield ck s = Ok bs /\ reads (decode_bitfield ck) bs s.
Proof.
  intros [(Hs & Hm & Hl) Hv].
  destruct (decode_encode ck 8 ltac:(lia) (E := decode_error) s (proj1 Hs)) as (v & He & Hok & Hd).
  - destruct Hs as [_ Hu]. rewrite Forall_forall in Hu, Hm |- *. intros x Hx. specialize (Hu x Hx). specialize (Hm x Hx).
    unfold u64 in Hu. change (width 8) with 64. lia.
  - unfold encode_bitfield. rewrite He. eexists. split; [done|]. intros rest.
    unfold decode_bitfield, dbind. rewrite reads_bytes by (split; auto). cbn [bind].
    rewrite Hd, (proj2 (Z.ltb_ge _ _)) by (change (OBJECT_MAX_SIZE / 8) with 131072; lia).
    cbn. rewrite collect_sorted_id; [done|by apply sorted_strong, Hs].
Qed.

Definition state_fits (s : State) : Prop :=
  miner_info_fits (st_info s) /\ bigint_fits (st_pre_commit_deposits s) /\ bigint_fits (st_locked_funds s) /\
  i64 (st_proving_period_start s) /\ bitfield_fits (st_new_sectors s) /\ bitfield_fits (st_faults s) /\
  bitfield_fits (st_recoveries s) /\ bitfield_fits (st_post_submissions s).

Lemma reads_State s :
  reads_worker_key_changes -> state_fits s ->
  exists bs, encode_State ck s = Ok bs /\ reads (decode_State ck decode_WorkerKeyChange) bs s.
Proof.
  intros Hw (Hi & ? & ? & ? & Hn & Hf & Hr & Hp). pose proof (reads_MinerInfo _ Hw Hi) as Hm.
  destruct (bitfield_reads _ Hn) as (b1 & E1 & R1), (bitfield_reads _ Hf) as (b2 & E2 & R2),
    (bitfield_reads _ Hr) as (b3 & E3 & R3), (bitfield_reads _ Hp) as (b4 & E4 & R4).
  unfold encode_State. rewrite E1, E2, E3, E4. eexists. split; [done|]. destruct s. cbn in *. read_struct.
Qed.

Lemma reads_ProveCommit p :
  u64 (pc_sector_number p) -> vec_u8 (pc_proof p) -> reads decode_ProveCommit (encode_ProveCommit p) p.
Proof. intros ? ?. destruct p. cbn in *. read_struct. Qed.
End Reads.

(** A miner actor's state, with its miner info and four bit fields, is decoded
    from its CBOR form to the same state, alone or inside a longer document, when
    addresses are valid, integers fit their widths and bit fields can be encoded;
    so are the parameters of a commit. *)
Theorem miner_state_roundtrip `{MinicborLaws} `{NumBigintLaws} `{CidLaws} `{PeerIdLaws} `{AddressDepsLaws} (ck : bool)
    (decode_WorkerKeyChange : decoder WorkerKeyChange) (s : State) (p : ProveCommitSectorParams) (rest : list Z) :
  reads_worker_key_changes decode_WorkerKeyChange -> state_fits ck s -> u64 (pc_sector_number p) -> vec_u8 (pc_proof p) ->
  (exists bs, encode_State ck s = Ok bs /\ decode_State ck decode_WorkerKeyChange (bs ++ rest) = Ok (s, rest)) /\
  decode_ProveCommit (encode_ProveCommit p ++ rest) = Ok (p, rest).
Proof.
  intros Hw Hs Hn Hp. split.
  - destruct (reads_State ck _ s Hw Hs) as (bs & He & Hr). exists bs. split; [done|]. apply Hr.
  - by apply reads_ProveCommit.
Qed.

(** ** An instance *)
Definition decode_worker_key `{Minicbor} `{AddressDeps} : decoder WorkerKeyChange :=
  array_of 2 (a <~ decode_address ;; n <~ d_i64 ;; dret (mkWorkerKeyChange a n)).
Lemma decode_worker_key_reads `{MinicborLaws} `{AddressDepsLaws} : reads_worker_key_changes decode_worker_key.
Proof.
  intros [a n]. cbn [wk_new_worker wk_effective_at]. intros Ha Hn. unfold decode_worker_key, encode_WorkerKeyChange.
  cbn [wk_new_worker wk_effective_at]. read_struct.
Qed.

Lemma pair_fits : bitfield_fits true [2; 7].
Proof.
  split.
  - split; [|split; [|cbn; lia]].
    + split; [repeat constructor|repeat constructor; discriminate].
    + repeat constructor; discriminate.
  - intros v. assert (He : @Rle.encode true 8 decode_error [2; 7] = Ok [80; 74; 1]) by (vm_compute; reflexivity).
    rewrite He. intros [= <-]. reflexivity.
Qed.
Lemma none_fits : bitfield_fits true [].
Proof.
  split; [split; [split; [apply Sorted_nil|apply Forall_nil_2]|split; [apply Forall_nil_2|cbn; lia]]|]. intros v.
  assert (He : @Rle.encode true 8 decode_error [] = Ok [0]) by (vm_compute; reflexivity).
  rewrite He. intros [= <-]. reflexivity.
Qed.

Lemma miner_state_roundtrip_witness :
  (exists bs, encode_State true some_state = Ok bs /\ decode_State true decode_worker_key (bs ++ [9]) = Ok (some_state, [9])) /\
  decode_ProveCommit (encode_ProveCommit (mkProveCommit 5 [1; 2]) ++ [9]) = Ok (mkProveCommit 5 [1; 2], [9]).
Proof.
  apply (miner_state_roundtrip true decode_worker_key some_state (mkProveCommit 5 [1; 2]) [9]).
  - apply decode_worker_key_reads.
  - split; [|split; [|split; [|split; [|split; [|split; [|split]]]]]].
    + repeat split; try apply some_actor_valid; cbn; unfold u64, i64; lia.
    + unfold bigint_fits. vm_compute. reflexivity.
    + unfold bigint_fits. vm_compute. reflexivity.
    + cbn. unfold i64. lia.
    + exact pair_fits.
    + exact none_fits.
    + exact none_fits.
    + exact pair_fits.
  - cbn. unfold u64. lia.
  - split; [repeat constructor; discriminate|reflexivity].
Defined.
