(* ===== verification/ApiTypes.v ===== *)
(** * [api-client/src/interface]: the types of the node's API

    The records and enums that the remote methods take and return, with the JSON
    forms their derives stand for, and [QueryOffer::order], [BuildVersion] and
    [ExecutionResult] of the VM. *)

From Stdlib Require Import ZArith Lia String Sorted.
From stdpp Require Import base numbers list.
From S2P Require Import Prelude Decimal F64 Json Serde SerdeLaws Rle RleCorrect RleTotal Cbor CborRef Address.
From S2P Require Import AddressRef Wrappers BitField Piece Sector Crypto Message Block Tipset Wallet PrimJson Actors.

Local Open Scope Z_scope.

(** [libp2p_core::Multiaddr] *)
Class MultiaddrLib := {
  Multiaddr : Type;
  multiaddr_codec : codec Multiaddr;
}.
Class MultiaddrLaws (M : MultiaddrLib) : Prop := multiaddr_lawful : lawful multiaddr_codec (fun _ => True).

#[export] Instance DomainSeparationTag_eq_dec : EqDecision Crypto.Crypto.DomainSeparationTag.
Proof. solve_decision. Defined.

Module ApiTypes.
Section ApiTypes.
Context `{CidLib} `{!JsonLib} `{PeerIdLib} `{AddressDeps} `{MultiaddrLib} (net : Network) (ck : bool).

#[local] Abbreviation address_codec := (address_codec net).
#[local] Abbreviation unsigned_message_codec := (unsigned_message_codec net).
#[local] Abbreviation signed_message_codec := (signed_message_codec net).
#[local] Abbreviation block_header_codec := (block_header_codec net).
#[local] Abbreviation block_msg_codec := (block_msg_codec net).
#[local] Abbreviation tipset_codec := (tipset_codec net).
#[local] Abbreviation worker_key_change_codec := (worker_key_change_codec net).
#[local] Abbreviation miner_info_codec := (miner_info_codec net).
#[local] Abbreviation deal_proposal_codec := (deal_proposal_codec net).
#[local] Abbreviation mod_verify_params_codec := (mod_verify_params_codec net).
#[local] Abbreviation signed_voucher_codec := (signed_voucher_codec net).
#[local] Abbreviation bitfield_codec := (bitfield_codec ck).

(** ** common/types.rs *)
Inductive Permission := Read | Write | Sign | Admin.
#[export] Instance Permission_eq_dec : EqDecision Permission.
Proof. solve_decision. Defined.
Definition permission_codec : codec Permission := enum_codec [(Read, str "read"); (Write, str "write"); (Sign, str "sign"); (Admin, str "admin")].
Inductive Connectedness := NotConnected | Connected | CanConnect | CannotConnect.
#[export] Instance Connectedness_eq_dec : EqDecision Connectedness.
Proof. solve_decision. Defined.
Definition connectedness_codec : codec Connectedness := repr_codec [(NotConnected, 0); (Connected, 1); (CanConnect, 2); (CannotConnect, 3)].
Record PeerAddrInfo := mkPeerAddrInfo {
  pa_id : PeerId;
  pa_addrs : list Multiaddr;
}.
Definition peer_addr_info_codec : codec PeerAddrInfo := struct_codec
  [str "ID"; str "Addrs"]
  (fun x => [enc peer_id_codec (pa_id x); enc (list_codec multiaddr_codec) (pa_addrs x)])
  (fun l => match l with
   | [s0; s1] =>
       a0 <- field peer_id_codec s0 ;;
       a1 <- field (list_codec multiaddr_codec) s1 ;;
       Ok (mkPeerAddrInfo a0 a1)
   | _ => Err ForeignError
   end).
Record BuildVersion := mkBuildVersion { bv : Z }.
Definition build_version_codec : codec BuildVersion := iso_codec u32_codec bv (fun n => Ok (mkBuildVersion n)).
Record Version := mkVersion {
  vn_version : list Z;
  vn_api_version : BuildVersion;
  vn_block_delay : Z;
}.
Definition version_codec : codec Version := struct_codec
  [str "Version"; str "APIVersion"; str "BlockDelay"]
  (fun x => [enc text_codec (vn_version x); enc build_version_codec (vn_api_version x);
             enc u64_codec (vn_block_delay x)])
  (fun l => match l with
   | [s0; s1; s2] =>
       a0 <- field text_codec s0 ;;
       a1 <- field build_version_codec s1 ;;
       a2 <- field u64_codec s2 ;;
       Ok (mkVersion a0 a1 a2)
   | _ => Err ForeignError
   end).

Definition permission_display (p : Permission) : text :=
  match p with Read => str "read" | Write => str "write" | Sign => str "sign" | Admin => str "admin" end.
Definition permission_default : Permission := Read.

(** Rust's [>>] binds tighter than its [&]. *)
Definition MAJOR_ONLY_MASK : Z := 16711680.
Definition MINOR_ONLY_MASK : Z := 65280.
Definition PATCH_ONLY_MASK : Z := 255.
Definition build_version_new (v : Z * Z * Z) : BuildVersion :=
  let '(major, minor, patch) := v in mkBuildVersion (Z.lor (Z.lor (Z.shiftl major 16) (Z.shiftl minor 8)) patch).
Definition major (v : BuildVersion) : Z := trunc 8 (Z.land (bv v) (Z.shiftr MAJOR_ONLY_MASK 16)).
Definition minor (v : BuildVersion) : Z := trunc 8 (Z.shiftr (Z.land (bv v) MINOR_ONLY_MASK) 8).
Definition patch (v : BuildVersion) : Z := trunc 8 (Z.land (bv v) PATCH_ONLY_MASK).
Definition semver (v : BuildVersion) : Z * Z * Z := (major v, minor v, patch v).
Definition build_version_display (v : BuildVersion) : text :=
  let '(major, minor, patch) := semver v in
  to_decimal major ++ str "." ++ to_decimal minor ++ str "." ++ to_decimal patch.
Definition version_display (v : Version) : text := vn_version v ++ str "+api" ++ build_version_display (vn_api_version v).

(** ** storage/types.rs *)
Record SectorLog := mkSectorLog {
  sl_kind : list Z;
  sl_timestamp : Z;
  sl_trace : list Z;
  sl_message : list Z;
}.
Definition sector_log_codec : codec SectorLog := struct_codec
  [str "Kind"; str "Timestamp"; str "Trace"; str "Message"]
  (fun x => [enc text_codec (sl_kind x); enc u64_codec (sl_timestamp x); enc text_codec (sl_trace x);
             enc text_codec (sl_message x)])
  (fun l => match l with
   | [s0; s1; s2; s3] =>
       a0 <- field text_codec s0 ;;
       a1 <- field u64_codec s1 ;;
       a2 <- field text_codec s2 ;;
       a3 <- field text_codec s3 ;;
       Ok (mkSectorLog a0 a1 a2 a3)
   | _ => Err ForeignError
   end).
Record SealedRef := mkSealedRef {
  sr_sector_id : Z;
  sr_offset : Z;
  sr_size : Z;
}.
Definition sealed_ref_codec : codec SealedRef := struct_codec
  [str "SectorID"; str "Offset"; str "Size"]
  (fun x => [enc u64_codec (sr_sector_id x); enc u64_codec (sr_offset x); enc u64_codec (sr_size x)])
  (fun l => match l with
   | [s0; s1; s2] =>
       a0 <- field u64_codec s0 ;;
       a1 <- field u64_codec s1 ;;
       a2 <- field u64_codec s2 ;;
       Ok (mkSealedRef a0 a1 a2)
   | _ => Err ForeignError
   end).
Record SealedRefs := mkSealedRefs {
  srs_refs : list SealedRef;
}.
Definition sealed_refs_codec : codec SealedRefs := struct_codec
  [str "Refs"]
  (fun x => [enc (list_codec sealed_ref_codec) (srs_refs x)])
  (fun l => match l with
   | [s0] =>
       a0 <- field (list_codec sealed_ref_codec) s0 ;;
       Ok (mkSealedRefs a0)
   | _ => Err ForeignError
   end).
Record SealTicket := mkSealTicket {
  stk_value : list Z;
  stk_epoch : Z;
}.
Definition seal_ticket_codec : codec SealTicket := struct_codec
  [str "Value"; str "Epoch"]
  (fun x => [enc h256_codec (stk_value x); enc i64_codec (stk_epoch x)])
  (fun l => match l with
   | [s0; s1] =>
       a0 <- field h256_codec s0 ;;
       a1 <- field i64_codec s1 ;;
       Ok (mkSealTicket a0 a1)
   | _ => Err ForeignError
   end).
Record SealSeed := mkSealSeed {
  sse_value : list Z;
  sse_epoch : Z;
}.
Definition seal_seed_codec : codec SealSeed := struct_codec
  [str "Value"; str "Epoch"]
  (fun x => [enc h256_codec (sse_value x); enc i64_codec (sse_epoch x)])
  (fun l => match l with
   | [s0; s1] =>
       a0 <- field h256_codec s0 ;;
       a1 <- field i64_codec s1 ;;
       Ok (mkSealSeed a0 a1)
   | _ => Err ForeignError
   end).
Record ApiSectorInfo := mkApiSectorInfo {
  asi_sector_id : Z;
  asi_state : list Z;
  asi_comm_d : Cid;
  asi_comm_r : Cid;
  asi_proof : list Z;
  asi_deals : list Z;
  asi_ticket : SealTicket;
  asi_seed : SealSeed;
  asi_retries : Z;
  asi_last_err : list Z;
  asi_log : list SectorLog;
}.
Definition api_sector_info_codec : codec ApiSectorInfo := struct_codec
  [str "SectorId"; str "State"; str "CommD"; str "CommR"; str "Proof"; str "Deals"; str "Ticket"; str "Seed";
   str "Retries"; str "LastErr"; str "Log"]
  (fun x => [enc u64_codec (asi_sector_id x); enc text_codec (asi_state x); enc cid_codec (asi_comm_d x);
             enc cid_codec (asi_comm_r x); enc bytes_codec (asi_proof x); enc (list_codec u64_codec) (asi_deals x);
             enc seal_ticket_codec (asi_ticket x); enc seal_seed_codec (asi_seed x); enc u64_codec (asi_retries x);
             enc text_codec (asi_last_err x); enc (list_codec sector_log_codec) (asi_log x)])
  (fun l => match l with
   | [s0; s1; s2; s3; s4; s5; s6; s7; s8; s9; s10] =>
       a0 <- field u64_codec s0 ;;
       a1 <- field text_codec s1 ;;
       a2 <- field cid_codec s2 ;;
       a3 <- field cid_codec s3 ;;
       a4 <- field bytes_codec s4 ;;
       a5 <- field (list_codec u64_codec) s5 ;;
       a6 <- field seal_ticket_codec s6 ;;
       a7 <- field seal_seed_codec s7 ;;
       a8 <- field u64_codec s8 ;;
       a9 <- field text_codec s9 ;;
       a10 <- field (list_codec sector_log_codec) s10 ;;
       Ok (mkApiSectorInfo a0 a1 a2 a3 a4 a5 a6 a7 a8 a9 a10)
   | _ => Err ForeignError
   end).

(** ** full/client.rs *)
Record FileRef := mkFileRef {
  fr_path : list Z;
  fr_is_car : bool;
}.
Definition file_ref_codec : codec FileRef := struct_codec
  [str "Path"; str "IsCAR"]
  (fun x => [enc text_codec (fr_path x); enc bool_codec (fr_is_car x)])
  (fun l => match l with
   | [s0; s1] =>
       a0 <- field text_codec s0 ;;
       a1 <- field bool_codec s1 ;;
       Ok (mkFileRef a0 a1)
   | _ => Err ForeignError
   end).
Record QueryOffer := mkQueryOffer {
  qo_err : list Z;
  qo_root : Cid;
  qo_size : Z;
  qo_min_price : Z;
  qo_payment_interval : Z;
  qo_payment_interval_increase : Z;
  qo_miner : Address;
  qo_miner_peer_id : PeerId;
}.
Definition query_offer_codec : codec QueryOffer := struct_codec
  [str "Err"; str "Root"; str "Size"; str "MinPrice"; str "PaymentInterval"; str "PaymentIntervalIncrease";
   str "Miner"; str "MinerPeerID"]
  (fun x => [enc text_codec (qo_err x); enc cid_codec (qo_root x); enc u64_codec (qo_size x);
             enc bigint_codec (qo_min_price x); enc u64_codec (qo_payment_interval x);
             enc u64_codec (qo_payment_interval_increase x); enc address_codec (qo_miner x);
             enc peer_id_codec (qo_miner_peer_id x)])
  (fun l => match l with
   | [s0; s1; s2; s3; s4; s5; s6; s7] =>
       a0 <- field text_codec s0 ;;
       a1 <- field cid_codec s1 ;;
       a2 <- field u64_codec s2 ;;
       a3 <- field bigint_codec s3 ;;
       a4 <- field u64_codec s4 ;;
       a5 <- field u64_codec s5 ;;
       a6 <- field address_codec s6 ;;
       a7 <- field peer_id_codec s7 ;;
       Ok (mkQueryOffer a0 a1 a2 a3 a4 a5 a6 a7)
   | _ => Err ForeignError
   end).
Record RetrievalOrder := mkRetrievalOrder {
  ro_root : Cid;
  ro_size : Z;
  ro_total : Z;
  ro_payment_interval : Z;
  ro_payment_interval_increase : Z;
  ro_client : Address;
  ro_miner : Address;
  ro_miner_peer_id : PeerId;
}.
Definition retrieval_order_codec : codec RetrievalOrder := struct_codec
  [str "Root"; str "Size"; str "Total"; str "PaymentInterval"; str "PaymentIntervalIncrease"; str "Client";
   str "Miner"; str "MinerPeerID"]
  (fun x => [enc cid_codec (ro_root x); enc u64_codec (ro_size x); enc bigint_codec (ro_total x);
             enc u64_codec (ro_payment_interval x); enc u64_codec (ro_payment_interval_increase x);
             enc address_codec (ro_client x); enc address_codec (ro_miner x); enc peer_id_codec (ro_miner_peer_id x)])
  (fun l => match l with
   | [s0; s1; s2; s3; s4; s5; s6; s7] =>
       a0 <- field cid_codec s0 ;;
       a1 <- field u64_codec s1 ;;
       a2 <- field bigint_codec s2 ;;
       a3 <- field u64_codec s3 ;;
       a4 <- field u64_codec s4 ;;
       a5 <- field address_codec s5 ;;
       a6 <- field address_codec s6 ;;
       a7 <- field peer_id_codec s7 ;;
       Ok (mkRetrievalOrder a0 a1 a2 a3 a4 a5 a6 a7)
   | _ => Err ForeignError
   end).
Record CommPRet := mkCommPRet {
  cp_root : Cid;
  cp_size : Z;
}.
Definition comm_p_ret_codec : codec CommPRet := struct_codec
  [str "Root"; str "Size"]
  (fun x => [enc cid_codec (cp_root x); enc u64_codec (cp_size x)])
  (fun l => match l with
   | [s0; s1] =>
       a0 <- field cid_codec s0 ;;
       a1 <- field u64_codec s1 ;;
       Ok (mkCommPRet a0 a1)
   | _ => Err ForeignError
   end).
Definition order (q : QueryOffer) (client : Address) : RetrievalOrder :=
  mkRetrievalOrder (qo_root q) (qo_size q) (qo_min_price q) (qo_payment_interval q) (qo_payment_interval_increase q)
    client (qo_miner q) (qo_miner_peer_id q).

(** ** full/paych.rs *)
Record ChannelInfo := mkChannelInfo {
  ci_channel : Address;
  ci_channel_message : Cid;
}.
Definition channel_info_codec : codec ChannelInfo := struct_codec
  [str "Channel"; str "ChannelMessage"]
  (fun x => [enc address_codec (ci_channel x); enc cid_codec (ci_channel_message x)])
  (fun l => match l with
   | [s0; s1] =>
       a0 <- field address_codec s0 ;;
       a1 <- field cid_codec s1 ;;
       Ok (mkChannelInfo a0 a1)
   | _ => Err ForeignError
   end).
Inductive PchDir := Undef | Inbound | Outbound.
#[export] Instance PchDir_eq_dec : EqDecision PchDir.
Proof. solve_decision. Defined.
Definition pch_dir_codec : codec PchDir := repr_codec [(Undef, 0); (Inbound, 1); (Outbound, 2)].
Record PaychStatus := mkPaychStatus {
  ps_control_addr : Address;
  ps_direction : PchDir;
}.
Definition paych_status_codec : codec PaychStatus := struct_codec
  [str "ControlAddr"; str "Direction"]
  (fun x => [enc address_codec (ps_control_addr x); enc pch_dir_codec (ps_direction x)])
  (fun l => match l with
   | [s0; s1] =>
       a0 <- field address_codec s0 ;;
       a1 <- field pch_dir_codec s1 ;;
       Ok (mkPaychStatus a0 a1)
   | _ => Err ForeignError
   end).
Record PaymentInfo := mkPaymentInfo {
  pi_channel : Address;
  pi_channel_message : Cid;
  pi_vouchers : list SignedVoucher;
}.
Definition payment_info_codec : codec PaymentInfo := struct_codec
  [str "Channel"; str "ChannelMessage"; str "Vouchers"]
  (fun x => [enc address_codec (pi_channel x); enc cid_codec (pi_channel_message x);
             enc (list_codec signed_voucher_codec) (pi_vouchers x)])
  (fun l => match l with
   | [s0; s1; s2] =>
       a0 <- field address_codec s0 ;;
       a1 <- field cid_codec s1 ;;
       a2 <- field (list_codec signed_voucher_codec) s2 ;;
       Ok (mkPaymentInfo a0 a1 a2)
   | _ => Err ForeignError
   end).
Record VoucherSpec := mkVoucherSpec {
  vs_amount : Z;
  vs_time_lock_min : Z;
  vs_time_lock_max : Z;
  vs_min_settle : Z;
  vs_extra : ModVerifyParams;
}.
Definition voucher_spec_codec : codec VoucherSpec := struct_codec
  [str "Amount"; str "TimeLockMin"; str "TimeLockMax"; str "MinSettle"; str "Extra"]
  (fun x => [enc bigint_codec (vs_amount x); enc i64_codec (vs_time_lock_min x); enc i64_codec (vs_time_lock_max x);
             enc i64_codec (vs_min_settle x); enc mod_verify_params_codec (vs_extra x)])
  (fun l => match l with
   | [s0; s1; s2; s3; s4] =>
       a0 <- field bigint_codec s0 ;;
       a1 <- field i64_codec s1 ;;
       a2 <- field i64_codec s2 ;;
       a3 <- field i64_codec s3 ;;
       a4 <- field mod_verify_params_codec s4 ;;
       Ok (mkVoucherSpec a0 a1 a2 a3 a4)
   | _ => Err ForeignError
   end).

(** ** full/miner.rs *)
Record MiningBaseInfo := mkMiningBaseInfo {
  mb_miner_power : Z;
  mb_network_power : Z;
  mb_sectors : list Sector.SectorInfo;
  mb_worker_key : Address;
  mb_sector_size : Z;
  mb_prev_beacon_entry : Block.Block.BeaconEntry;
  mb_beacon_entries : list Block.Block.BeaconEntry;
}.
Definition mining_base_info_codec : codec MiningBaseInfo := struct_codec
  [str "MinerPower"; str "NetworkPower"; str "Sectors"; str "WorkerKey"; str "SectorSize"; str "PrevBeaconEntry";
   str "BeaconEntries"]
  (fun x => [enc bigint_codec (mb_miner_power x); enc bigint_codec (mb_network_power x);
             enc (list_codec sector_info_codec) (mb_sectors x); enc address_codec (mb_worker_key x);
             enc u64_codec (mb_sector_size x); enc beacon_entry_codec (mb_prev_beacon_entry x);
             enc (list_codec beacon_entry_codec) (mb_beacon_entries x)])
  (fun l => match l with
   | [s0; s1; s2; s3; s4; s5; s6] =>
       a0 <- field bigint_codec s0 ;;
       a1 <- field bigint_codec s1 ;;
       a2 <- field (list_codec sector_info_codec) s2 ;;
       a3 <- field address_codec s3 ;;
       a4 <- field u64_codec s4 ;;
       a5 <- field beacon_entry_codec s5 ;;
       a6 <- field (list_codec beacon_entry_codec) s6 ;;
       Ok (mkMiningBaseInfo a0 a1 a2 a3 a4 a5 a6)
   | _ => Err ForeignError
   end).
Record BlockTemplate := mkBlockTemplate {
  bt_miner : Address;
  bt_parents : Tipset.Tipset.TipsetKey;
  bt_ticket : Block.Block.Ticket;
  bt_eproof : Block.Block.ElectionProof;
  bt_beacon_values : list Block.Block.BeaconEntry;
  bt_messages : list Message.Message.SignedMessage;
  bt_epoch : Z;
  bt_timestamp : Z;
  bt_winning_post_proof : list Sector.PoStProof;
}.
Definition block_template_codec : codec BlockTemplate := struct_codec
  [str "Miner"; str "Parents"; str "Ticket"; str "Eproof"; str "BeaconValues"; str "Messages"; str "Epoch";
   str "Timestamp"; str "WinningPoStProof"]
  (fun x => [enc address_codec (bt_miner x); enc tipset_key_codec (bt_parents x); enc ticket_codec (bt_ticket x);
             enc election_proof_codec (bt_eproof x); enc (list_codec beacon_entry_codec) (bt_beacon_values x);
             enc (list_codec signed_message_codec) (bt_messages x); enc i64_codec (bt_epoch x);
             enc u64_codec (bt_timestamp x); enc (list_codec post_proof_codec) (bt_winning_post_proof x)])
  (fun l => match l with
   | [s0; s1; s2; s3; s4; s5; s6; s7; s8] =>
       a0 <- field address_codec s0 ;;
       a1 <- field tipset_key_codec s1 ;;
       a2 <- field ticket_codec s2 ;;
       a3 <- field election_proof_codec s3 ;;
       a4 <- field (list_codec beacon_entry_codec) s4 ;;
       a5 <- field (list_codec signed_message_codec) s5 ;;
       a6 <- field i64_codec s6 ;;
       a7 <- field u64_codec s7 ;;
       a8 <- field (list_codec post_proof_codec) s8 ;;
       Ok (mkBlockTemplate a0 a1 a2 a3 a4 a5 a6 a7 a8)
   | _ => Err ForeignError
   end).

(** ** full/chain.rs *)
Inductive HeadChangeType := Revert | Apply | Current.
#[export] Instance HeadChangeType_eq_dec : EqDecision HeadChangeType.
Proof. solve_decision. Defined.
Definition head_change_type_codec : codec HeadChangeType := enum_codec [(Revert, str "revert"); (Apply, str "apply"); (Current, str "current")].
Record HeadChange := mkHeadChange {
  hc_type : HeadChangeType;
  hc_val : Tipset.Tipset.Tipset;
}.
Definition head_change_codec : codec HeadChange := struct_codec
  [str "Type"; str "Val"]
  (fun x => [enc head_change_type_codec (hc_type x); enc tipset_codec (hc_val x)])
  (fun l => match l with
   | [s0; s1] =>
       a0 <- field head_change_type_codec s0 ;;
       a1 <- field tipset_codec s1 ;;
       Ok (mkHeadChange a0 a1)
   | _ => Err ForeignError
   end).
Record BlockMessages := mkBlockMessages {
  bms_bls_messages : list Message.Message.UnsignedMessage;
  bms_secpk_messages : list Message.Message.SignedMessage;
  bms_cids : list Cid;
}.
Definition block_messages_codec : codec BlockMessages := struct_codec
  [str "BlsMessages"; str "SecpkMessages"; str "Cids"]
  (fun x => [enc (list_codec unsigned_message_codec) (bms_bls_messages x);
             enc (list_codec signed_message_codec) (bms_secpk_messages x); enc (list_codec cid_codec) (bms_cids x)])
  (fun l => match l with
   | [s0; s1; s2] =>
       a0 <- field (list_codec unsigned_message_codec) s0 ;;
       a1 <- field (list_codec signed_message_codec) s1 ;;
       a2 <- field (list_codec cid_codec) s2 ;;
       Ok (mkBlockMessages a0 a1 a2)
   | _ => Err ForeignError
   end).
Record ParentMessage := mkParentMessage {
  pm_cid : Cid;
  pm_message : Message.Message.UnsignedMessage;
}.
Definition parent_message_codec : codec ParentMessage := struct_codec
  [str "Cid"; str "Message"]
  (fun x => [enc cid_codec (pm_cid x); enc unsigned_message_codec (pm_message x)])
  (fun l => match l with
   | [s0; s1] =>
       a0 <- field cid_codec s0 ;;
       a1 <- field unsigned_message_codec s1 ;;
       Ok (mkParentMessage a0 a1)
   | _ => Err ForeignError
   end).
Record ObjStat := mkObjStat {
  os_size : Z;
  os_links : Z;
}.
Definition obj_stat_codec : codec ObjStat := struct_codec
  [str "Size"; str "Links"]
  (fun x => [enc u64_codec (os_size x); enc u64_codec (os_links x)])
  (fun l => match l with
   | [s0; s1] =>
       a0 <- field u64_codec s0 ;;
       a1 <- field u64_codec s1 ;;
       Ok (mkObjStat a0 a1)
   | _ => Err ForeignError
   end).
Definition domain_tag_codec : codec Crypto.Crypto.DomainSeparationTag :=
  repr_codec [(Crypto.Crypto.TicketProduction, 1); (Crypto.Crypto.ElectionProofProduction, 2);
    (Crypto.Crypto.WinningPoStChallengeSeed, 3); (Crypto.Crypto.WindowedPoStChallengeSeed, 4);
    (Crypto.Crypto.SealRandomness, 5); (Crypto.Crypto.InteractiveSealChallengeSeed, 6);
    (Crypto.Crypto.WindowedPoStDeadlineAssignment, 7)].

(** ** full/mpool.rs *)
Inductive MpoolChange := MpoolAdd | MpoolRemove.
#[export] Instance MpoolChange_eq_dec : EqDecision MpoolChange.
Proof. solve_decision. Defined.
Definition mpool_change_codec : codec MpoolChange := repr_codec [(MpoolAdd, 0); (MpoolRemove, 1)].
Record MpoolUpdate := mkMpoolUpdate {
  mu_type : MpoolChange;
  mu_message : Message.Message.SignedMessage;
}.
Definition mpool_update_codec : codec MpoolUpdate := struct_codec
  [str "Type"; str "Message"]
  (fun x => [enc mpool_change_codec (mu_type x); enc signed_message_codec (mu_message x)])
  (fun l => match l with
   | [s0; s1] =>
       a0 <- field mpool_change_codec s0 ;;
       a1 <- field signed_message_codec s1 ;;
       Ok (mkMpoolUpdate a0 a1)
   | _ => Err ForeignError
   end).

(** ** full/sync.rs *)
Inductive SyncStateStage := StageIdle | StageHeaders | StagePersistHeaders | StageMessages | StageSyncComplete | StageSyncErrored.
#[export] Instance SyncStateStage_eq_dec : EqDecision SyncStateStage.
Proof. solve_decision. Defined.
Definition sync_state_stage_codec : codec SyncStateStage := repr_codec [(StageIdle, 0); (StageHeaders, 1); (StagePersistHeaders, 2); (StageMessages, 3); (StageSyncComplete, 4); (StageSyncErrored, 5)].
Record ActiveSync := mkActiveSync {
  as_base : Tipset.Tipset.Tipset;
  as_target : Tipset.Tipset.Tipset;
  as_stage : SyncStateStage;
  as_height : Z;
  as_start : list Z;
  as_end : list Z;
  as_message : list Z;
}.
Definition active_sync_codec : codec ActiveSync := struct_codec
  [str "Base"; str "Target"; str "Stage"; str "Height"; str "Start"; str "End"; str "Message"]
  (fun x => [enc tipset_codec (as_base x); enc tipset_codec (as_target x); enc sync_state_stage_codec (as_stage x);
             enc i64_codec (as_height x); enc text_codec (as_start x); enc text_codec (as_end x);
             enc text_codec (as_message x)])
  (fun l => match l with
   | [s0; s1; s2; s3; s4; s5; s6] =>
       a0 <- field tipset_codec s0 ;;
       a1 <- field tipset_codec s1 ;;
       a2 <- field sync_state_stage_codec s2 ;;
       a3 <- field i64_codec s3 ;;
       a4 <- field text_codec s4 ;;
       a5 <- field text_codec s5 ;;
       a6 <- field text_codec s6 ;;
       Ok (mkActiveSync a0 a1 a2 a3 a4 a5 a6)
   | _ => Err ForeignError
   end).
Record SyncState := mkSyncState {
  ss_active_syncs : list ActiveSync;
}.
Definition sync_state_codec : codec SyncState := struct_codec
  [str "ActiveSyncs"]
  (fun x => [enc (list_codec active_sync_codec) (ss_active_syncs x)])
  (fun l => match l with
   | [s0] =>
       a0 <- field (list_codec active_sync_codec) s0 ;;
       Ok (mkSyncState a0)
   | _ => Err ForeignError
   end).

(** ** full/state.rs *)
Record ChainSectorInfo := mkChainSectorInfo {
  csi_info : SectorOnChainInfo;
  csi_id : Z;
}.
Definition chain_sector_info_codec : codec ChainSectorInfo := struct_codec
  [str "Info"; str "Id"]
  (fun x => [enc sector_on_chain_info_codec (csi_info x); enc u64_codec (csi_id x)])
  (fun l => match l with
   | [s0; s1] =>
       a0 <- field sector_on_chain_info_codec s0 ;;
       a1 <- field u64_codec s1 ;;
       Ok (mkChainSectorInfo a0 a1)
   | _ => Err ForeignError
   end).
Record MinerPower := mkMinerPower {
  mp_miner_power : Claim;
  mp_total_power : Claim;
}.
Definition miner_power_codec : codec MinerPower := struct_codec
  [str "MinerPower"; str "TotalPower"]
  (fun x => [enc claim_codec (mp_miner_power x); enc claim_codec (mp_total_power x)])
  (fun l => match l with
   | [s0; s1] =>
       a0 <- field claim_codec s0 ;;
       a1 <- field claim_codec s1 ;;
       Ok (mkMinerPower a0 a1)
   | _ => Err ForeignError
   end).
Record MinerSectors := mkMinerSectors {
  ms_pset : Z;
  ms_sset : Z;
}.
Definition miner_sectors_codec : codec MinerSectors := struct_codec
  [str "Pset"; str "Sset"]
  (fun x => [enc u64_codec (ms_pset x); enc u64_codec (ms_sset x)])
  (fun l => match l with
   | [s0; s1] =>
       a0 <- field u64_codec s0 ;;
       a1 <- field u64_codec s1 ;;
       Ok (mkMinerSectors a0 a1)
   | _ => Err ForeignError
   end).
Record Fault := mkFault {
  ft_miner : Address;
  ft_epoch : Z;
}.
Definition fault_codec : codec Fault := struct_codec
  [str "Miner"; str "Epoch"]
  (fun x => [enc address_codec (ft_miner x); enc i64_codec (ft_epoch x)])
  (fun l => match l with
   | [s0; s1] =>
       a0 <- field address_codec s0 ;;
       a1 <- field i64_codec s1 ;;
       Ok (mkFault a0 a1)
   | _ => Err ForeignError
   end).
Record MsgLookup := mkMsgLookup {
  ml_receipt : Message.Message.MessageReceipt;
  ml_tipset : Tipset.Tipset.Tipset;
}.
Definition msg_lookup_codec : codec MsgLookup := struct_codec
  [str "Receipt"; str "TipSet"]
  (fun x => [enc message_receipt_codec (ml_receipt x); enc tipset_codec (ml_tipset x)])
  (fun l => match l with
   | [s0; s1] =>
       a0 <- field message_receipt_codec s0 ;;
       a1 <- field tipset_codec s1 ;;
       Ok (mkMsgLookup a0 a1)
   | _ => Err ForeignError
   end).
Record MarketBalance := mkMarketBalance {
  mkb_escrow : Z;
  mkb_locked : Z;
}.
Definition market_balance_codec : codec MarketBalance := struct_codec
  [str "Escrow"; str "Locked"]
  (fun x => [enc bigint_codec (mkb_escrow x); enc bigint_codec (mkb_locked x)])
  (fun l => match l with
   | [s0; s1] =>
       a0 <- field bigint_codec s0 ;;
       a1 <- field bigint_codec s1 ;;
       Ok (mkMarketBalance a0 a1)
   | _ => Err ForeignError
   end).
Record MarketDeal := mkMarketDeal {
  md_proposal : DealProposal;
  md_state : DealState;
}.
Definition market_deal_codec : codec MarketDeal := struct_codec
  [str "Proposal"; str "State"]
  (fun x => [enc deal_proposal_codec (md_proposal x); enc deal_state_codec (md_state x)])
  (fun l => match l with
   | [s0; s1] =>
       a0 <- field deal_proposal_codec s0 ;;
       a1 <- field deal_state_codec s1 ;;
       Ok (mkMarketDeal a0 a1)
   | _ => Err ForeignError
   end).
(** [vm/src/types.rs]: the calls a message made, and theirs in turn.  [serde_json]
    reads at most 128 levels of nesting, so this much fuel is enough. *)
Inductive ExecutionResult := mkExecutionResult (msg : Message.Message.UnsignedMessage)
  (msg_rct : Message.Message.MessageReceipt) (error : list Z) (duration : Z) (subcalls : list ExecutionResult).

Definition execution_codec_step (sub : codec ExecutionResult) : codec ExecutionResult := struct_codec
  [str "Msg"; str "MsgRct"; str "Error"; str "Duration"; str "Subcalls"]
  (fun x => match x with
   | mkExecutionResult msg msg_rct error duration subcalls =>
       [enc unsigned_message_codec msg; enc message_receipt_codec msg_rct; enc text_codec error; enc i64_codec duration;
        enc (list_codec sub) subcalls]
   end)
  (fun l => match l with
   | [s0; s1; s2; s3; s4] =>
       a0 <- field unsigned_message_codec s0 ;;
       a1 <- field message_receipt_codec s1 ;;
       a2 <- field text_codec s2 ;;
       a3 <- field i64_codec s3 ;;
       a4 <- field (list_codec sub) s4 ;;
       Ok (mkExecutionResult a0 a1 a2 a3 a4)
   | _ => Err ForeignError
   end).
Fixpoint execution_codec (fuel : nat) : codec ExecutionResult :=
  match fuel with
  | O => mkCodec (fun _ => Err ForeignError) (fun _ => Err ForeignError)
  | S fuel => execution_codec_step (execution_codec fuel)
  end.
Definition execution_result_codec : codec ExecutionResult := execution_codec 128.
Record InvocResult := mkInvocResult {
  ir_msg : Message.Message.UnsignedMessage;
  ir_msg_rct : Message.Message.MessageReceipt;
  ir_internal_executions : list ExecutionResult;
  ir_error : list Z;
  ir_duration : Z;
}.
Definition invoc_result_codec : codec InvocResult := struct_codec
  [str "Msg"; str "MsgRct"; str "InternalExecutions"; str "Error"; str "Duration"]
  (fun x => [enc unsigned_message_codec (ir_msg x); enc message_receipt_codec (ir_msg_rct x);
             enc (list_codec execution_result_codec) (ir_internal_executions x); enc text_codec (ir_error x);
             enc i64_codec (ir_duration x)])
  (fun l => match l with
   | [s0; s1; s2; s3; s4] =>
       a0 <- field unsigned_message_codec s0 ;;
       a1 <- field message_receipt_codec s1 ;;
       a2 <- field (list_codec execution_result_codec) s2 ;;
       a3 <- field text_codec s3 ;;
       a4 <- field i64_codec s4 ;;
       Ok (mkInvocResult a0 a1 a2 a3 a4)
   | _ => Err ForeignError
   end).
Record ComputeStateOutput := mkComputeStateOutput {
  co_root : Cid;
  co_trace : list InvocResult;
}.
Definition compute_state_output_codec : codec ComputeStateOutput := struct_codec
  [str "Root"; str "Trace"]
  (fun x => [enc cid_codec (co_root x); enc (list_codec invoc_result_codec) (co_trace x)])
  (fun l => match l with
   | [s0; s1] =>
       a0 <- field cid_codec s0 ;;
       a1 <- field (list_codec invoc_result_codec) s1 ;;
       Ok (mkComputeStateOutput a0 a1)
   | _ => Err ForeignError
   end).

(** ** What can be written *)
Definition build_version_ok (v : BuildVersion) : Prop := u32_ok (bv v).
Definition version_ok (x : Version) : Prop :=
  build_version_ok (vn_api_version x) /\ u64_ok (vn_block_delay x).
Definition sector_log_ok (x : SectorLog) : Prop :=
  u64_ok (sl_timestamp x).
Definition sealed_ref_ok (x : SealedRef) : Prop :=
  u64_ok (sr_sector_id x) /\ u64_ok (sr_offset x) /\ u64_ok (sr_size x).
Definition sealed_refs_ok (x : SealedRefs) : Prop :=
  Forall sealed_ref_ok (srs_refs x).
Definition seal_ticket_ok (x : SealTicket) : Prop :=
  h256_ok (stk_value x) /\ i64_ok (stk_epoch x).
Definition seal_seed_ok (x : SealSeed) : Prop :=
  h256_ok (sse_value x) /\ i64_ok (sse_epoch x).
Definition api_sector_info_ok (x : ApiSectorInfo) : Prop :=
  u64_ok (asi_sector_id x) /\
  bytes_ok (asi_proof x) /\
  Forall u64_ok (asi_deals x) /\
  seal_ticket_ok (asi_ticket x) /\
  seal_seed_ok (asi_seed x) /\
  u64_ok (asi_retries x) /\
  Forall sector_log_ok (asi_log x).
Definition query_offer_ok (x : QueryOffer) : Prop :=
  u64_ok (qo_size x) /\
  u64_ok (qo_payment_interval x) /\
  u64_ok (qo_payment_interval_increase x) /\
  valid_addr (qo_miner x).
Definition retrieval_order_ok (x : RetrievalOrder) : Prop :=
  u64_ok (ro_size x) /\
  u64_ok (ro_payment_interval x) /\
  u64_ok (ro_payment_interval_increase x) /\
  valid_addr (ro_client x) /\
  valid_addr (ro_miner x).
Definition comm_p_ret_ok (x : CommPRet) : Prop :=
  u64_ok (cp_size x).
Definition channel_info_ok (x : ChannelInfo) : Prop :=
  valid_addr (ci_channel x).
Definition paych_status_ok (x : PaychStatus) : Prop :=
  valid_addr (ps_control_addr x).
Definition payment_info_ok (x : PaymentInfo) : Prop :=
  valid_addr (pi_channel x) /\ Forall signed_voucher_ok (pi_vouchers x).
Definition voucher_spec_ok (x : VoucherSpec) : Prop :=
  i64_ok (vs_time_lock_min x) /\
  i64_ok (vs_time_lock_max x) /\
  i64_ok (vs_min_settle x) /\
  mod_verify_params_ok (vs_extra x).
Definition mining_base_info_ok (x : MiningBaseInfo) : Prop :=
  Forall sector_info_ok (mb_sectors x) /\
  valid_addr (mb_worker_key x) /\
  u64_ok (mb_sector_size x) /\
  beacon_entry_ok (mb_prev_beacon_entry x) /\
  Forall beacon_entry_ok (mb_beacon_entries x).
Definition block_template_ok (x : BlockTemplate) : Prop :=
  valid_addr (bt_miner x) /\
  ticket_ok (bt_ticket x) /\
  election_proof_ok (bt_eproof x) /\
  Forall beacon_entry_ok (bt_beacon_values x) /\
  Forall signed_message_ok (bt_messages x) /\
  i64_ok (bt_epoch x) /\
  u64_ok (bt_timestamp x) /\
  Forall post_proof_ok (bt_winning_post_proof x).
Definition head_change_ok (x : HeadChange) : Prop :=
  tipset_ok (hc_val x).
Definition block_messages_ok (x : BlockMessages) : Prop :=
  Forall unsigned_message_ok (bms_bls_messages x) /\ Forall signed_message_ok (bms_secpk_messages x).
Definition parent_message_ok (x : ParentMessage) : Prop :=
  unsigned_message_ok (pm_message x).
Definition obj_stat_ok (x : ObjStat) : Prop :=
  u64_ok (os_size x) /\ u64_ok (os_links x).
Definition mpool_update_ok (x : MpoolUpdate) : Prop :=
  signed_message_ok (mu_message x).
Definition active_sync_ok (x : ActiveSync) : Prop :=
  tipset_ok (as_base x) /\ tipset_ok (as_target x) /\ i64_ok (as_height x).
Definition sync_state_ok (x : SyncState) : Prop :=
  Forall active_sync_ok (ss_active_syncs x).
Definition chain_sector_info_ok (x : ChainSectorInfo) : Prop :=
  sector_on_chain_info_ok (csi_info x) /\ u64_ok (csi_id x).
Definition miner_sectors_ok (x : MinerSectors) : Prop :=
  u64_ok (ms_pset x) /\ u64_ok (ms_sset x).
Definition fault_ok (x : Fault) : Prop :=
  valid_addr (ft_miner x) /\ i64_ok (ft_epoch x).
Definition msg_lookup_ok (x : MsgLookup) : Prop :=
  message_receipt_ok (ml_receipt x) /\ tipset_ok (ml_tipset x).
Definition market_deal_ok (x : MarketDeal) : Prop :=
  deal_proposal_ok (md_proposal x) /\ deal_state_ok (md_state x).
Fixpoint nested_ok (fuel : nat) (x : ExecutionResult) : Prop :=
  match fuel, x with
  | O, _ => False
  | S fuel, mkExecutionResult msg msg_rct _ duration subcalls =>
      unsigned_message_ok msg /\ message_receipt_ok msg_rct /\ i64_ok duration /\ Forall (nested_ok fuel) subcalls
  end.
Definition execution_result_ok : ExecutionResult -> Prop := nested_ok 128.
Definition invoc_result_ok (x : InvocResult) : Prop :=
  unsigned_message_ok (ir_msg x) /\
  message_receipt_ok (ir_msg_rct x) /\
  Forall execution_result_ok (ir_internal_executions x) /\
  i64_ok (ir_duration x).
Definition compute_state_output_ok (x : ComputeStateOutput) : Prop :=
  Forall invoc_result_ok (co_trace x).

(** ** Reading back *)
Context `{!JsonLibLaws _} `{!PeerIdLaws _} `{!AddressDepsLaws _} `{!MultiaddrLaws _}.

#[local] Hint Resolve multiaddr_lawful : codec.
Ltac solve_enum :=
  (eapply lawful_weaken;
   [first [apply enum_lawful; nodup_names|apply repr_lawful; [nodup_names|nodup_names|apply (bool_decide_unpack _); vm_compute; exact I]]|]);
  intros [] _; apply (bool_decide_unpack _); vm_compute; exact I.
Lemma domain_tag_lawful : lawful domain_tag_codec (fun _ => True).
Proof. solve_enum. Qed.
Lemma permission_lawful : lawful permission_codec (fun _ => True).
Proof. solve_enum. Qed.
#[local] Hint Resolve permission_lawful : codec.
Lemma connectedness_lawful : lawful connectedness_codec (fun _ => True).
Proof. solve_enum. Qed.
#[local] Hint Resolve connectedness_lawful : codec.
Lemma peer_addr_info_lawful : lawful peer_addr_info_codec (fun _ => True).
Proof. solve_struct. Qed.
#[local] Hint Resolve peer_addr_info_lawful : codec.
Lemma build_version_lawful : lawful build_version_codec build_version_ok.
Proof. eapply lawful_weaken; [apply iso_lawful, u32_lawful|]. intros [v] Hv. by split. Qed.
#[local] Hint Resolve build_version_lawful : codec.
Lemma version_lawful : lawful version_codec version_ok.
Proof. solve_struct. Qed.
#[local] Hint Resolve version_lawful : codec.
Lemma sector_log_lawful : lawful sector_log_codec sector_log_ok.
Proof. solve_struct. Qed.
#[local] Hint Resolve sector_log_lawful : codec.
Lemma sealed_ref_lawful : lawful sealed_ref_codec sealed_ref_ok.
Proof. solve_struct. Qed.
#[local] Hint Resolve sealed_ref_lawful : codec.
Lemma sealed_refs_lawful : lawful sealed_refs_codec sealed_refs_ok.
Proof. solve_struct. Qed.
#[local] Hint Resolve sealed_refs_lawful : codec.
Lemma seal_ticket_lawful : lawful seal_ticket_codec seal_ticket_ok.
Proof. solve_struct. Qed.
#[local] Hint Resolve seal_ticket_lawful : codec.
Lemma seal_seed_lawful : lawful seal_seed_codec seal_seed_ok.
Proof. solve_struct. Qed.
#[local] Hint Resolve seal_seed_lawful : codec.
Lemma api_sector_info_lawful : lawful api_sector_info_codec api_sector_info_ok.
Proof. solve_struct. Qed.
#[local] Hint Resolve api_sector_info_lawful : codec.
Lemma file_ref_lawful : lawful file_ref_codec (fun _ => True).
Proof. solve_struct. Qed.
#[local] Hint Resolve file_ref_lawful : codec.
Lemma query_offer_lawful : lawful query_offer_codec query_offer_ok.
Proof. solve_struct. Qed.
#[local] Hint Resolve query_offer_lawful : codec.
Lemma retrieval_order_lawful : lawful retrieval_order_codec retrieval_order_ok.
Proof. solve_struct. Qed.
#[local] Hint Resolve retrieval_order_lawful : codec.
Lemma comm_p_ret_lawful : lawful comm_p_ret_codec comm_p_ret_ok.
Proof. solve_struct. Qed.
#[local] Hint Resolve comm_p_ret_lawful : codec.
Lemma channel_info_lawful : lawful channel_info_codec channel_info_ok.
Proof. solve_struct. Qed.
#[local] Hint Resolve channel_info_lawful : codec.
Lemma pch_dir_lawful : lawful pch_dir_codec (fun _ => True).
Proof. solve_enum. Qed.
#[local] Hint Resolve pch_dir_lawful : codec.
Lemma paych_status_lawful : lawful paych_status_codec paych_status_ok.
Proof. solve_struct. Qed.
#[local] Hint Resolve paych_status_lawful : codec.
Lemma payment_info_lawful : lawful payment_info_codec payment_info_ok.
Proof. solve_struct. Qed.
#[local] Hint Resolve payment_info_lawful : codec.
Lemma voucher_spec_lawful : lawful voucher_spec_codec voucher_spec_ok.
Proof. solve_struct. Qed.
#[local] Hint Resolve voucher_spec_lawful : codec.
Lemma mining_base_info_lawful : lawful mining_base_info_codec mining_base_info_ok.
Proof. solve_struct. Qed.
#[local] Hint Resolve mining_base_info_lawful : codec.
Lemma block_template_lawful : lawful block_template_codec block_template_ok.
Proof. solve_struct. Qed.
#[local] Hint Resolve block_template_lawful : codec.
Lemma head_change_type_lawful : lawful head_change_type_codec (fun _ => True).
Proof. solve_enum. Qed.
#[local] Hint Resolve head_change_type_lawful : codec.
Lemma head_change_lawful : lawful head_change_codec head_change_ok.
Proof. solve_struct. Qed.
#[local] Hint Resolve head_change_lawful : codec.
Lemma block_messages_lawful : lawful block_messages_codec block_messages_ok.
Proof. solve_struct. Qed.
#[local] Hint Resolve block_messages_lawful : codec.
Lemma parent_message_lawful : lawful parent_message_codec parent_message_ok.
Proof. solve_struct. Qed.
#[local] Hint Resolve parent_message_lawful : codec.
Lemma obj_stat_lawful : lawful obj_stat_codec obj_stat_ok.
Proof. solve_struct. Qed.
#[local] Hint Resolve obj_stat_lawful : codec.
Lemma mpool_change_lawful : lawful mpool_change_codec (fun _ => True).
Proof. solve_enum. Qed.
#[local] Hint Resolve mpool_change_lawful : codec.
Lemma mpool_update_lawful : lawful mpool_update_codec mpool_update_ok.
Proof. solve_struct. Qed.
#[local] Hint Resolve mpool_update_lawful : codec.
Lemma sync_state_stage_lawful : lawful sync_state_stage_codec (fun _ => True).
Proof. solve_enum. Qed.
#[local] Hint Resolve sync_state_stage_lawful : codec.
Lemma active_sync_lawful : lawful active_sync_codec active_sync_ok.
Proof. solve_struct. Qed.
#[local] Hint Resolve active_sync_lawful : codec.
Lemma sync_state_lawful : lawful sync_state_codec sync_state_ok.
Proof. solve_struct. Qed.
#[local] Hint Resolve sync_state_lawful : codec.
Lemma chain_sector_info_lawful : lawful chain_sector_info_codec chain_sector_info_ok.
Proof. solve_struct. Qed.
#[local] Hint Resolve chain_sector_info_lawful : codec.
Lemma miner_power_lawful : lawful miner_power_codec (fun _ => True).
Proof. solve_struct. Qed.
#[local] Hint Resolve miner_power_lawful : codec.
Lemma miner_sectors_lawful : lawful miner_sectors_codec miner_sectors_ok.
Proof. solve_struct. Qed.
#[local] Hint Resolve miner_sectors_lawful : codec.
Lemma fault_lawful : lawful fault_codec fault_ok.
Proof. solve_struct. Qed.
#[local] Hint Resolve fault_lawful : codec.
Lemma msg_lookup_lawful : lawful msg_lookup_codec msg_lookup_ok.
Proof. solve_struct. Qed.
#[local] Hint Resolve msg_lookup_lawful : codec.
Lemma market_balance_lawful : lawful market_balance_codec (fun _ => True).
Proof. solve_struct. Qed.
#[local] Hint Resolve market_balance_lawful : codec.
Lemma market_deal_lawful : lawful market_deal_codec market_deal_ok.
Proof. solve_struct. Qed.
#[local] Hint Resolve market_deal_lawful : codec.
Lemma execution_codec_lawful fuel : lawful (execution_codec fuel) (nested_ok fuel).
Proof.
  induction fuel as [|fuel IH]; [by intros x Hx|]. cbn [execution_codec]. apply struct_lawful; [nodup_names|].
  intros [msg rct e d subs] (H1' & H2' & H3' & H4').
  assert (Hsub : lawful (list_codec (execution_codec fuel)) (Forall (nested_ok fuel))) by (by apply list_lawful).
  destruct (lawful_wrote _ _ msg (unsigned_message_lawful net) H1') as (j1 & ? & Hd1),
    (lawful_wrote _ _ rct message_receipt_lawful H2') as (j2 & ? & Hd2),
    (lawful_wrote _ _ e text_lawful I) as (j3 & ? & Hd3), (lawful_wrote _ _ d i64_lawful H3') as (j4 & ? & Hd4),
    (lawful_wrote _ _ subs Hsub H4') as (j5 & ? & Hd5).
  exists [j1; j2; j3; j4; j5]. split; [by repeat apply Forall2_cons_2|]. split; [done|].
  cbn [map]. unfold field. cbn [required]. rewrite Hd1. cbn [bind]. rewrite Hd2. cbn [bind]. rewrite Hd3. cbn [bind].
  rewrite Hd4. cbn [bind]. by rewrite Hd5.
Qed.
Lemma execution_result_lawful : lawful execution_result_codec execution_result_ok.
Proof. apply execution_codec_lawful. Qed.
#[local] Hint Resolve execution_result_lawful : codec.
Lemma invoc_result_lawful : lawful invoc_result_codec invoc_result_ok.
Proof. solve_struct. Qed.
#[local] Hint Resolve invoc_result_lawful : codec.
Lemma compute_state_output_lawful : lawful compute_state_output_codec compute_state_output_ok.
Proof. solve_struct. Qed.
#[local] Hint Resolve compute_state_output_lawful : codec.
End ApiTypes.
End ApiTypes.
Export ApiTypes.

#[export] Hint Resolve domain_tag_lawful build_version_lawful permission_lawful connectedness_lawful peer_addr_info_lawful version_lawful sector_log_lawful
  sealed_ref_lawful sealed_refs_lawful seal_ticket_lawful seal_seed_lawful api_sector_info_lawful
  file_ref_lawful query_offer_lawful retrieval_order_lawful comm_p_ret_lawful channel_info_lawful
  pch_dir_lawful paych_status_lawful payment_info_lawful voucher_spec_lawful mining_base_info_lawful
  block_template_lawful head_change_type_lawful head_change_lawful block_messages_lawful parent_message_lawful
  obj_stat_lawful mpool_change_lawful mpool_update_lawful sync_state_stage_lawful active_sync_lawful
  sync_state_lawful chain_sector_info_lawful miner_power_lawful miner_sectors_lawful fault_lawful
  msg_lookup_lawful market_balance_lawful market_deal_lawful execution_result_lawful invoc_result_lawful
  compute_state_output_lawful : codec.
