(* ===== verification/Gas.v ===== *)
(** * [vm]: the price list of the virtual machine

    [Gas] and [TokenAmount] are [BigInt]s, so [Z]; a size is a [usize] and an
    epoch an [i64], in [Z] as well.  The table of price lists is a map from the
    epoch at which a list comes into force. *)

From Stdlib Require Import ZArith Lia.
From stdpp Require Import base numbers gmap fin_maps list.
From S2P Require Import Prelude Cbor CborRef Address AddressRef Crypto Piece Sector.

Local Open Scope Z_scope.

Module Gas.
Import Crypto.Crypto.
Import Piece.Piece.

(** actor/src/builtin/methods.rs *)
Definition MethodSend : Z := 0.

Record PricelistV0 := mkPricelistV0 {
  on_chain_message_base : Z;
  on_chain_message_per_byte : Z;
  on_chain_return_value_per_byte : Z;
  send_base : Z;
  send_transfer_funds : Z;
  send_invoke_method : Z;
  ipld_get_base : Z;
  ipld_get_per_byte : Z;
  ipld_put_base : Z;
  ipld_put_per_byte : Z;
  create_actor_base : Z;
  create_actor_extra : Z;
  delete_actor : Z;
  hashing_base : Z;
  hashing_per_byte : Z;
  compute_unsealed_sector_cid_base : Z;
  verify_seal_base : Z;
  verify_post_base : Z;
  verify_consensus_fault : Z;
}.

Definition PRICES : gmap Z PricelistV0 := {[ 0 := {|
  on_chain_message_base := 0;
  on_chain_message_per_byte := 2;
  on_chain_return_value_per_byte := 8;
  send_base := 5;
  send_transfer_funds := 5;
  send_invoke_method := 10;
  ipld_get_base := 10;
  ipld_get_per_byte := 1;
  ipld_put_base := 20;
  ipld_put_per_byte := 2;
  create_actor_base := 40;
  create_actor_extra := 500;
  delete_actor := -500;
  hashing_base := 5;
  hashing_per_byte := 2;
  compute_unsealed_sector_cid_base := 100;
  verify_seal_base := 2000;
  verify_post_base := 700;
  verify_consensus_fault := 10;
|} ]}.

(** [PRICES.keys().filter(..).max().unwrap_or(&0)] *)
Fixpoint max_epoch (l : list Z) : option Z :=
  match l with
  | [] => None
  | e :: l' => match max_epoch l' with None => Some e | Some m => Some (Z.max e m) end
  end.

Definition best_epoch (prices : gmap Z PricelistV0) (epoch : Z) : Z :=
  default 0 (max_epoch (List.filter (fun e => (0 <? e) && (e <=? epoch)) (map_to_list prices).*1)).

(** The search over a table; the program runs it on [PRICES]. *)
Definition pricelist_in {E} (prices : gmap Z PricelistV0) (epoch : Z) : outcome E PricelistV0 :=
  index_or_panic (prices !! best_epoch prices epoch).

Definition pricelist_by_epoch {E} (epoch : Z) : outcome E PricelistV0 := pricelist_in PRICES epoch.

Section Prices.
Variable p : PricelistV0.

Definition on_chain_message (msg_size : Z) : Z :=
  on_chain_message_base p + on_chain_message_per_byte p * msg_size.
Definition on_chain_return_value (data_size : Z) : Z :=
  data_size * on_chain_return_value_per_byte p.
Definition on_method_invocation (value method_num : Z) : Z :=
  let invocation := send_base p in
  let invocation := if value =? 0 then invocation else invocation + send_transfer_funds p in
  if method_num =? MethodSend then invocation else invocation + send_invoke_method p.
Definition on_ipld_get (data_size : Z) : Z := ipld_get_base p + data_size * ipld_get_per_byte p.
Definition on_ipld_put (data_size : Z) : Z := ipld_put_base p + data_size * ipld_put_per_byte p.
Definition on_create_actor : Z := create_actor_base p + create_actor_extra p.
Definition on_delete_actor : Z := delete_actor p.
Definition on_verify_signature (sig_type : SignatureType) (plan_text_size : Z) : Z :=
  let gas_for s := 3 * s + 2 in
  match sig_type with
  | Bls => gas_for plan_text_size
  | Secp256k1 => gas_for plan_text_size
  end.
Definition on_hashing (data_size : Z) : Z := hashing_base p + data_size * hashing_per_byte p.
Definition on_compute_unsealed_sector_cid `{CidLib} (_proof_type : RegisteredProof)
    (_pieces : list PieceInfo) : Z := compute_unsealed_sector_cid_base p.
Definition on_verify_seal `{CidLib} (_info : SealVerifyInfo) : Z := verify_seal_base p.
Definition on_verify_post `{CidLib} (_info : PoStVerifyInfo) : Z := verify_post_base p.
Definition on_verify_consensus_fault : Z := verify_consensus_fault p.
End Prices.

(** ** The search *)
Lemma max_epoch_spec l :
  match max_epoch l with
  | None => l = []
  | Some m => m ∈ l /\ forall e, e ∈ l -> e <= m
  end.
Proof.
  induction l as [|e l IH]; [done|]. cbn. destruct (max_epoch l) as [m|].
  - destruct IH as [Hm Hle]. split.
    + destruct (Z.max_spec e m) as [[_ ->]|[_ ->]]; [by right|by left].
    + intros x [->|Hx]%elem_of_cons; [lia|]. specialize (Hle x Hx). lia.
  - rewrite IH. split; [by left|]. intros x [->|Hx%elem_of_nil]%elem_of_cons; [lia|done].
Qed.

Lemma best_epoch_candidates (prices : gmap Z PricelistV0) epoch e :
  e ∈ List.filter (fun e => (0 <? e) && (e <=? epoch)) (map_to_list prices).*1 <->
  is_Some (prices !! e) /\ 0 < e <= epoch.
Proof.
  rewrite list_elem_of_In, filter_In, <- list_elem_of_In, andb_true_iff, Z.ltb_lt, Z.leb_le.
  rewrite list_elem_of_fmap. split.
  - intros (([k p] & -> & Hk%elem_of_map_to_list) & He). split; [by eexists|done].
  - intros ([p Hp] & He). split; [|done]. exists (e, p). split; [done|]. by apply elem_of_map_to_list.
Qed.

Lemma best_epoch_spec (prices : gmap Z PricelistV0) epoch :
  (best_epoch prices epoch = 0 /\ forall e, 0 < e <= epoch -> prices !! e = None) \/
  (0 < best_epoch prices epoch <= epoch /\ is_Some (prices !! best_epoch prices epoch) /\
   forall e, is_Some (prices !! e) -> e <= epoch -> e <= best_epoch prices epoch).
Proof.
  unfold best_epoch. pose proof (best_epoch_candidates prices epoch) as Hc.
  pose proof (max_epoch_spec (List.filter (fun e => (0 <? e) && (e <=? epoch)) (map_to_list prices).*1)) as Hm.
  destruct (max_epoch _) as [m|]; cbn [from_option id].
  - right. destruct Hm as [Hin Hle]. apply Hc in Hin as [Hs Hr]. split; [done|]. split; [done|].
    intros e He Hee. destruct (decide (0 < e)); [|lia]. apply Hle, Hc. split; [done|lia].
  - left. split; [done|]. intros e He. destruct (prices !! e) eqn:Hp; [|done].
    rewrite Hm in Hc. assert (Hin : e ∈ []) by (apply Hc; split; [by eexists|done]). by apply elem_of_nil in Hin.
Qed.

(** ** The properties *)

(** On any table with a list for epoch 0 and none before it, the search
    returns, for an epoch that is not negative, the list of the highest
    epoch not above it; on the program's own table it never panics, whatever
    the epoch. *)
Theorem pricelist_latest (prices : gmap Z PricelistV0) (epoch : Z) :
  is_Some (prices !! 0) -> 0 <= epoch -> (forall e, is_Some (prices !! e) -> 0 <= e) ->
  (exists e p, @pricelist_in unit prices epoch = Ok p /\ prices !! e = Some p /\ e <= epoch /\
     forall e', is_Some (prices !! e') -> e' <= epoch -> e' <= e) /\
  forall n, exists p, @pricelist_by_epoch unit n = Ok p.
Proof.
  intros [p0 Hp0] He Hpos. split.
  - exists (best_epoch prices epoch). unfold pricelist_in.
    destruct (best_epoch_spec prices epoch) as [[-> Hn]|(Hb & [p Hp] & Hmax)].
    + exists p0. rewrite Hp0. repeat split; [done|]. intros e' [p' Hp'] Hle.
      destruct (decide (0 < e')); [|lia]. rewrite Hn in Hp' by lia. done.
    + exists p. rewrite Hp. repeat split; [lia|done].
  - intros n. unfold pricelist_by_epoch, pricelist_in.
    destruct (best_epoch_spec PRICES n) as [[-> _]|(_ & [p Hp] & _)]; [by eexists|].
    rewrite Hp. by eexists.
Qed.

Lemma pricelist_latest_witness :
  is_Some (PRICES !! 0) /\ forall n, exists p, @pricelist_by_epoch unit n = Ok p.
Proof.
  split; [by eexists|].
  apply (pricelist_latest PRICES 5); [by eexists|lia|].
  intros e [p Hp]. unfold PRICES in Hp. apply lookup_singleton_Some in Hp as [<- _]. lia.
Defined.

(** With the prices in force at any epoch, deleting an actor refunds exactly
    the extra part of creating one; storing an object costs more than loading
    it, for every size; a plain transfer costs the base plus the transfer
    price, and calling a method adds its price on top, whatever the amount;
    and no charge for data decreases with the size. *)
Theorem pricelist_relations (n : Z) (p : PricelistV0) :
  @pricelist_by_epoch unit n = Ok p ->
  on_create_actor p + on_delete_actor p = create_actor_base p /\
  (forall size, 0 <= size -> on_ipld_get p size < on_ipld_put p size) /\
  (forall value m, on_method_invocation p value m =
     send_base p + (if value =? 0 then 0 else send_transfer_funds p)
                 + (if m =? MethodSend then 0 else send_invoke_method p)) /\
  (forall a b, a <= b ->
     on_chain_message p a <= on_chain_message p b /\
     on_chain_return_value p a <= on_chain_return_value p b /\
     on_ipld_get p a <= on_ipld_get p b /\ on_ipld_put p a <= on_ipld_put p b /\
     on_hashing p a <= on_hashing p b /\
     forall t, on_verify_signature t a <= on_verify_signature t b).
Proof.
  unfold pricelist_by_epoch, pricelist_in. intros Hp.
  destruct (PRICES !! _) as [q|] eqn:Hq; [|done]. injection Hp as <-.
  unfold PRICES in Hq. apply lookup_singleton_Some in Hq as [_ <-].
  split; [done|]. split; [unfold on_ipld_get, on_ipld_put; cbn; lia|]. split.
  - intros value m. unfold on_method_invocation. cbn. destruct (value =? 0), (m =? MethodSend); lia.
  - intros a b Hab. unfold on_chain_message, on_chain_return_value, on_ipld_get, on_ipld_put,
      on_hashing, on_verify_signature. cbn. repeat split; try lia. intros []; lia.
Qed.

Lemma pricelist_relations_witness :
  exists p, @pricelist_by_epoch unit 7 = Ok p /\ on_create_actor p + on_delete_actor p = 40.
Proof.
  eexists. split; [reflexivity|]. apply (pricelist_relations 7). reflexivity.
Defined.
End Gas.
