(* ===== verification/PeerMgr.v ===== *)
(** * [peermgr]: the set of peers

    The manager answers the actions of its handles one at a time, so a run is a
    list of actions.  A peer id is any countable type. *)

From Stdlib Require Import ZArith Lia.
From stdpp Require Import base numbers gmap fin_maps fin_map_dom list.
From S2P Require Import Prelude.

Local Open Scope Z_scope.

Module PeerMgr.

Definition MAX_FIL_PEERS : nat := 32.
Definition MIN_FIL_PEERS : nat := 8.

Inductive ConnectionState := Enabled | NotConnected.

Section PeerMgr.
Context {PeerId : Type} `{Countable PeerId}.

Inductive Action := AddPeer (peer_id : PeerId) | RemovePeer (peer_id : PeerId).

(** The fields the operations use; the queue of actions is the argument of [run]. *)
Record PeerMgr := mkPeerMgr {
  peers : gmap PeerId ConnectionState;
  max_fil_peers : nat;
  min_fil_peers : nat;
}.

Definition new : PeerMgr := mkPeerMgr ∅ MAX_FIL_PEERS MIN_FIL_PEERS.

Definition get_peer_count (m : PeerMgr) : nat := size (peers m).

Definition on_add_peer (m : PeerMgr) (peer_id : PeerId) : PeerMgr :=
  if decide (get_peer_count m < max_fil_peers m)%nat
  then mkPeerMgr (<[peer_id := Enabled]> (peers m)) (max_fil_peers m) (min_fil_peers m)
  else m.

(** The flag is the warning that fewer than [min_fil_peers] are left. *)
Definition on_remove_peer (m : PeerMgr) (peer_id : PeerId) : PeerMgr * bool :=
  let m := mkPeerMgr (delete peer_id (peers m)) (max_fil_peers m) (min_fil_peers m) in
  (m, bool_decide (get_peer_count m < min_fil_peers m)%nat).

Definition act (m : PeerMgr) (a : Action) : PeerMgr :=
  match a with
  | AddPeer p => on_add_peer m p
  | RemovePeer p => fst (on_remove_peer m p)
  end.

Definition run (l : list Action) : PeerMgr := fold_left act l new.

(** ** The set of peers without a capacity *)
Definition spec_act (s : gset PeerId) (a : Action) : gset PeerId :=
  match a with AddPeer p => {[p]} ∪ s | RemovePeer p => s ∖ {[p]} end.
Definition spec_run (l : list Action) : gset PeerId := fold_left spec_act l ∅.

Lemma run_snoc l a : run (l ++ [a]) = act (run l) a.
Proof. apply fold_left_app. Qed.
Lemma spec_run_snoc l a : spec_run (l ++ [a]) = spec_act (spec_run l) a.
Proof. apply fold_left_app. Qed.

Lemma run_limits l : max_fil_peers (run l) = MAX_FIL_PEERS.
Proof.
  induction l as [|a l IH] using rev_ind; [done|]. rewrite run_snoc.
  destruct a; cbn; [unfold on_add_peer; destruct (decide _)|]; done.
Qed.

(** Every step is one of three changes of the map. *)
Lemma act_bound m a :
  (get_peer_count m <= max_fil_peers m)%nat -> (get_peer_count (act m a) <= max_fil_peers m)%nat.
Proof.
  unfold get_peer_count. destruct a as [p|p]; cbn.
  - unfold on_add_peer, get_peer_count. destruct (decide _); [|done]. cbn.
    intros _. rewrite map_size_insert. destruct (peers m !! p); cbn; lia.
  - intros Hm. etrans; [|exact Hm]. apply map_subseteq_size, delete_subseteq.
Qed.

(** ** The properties *)

(** However the handles add and remove peers, the manager never holds more
    than [MAX_FIL_PEERS] of them; a new peer is ignored when that many are
    held, and accepted otherwise; a removed peer is gone. *)
Theorem peermgr_capacity (l : list Action) (p : PeerId) :
  (get_peer_count (run l) <= MAX_FIL_PEERS)%nat /\
  (get_peer_count (run l) = MAX_FIL_PEERS -> run (l ++ [AddPeer p]) = run l) /\
  (get_peer_count (run l) <> MAX_FIL_PEERS -> peers (run (l ++ [AddPeer p])) !! p = Some Enabled) /\
  peers (run (l ++ [RemovePeer p])) !! p = None.
Proof.
  assert (Hb : forall l, (get_peer_count (run l) <= MAX_FIL_PEERS)%nat).
  { intros l'. induction l' as [|a l' IH] using rev_ind; [vm_compute; lia|].
    rewrite run_snoc, <- (run_limits l') in *. by apply act_bound. }
  split; [apply Hb|]. specialize (Hb l). rewrite !run_snoc. cbn. unfold on_add_peer.
  rewrite run_limits. split; [|split].
  - intros ->. by rewrite decide_False by lia.
  - intros Hne. rewrite decide_True by lia. cbn. apply lookup_insert_eq.
  - apply lookup_delete_eq.
Qed.

(** While the peers that are meant to be connected never exceed the
    capacity, the manager holds exactly them: no action is lost. *)
Theorem peermgr_refines_set (l : list Action) :
  (forall k, (size (spec_run (take k l)) <= MAX_FIL_PEERS)%nat) ->
  dom (peers (run l)) = spec_run l.
Proof.
  induction l as [|a l IH] using rev_ind; intros Hk; [apply dom_empty_L|].
  pose proof (Hk (length (l ++ [a]))) as Hnext. rewrite firstn_all, spec_run_snoc in Hnext.
  rewrite run_snoc, spec_run_snoc. assert (Hl : dom (peers (run l)) = spec_run l).
  { apply IH. intros k. specialize (Hk (k `min` length l)%nat).
    rewrite take_app_le in Hk by lia. by rewrite <- firstn_firstn, firstn_all in Hk. }
  destruct a as [p|p]; cbn in *; [|by rewrite dom_delete_L, Hl].
  unfold on_add_peer. destruct (decide _) as [Hc|Hc]; [cbn; by rewrite dom_insert_L, Hl|].
  rewrite run_limits in Hc. unfold get_peer_count in Hc. rewrite <- size_dom, Hl in Hc.
  rewrite Hl. destruct (decide (p ∈ spec_run l)); [by rewrite subseteq_union_1_L by (by apply singleton_subseteq_l)|].
  rewrite size_union, size_singleton in Hnext by (by apply disjoint_singleton_l). lia.
Qed.
End PeerMgr.
Arguments Action : clear implicits.
Arguments PeerMgr _ {_ _}.

Lemma peermgr_refines_set_witness :
  dom (peers (run [AddPeer 1%nat; AddPeer 2%nat; RemovePeer 1%nat])) = {[2%nat]}.
Proof.
  rewrite (peermgr_refines_set [AddPeer 1%nat; AddPeer 2%nat; RemovePeer 1%nat]); [vm_compute; reflexivity|].
  intros [|[|[|k]]]; cbn [take]; rewrite ?firstn_nil; vm_compute; lia.
Defined.

(** A peer that is already known is ignored as well when the manager is full:
    its state is not refreshed. *)
Example full_manager_ignores :
  get_peer_count (run (AddPeer <$> seq 0 40)) = 32%nat.
Proof. vm_compute. reflexivity. Qed.
End PeerMgr.
