(* ===== verification/Chain.v ===== *)
(** * [chain]: drawing randomness from the chain *)

From Stdlib Require Import ZArith Lia String.
From stdpp Require Import base numbers list.
From S2P Require Import Prelude Cbor CborRef Address AddressRef Crypto.

Local Open Scope Z_scope.

Module Chain.
Import Crypto.Crypto.

Section Chain.
Context `{AddressDeps}.

(** [write_i64::<BigEndian>]: two's complement. *)
Definition write_i64 (x : Z) : list Z := be_split 8 (x mod 2 ^ 64).

(** What is hashed, field by field. *)
Definition randomness_input {E} (rbase : list Z) (pers : DomainSeparationTag) (round : Z)
    (entropy : list Z) : outcome E (list Z) :=
  let data := write_i64 (u8_of_tag pers) in
  vrf_digest <- blake2b_256 rbase ;;
  let data := data ++ vrf_digest in
  let data := data ++ write_i64 round in
  Ok (data ++ entropy).

Definition draw_randomness {E} (rbase : list Z) (pers : DomainSeparationTag) (round : Z)
    (entropy : list Z) : outcome E (list Z) :=
  data <- randomness_input rbase pers round entropy ;;
  blake2b_256 data.

Definition i64 (x : Z) : Prop := - 2 ^ 63 <= x < 2 ^ 63.

Lemma write_i64_inj x y : i64 x -> i64 y -> write_i64 x = write_i64 y -> x = y.
Proof.
  unfold i64, write_i64. intros Hx Hy He.
  assert (Hm : x mod 2 ^ 64 = y mod 2 ^ 64).
  { rewrite <- (be_combine_split 8 (x mod 2 ^ 64)), <- (be_combine_split 8 (y mod 2 ^ 64)), He;
      [done|apply Z.mod_pos_bound; lia..]. }
  pose proof (Z.div_mod x (2 ^ 64) ltac:(lia)). pose proof (Z.div_mod y (2 ^ 64) ltac:(lia)).
  lia.
Qed.

Lemma u8_of_tag_inj t u : u8_of_tag t = u8_of_tag u -> t = u.
Proof. by destruct t, u. Qed.

Context `{!AddressDepsLaws _}.

(** Drawing randomness always yields 32 bytes, and what is hashed separates
    its arguments: the input determines the purpose, the round, the entropy
    and the digest of the base, so draws for different purposes, rounds or
    entropies never hash the same bytes. *)
Theorem draw_randomness_separates (rbase rbase' : list Z) (pers pers' : DomainSeparationTag)
    (round round' : Z) (entropy entropy' : list Z) :
  i64 round -> i64 round' ->
  (exists r, @draw_randomness unit rbase pers round entropy = Ok r /\ length r = 32%nat) /\
  (@randomness_input unit rbase pers round entropy = @randomness_input unit rbase' pers' round' entropy' ->
   pers = pers' /\ round = round' /\ entropy = entropy' /\ blake2b rbase 32 = blake2b rbase' 32).
Proof.
  intros Hr Hr'. unfold draw_randomness, randomness_input. rewrite !blake2b_256_ok. cbn [bind].
  split.
  - eexists. rewrite blake2b_256_ok. split; [done|]. apply blake2b_length. lia.
  - intros He%Ok_inj. rewrite <- !app_assoc in He.
    apply app_inj_1 in He as [Ht He]; [|by unfold write_i64; rewrite !length_be_split].
    apply app_inj_1 in He as [Hd He]; [|by rewrite !blake2b_length by lia].
    apply app_inj_1 in He as [Hn He]; [|by unfold write_i64; rewrite !length_be_split].
    split; [|by eauto using write_i64_inj].
    apply u8_of_tag_inj. apply write_i64_inj in Ht; [done|..]; unfold i64;
      [destruct pers|destruct pers']; cbn; lia.
Qed.
End Chain.

Lemma draw_randomness_separates_witness :
  exists r, @draw_randomness _ unit (str "rbase") TicketProduction 123 (str "entropy") = Ok r /\ length r = 32%nat.
Proof.
  apply (draw_randomness_separates (str "rbase") (str "rbase") TicketProduction TicketProduction
           123 123 (str "entropy") (str "entropy")); unfold i64; lia.
Defined.
End Chain.
