(* ===== verification/RpcHandler.v ===== *)
(** * [libp2p/src/rpc]: the handler of the RPC protocol

    One handler serves one connection.  The framed substreams, the timers and
    the clock are given by an interface over a world [W] that every call of
    theirs may change; the swarm drives the handler by calling its [inject]
    methods and [poll].  A request id is a [usize], in [Z]; an [Instant] is a [Z] as
    well, since the only durations added to one are constants of a few seconds. *)

From Stdlib Require Import ZArith Lia String.
From stdpp Require Import base numbers gmap list.
From S2P Require Import Prelude.

Local Open Scope Z_scope.

(** ** methods.rs, protocol.rs, mod.rs *)
Module Rpc.

Section Types.
Context {Cid : Type} {ext_error : Type}.

Record StatusMessage := mkStatus {
  heaviest_tip_set : list Cid; heaviest_tip_set_weight : Z; genesis_hash : Cid }.

Inductive GoodbyeReason := ClientShutdown | IrrelevantNetwork | Fault | UnknownReason.

Definition goodbye_of_u64 (id : Z) : GoodbyeReason :=
  if id =? 1 then ClientShutdown else if id =? 2 then IrrelevantNetwork
  else if id =? 3 then Fault else UnknownReason.
Definition u64_of_goodbye (r : GoodbyeReason) : Z :=
  match r with ClientShutdown => 1 | IrrelevantNetwork => 2 | Fault => 3 | UnknownReason => 0 end.

Record BlockSync := mkBlockSync { start : list Cid; bs_length : Z; options : Z }.

Inductive RPCResponse := RespStatus (s : StatusMessage) | RespBlockSyncRequest (bytes : list Z).
Inductive ResponseTermination := TermBlockSyncRequest.
Record ErrorMessage := mkErrorMessage { error_message : list Z }.

Inductive RPCErrorResponse :=
| Success (r : RPCResponse)
| InvalidRequest (e : ErrorMessage)
| ServerError (e : ErrorMessage)
| Unknown (e : ErrorMessage)
| StreamTermination (t : ResponseTermination).

Definition as_u8 (r : RPCErrorResponse) : option Z :=
  match r with
  | Success _ => Some 0 | InvalidRequest _ => Some 1 | ServerError _ => Some 2
  | Unknown _ => Some 255 | StreamTermination _ => None
  end.
Definition is_response (response_code : Z) : bool := response_code =? 0.
Definition from_error (response_code : Z) (err : ErrorMessage) : RPCErrorResponse :=
  if response_code =? 1 then InvalidRequest err
  else if response_code =? 2 then ServerError err else Unknown err.
Definition response_multiple (r : RPCErrorResponse) : bool :=
  match r with
  | Success (RespStatus _) => false
  | Success (RespBlockSyncRequest _) => true
  | _ => true
  end.
Definition is_error (r : RPCErrorResponse) : bool :=
  match r with Success _ => false | _ => true end.

Inductive RPCRequest :=
| Status (s : StatusMessage) | Goodbye (r : GoodbyeReason) | BlockSyncRequest (b : BlockSync).

Definition expect_response (r : RPCRequest) : bool :=
  match r with Status _ => true | Goodbye _ => false | BlockSyncRequest _ => true end.
Definition request_multiple (r : RPCRequest) : bool :=
  match r with Status _ => false | Goodbye _ => false | BlockSyncRequest _ => true end.
Definition stream_termination {E} (r : RPCRequest) : outcome E ResponseTermination :=
  match r with BlockSyncRequest _ => Ok TermBlockSyncRequest | _ => Panic end.

(** [ext_error] is the error types of the crates below. *)
Inductive RPCError :=
| ReadError (e : ext_error) | CborDecodeError (e : ext_error) | InvalidProtocol (p : list Z)
| IoError (e : ext_error) | StreamTimeout | RPCErrorResponse_ | Custom (msg : list Z).

Inductive RPCEvent :=
| Request (id : Z) (r : RPCRequest)
| Response (id : Z) (r : RPCErrorResponse)
| Error (id : Z) (e : RPCError).

Definition event_id (e : RPCEvent) : Z :=
  match e with Request id _ => id | Response id _ => id | Error id _ => id end.

(** [ProtocolsHandlerUpgrErr]; [Select] carries the text of its error. *)
Inductive UpgrErr := Timeout | Timer | Select (msg : list Z) | Apply (e : RPCError).
End Types.
Arguments StatusMessage : clear implicits.
Arguments BlockSync : clear implicits.
Arguments RPCResponse : clear implicits.
Arguments RPCErrorResponse : clear implicits.
Arguments RPCRequest : clear implicits.
Arguments RPCError : clear implicits.
Arguments RPCEvent : clear implicits.
Arguments UpgrErr : clear implicits.
End Rpc.
Export Rpc.

(** ** The substreams and timers below the handler *)

(** The answers of [Send::poll], [Stream::poll] and [Sink::close]. *)
Inductive SendPoll (Sending Framed E : Type) := SendReady (f : Framed) | SendNotReady (s : Sending) | SendErr (e : E).
Arguments SendReady {Sending Framed E}.
Arguments SendNotReady {Sending Framed E}.
Arguments SendErr {Sending Framed E}.

Inductive StreamPoll (A E : Type) := Item (a : A) | Finished | Pending | StreamErr (e : E).
Arguments Item {A E}.
Arguments Finished {A E}.
Arguments Pending {A E}.
Arguments StreamErr {A E}.

Class RpcEnv (W Cid ext_error : Type) := {
  InFramed : Type;
  Sending : Type;
  OutFramed : Type;
  in_send : InFramed -> RPCErrorResponse Cid -> Sending;
  send_poll : Sending -> W -> SendPoll Sending InFramed (RPCError ext_error) * W;
  in_poll_closed : InFramed -> W -> bool * InFramed * W;   (* [poll] is [Ok(Ready(None))] *)
  in_close : InFramed -> W -> option InFramed * W;         (* [Some] is [NotReady] *)
  out_poll : OutFramed -> W ->
    StreamPoll (RPCErrorResponse Cid) (RPCError ext_error) * OutFramed * W;
  out_close : OutFramed -> W -> option OutFramed * W;
  now : W -> Z;
  (** [tokio::timer::DelayQueue]; [live] are the timers that are set. *)
  DelayQueue : Type;
  DelayKey : Type;
  live : DelayQueue -> list (DelayKey * Z);
  dq_new : DelayQueue;
  dq_insert : DelayQueue -> Z -> Z -> W -> DelayKey * DelayQueue * W;
  dq_remove : DelayQueue -> DelayKey -> outcome unit DelayQueue;
  dq_reset : DelayQueue -> DelayKey -> Z -> W -> outcome unit (DelayQueue * W);
  dq_poll : DelayQueue -> W -> StreamPoll Z unit * DelayQueue * W;
  (** The order in which a [FnvHashMap] yields its keys. *)
  hash_order : list Z -> list Z;
}.

(** Documented behaviour: a key names one timer until it fires or is removed;
    [remove] and [reset] panic on any other key; [poll] yields timers that are
    set and drops them. *)
Class RpcEnvLaws {W Cid ext_error} (T : RpcEnv W Cid ext_error) : Prop := {
  live_new : live dq_new = [];
  live_insert q id d w k q' w' : dq_insert q id d w = (k, q', w') ->
    live q' ≡ₚ (k, id) :: live q /\ k ∉ (live q).*1;
  live_remove q k id : (k, id) ∈ live q ->
    exists q', dq_remove q k = Ok q' /\ live q ≡ₚ (k, id) :: live q';
  live_reset q k id d w : (k, id) ∈ live q ->
    exists q' w', dq_reset q k d w = Ok (q', w') /\ live q' ≡ₚ live q;
  live_poll q w r q' w' : dq_poll q w = (r, q', w') ->
    match r with
    | Item id => exists k, live q ≡ₚ (k, id) :: live q'
    | _ => live q' ≡ₚ live q
    end;
  hash_order_perm l : hash_order l ≡ₚ l;
}.

(** ** handler.rs *)
Module Handler.

Definition RESPONSE_TIMEOUT : Z := 10.
Definition IO_ERROR_RETRIES : Z := 3.

Inductive KeepAlive := Yes | Until (t : Z).

Section Handler.
Context {W Cid ext_error : Type} `{T : RpcEnv W Cid ext_error} (ck : bool).

Inductive InboundSubstreamState :=
| ResponsePendingSend (substream : Sending) (closing : bool)
| ResponseIdle (substream : InFramed)
| InClosing (substream : InFramed)
| InPoisoned.

Inductive OutboundSubstreamState :=
| RequestPendingResponse (substream : OutFramed) (request : RPCRequest Cid)
| OutClosing (substream : OutFramed)
| OutPoisoned.

Record RPCHandler := mkHandler {
  pending_error : option (Z * UpgrErr ext_error);
  events_out : list (RPCEvent Cid ext_error);
  dial_queue : list (RPCEvent Cid ext_error);
  dial_negotiated : Z;
  inbound_substreams : gmap Z (InboundSubstreamState * option DelayKey);
  inbound_substreams_delay : DelayQueue;
  outbound_substreams : gmap Z (OutboundSubstreamState * DelayKey);
  outbound_substreams_delay : DelayQueue;
  queued_outbound_items : gmap Z (list (RPCErrorResponse Cid));
  current_inbound_substream_id : Z;
  max_dial_negotiated : Z;
  keep_alive : KeepAlive;
  inactive_timeout : Z;
  outbound_io_error_retries : Z;
}.
Implicit Types h : RPCHandler.

(** Assignments to the fields of [self]. *)
Definition set_pending_error x h := mkHandler x (events_out h) (dial_queue h) (dial_negotiated h)
  (inbound_substreams h) (inbound_substreams_delay h) (outbound_substreams h) (outbound_substreams_delay h)
  (queued_outbound_items h) (current_inbound_substream_id h) (max_dial_negotiated h) (keep_alive h)
  (inactive_timeout h) (outbound_io_error_retries h).
Definition set_events_out x h := mkHandler (pending_error h) x (dial_queue h) (dial_negotiated h)
  (inbound_substreams h) (inbound_substreams_delay h) (outbound_substreams h) (outbound_substreams_delay h)
  (queued_outbound_items h) (current_inbound_substream_id h) (max_dial_negotiated h) (keep_alive h)
  (inactive_timeout h) (outbound_io_error_retries h).
Definition set_dial q n h := mkHandler (pending_error h) (events_out h) q n
  (inbound_substreams h) (inbound_substreams_delay h) (outbound_substreams h) (outbound_substreams_delay h)
  (queued_outbound_items h) (current_inbound_substream_id h) (max_dial_negotiated h) (keep_alive h)
  (inactive_timeout h) (outbound_io_error_retries h).
Definition set_inbound m d h := mkHandler (pending_error h) (events_out h) (dial_queue h) (dial_negotiated h)
  m d (outbound_substreams h) (outbound_substreams_delay h)
  (queued_outbound_items h) (current_inbound_substream_id h) (max_dial_negotiated h) (keep_alive h)
  (inactive_timeout h) (outbound_io_error_retries h).
Definition set_outbound m d h := mkHandler (pending_error h) (events_out h) (dial_queue h) (dial_negotiated h)
  (inbound_substreams h) (inbound_substreams_delay h) m d
  (queued_outbound_items h) (current_inbound_substream_id h) (max_dial_negotiated h) (keep_alive h)
  (inactive_timeout h) (outbound_io_error_retries h).
Definition set_queued q h := mkHandler (pending_error h) (events_out h) (dial_queue h) (dial_negotiated h)
  (inbound_substreams h) (inbound_substreams_delay h) (outbound_substreams h) (outbound_substreams_delay h)
  q (current_inbound_substream_id h) (max_dial_negotiated h) (keep_alive h)
  (inactive_timeout h) (outbound_io_error_retries h).
Definition set_current_id i h := mkHandler (pending_error h) (events_out h) (dial_queue h) (dial_negotiated h)
  (inbound_substreams h) (inbound_substreams_delay h) (outbound_substreams h) (outbound_substreams_delay h)
  (queued_outbound_items h) i (max_dial_negotiated h) (keep_alive h)
  (inactive_timeout h) (outbound_io_error_retries h).
Definition set_keep_alive k h := mkHandler (pending_error h) (events_out h) (dial_queue h) (dial_negotiated h)
  (inbound_substreams h) (inbound_substreams_delay h) (outbound_substreams h) (outbound_substreams_delay h)
  (queued_outbound_items h) (current_inbound_substream_id h) (max_dial_negotiated h) k
  (inactive_timeout h) (outbound_io_error_retries h).
Definition set_retries n h := mkHandler (pending_error h) (events_out h) (dial_queue h) (dial_negotiated h)
  (inbound_substreams h) (inbound_substreams_delay h) (outbound_substreams h) (outbound_substreams_delay h)
  (queued_outbound_items h) (current_inbound_substream_id h) (max_dial_negotiated h) (keep_alive h)
  (inactive_timeout h) n.

(** [RPCHandler::new] *)
Definition new (inactive_timeout : Z) : RPCHandler :=
  mkHandler None [] [] 0 ∅ dq_new ∅ dq_new ∅ 1 8 Yes inactive_timeout 0.

Definition pending_requests {E} h : outcome E Z :=
  u_add ck 32 (dial_negotiated h) (trunc 32 (Z.of_nat (length (dial_queue h)))).

Definition send_request h (rpc_event : RPCEvent Cid ext_error) : RPCHandler :=
  let h := set_keep_alive Yes h in
  set_dial (dial_queue h ++ [rpc_event]) (dial_negotiated h) h.

(** [InboundSubstreamState::close] *)
Definition timed_out : RPCErrorResponse Cid := ServerError (mkErrorMessage (str "Request timed out")).
Definition termination : RPCErrorResponse Cid := StreamTermination TermBlockSyncRequest.

Definition close (s : InboundSubstreamState) (outbound_queue : list (RPCErrorResponse Cid)) (w : W)
  : outcome unit (InboundSubstreamState * list (RPCErrorResponse Cid) * W) :=
  match s with
  | ResponsePendingSend substream closing =>
      Ok (ResponsePendingSend substream closing,
          if closing then outbound_queue else outbound_queue ++ [timed_out] ++ [termination], w)
  | ResponseIdle substream =>
      let '(closed, substream, w) := in_poll_closed substream w in
      if closed : bool then Ok (InClosing substream, outbound_queue, w)
      else Ok (ResponsePendingSend (in_send substream timed_out) true, outbound_queue, w)
  | InClosing substream => Ok (InClosing substream, outbound_queue, w)
  | InPoisoned => Panic
  end.

(** A request that expects an answer: store the stream and tag the output. *)
Definition store_inbound h (req : RPCRequest Cid) (substream : InFramed) (w : W)
  : outcome unit (RPCHandler * W) :=
  let id := current_inbound_substream_id h in
  let '(delay_key, q, w) := dq_insert (inbound_substreams_delay h) id RESPONSE_TIMEOUT w in
  let h := set_inbound (<[id := (ResponseIdle substream, Some delay_key)]> (inbound_substreams h)) q h in
  let h := set_events_out (events_out h ++ [Request id req]) h in
  next <- u_add ck 64 id 1 ;;
  Ok (set_current_id next h, w).

Definition inject_fully_negotiated_inbound h (req : RPCRequest Cid) (substream : InFramed) (w : W)
  : outcome unit (RPCHandler * W) :=
  let h := match keep_alive h with
           | Until _ => set_keep_alive (Until (now w + inactive_timeout h)) h
           | Yes => h
           end in
  match req with
  | Goodbye _ => Ok (set_events_out (events_out h ++ [Request 0 req]) h, w)
  | _ => store_inbound h req substream w
  end.

Definition inject_fully_negotiated_outbound h (out : OutFramed) (rpc_event : RPCEvent Cid ext_error) (w : W)
  : outcome unit (RPCHandler * W) :=
  n <- u_sub ck 32 (dial_negotiated h) 1 ;;
  let h := set_dial (dial_queue h) n h in
  let h :=
    if (dial_negotiated h =? 0) && bool_decide (dial_queue h = []) && bool_decide (outbound_substreams h = ∅)
    then set_keep_alive (Until (now w + inactive_timeout h)) h
    else set_keep_alive Yes h in
  match rpc_event with
  | Request id request =>
      if expect_response request then
        let '(delay_key, q, w) := dq_insert (outbound_substreams_delay h) id RESPONSE_TIMEOUT w in
        Ok (set_outbound (<[id := (RequestPendingResponse out request, delay_key)]> (outbound_substreams h)) q h, w)
      else Ok (h, w)
  | _ => Ok (h, w)
  end.

Definition queue_push (q : gmap Z (list (RPCErrorResponse Cid))) (id : Z) (r : RPCErrorResponse Cid) :=
  <[id := default [] (q !! id) ++ [r]]> q.

(** What [inject_event] makes of a response for a substream in state [s]; the
    flag says whether the response joins the queue. *)
Definition respond (s : InboundSubstreamState) (response : RPCErrorResponse Cid)
  : outcome unit (InboundSubstreamState * bool) :=
  let res_is_error := is_error response in
  let res_is_multiple := response_multiple response in
  match s with
  | ResponseIdle substream =>
      match response with
      | StreamTermination _ => Ok (InClosing substream, false)
      | _ => Ok (ResponsePendingSend (in_send substream response) (negb res_is_multiple || res_is_error), false)
      end
  | ResponsePendingSend substream closing =>
      if res_is_multiple then Ok (ResponsePendingSend substream closing, true)
      else Ok (ResponsePendingSend substream true, false)
  | InClosing substream => Ok (InClosing substream, false)
  | InPoisoned => Panic
  end.

Definition inject_event h (rpc_event : RPCEvent Cid ext_error) : outcome unit RPCHandler :=
  match rpc_event with
  | Request _ _ => Ok (send_request h rpc_event)
  | Response rpc_id response =>
      match inbound_substreams h !! rpc_id with
      | Some (substream_state, key) =>
          '(s, queue) <- respond substream_state response ;;
          let h := if queue : bool
                   then set_queued (queue_push (queued_outbound_items h) rpc_id response) h else h in
          Ok (set_inbound (<[rpc_id := (s, key)]> (inbound_substreams h)) (inbound_substreams_delay h) h)
      | None => Ok h
      end
  | Error _ _ => Ok h
  end.

Definition inject_dial_upgrade_error h (request : RPCEvent Cid ext_error) (error : UpgrErr ext_error)
  : outcome unit RPCHandler :=
  let report_failure h :=
    let h := set_retries 0 h in
    let request_id := match request with Request id _ => id | _ => 0 end in
    match pending_error h with
    | None => set_pending_error (Some (request_id, error)) h
    | Some _ => h
    end in
  match error with
  | Apply (IoError _) =>
      n <- u_add ck 8 (outbound_io_error_retries h) 1 ;;
      let h := set_retries n h in
      if n <? IO_ERROR_RETRIES then Ok (send_request h request) else Ok (report_failure h)
  | _ => Ok (report_failure h)
  end.

(** ** [poll] *)
Inductive PollOut :=
| CustomEvent (e : RPCEvent Cid ext_error)
| OutboundSubstreamRequest (protocol : RPCRequest Cid) (info : RPCEvent Cid ext_error)
| TimerFailed
| NotReady.

(** The error reported for a failed upgrade. *)
Definition report (err : UpgrErr ext_error) : RPCError ext_error :=
  match err with
  | Apply e => e
  | Timeout | Timer => Custom (str "Protocol negotiation timeout")
  | Select msg => Custom msg
  end.

(** A stretch of [poll] either returns or goes on. *)
Inductive flow := Return (r : PollOut) | Continue.
Abbreviation polled := (outcome unit (flow * RPCHandler * W)).

Definition andthen (m : polled) (k : RPCHandler -> W -> polled) : polled :=
  '(f, h, w) <- m ;;
  match f with Return r => Ok (Return r, h, w) | Continue => k h w end.

(** Purge the expired inbound substreams: each round takes one timer. *)
Fixpoint purge_inbound (fuel : nat) h (w : W) : polled :=
  match fuel with
  | O => OutOfFuel
  | S fuel' =>
      let '(r, q, w) := dq_poll (inbound_substreams_delay h) w in
      let h := set_inbound (inbound_substreams h) q h in
      match r with
      | StreamErr _ => Ok (Return TimerFailed, h, w)
      | Item rpc_id =>
          match inbound_substreams h !! rpc_id with
          | Some (substream_state, _) =>
              '(s, outbound_queue, w) <-
                close substream_state (default [] (queued_outbound_items h !! rpc_id)) w ;;
              let h := set_queued (<[rpc_id := outbound_queue]> (queued_outbound_items h)) h in
              let h := set_inbound (<[rpc_id := (s, None)]> (inbound_substreams h)) q h in
              purge_inbound fuel' h w
          | None => purge_inbound fuel' h w
          end
      | _ => Ok (Continue, h, w)
      end
  end.

Definition purge_outbound h (w : W) : polled :=
  let '(r, q, w) := dq_poll (outbound_substreams_delay h) w in
  let h := set_outbound (outbound_substreams h) q h in
  match r with
  | StreamErr _ => Ok (Return TimerFailed, h, w)
  | Item stream_id =>
      let h := set_outbound (delete stream_id (outbound_substreams h)) q h in
      Ok (Return (CustomEvent (Error stream_id (Custom (str "Stream timed out")))), h, w)
  | _ => Ok (Continue, h, w)
  end.

(** [apply_queued_responses]: the new state, the new queue and [new_items_to_send]. *)
Definition apply_queued_responses (raw_substream : InFramed) (queue : option (list (RPCErrorResponse Cid)))
  : InboundSubstreamState * option (list (RPCErrorResponse Cid)) * bool :=
  match queue with
  | Some (StreamTermination _ :: rest) => (InClosing raw_substream, Some rest, true)
  | Some (chunk :: rest) => (ResponsePendingSend (in_send raw_substream chunk) false, Some rest, true)
  | _ => (ResponseIdle raw_substream, queue, false)
  end.

Definition set_queue (q : gmap Z (list (RPCErrorResponse Cid))) (id : Z) (o : option (list (RPCErrorResponse Cid))) :=
  match o with Some l => <[id := l]> q | None => q end.

Definition remove_timer (q : DelayQueue) (key : option DelayKey) : outcome unit DelayQueue :=
  match key with Some k => dq_remove q k | None => Ok q end.

(** Let the idle substream take the next queued response, if there is one. *)
Definition next_response h (request_id : Z) (raw_substream : InFramed) (key : option DelayKey)
  : bool * RPCHandler :=
  let '(s, queue, new_items_to_send) :=
    apply_queued_responses raw_substream (queued_outbound_items h !! request_id) in
  let h := set_queued (set_queue (queued_outbound_items h) request_id queue) h in
  (new_items_to_send,
   set_inbound (<[request_id := (s, key)]> (inbound_substreams h)) (inbound_substreams_delay h) h).

(** One round of [while new_items_to_send]; the Boolean is the new flag. *)
Definition inbound_round h (request_id : Z) (w : W) : outcome unit (flow * bool * RPCHandler * W) :=
  match inbound_substreams h !! request_id with
  | None => Panic
  | Some (state, key) =>
      let store s h := set_inbound (<[request_id := (s, key)]> (inbound_substreams h)) (inbound_substreams_delay h) h in
      match state with
      | ResponsePendingSend substream closing =>
          let '(r, w) := send_poll substream w in
          match r with
          | SendReady raw_substream =>
              if closing : bool then Ok (Continue, false, store (InClosing raw_substream) h, w)
              else let '(more, h) := next_response h request_id raw_substream key in
                   Ok (Continue, more, h, w)
          | SendNotReady substream => Ok (Continue, false, store (ResponsePendingSend substream closing) h, w)
          | SendErr e =>
              q <- remove_timer (inbound_substreams_delay h) key ;;
              Ok (Return (CustomEvent (Error 0 e)), false,
                  set_inbound (delete request_id (inbound_substreams h)) q h, w)
          end
      | ResponseIdle substream =>
          let '(more, h) := next_response h request_id substream key in
          Ok (Continue, more, h, w)
      | InClosing substream =>
          let '(r, w) := in_close substream w in
          match r with
          | None =>
              q <- remove_timer (inbound_substreams_delay h) key ;;
              let h := set_queued (delete request_id (queued_outbound_items h)) h in
              Ok (Continue, false, set_inbound (delete request_id (inbound_substreams h)) q h, w)
          | Some substream => Ok (Continue, false, store (InClosing substream) h, w)
          end
      | InPoisoned => Panic
      end
  end.

(** Every round after the first took an item off the queue. *)
Fixpoint inbound_rounds (fuel : nat) h (request_id : Z) (w : W) : polled :=
  match fuel with
  | O => OutOfFuel
  | S fuel' =>
      '(f, more, h, w) <- inbound_round h request_id w ;;
      match f with
      | Return r => Ok (Return r, h, w)
      | Continue => if more : bool then inbound_rounds fuel' h request_id w else Ok (Continue, h, w)
      end
  end.

Fixpoint drive_inbound (ids : list Z) h (w : W) : polled :=
  match ids with
  | [] => Ok (Continue, h, w)
  | id :: ids' =>
      andthen (inbound_rounds (S (length (default [] (queued_outbound_items h !! id)))) h id w)
        (drive_inbound ids')
  end.

Definition outbound_round h (request_id : Z) (w : W) : polled :=
  match outbound_substreams h !! request_id with
  | None => Panic
  | Some (state, key) =>
      let store s q h := set_outbound (<[request_id := (s, key)]> (outbound_substreams h)) q h in
      let drop_stream h :=
        q <- dq_remove (outbound_substreams_delay h) key ;;
        Ok (set_outbound (delete request_id (outbound_substreams h)) q h) in
      match state with
      | RequestPendingResponse substream request =>
          let '(r, substream, w) := out_poll substream w in
          match r with
          | Item response =>
              if request_multiple request && negb (is_error response) then
                '(q, w) <- dq_reset (outbound_substreams_delay h) key RESPONSE_TIMEOUT w ;;
                Ok (Return (CustomEvent (Response request_id response)),
                    store (RequestPendingResponse substream request) q h, w)
              else
                Ok (Return (CustomEvent (Response request_id response)),
                    store (OutClosing substream) (outbound_substreams_delay h) h, w)
          | Finished =>
              h <- drop_stream h ;;
              if request_multiple request then
                t <- stream_termination request ;;
                Ok (Return (CustomEvent (Response request_id (StreamTermination t))), h, w)
              else
                Ok (Return (CustomEvent (Error request_id (Custom (str "Stream closed early. Empty response")))), h, w)
          | Pending =>
              Ok (Continue, store (RequestPendingResponse substream request) (outbound_substreams_delay h) h, w)
          | StreamErr e =>
              h <- drop_stream h ;; Ok (Return (CustomEvent (Error request_id e)), h, w)
          end
      | OutClosing substream =>
          let '(r, w) := out_close substream w in
          match r with
          | None => h <- drop_stream h ;; Ok (Continue, h, w)
          | Some substream => Ok (Continue, store (OutClosing substream) (outbound_substreams_delay h) h, w)
          end
      | OutPoisoned => Panic
      end
  end.

Fixpoint drive_outbound (ids : list Z) h (w : W) : polled :=
  match ids with
  | [] => Ok (Continue, h, w)
  | id :: ids' => andthen (outbound_round h id w) (drive_outbound ids')
  end.

Definition establish h (w : W) : polled :=
  match dial_queue h with
  | rpc_event :: rest =>
      if dial_negotiated h <? max_dial_negotiated h then
        n <- u_add ck 32 (dial_negotiated h) 1 ;;
        let h := set_dial rest n h in
        match rpc_event with
        | Request id req => Ok (Return (OutboundSubstreamRequest req (Request id req)), h, w)
        | _ => Ok (Continue, h, w)
        end
      else Ok (Continue, h, w)
  | [] => Ok (Continue, h, w)
  end.

Definition poll h (w : W) : outcome unit (PollOut * RPCHandler * W) :=
  match pending_error h with
  | Some (request_id, err) =>
      Ok (CustomEvent (Error request_id (report err)), set_pending_error None h, w)
  | None =>
      match events_out h with
      | e :: rest => Ok (CustomEvent e, set_events_out rest h, w)
      | [] =>
          '(f, h, w) <-
            andthen (purge_inbound (S (length (live (inbound_substreams_delay h)))) h w) (fun h w =>
            andthen (purge_outbound h w) (fun h w =>
            andthen (drive_inbound (hash_order (map_to_list (inbound_substreams h)).*1) h w) (fun h w =>
            andthen (drive_outbound (hash_order (map_to_list (outbound_substreams h)).*1) h w)
            establish))) ;;
          Ok (match f with Return r => r | Continue => NotReady end, h, w)
      end
  end.
End Handler.
Arguments RPCHandler {W Cid ext_error T}.
Arguments PollOut : clear implicits.
Arguments flow : clear implicits.
End Handler.
