(* ===== verification/RpcTheorems.v ===== *)
(** * The RPC handler under the calls of a swarm

    A system is a handler with the dials the swarm has in flight for it.  The
    invariant of its runs gives that no call panics or runs out of fuel, that a
    substream that has begun to close never carries responses again, and what
    becomes of the dial slots. *)

From Stdlib Require Import ZArith Lia String.
From stdpp Require Import base numbers gmap list relations.
From S2P Require Import Prelude RpcHandler.

Local Open Scope Z_scope.

Module RpcTheorems.
Import Handler.

Section Theorems.
Context {W Cid ext_error : Type} `{T : RpcEnv W Cid ext_error} `{!RpcEnvLaws T} (ck : bool).
Implicit Types h : RPCHandler.
Implicit Types w : W.
Abbreviation polled := (outcome unit (flow Cid ext_error * RPCHandler * W)).

(** ** The substreams *)

(** A timer is held by at most the substream of its id. *)
Record hinv h : Prop := {
  hinv_in id s key : inbound_substreams h !! id = Some (s, key) ->
    s <> InPoisoned /\ id < current_inbound_substream_id h /\
    forall k, key = Some k -> (k, id) ∈ live (inbound_substreams_delay h);
  hinv_out id s k : outbound_substreams h !! id = Some (s, k) ->
    s <> OutPoisoned /\ (k, id) ∈ live (outbound_substreams_delay h);
}.

(** How far an inbound substream has come on its way to be closed. *)
Definition srank (s : InboundSubstreamState) : Z :=
  match s with
  | ResponseIdle _ => 0
  | ResponsePendingSend _ closing => if closing then 1 else 0
  | InClosing _ => 2
  | InPoisoned => 3
  end.
Definition orank (o : option InboundSubstreamState) : Z := match o with Some s => srank s | None => 3 end.

(** The state of an inbound substream; none once it is gone. *)
Definition substate h (id : Z) : option InboundSubstreamState := fst <$> inbound_substreams h !! id.
Definition rank h (id : Z) : Z := orank (substate h id).

(** What a substream that is to be closed can still do: the response it has
    taken is polled until it is sent or fails, then the stream is closed.  No
    rule hands it another response. *)
Inductive closing_step : option InboundSubstreamState -> option InboundSubstreamState -> Prop :=
| still_sending x y w w' : send_poll x w = (SendNotReady y, w') ->
    closing_step (Some (ResponsePendingSend x true)) (Some (ResponsePendingSend y true))
| all_sent x f w w' : send_poll x w = (SendReady f, w') ->
    closing_step (Some (ResponsePendingSend x true)) (Some (InClosing f))
| not_sent x e w w' : send_poll x w = (SendErr e, w') ->
    closing_step (Some (ResponsePendingSend x true)) None
| still_open f f' w w' : in_close f w = (Some f', w') -> closing_step (Some (InClosing f)) (Some (InClosing f'))
| closed f w w' : in_close f w = (None, w') -> closing_step (Some (InClosing f)) None.

(** Towards the end, and once it is to be closed only by these steps. *)
Definition forward (o o' : option InboundSubstreamState) : Prop :=
  orank o <= orank o' /\ (1 <= orank o -> rtc closing_step o o').

Lemma srank_bound s : 0 <= srank s <= 3.
Proof. destruct s as [? []| | |]; cbn; lia. Qed.

#[local] Instance forward_preorder : PreOrder forward.
Proof.
  split.
  - intros o. split; [lia|]. intros _. apply rtc_refl.
  - intros o1 o2 o3 [Ha Hb] [Hc Hd]. split; [lia|]. intros Hr. etrans; [by apply Hb|]. apply Hd. lia.
Qed.

(** Before that a substream may go anywhere. *)
Lemma forward_free o o' : orank o = 0 -> forward o o'.
Proof. intros Hr. split; [rewrite Hr; destruct o'; cbn; [apply srank_bound|lia]|lia]. Qed.

Lemma forward_step o o' : orank o <= orank o' -> closing_step o o' -> forward o o'.
Proof. intros Hr Hs. split; [done|]. intros _. by apply rtc_once. Qed.

(** What a stretch of [poll] leaves alone. *)
Record keeps h h' : Prop := {
  keeps_dial : dial_queue h' = dial_queue h /\ dial_negotiated h' = dial_negotiated h /\
    max_dial_negotiated h' = max_dial_negotiated h;
  keeps_id : current_inbound_substream_id h' = current_inbound_substream_id h;
  keeps_retries : outbound_io_error_retries h' = outbound_io_error_retries h;
  keeps_sub id : forward (substate h id) (substate h' id);
}.

Lemma keeps_refl h : keeps h h.
Proof. by split. Qed.

Lemma keeps_trans h1 h2 h3 : keeps h1 h2 -> keeps h2 h3 -> keeps h1 h3.
Proof.
  intros [(Ha & Hb & Hc) Hd He Hf] [(Ia & Ib & Ic) Id Ie If]. split; [|congruence|congruence|].
  - split; [congruence|]. split; congruence.
  - intros id. etrans; [apply Hf|apply If].
Qed.

Definition not_dial (f : flow Cid ext_error) : Prop :=
  forall p i, f <> Return (OutboundSubstreamRequest p i).

(** A stretch of [poll] started in [h] succeeds and keeps the invariant. *)
Definition stretch (m : polled) h : Prop :=
  exists f h' w', m = Ok (f, h', w') /\ hinv h' /\ keeps h h' /\ not_dial f.

Lemma stretch_andthen m k h :
  stretch m h -> (forall h' w', hinv h' -> keeps h h' -> stretch (k h' w') h') -> stretch (andthen m k) h.
Proof.
  intros (f & h' & w' & -> & Hi & Hk & Hn) Hnext. unfold andthen. cbn [bind].
  destruct f as [r|]; [by exists (Return r), h', w'|].
  destruct (Hnext h' w' Hi Hk) as (g & h2 & w2 & -> & Hi2 & Hk2 & Hn2).
  exists g, h2, w2. eauto using keeps_trans.
Qed.

(** Changing one inbound substream. *)
Lemma substate_some h id s key : inbound_substreams h !! id = Some (s, key) -> substate h id = Some s.
Proof. unfold substate. by intros ->. Qed.

Lemma sub_insert h id s key q id' :
  forward (substate h id) (Some s) ->
  forward (substate h id') (substate (set_inbound (<[id := (s, key)]> (inbound_substreams h)) q h) id').
Proof.
  intros Hf. unfold substate in *. cbn. destruct (decide (id = id')) as [<-|Hne].
  - by rewrite lookup_insert_eq.
  - by rewrite lookup_insert_ne.
Qed.

Lemma sub_delete h id q id' :
  forward (substate h id) None ->
  forward (substate h id') (substate (set_inbound (delete id (inbound_substreams h)) q h) id').
Proof.
  intros Hf. unfold substate in *. cbn. destruct (decide (id = id')) as [<-|Hne].
  - by rewrite lookup_delete_eq.
  - by rewrite lookup_delete_ne.
Qed.

Lemma keeps_insert h id s key q :
  forward (substate h id) (Some s) -> keeps h (set_inbound (<[id := (s, key)]> (inbound_substreams h)) q h).
Proof. intros Hr. split; try done. intros id'. by apply sub_insert. Qed.

Lemma keeps_delete h id q :
  forward (substate h id) None -> keeps h (set_inbound (delete id (inbound_substreams h)) q h).
Proof. intros Hr. split; try done. intros id'. by apply sub_delete. Qed.

Lemma keeps_queued h q : keeps h (set_queued q h).
Proof. by split. Qed.

Lemma keeps_outbound h m q : keeps h (set_outbound m q h).
Proof. by split. Qed.

Lemma hinv_queued h q : hinv h -> hinv (set_queued q h).
Proof. intros [Hi Ho]. by split. Qed.

(** The timers of the other substreams survive. *)
Lemma hinv_in_timers h m q :
  hinv h ->
  (forall id s key, m !! id = Some (s, key) ->
     s <> InPoisoned /\ id < current_inbound_substream_id h /\
     forall k, key = Some k -> (k, id) ∈ live q) ->
  hinv (set_inbound m q h).
Proof. intros [_ Ho] Hm. split; [exact Hm|exact Ho]. Qed.

Lemma live_other {q q' : DelayQueue} {k : DelayKey} {id : Z} k' id' :
  live q ≡ₚ (k, id) :: live q' -> (k', id') ∈ live q -> id' <> id -> (k', id') ∈ live q'.
Proof. intros Hp Hin Hne. rewrite Hp in Hin. apply elem_of_cons in Hin as [[= _ ?]|]; done. Qed.

Lemma hinv_in_insert h id s key :
  hinv h -> s <> InPoisoned -> (exists s0, inbound_substreams h !! id = Some (s0, key)) ->
  hinv (set_inbound (<[id := (s, key)]> (inbound_substreams h)) (inbound_substreams_delay h) h).
Proof.
  intros Hi Hs [s0 H0]. apply hinv_in_timers; [done|]. intros id' s' key'.
  destruct (decide (id = id')) as [<-|Hne].
  - rewrite lookup_insert_eq. intros [= <- <-]. split; [done|]. by eapply hinv_in.
  - rewrite lookup_insert_ne by done. by apply hinv_in.
Qed.

Lemma hinv_in_delete h id key s :
  hinv h -> inbound_substreams h !! id = Some (s, key) ->
  exists q, remove_timer (inbound_substreams_delay h) key = Ok q /\
    hinv (set_inbound (delete id (inbound_substreams h)) q h).
Proof.
  intros Hi H0. destruct (hinv_in _ Hi _ _ _ H0) as (_ & _ & Hkey).
  assert (Hq : exists q, remove_timer (inbound_substreams_delay h) key = Ok q /\
    forall k' id', (k', id') ∈ live (inbound_substreams_delay h) -> id' <> id -> (k', id') ∈ live q).
  { destruct key as [k|]; [|by eexists].
    destruct (live_remove _ k id (Hkey k eq_refl)) as (q & Hq & Hp).
    exists q. split; [done|]. intros k' id'. apply (live_other k' id' Hp). }
  destruct Hq as (q & Hq & Hlive). exists q. split; [done|]. apply hinv_in_timers; [done|].
  intros id' s' key' [Hne Hid']%lookup_delete_Some.
  destruct (hinv_in _ Hi _ _ _ Hid') as (Hs & Hlt & Hk). split; [done|]. split; [done|].
  intros k Hkk. apply Hlive; [by apply Hk|done].
Qed.

(** ** Purging *)
Lemma close_spec s q w :
  s <> InPoisoned ->
  exists s' q' w', close s q w = Ok (s', q', w') /\ s' <> InPoisoned /\ forward (Some s) (Some s').
Proof.
  intros Hs. destruct s as [x c|x|x|]; cbn; [| | |done].
  - eexists _, _, _. split; [done|]. done.
  - destruct (in_poll_closed x w) as [[[] y] w']; eexists _, _, _; (split; [done|]); (split; [done|]); by apply forward_free.
  - eexists _, _, _. split; [done|]. done.
Qed.

Lemma hinv_pop h id k q :
  hinv h -> live (inbound_substreams_delay h) ≡ₚ (k, id) :: live q ->
  (forall key s, inbound_substreams h !! id = Some (s, key) -> key = None) ->
  hinv (set_inbound (inbound_substreams h) q h).
Proof.
  intros Hi Hp Hn. apply hinv_in_timers; [done|]. intros id' s key Hid.
  destruct (hinv_in _ Hi _ _ _ Hid) as (Hs & Hlt & Hk). split; [done|]. split; [done|].
  intros k' ->. apply (live_other k' id' Hp); [by apply Hk|]. intros ->. by specialize (Hn _ _ Hid).
Qed.

Lemma hinv_set_timer h id s key :
  hinv h -> inbound_substreams h !! id = Some (s, key) -> forall s', s' <> InPoisoned ->
  hinv (set_inbound (<[id := (s', None)]> (inbound_substreams h)) (inbound_substreams_delay h) h).
Proof.
  intros Hi Hid s' Hs'. apply hinv_in_timers; [done|]. intros id' s0 key0.
  destruct (decide (id = id')) as [<-|Hne].
  - rewrite lookup_insert_eq. intros [= <- <-]. split; [done|]. split; [by eapply hinv_in|done].
  - rewrite lookup_insert_ne by done. by apply hinv_in.
Qed.

Lemma hinv_poll_other h r q w w' :
  hinv h -> dq_poll (inbound_substreams_delay h) w = (r, q, w') ->
  (forall id, r <> Item id) -> hinv (set_inbound (inbound_substreams h) q h).
Proof.
  intros Hi Hp Hr. apply live_poll in Hp.
  assert (Hq : live q ≡ₚ live (inbound_substreams_delay h)) by (by destruct r; [destruct (Hr a)|..]).
  apply hinv_in_timers; [done|]. intros id s key Hid.
  destruct (hinv_in _ Hi _ _ _ Hid) as (Hs & Hlt & Hk). split; [done|]. split; [done|].
  intros k ->. rewrite Hq. by apply Hk.
Qed.

Lemma purge_inbound_ok fuel h w :
  hinv h -> (length (live (inbound_substreams_delay h)) < fuel)%nat -> stretch (purge_inbound fuel h w) h.
Proof.
  revert h w. induction fuel as [|fuel IH]; intros h w Hi Hf; [lia|]. cbn [purge_inbound].
  destruct (dq_poll _ w) as [[r q] w1] eqn:Hp. pose proof (live_poll _ _ _ _ _ Hp) as Hl.
  destruct r as [id| | |e].
  2,3: eexists Continue, _, _; split; [done|]; split; [by eapply hinv_poll_other|]; by split.
  2: eexists (Return TimerFailed), _, _; split; [done|]; split; [by eapply hinv_poll_other|]; by split.
  destruct Hl as [k Hl]. assert (Hlen : (length (live q) < fuel)%nat)
    by (rewrite Hl in Hf; cbn in Hf; lia).
  cbn [inbound_substreams set_inbound queued_outbound_items].
  destruct (inbound_substreams h !! id) as [[s key]|] eqn:Hid.
  - destruct (hinv_in _ Hi _ _ _ Hid) as (Hs & _ & _).
    destruct (close_spec s (default [] (queued_outbound_items h !! id)) w1 Hs)
      as (s' & q' & w2 & -> & Hs' & Hrank). cbn [bind].
    set (h1 := set_inbound (<[id := (s', None)]> (inbound_substreams h)) (inbound_substreams_delay h) h).
    assert (Hi1 : hinv h1) by (by eapply hinv_set_timer).
    set (h2 := set_inbound (inbound_substreams h1) q h1).
    assert (Hi2 : hinv h2).
    { eapply hinv_pop; [done|exact Hl|]. cbn. intros key0 s0. rewrite lookup_insert_eq. congruence. }
    change (stretch (purge_inbound fuel (set_queued (<[id := q']> (queued_outbound_items h)) h2) w2) h).
    destruct (IH (set_queued (<[id := q']> (queued_outbound_items h)) h2) w2) as (f & h3 & w3 & He & Hi3 & Hk3 & Hn3);
      [by apply hinv_queued|done|].
    exists f, h3, w3. split; [done|]. split; [done|]. split; [|done].
    eapply keeps_trans; [|exact Hk3]. eapply keeps_trans; [|apply keeps_queued].
    apply (keeps_insert h id s' None q). by rewrite (substate_some _ _ _ _ Hid).
  - destruct (IH (set_inbound (inbound_substreams h) q h) w1) as (f & h3 & w3 & He & Hi3 & Hk3 & Hn3);
      [eapply hinv_pop; [done|exact Hl|congruence]|done|].
    exists f, h3, w3. split; [done|]. split; [done|]. split; [|done].
    eapply keeps_trans; [|exact Hk3]. by split.
Qed.

Lemma hinv_out_timers h m q :
  hinv h ->
  (forall id s k, m !! id = Some (s, k) -> s <> OutPoisoned /\ (k, id) ∈ live q) ->
  hinv (set_outbound m q h).
Proof. intros [Hi _] Hm. split; [exact Hi|exact Hm]. Qed.

Lemma purge_outbound_ok h w : hinv h -> stretch (purge_outbound h w) h.
Proof.
  intros Hi. unfold purge_outbound. destruct (dq_poll _ w) as [[r q] w1] eqn:Hp.
  apply live_poll in Hp. destruct r as [id| | |e].
  - destruct Hp as [k Hp]. eexists _, _, _. split; [done|].
    split; [|split; [by split|done]]. apply (hinv_out_timers h (delete id (outbound_substreams h)) q); [done|].
    intros id' s k' [Hne Hid]%lookup_delete_Some.
    destruct (hinv_out _ Hi _ _ _ Hid) as [Hs Hk]. split; [done|]. by apply (live_other k' id' Hp).
  - eexists _, _, _. split; [done|]. split; [|split; [by split|done]].
    apply hinv_out_timers; [done|]. intros id s k Hid. rewrite Hp. by apply (hinv_out _ Hi).
  - eexists _, _, _. split; [done|]. split; [|split; [by split|done]].
    apply hinv_out_timers; [done|]. intros id s k Hid. rewrite Hp. by apply (hinv_out _ Hi).
  - eexists _, _, _. split; [done|]. split; [|split; [by split|done]].
    apply hinv_out_timers; [done|]. intros id s k Hid. rewrite Hp. by apply (hinv_out _ Hi).
Qed.

(** ** Driving the inbound substreams *)
Definition qlen h (id : Z) : nat := length (default [] (queued_outbound_items h !! id)).

(** What a round does outside of its own substream: nothing. *)
Definition only (id : Z) h h' : Prop :=
  forall id', id' <> id -> inbound_substreams h' !! id' = inbound_substreams h !! id'.

Lemma only_insert h id x q : only id h (set_inbound (<[id := x]> (inbound_substreams h)) q h).
Proof. intros id' Hne. cbn. by rewrite lookup_insert_ne. Qed.

Lemma only_delete h id q : only id h (set_inbound (delete id (inbound_substreams h)) q h).
Proof. intros id' Hne. cbn. by rewrite lookup_delete_ne. Qed.

(** The result of one round. *)
Definition round_ok (id : Z) h (m : outcome unit (flow Cid ext_error * bool * RPCHandler * W)) : Prop :=
  exists f more h' w', m = Ok (f, more, h', w') /\ hinv h' /\ keeps h h' /\ not_dial f /\ only id h h' /\
    (more = true -> is_Some (inbound_substreams h' !! id) /\ qlen h id = S (qlen h' id)).

Lemma round_ok_store id h s s0 key w :
  hinv h -> inbound_substreams h !! id = Some (s0, key) -> s <> InPoisoned -> forward (Some s0) (Some s) ->
  round_ok id h (Ok (Continue, false,
    set_inbound (<[id := (s, key)]> (inbound_substreams h)) (inbound_substreams_delay h) h, w)).
Proof.
  intros Hi Hid Hs Hr. eexists _, _, _, _. split; [done|].
  split; [apply hinv_in_insert; eauto|]. split; [apply keeps_insert; by rewrite (substate_some _ _ _ _ Hid)|].
  split; [done|]. split; [apply only_insert|done].
Qed.

Lemma next_response_ok id h raw s0 key w :
  hinv h -> inbound_substreams h !! id = Some (s0, key) -> srank s0 = 0 ->
  round_ok id h (let '(more, h) := next_response h id raw key in Ok (Continue, more, h, w)).
Proof.
  intros Hi Hid Hr. unfold next_response.
  assert (Hgo : forall s queue, s <> InPoisoned ->
    let h' := set_queued (set_queue (queued_outbound_items h) id queue) h in
    let h'' := set_inbound (<[id := (s, key)]> (inbound_substreams h')) (inbound_substreams_delay h') h' in
    hinv h'' /\ keeps h h'' /\ only id h h'').
  { intros s queue Hs h' h''. split; [|split].
    - apply hinv_in_insert; [by apply hinv_queued|done|by eauto].
    - eapply keeps_trans; [apply keeps_queued|]. apply keeps_insert.
      change (forward (substate h id) (Some s)). rewrite (substate_some _ _ _ _ Hid). by apply forward_free.
    - apply (only_insert h' id). }
  destruct (apply_queued_responses _ _) as [[s queue] more] eqn:Ha.
  assert (Hs : s <> InPoisoned /\ (more = true -> exists c rest,
    queued_outbound_items h !! id = Some (c :: rest) /\ queue = Some rest)).
  { unfold apply_queued_responses in Ha.
    destruct (queued_outbound_items h !! id) as [[|c rest]|]; [by injection Ha as <- <- <-| |by injection Ha as <- <- <-].
    destruct c; injection Ha as <- <- <-; (split; [done|]); intros _; by eexists _, _. }
  destruct Hs as [Hs Hmore]. destruct (Hgo s queue Hs) as (Hi' & Hk' & Ho').
  eexists _, _, _, _. split; [done|]. split; [done|]. split; [done|]. split; [done|]. split; [done|].
  intros Hm. destruct (Hmore Hm) as (c & rest & Hq & ->). cbn. split.
  - rewrite lookup_insert_eq. by eexists.
  - unfold qlen. cbn. by rewrite Hq, lookup_insert_eq.
Qed.

Lemma inbound_round_ok h id w :
  hinv h -> is_Some (inbound_substreams h !! id) -> round_ok id h (inbound_round h id w).
Proof.
  intros Hi [[s key] Hid]. unfold inbound_round. rewrite Hid.
  destruct (hinv_in _ Hi _ _ _ Hid) as (Hs & _ & _).
  destruct s as [x closing|x|x|]; [| | |done].
  - destruct (send_poll x w) as [[f|y|e] w1] eqn:Hsend.
    + destruct closing; [|by eapply next_response_ok]. eapply round_ok_store; try done.
      by eapply forward_step, all_sent.
    + eapply round_ok_store; try done. destruct closing; [by eapply forward_step, still_sending|by apply forward_free].
    + destruct (hinv_in_delete h id key _ Hi Hid) as (q & -> & Hi'). cbn [bind].
      eexists _, _, _, _. split; [done|]. split; [done|]. split.
      { apply keeps_delete. rewrite (substate_some _ _ _ _ Hid).
        destruct closing; [by eapply forward_step, not_sent|by apply forward_free]. }
      split; [done|]. split; [apply only_delete|done].
  - by eapply next_response_ok.
  - destruct (in_close x w) as [[y|] w1] eqn:Hclose.
    + eapply round_ok_store; try done. by eapply forward_step, still_open.
    + destruct (hinv_in_delete h id key _ Hi Hid) as (q & -> & Hi'). cbn [bind].
      eexists _, _, _, _. split; [done|]. split; [exact (hinv_queued _ _ Hi')|].
      split; [eapply keeps_trans; [apply keeps_queued|apply keeps_delete]|].
      { change (forward (substate h id) None). rewrite (substate_some _ _ _ _ Hid). by eapply forward_step, closed. }
      split; [done|]. split; [|done]. apply (only_delete (set_queued _ h)).
Qed.

Lemma only_trans id h1 h2 h3 : only id h1 h2 -> only id h2 h3 -> only id h1 h3.
Proof. intros Ha Hb id' Hne. by rewrite (Hb id' Hne), (Ha id' Hne). Qed.

Lemma inbound_rounds_ok fuel h id w :
  hinv h -> is_Some (inbound_substreams h !! id) -> (qlen h id < fuel)%nat ->
  exists f h' w', inbound_rounds fuel h id w = Ok (f, h', w') /\ hinv h' /\ keeps h h' /\ not_dial f /\
    only id h h'.
Proof.
  revert h w. induction fuel as [|fuel IH]; intros h w Hi Hid Hq; [lia|]. cbn [inbound_rounds].
  destruct (inbound_round_ok h id w Hi Hid) as (f & more & h1 & w1 & -> & Hi1 & Hk1 & Hn1 & Ho1 & Hm).
  cbn [bind]. destruct f as [r|]; [by eexists _, _, _|].
  destruct more; [|by eexists _, _, _]. destruct (Hm eq_refl) as [Hid1 Hlen].
  destruct (IH h1 w1 Hi1 Hid1) as (f & h2 & w2 & He & Hi2 & Hk2 & Hn2 & Ho2); [lia|].
  exists f, h2, w2. eauto 10 using keeps_trans, only_trans.
Qed.

Lemma drive_inbound_ok ids h w :
  hinv h -> NoDup ids -> (forall id, id ∈ ids -> is_Some (inbound_substreams h !! id)) ->
  stretch (drive_inbound ids h w) h.
Proof.
  revert h w. induction ids as [|id ids IH]; intros h w Hi Hd Hin.
  { eexists _, _, _. split; [done|]. split; [done|]. by split; [apply keeps_refl|]. }
  apply NoDup_cons in Hd as [Hni Hd]. cbn [drive_inbound].
  destruct (inbound_rounds_ok (S (qlen h id)) h id w Hi) as (f & h1 & w1 & He & Hi1 & Hk1 & Hn1 & Ho1);
    [apply Hin; by left|lia|].
  unfold qlen in He. rewrite He. unfold andthen. cbn [bind].
  destruct f as [r|]; [by eexists _, _, _|].
  destruct (IH h1 w1 Hi1 Hd) as (f & h2 & w2 & -> & Hi2 & Hk2 & Hn2).
  { intros id' Hid'. rewrite Ho1 by (intros ->; done). apply Hin. by right. }
  exists f, h2, w2. eauto using keeps_trans.
Qed.

(** ** Driving the outbound substreams *)
Definition only_out (id : Z) h h' : Prop :=
  forall id', id' <> id -> outbound_substreams h' !! id' = outbound_substreams h !! id'.

Lemma hinv_out_insert h id s k q :
  hinv h -> s <> OutPoisoned -> live q ≡ₚ live (outbound_substreams_delay h) ->
  (k, id) ∈ live (outbound_substreams_delay h) ->
  hinv (set_outbound (<[id := (s, k)]> (outbound_substreams h)) q h).
Proof.
  intros Hi Hs Hq Hk. apply hinv_out_timers; [done|]. intros id' s' k'. rewrite Hq.
  destruct (decide (id = id')) as [<-|Hne].
  - rewrite lookup_insert_eq. by intros [= <- <-].
  - rewrite lookup_insert_ne by done. by apply (hinv_out _ Hi).
Qed.

Lemma hinv_out_delete h id k :
  hinv h -> (k, id) ∈ live (outbound_substreams_delay h) ->
  exists q, dq_remove (outbound_substreams_delay h) k = Ok q /\
    hinv (set_outbound (delete id (outbound_substreams h)) q h).
Proof.
  intros Hi Hk. destruct (live_remove _ k id Hk) as (q & Hq & Hp). exists q. split; [done|].
  apply hinv_out_timers; [done|]. intros id' s' k' [Hne Hid']%lookup_delete_Some.
  destruct (hinv_out _ Hi _ _ _ Hid') as [Hs Hk']. split; [done|]. by apply (live_other k' id' Hp).
Qed.

Lemma only_out_insert h id x q : only_out id h (set_outbound (<[id := x]> (outbound_substreams h)) q h).
Proof. intros id' Hne. cbn. by rewrite lookup_insert_ne. Qed.

Lemma only_out_delete h id q : only_out id h (set_outbound (delete id (outbound_substreams h)) q h).
Proof. intros id' Hne. cbn. by rewrite lookup_delete_ne. Qed.

Definition out_round_ok (id : Z) h (m : polled) : Prop :=
  exists f h' w', m = Ok (f, h', w') /\ hinv h' /\ keeps h h' /\ not_dial f /\ only_out id h h'.

Lemma out_round_store id h s k q f w :
  hinv h -> s <> OutPoisoned -> live q ≡ₚ live (outbound_substreams_delay h) ->
  (k, id) ∈ live (outbound_substreams_delay h) -> not_dial f ->
  out_round_ok id h (Ok (f, set_outbound (<[id := (s, k)]> (outbound_substreams h)) q h, w)).
Proof.
  intros Hi Hs Hq Hk Hf. eexists _, _, _. split; [done|].
  split; [by apply hinv_out_insert|]. split; [apply keeps_outbound|]. split; [done|apply only_out_insert].
Qed.

Lemma out_round_drop id h q f w :
  hinv (set_outbound (delete id (outbound_substreams h)) q h) -> not_dial f ->
  out_round_ok id h (Ok (f, set_outbound (delete id (outbound_substreams h)) q h, w)).
Proof.
  intros Hi Hf. eexists _, _, _. split; [done|]. split; [done|].
  split; [apply keeps_outbound|]. split; [done|apply only_out_delete].
Qed.

Lemma outbound_round_ok h id w :
  hinv h -> is_Some (outbound_substreams h !! id) -> out_round_ok id h (outbound_round h id w).
Proof.
  intros Hi [[s k] Hid]. unfold outbound_round. rewrite Hid.
  destruct (hinv_out _ Hi _ _ _ Hid) as [Hs Hk].
  destruct (hinv_out_delete h id k Hi Hk) as (q & Hq & Hdel). rewrite Hq.
  destruct s as [x request|x|]; [| |done].
  - destruct (out_poll x w) as [[r y] w1]. destruct r as [response| | |e]; cbn [bind].
    + destruct (request_multiple request && negb (is_error response)).
      * destruct (live_reset _ k id RESPONSE_TIMEOUT w1 Hk) as (q' & w2 & -> & Hq'). cbn [bind].
        by apply out_round_store.
      * by apply out_round_store.
    + destruct request; cbn [request_multiple stream_termination bind]; by apply out_round_drop.
    + by apply out_round_store.
    + by apply out_round_drop.
  - destruct (out_close x w) as [[y|] w1]; cbn [bind]; [by apply out_round_store|by apply out_round_drop].
Qed.

Lemma drive_outbound_ok ids h w :
  hinv h -> NoDup ids -> (forall id, id ∈ ids -> is_Some (outbound_substreams h !! id)) ->
  stretch (drive_outbound ids h w) h.
Proof.
  revert h w. induction ids as [|id ids IH]; intros h w Hi Hd Hin.
  { eexists _, _, _. split; [done|]. split; [done|]. by split; [apply keeps_refl|]. }
  apply NoDup_cons in Hd as [Hni Hd]. cbn [drive_outbound].
  destruct (outbound_round_ok h id w Hi) as (f & h1 & w1 & -> & Hi1 & Hk1 & Hn1 & Ho1); [apply Hin; by left|].
  unfold andthen. cbn [bind]. destruct f as [r|]; [by eexists _, _, _|].
  destruct (IH h1 w1 Hi1 Hd) as (f & h2 & w2 & -> & Hi2 & Hk2 & Hn2).
  { intros id' Hid'. rewrite Ho1 by (intros ->; done). apply Hin. by right. }
  exists f, h2, w2. eauto using keeps_trans.
Qed.

(** ** [poll] *)
Lemma hash_order_keys {A} (m : gmap Z A) :
  NoDup (hash_order (map_to_list m).*1) /\
  forall id, id ∈ hash_order (map_to_list m).*1 -> is_Some (m !! id).
Proof.
  pose proof (hash_order_perm (map_to_list m).*1) as Hp. split.
  - rewrite Hp. apply NoDup_fst_map_to_list.
  - intros id. rewrite Hp. intros ([k x] & -> & Hk%elem_of_map_to_list)%list_elem_of_fmap. by eexists.
Qed.

(** Everything in [poll] before the dials either returns or goes on to them. *)
Lemma poll_prefix_ok h w (k : RPCHandler -> W -> polled) :
  hinv h ->
  exists o h' w', hinv h' /\ keeps h h' /\
    andthen (purge_inbound (S (length (live (inbound_substreams_delay h)))) h w) (fun h w =>
    andthen (purge_outbound h w) (fun h w =>
    andthen (drive_inbound (hash_order (map_to_list (inbound_substreams h)).*1) h w) (fun h w =>
    andthen (drive_outbound (hash_order (map_to_list (outbound_substreams h)).*1) h w) k)))
    = match o with Some r => Ok (Return r, h', w') | None => k h' w' end /\
    forall r, o = Some r -> not_dial (Return r).
Proof.
  intros Hi.
  destruct (purge_inbound_ok (S (length (live (inbound_substreams_delay h)))) h w Hi)
    as (f1 & h1 & w1 & -> & Hi1 & Hk1 & Hn1); [lia|].
  unfold andthen at 1. cbn [bind]. destruct f1 as [r|]; [exists (Some r), h1, w1; naive_solver|].
  destruct (purge_outbound_ok h1 w1 Hi1) as (f2 & h2 & w2 & -> & Hi2 & Hk2 & Hn2).
  pose proof (keeps_trans _ _ _ Hk1 Hk2) as K2.
  unfold andthen at 1. cbn [bind]. destruct f2 as [r|]; [exists (Some r), h2, w2; naive_solver|].
  destruct (hash_order_keys (inbound_substreams h2)) as [Hd Hin].
  destruct (drive_inbound_ok _ h2 w2 Hi2 Hd Hin) as (f3 & h3 & w3 & -> & Hi3 & Hk3 & Hn3).
  pose proof (keeps_trans _ _ _ K2 Hk3) as K3.
  unfold andthen at 1. cbn [bind]. destruct f3 as [r|]; [exists (Some r), h3, w3; naive_solver|].
  destruct (hash_order_keys (outbound_substreams h3)) as [Hd' Hin'].
  destruct (drive_outbound_ok _ h3 w3 Hi3 Hd' Hin') as (f4 & h4 & w4 & -> & Hi4 & Hk4 & Hn4).
  pose proof (keeps_trans _ _ _ K3 Hk4) as K4.
  unfold andthen. cbn [bind]. destruct f4 as [r|]; [exists (Some r), h4, w4; naive_solver|].
  exists None, h4, w4. done.
Qed.

(** What [poll] does to the dials: at most one is started, and only while a slot is free. *)
Definition dial_effect h h' (r : PollOut Cid ext_error) : Prop :=
  match r with
  | OutboundSubstreamRequest p i =>
      (exists id, i = Request id p) /\ dial_queue h = i :: dial_queue h' /\
      dial_negotiated h < max_dial_negotiated h /\ dial_negotiated h' = dial_negotiated h + 1
  | _ => dial_queue h' = dial_queue h /\ dial_negotiated h' = dial_negotiated h
  end.

Definition is_request (e : RPCEvent Cid ext_error) : Prop := exists id r, e = Request id r.

Lemma poll_ok h w :
  hinv h -> 0 <= dial_negotiated h -> max_dial_negotiated h = 8 -> Forall is_request (dial_queue h) ->
  exists r h' w', poll ck h w = Ok (r, h', w') /\ hinv h' /\ dial_effect h h' r /\
    max_dial_negotiated h' = 8 /\
    current_inbound_substream_id h' = current_inbound_substream_id h /\
    outbound_io_error_retries h' = outbound_io_error_retries h /\
    forall id, forward (substate h id) (substate h' id).
Proof.
  intros Hi Hd Hmax Hreq. unfold poll. destruct (pending_error h) as [[rid err]|].
  { eexists _, _, _. split; [done|]. split; [by destruct Hi; split|]. done. }
  destruct (events_out h) as [|e rest].
  2: { eexists _, _, _. split; [done|]. split; [by destruct Hi; split|]. done. }
  destruct (poll_prefix_ok h w (establish ck) Hi) as (o & h' & w' & Hi' & Hk & -> & Hn).
  destruct Hk as [(Hq & Hneg & Hmx) Hid Hret Hrank]. destruct o as [r|].
  { eexists _, _, _. split; [done|]. split; [done|]. split; [|split; [congruence|]; done].
    specialize (Hn r eq_refl). destruct r; try done. by destruct (Hn protocol info). }
  unfold establish. rewrite Hq, Hneg, Hmx, Hmax. destruct (dial_queue h) as [|ev rest] eqn:Hdq.
  { eexists _, _, _. split; [done|]. split; [done|]. split; [by split; congruence|]. split; [congruence|done]. }
  apply Forall_cons in Hreq as [(id & req & ->) _].
  destruct (Z.ltb_spec (dial_negotiated h) 8).
  - rewrite u_add_ok by lia. cbn [bind]. eexists _, _, _. split; [done|].
    split; [by destruct Hi'; split|]. split; [|split; [cbn; congruence|done]].
    cbn. rewrite Hdq, Hmax. eauto.
  - eexists _, _, _. split; [done|]. split; [done|]. split; [by split; congruence|]. split; [congruence|done].
Qed.

(** ** The handler and its swarm *)

(** The calls of the swarm; [Dialed] and [DialFailed] answer the [i]th dial in
    flight. *)
Inductive call :=
| Inbound (req : RPCRequest Cid) (substream : InFramed)
| Dialed (i : nat) (out : OutFramed)
| DialFailed (i : nat) (error : UpgrErr ext_error)
| Inject (e : RPCEvent Cid ext_error)
| Poll.

Record system := mkSystem {
  handler : RPCHandler; world : W; inflight : list (RPCEvent Cid ext_error); failed : Z }.

Definition start (timeout : Z) (w : W) : system := mkSystem (new timeout) w [] 0.

(** [Some r] is what [poll] returned. *)
Definition exec (s : system) (c : call) : outcome unit (option (PollOut Cid ext_error) * system) :=
  match c with
  | Inbound req substream =>
      '(h, w) <- inject_fully_negotiated_inbound ck (handler s) req substream (world s) ;;
      Ok (None, mkSystem h w (inflight s) (failed s))
  | Dialed i out =>
      match inflight s !! i with
      | Some e =>
          '(h, w) <- inject_fully_negotiated_outbound ck (handler s) out e (world s) ;;
          Ok (None, mkSystem h w (delete i (inflight s)) (failed s))
      | None => Ok (None, s)
      end
  | DialFailed i error =>
      match inflight s !! i with
      | Some e =>
          h <- inject_dial_upgrade_error ck (handler s) e error ;;
          Ok (None, mkSystem h (world s) (delete i (inflight s)) (failed s + 1))
      | None => Ok (None, s)
      end
  | Inject e => h <- inject_event (handler s) e ;; Ok (None, mkSystem h (world s) (inflight s) (failed s))
  | Poll =>
      '(r, h, w) <- poll ck (handler s) (world s) ;;
      Ok (Some r, mkSystem h w
            match r with OutboundSubstreamRequest _ i => inflight s ++ [i] | _ => inflight s end (failed s))
  end.

(** The ids of inbound requests are not used up: fewer than [2 ^ 64 - 2] requests came in. *)
Definition ids_left (s : system) : Prop := current_inbound_substream_id (handler s) + 1 < 2 ^ 64.

Inductive step : system -> system -> Prop :=
| step_exec s c r s' : ids_left s -> exec s c = Ok (r, s') -> step s s'.

Definition reachable (timeout : Z) (w : W) (s : system) : Prop := rtc step (start timeout w) s.

Record sinv (s : system) : Prop := {
  sinv_h : hinv (handler s);
  sinv_max : max_dial_negotiated (handler s) = 8;
  sinv_slots : dial_negotiated (handler s) = Z.of_nat (length (inflight s)) + failed s;
  sinv_bound : 0 <= failed s /\ dial_negotiated (handler s) <= 8;
  sinv_requests : Forall is_request (dial_queue (handler s)) /\ Forall is_request (inflight s);
  sinv_retries : 0 <= outbound_io_error_retries (handler s) < IO_ERROR_RETRIES;
}.

(** What every call achieves from a state with the invariant. *)
Definition call_ok (s : system) (c : call) : Prop :=
  exists r s', exec s c = Ok (r, s') /\ sinv s' /\
    (forall id, id < current_inbound_substream_id (handler s) -> forward (substate (handler s) id) (substate (handler s') id)) /\
    current_inbound_substream_id (handler s) <= current_inbound_substream_id (handler s') /\
    failed s <= failed s'.

Lemma sinv_start timeout w : sinv (start timeout w).
Proof.
  by split.
Qed.

(** A call that leaves the dials alone and only adds inbound substreams. *)
Record extends h h' : Prop := {
  ext_inv : hinv h';
  ext_dial : dial_queue h' = dial_queue h /\ dial_negotiated h' = dial_negotiated h /\
    max_dial_negotiated h' = max_dial_negotiated h;
  ext_retries : outbound_io_error_retries h' = outbound_io_error_retries h;
  ext_id : current_inbound_substream_id h <= current_inbound_substream_id h';
  ext_sub id : id < current_inbound_substream_id h -> forward (substate h id) (substate h' id);
}.

Lemma sinv_extends s h w :
  sinv s -> extends (handler s) h -> sinv (mkSystem h w (inflight s) (failed s)).
Proof.
  intros [Hi Hmax Hslots Hb Hreq Hret] [Hi' (Hq & Hn & Hm) Hr _ _]. split; cbn; try congruence;
    by rewrite ?Hn, ?Hq, ?Hr.
Qed.

Lemma store_inbound_ok h req sub w :
  hinv h -> current_inbound_substream_id h + 1 < 2 ^ 64 ->
  exists h' w', store_inbound ck h req sub w = Ok (h', w') /\ extends h h'.
Proof.
  intros Hi Hid. unfold store_inbound. destruct (dq_insert _ _ _ _) as [[k q] w'] eqn:Hins.
  apply live_insert in Hins as [Hl _]. rewrite u_add_ok by lia. cbn [bind].
  eexists _, _. split; [done|]. split; cbn; [|done|done|lia|].
  - split; [|apply (hinv_out _ Hi)]. cbn. intros id st key.
    destruct (decide (current_inbound_substream_id h = id)) as [<-|Hne].
    + rewrite lookup_insert_eq. intros [= <- <-]. split; [done|]. split; [lia|].
      intros k' [= <-]. rewrite Hl. by left.
    + rewrite lookup_insert_ne by done. intros Hid'.
      destruct (hinv_in _ Hi _ _ _ Hid') as (Hs' & Hlt & Hk). split; [done|]. split; [lia|].
      intros k' ->. rewrite Hl. right. by apply Hk.
  - intros id Hlt. unfold substate. cbn. by rewrite lookup_insert_ne by lia.
Qed.

Lemma inbound_ok s req sub : sinv s -> ids_left s -> call_ok s (Inbound req sub).
Proof.
  intros Hs Hid.
  assert (He : exists h w, inject_fully_negotiated_inbound ck (handler s) req sub (world s) = Ok (h, w) /\
                 extends (handler s) h).
  { unfold inject_fully_negotiated_inbound.
    assert (Hk : forall k, hinv (set_keep_alive k (handler s))) by (by destruct (sinv_h _ Hs); split).
    destruct req; try (destruct (keep_alive (handler s));
      [apply store_inbound_ok; [apply Hs|done]|
       edestruct store_inbound_ok as (h & w & -> & [? ? ? ? ?]); [apply Hk|done|eexists _, _; by split]]).
    eexists _, _. split; [done|]. destruct (sinv_h _ Hs). destruct (keep_alive _); by split. }
  destruct He as (h & w & He & Hext). unfold call_ok, exec. rewrite He. cbn [bind].
  eexists _, _. split; [done|]. split; [by apply sinv_extends|].
  split; [apply Hext|]. split; [apply Hext|done].
Qed.

Lemma sinv_poll s r h w :
  sinv s -> hinv h -> dial_effect (handler s) h r -> max_dial_negotiated h = 8 ->
  outbound_io_error_retries h = outbound_io_error_retries (handler s) ->
  sinv (mkSystem h w match r with OutboundSubstreamRequest _ i => inflight s ++ [i] | _ => inflight s end (failed s)).
Proof.
  intros [Hi Hmax Hslots Hb [Hq Hf] Hret] Hi' Hd Hm Hr.
  destruct r as [e|p i| |]; cbn in Hd.
  2: { destruct Hd as ([id ->] & Hdq & Hlt & Hn). rewrite Hdq in Hq. apply Forall_cons in Hq as [_ Hq].
       split; cbn; try congruence; try done.
       - rewrite length_app. cbn. lia.
       - lia.
       - split; [done|]. apply Forall_app. split; [done|]. apply Forall_singleton. by eexists _, _. }
  all: destruct Hd as [Hdq Hn]; split; cbn; try congruence; by rewrite ?Hn, ?Hdq, ?Hr.
Qed.

Lemma call_poll_ok s : sinv s -> call_ok s Poll.
Proof.
  intros Hs. destruct (poll_ok (handler s) (world s)) as (r & h & w & He & Hi & Hd & Hm & Hc & Hr & Hrk).
  1: apply Hs. 1: destruct (sinv_bound _ Hs); rewrite (sinv_slots _ Hs); lia. 1,2: apply Hs.
  unfold call_ok, exec. rewrite He. cbn [bind]. eexists _, _. split; [done|].
  split; [by apply sinv_poll|]. cbn. split; [intros id _; apply Hrk|]. lia.
Qed.

Lemma Forall_delete_at {A} (P : A -> Prop) (l : list A) i : Forall P l -> Forall P (delete i l).
Proof. rewrite delete_take_drop, Forall_app. intros Hl. split; [by apply Forall_take|by apply Forall_drop]. Qed.

Lemma length_delete_at {A} (l : list A) i x :
  l !! i = Some x -> Z.of_nat (length (delete i l)) = Z.of_nat (length l) - 1.
Proof.
  intros Hi. pose proof (lookup_lt_Some _ _ _ Hi).
  rewrite delete_take_drop, length_app, length_take, length_drop. lia.
Qed.

Lemma call_dialed_ok s i out : sinv s -> call_ok s (Dialed i out).
Proof.
  intros Hs. unfold call_ok, exec. destruct (inflight s !! i) as [e|] eqn:He;
    [|eexists _, _; split; [done|]; split; [done|]; split; [done|]; lia].
  pose proof Hs as [Hi Hmax Hslots Hb [Hq Hf] Hret].
  pose proof (length_delete_at _ _ _ He) as Hlen. pose proof (lookup_lt_Some _ _ _ He) as Hlt.
  unfold inject_fully_negotiated_outbound. rewrite u_sub_ok by lia. cbn [bind].
  set (h := if _ && _ then _ else _).
  assert (Hh : hinv h /\ dial_queue h = dial_queue (handler s) /\ dial_negotiated h = dial_negotiated (handler s) - 1 /\
    max_dial_negotiated h = 8 /\ outbound_io_error_retries h = outbound_io_error_retries (handler s) /\
    inbound_substreams h = inbound_substreams (handler s) /\
    current_inbound_substream_id h = current_inbound_substream_id (handler s))
    by (unfold h; destruct Hi; destruct (_ && _); by split).
  clearbody h. destruct Hh as (Hi' & Hq' & Hn' & Hm' & Hr' & Hin' & Hc').
  assert (Hgo : forall h2 w2, hinv h2 -> dial_queue h2 = dial_queue h -> dial_negotiated h2 = dial_negotiated h ->
    max_dial_negotiated h2 = max_dial_negotiated h -> outbound_io_error_retries h2 = outbound_io_error_retries h ->
    inbound_substreams h2 = inbound_substreams h -> current_inbound_substream_id h2 = current_inbound_substream_id h ->
    sinv (mkSystem h2 w2 (delete i (inflight s)) (failed s)) /\
    (forall id, id < current_inbound_substream_id (handler s) -> forward (substate (handler s) id) (substate h2 id)) /\
    current_inbound_substream_id (handler s) <= current_inbound_substream_id h2 /\ failed s <= failed s).
  { intros h2 w2 Hi2 Hq2 Hn2 Hm2 Hr2 Hin2 Hc2. split; [split; cbn; try congruence; try lia|].
    - split; [congruence|]. by apply Forall_delete_at.
    - split; [|lia]. intros id _. unfold substate. by rewrite Hin2, Hin'. }
  destruct e as [id req|id resp|id er]; try (eexists _, _; split; [done|]; by apply Hgo).
  destruct (expect_response req); [|eexists _, _; split; [done|]; by apply Hgo].
  destruct (dq_insert _ _ _ _) as [[k q] w1] eqn:Hins. apply live_insert in Hins as [Hl _].
  cbn [bind]. eexists _, _. split; [done|]. apply Hgo; try done.
  apply hinv_out_timers; [done|]. intros id' st k'. rewrite Hl. destruct (decide (id = id')) as [<-|Hne].
  - rewrite lookup_insert_eq. intros [= <- <-]. split; [done|]. by left.
  - rewrite lookup_insert_ne by done. intros Hid'. destruct (hinv_out _ Hi' _ _ _ Hid').
    split; [done|]. by right.
Qed.

(** A failed dial: its slot is not given back, so it counts as failed for good. *)
Lemma call_dial_failed_ok s i error : sinv s -> call_ok s (DialFailed i error).
Proof.
  intros Hs. unfold call_ok, exec. destruct (inflight s !! i) as [e|] eqn:He;
    [|eexists _, _; split; [done|]; split; [done|]; split; [done|]; lia].
  pose proof Hs as [[Hin Hout] Hmax Hslots Hb [Hq Hf] Hret].
  pose proof (length_delete_at _ _ _ He) as Hlen.
  assert (Hre : is_request e) by (by eapply Forall_lookup_1).
  assert (Hgo : exists h, inject_dial_upgrade_error ck (handler s) e error = Ok h /\ hinv h /\
    Forall is_request (dial_queue h) /\ dial_negotiated h = dial_negotiated (handler s) /\
    max_dial_negotiated h = 8 /\ 0 <= outbound_io_error_retries h < IO_ERROR_RETRIES /\
    inbound_substreams h = inbound_substreams (handler s) /\
    current_inbound_substream_id h = current_inbound_substream_id (handler s)).
  { unfold inject_dial_upgrade_error, IO_ERROR_RETRIES in *.
    assert (Hgive : forall h, inbound_substreams h = inbound_substreams (handler s) -> hinv h ->
      Forall is_request (dial_queue h) -> dial_negotiated h = dial_negotiated (handler s) ->
      max_dial_negotiated h = 8 -> current_inbound_substream_id h = current_inbound_substream_id (handler s) ->
      let h' := set_retries 0 h in
      let h'' := match pending_error h' with
                 | None => set_pending_error (Some (match e with Request id _ => id | _ => 0 end, error)) h'
                 | Some _ => h' end in
      hinv h'' /\ Forall is_request (dial_queue h'') /\ dial_negotiated h'' = dial_negotiated (handler s) /\
      max_dial_negotiated h'' = 8 /\ 0 <= outbound_io_error_retries h'' < 3 /\
      inbound_substreams h'' = inbound_substreams (handler s) /\
      current_inbound_substream_id h'' = current_inbound_substream_id (handler s)).
    { intros h Hh1 [] Hh3 Hh4 Hh5 Hh6. cbn. destruct (pending_error h); by split. }
    destruct error as [| | |err]; try (eexists; split; [done|]; by apply Hgive).
    destruct err; try (eexists; split; [done|]; by apply Hgive).
    rewrite u_add_ok by lia. cbn [bind]. destruct (Z.ltb_spec (outbound_io_error_retries (handler s) + 1) 3).
    - eexists. split; [done|]. split; [by split|]. split; [|cbn; repeat split; (done || lia)].
      apply Forall_app. split; [done|]. by apply Forall_singleton.
    - eexists. split; [done|]. by apply Hgive. }
  destruct Hgo as (h & -> & Hi' & Hq' & Hn' & Hm' & Hr' & Hin' & Hc'). cbn [bind].
  eexists _, _. split; [done|]. split; [split; cbn; try congruence; try lia|].
  - split; [done|]. by apply Forall_delete_at.
  - cbn. split; [|lia]. intros id _. unfold substate. by rewrite Hin'.
Qed.

Lemma respond_ok s r :
  s <> InPoisoned -> exists s' q, respond s r = Ok (s', q) /\ s' <> InPoisoned /\ forward (Some s) (Some s').
Proof.
  intros Hs. destruct s as [x c|x|x|]; [| | |done]; unfold respond.
  - destruct (response_multiple r); eexists _, _; (split; [done|]); (split; [done|]); destruct c; done || by apply forward_free.
  - destruct r as [[]| | | |]; eexists _, _; (split; [done|]); (split; [done|]); by apply forward_free.
  - eexists _, _. split; [done|]. done.
Qed.

Lemma call_inject_ok s e : sinv s -> call_ok s (Inject e).
Proof.
  intros Hs. unfold call_ok, exec. pose proof Hs as [Hi Hmax Hslots Hb [Hq Hf] Hret].
  destruct e as [id req|id r|id err]; cbn [inject_event bind].
  - eexists _, _. split; [done|]. split; [|split; [done|cbn; lia]]. destruct Hi. split; cbn; try done.
    split; [|done]. apply Forall_app. split; [done|]. apply Forall_singleton. by eexists _, _.
  - destruct (inbound_substreams (handler s) !! id) as [[st key]|] eqn:Hid.
    2: { eexists _, _. split; [done|]. split; [by destruct s|]. split; [done|cbn; lia]. }
    destruct (hinv_in _ Hi _ _ _ Hid) as (Hst & _ & _).
    destruct (respond_ok st r Hst) as (st' & q & -> & Hst' & Hrk). cbn [bind].
    set (h := if q then _ else handler s).
    assert (Hh : exists l, h = set_queued l (handler s)).
    { unfold h. destruct q; [by eexists|]. exists (queued_outbound_items (handler s)). by destruct (handler s). }
    destruct Hh as [l ->]. eexists _, _. split; [done|].
    assert (Hx : extends (handler s) (set_inbound (<[id := (st', key)]> (inbound_substreams (handler s)))
                   (inbound_substreams_delay (handler s)) (set_queued l (handler s)))).
    { split; [|done|done|done|].
      - apply (hinv_in_insert (set_queued l (handler s))); [by apply hinv_queued|done|by eauto].
      - intros id' _. apply (sub_insert (set_queued l (handler s))).
        change (forward (substate (handler s) id) (Some st')). by rewrite (substate_some _ _ _ _ Hid). }
    split; [by apply sinv_extends|]. split; [apply Hx|]. split; [apply Hx|cbn; lia].
  - eexists _, _. split; [done|]. split; [by destruct s|]. split; [done|cbn; lia].
Qed.

Lemma call_ok_all s c : sinv s -> ids_left s -> call_ok s c.
Proof.
  intros Hs Hid. destruct c; eauto using inbound_ok, call_dialed_ok, call_dial_failed_ok, call_inject_ok, call_poll_ok.
Qed.

Lemma step_sinv s s' : step s s' -> sinv s -> sinv s'.
Proof.
  intros [s0 c r s1 Hid He] Hs. destruct (call_ok_all s0 c Hs Hid) as (r' & s2 & He' & Hs' & _). congruence.
Qed.

Lemma reachable_sinv timeout w s : reachable timeout w s -> sinv s.
Proof.
  unfold reachable. remember (start timeout w) as s0 eqn:H0. intros Hr.
  assert (Hs : sinv s0) by (subst; apply sinv_start). clear H0.
  induction Hr as [|s0 s1 s2 Hst _ IH]; [done|]. apply IH. by eapply step_sinv.
Qed.

(** Only [poll] answers. *)
Lemma exec_answer s c r s' : exec s c = Ok (Some r, s') -> c = Poll.
Proof.
  destruct c as [req sub|n out|n err|e|]; cbn; [| | | |done].
  - by intros ([h w] & _ & ?)%bind_ok.
  - destruct (inflight s !! n); [|done]. by intros ([h w] & _ & ?)%bind_ok.
  - destruct (inflight s !! n); [|done]. by intros (h & _ & ?)%bind_ok.
  - by intros (h & _ & ?)%bind_ok.
Qed.

(** ** The properties *)

(** C6: whatever the swarm, the peer and the clock do, no call of the handler
    panics: every state it looks up exists, no substream is found poisoned,
    every timer it removes or resets is set, the counters do not overflow, and
    its loops end; provided fewer than [2 ^ 64 - 2] requests have come in. *)
Theorem rpc_never_panics (timeout : Z) (w : W) (s : system) (c : call) :
  reachable timeout w s -> ids_left s ->
  exists r s', exec s c = Ok (r, s').
Proof.
  intros Hr%reachable_sinv Hid. destruct (call_ok_all s c Hr Hid) as (r & s' & He & _). by eexists _, _.
Qed.

(** C7: an inbound substream only moves towards its end, and once it is to be
    closed (its last response has been handed over, or it is closing, or gone)
    it takes no other response, whatever is queued for it or injected: all that
    still happens to it is that this response is polled until it is sent or
    fails and that the stream is closed, and once it is gone its id is never
    used again. *)
Theorem rpc_closing_is_final (timeout : Z) (w : W) (s s' : system) (id : Z) :
  reachable timeout w s -> rtc step s s' -> id < current_inbound_substream_id (handler s) ->
  rank (handler s) id <= rank (handler s') id /\
  (1 <= rank (handler s) id -> rtc closing_step (substate (handler s) id) (substate (handler s') id)).
Proof.
  intros Hs%reachable_sinv Hr. change (id < current_inbound_substream_id (handler s) ->
    forward (substate (handler s) id) (substate (handler s') id)).
  revert Hs. induction Hr as [s|s0 s1 s2 [s0' c r s1' Hid He] _ IH]; intros Hs Hlt; [done|].
  destruct (call_ok_all s0' c Hs Hid) as (r' & sx & He' & Hs' & Hrk & Hcur & _).
  rewrite He in He'. injection He' as _ <-. etrans; [by apply Hrk|]. apply IH; [done|lia].
Qed.

(** C8: a dial takes one of eight slots, and a dial that fails never gives its
    slot back: the slots in use are the dials in flight plus all failures so
    far, so that after eight failed dials no call ever makes the handler dial
    again, however many requests are waiting. *)
Theorem rpc_failed_dials_leak (timeout : Z) (w : W) (s s' : system) (c : call) (p : RPCRequest Cid)
    (i : RPCEvent Cid ext_error) :
  reachable timeout w s -> rtc step s s' -> ids_left s' ->
  dial_negotiated (handler s) = Z.of_nat (length (inflight s)) + failed s /\
  dial_negotiated (handler s) <= 8 /\
  (failed s = 8 -> forall s'', exec s' c <> Ok (Some (OutboundSubstreamRequest p i), s'')).
Proof.
  intros Hs%reachable_sinv Hr Hid. split; [apply Hs|]. split; [apply Hs|]. intros H8 s'' He.
  assert (Hf : sinv s' /\ failed s <= failed s').
  { clear He Hid H8. induction Hr as [s|s0 s1 s2 [s0' c' r s1' Hid He] _ IH]; [done|].
    destruct (call_ok_all s0' c' Hs Hid) as (r' & sx & He' & Hs' & _ & _ & Hff).
    rewrite He in He'. injection He' as _ <-. destruct (IH Hs'). split; [done|lia]. }
  destruct Hf as [Hs' Hff].
  rewrite (exec_answer _ _ _ _ He) in He. cbn in He.
  destruct (poll_ok (handler s') (world s')) as (r & h & w' & He' & _ & Hd & _).
  1: apply Hs'. 1: destruct (sinv_bound _ Hs'); rewrite (sinv_slots _ Hs'); lia. 1,2: apply Hs'.
  rewrite He' in He. cbn [bind] in He. injection He as -> _. cbn in Hd.
  destruct Hd as (_ & _ & Hlt & _). rewrite (sinv_max _ Hs'), (sinv_slots _ Hs') in Hlt. lia.
Qed.

(** A list of calls that all succeed is a run. *)
Fixpoint exec_all (cs : list call) (s : system) : outcome unit system :=
  match cs with
  | [] => Ok s
  | c :: cs' =>
      if current_inbound_substream_id (handler s) + 1 <? 2 ^ 64 then
        '(_, s) <- exec s c ;; exec_all cs' s
      else Panic
  end.

Lemma exec_all_run cs s s' : exec_all cs s = Ok s' -> rtc step s s'.
Proof.
  revert s. induction cs as [|c cs IH]; intros s; cbn; [by intros [= ->]; apply rtc_refl|].
  destruct (Z.ltb_spec (current_inbound_substream_id (handler s) + 1) (2 ^ 64)) as [Hid|]; [|done].
  intros ([r s1] & He & Hr)%bind_ok. eapply rtc_l; [by econstructor|by apply IH].
Qed.
End Theorems.

(** ** An environment

    Sends finish at once, outbound streams never answer, and the timers all
    fire while the world says so. *)
Module RpcRef.

#[export] Instance rpc_env_ref : RpcEnv bool unit unit := {|
  InFramed := unit; Sending := RPCErrorResponse unit; OutFramed := unit;
  in_send _ r := r;
  send_poll _ w := (SendReady tt, w);
  in_poll_closed f w := (false, f, w);
  in_close _ w := (None, w);
  out_poll f w := (Pending, f, w);
  out_close _ w := (None, w);
  now _ := 0;
  DelayQueue := gmap nat Z; DelayKey := nat;
  live q := map_to_list q;
  dq_new := ∅;
  dq_insert q id _ w := (fresh (dom q), <[fresh (dom q) := id]> q, w);
  dq_remove q k := match q !! k with Some _ => Ok (delete k q) | None => Panic end;
  dq_reset q k _ w := match q !! k with Some _ => Ok (q, w) | None => Panic end;
  dq_poll q w :=
    match w, map_to_list q with
    | true, (k, id) :: _ => (Item id, delete k q, w)
    | _, _ => (Pending, q, w)
    end;
  hash_order l := l;
|}.

#[export] Instance rpc_env_ref_laws : RpcEnvLaws rpc_env_ref.
Proof.
  split; cbn.
  - apply map_to_list_empty.
  - intros q id d w k q' w' [= <- <- <-].
    assert (Hf : q !! fresh (dom q) = None) by (apply not_elem_of_dom, is_fresh). split.
    + by apply map_to_list_insert.
    + intros ([k x] & Hfk & Hk%elem_of_map_to_list)%list_elem_of_fmap. cbn in Hfk. rewrite Hfk in Hf. congruence.
  - intros q k id Hk%elem_of_map_to_list. rewrite Hk. eexists. split; [done|].
    symmetry. by apply map_to_list_delete.
  - intros q k id d w Hk%elem_of_map_to_list. rewrite Hk. by eexists _, _.
  - intros q w r q' w'. destruct w; [|by intros [= <- <- <-]].
    destruct (map_to_list q) as [|[k id] l] eqn:Hq; [intros [= <- <- <-]; by rewrite Hq|].
    intros [= <- <- <-]. exists k. rewrite <- Hq. symmetry. apply map_to_list_delete.
    apply elem_of_map_to_list. rewrite Hq. by left.
  - done.
Qed.

Definition hello : RPCRequest unit := Status (mkStatus [] 8888 tt).
Definition answer : RPCErrorResponse unit := Success (RespStatus (mkStatus [] 7 tt)).

(** Eight requests whose dials all fail. *)
Definition failures : list (@call bool unit unit rpc_env_ref) :=
  concat (replicate 8 [Inject (Request 0 hello); Poll; DialFailed 0 Timeout; Poll]).

(** A request comes in, is reported and answered, and its substream closes. *)
Definition served : list (@call bool unit unit rpc_env_ref) :=
  [Inbound hello tt; Poll; Inject (Response 1 answer); Poll].

Definition run_to (cs : list (@call bool unit unit rpc_env_ref)) : outcome unit system :=
  exec_all true cs (start 30 false).

Lemma run_reachable cs s : run_to cs = Ok s -> reachable true 30 false s.
Proof. apply exec_all_run. Qed.

(** A run evaluated to what a Boolean says of its end. *)
Lemma run_check cs (P : system -> bool) :
  match run_to cs with Ok s => P s | _ => false end = true -> exists s, run_to cs = Ok s /\ P s = true.
Proof. destruct (run_to cs) as [s| | |]; [by eexists|done..]. Qed.

Lemma run_served : exists s, run_to served = Ok s /\ ids_left s /\ rank (handler s) 1 = 2 /\
  current_inbound_substream_id (handler s) = 2.
Proof.
  destruct (run_check served (fun s => (rank (handler s) 1 =? 2) && (current_inbound_substream_id (handler s) =? 2)))
    as (s & Hs & [Hr%Z.eqb_eq Hc%Z.eqb_eq]%andb_true_iff); [vm_compute; reflexivity|].
  exists s. split; [exact Hs|]. unfold ids_left. rewrite Hc. split; [lia|]. split; [exact Hr|reflexivity].
Qed.

Lemma run_failures : exists s, run_to failures = Ok s /\ ids_left s /\ failed s = 8.
Proof.
  destruct (run_check failures (fun s => (failed s =? 8) && (current_inbound_substream_id (handler s) =? 1)))
    as (s & Hs & [Hr%Z.eqb_eq Hc%Z.eqb_eq]%andb_true_iff); [vm_compute; reflexivity|].
  exists s. split; [exact Hs|]. unfold ids_left. rewrite Hc. split; [lia|]. exact Hr.
Qed.

Lemma rpc_never_panics_witness :
  exists s, run_to served = Ok s /\ exists r s', exec true s Poll = Ok (r, s').
Proof.
  destruct run_served as (s & Hs & Hid & _). exists s. split; [exact Hs|].
  apply (rpc_never_panics true 30 false s Poll); [exact (run_reachable _ _ Hs)|exact Hid].
Defined.

(** A chunk queued behind the last response of the substream. *)
Definition chunk : RPCErrorResponse unit := Success (RespBlockSyncRequest [1]).
Definition answered : list (@call bool unit unit rpc_env_ref) :=
  [Inbound hello tt; Poll; Inject (Response 1 answer); Inject (Response 1 chunk)].

Lemma run_answered : exists s, run_to answered = Ok s /\
  substate (handler s) 1 = Some (ResponsePendingSend answer true) /\
  queued_outbound_items (handler s) !! 1 = Some [chunk] /\ current_inbound_substream_id (handler s) = 2.
Proof.
  assert (Hc : match run_to answered with
    | Ok s => (substate (handler s) 1, queued_outbound_items (handler s) !! 1, current_inbound_substream_id (handler s))
    | _ => (None, None, 0)
    end = (Some (ResponsePendingSend answer true), Some [chunk], 2)) by (vm_compute; reflexivity).
  destruct (run_to answered) as [s| | |]; [|done..]. exists s. injection Hc as H1 H2 H3. by repeat split.
Qed.

Lemma rpc_closing_is_final_witness :
  exists s, run_to answered = Ok s /\ queued_outbound_items (handler s) !! 1 = Some [chunk] /\
    forall s', rtc (step true) s s' ->
      1 <= rank (handler s') 1 /\ rtc closing_step (Some (ResponsePendingSend answer true)) (substate (handler s') 1).
Proof.
  destruct run_answered as (s & Hs & Hsub & Hq & Hid). exists s. split; [exact Hs|]. split; [exact Hq|]. intros s' Hrun.
  destruct (rpc_closing_is_final true 30 false s s' 1 (run_reachable _ _ Hs) Hrun) as [Hr Hc]; [rewrite Hid; lia|].
  unfold rank in Hr, Hc. rewrite Hsub in Hr, Hc. split; [exact Hr|]. apply Hc. cbn. lia.
Defined.

Lemma rpc_failed_dials_leak_witness :
  exists s, run_to failures = Ok s /\
    forall s' p i, exec true s Poll <> Ok (Some (OutboundSubstreamRequest p i), s').
Proof.
  destruct run_failures as (s & Hs & Hid & Hf). exists s. split; [exact Hs|]. intros s' p i.
  destruct (rpc_failed_dials_leak true 30 false s s Poll p i) as (_ & _ & Hl);
    [exact (run_reachable _ _ Hs)|apply rtc_refl|exact Hid|exact (Hl Hf s')].
Defined.
End RpcRef.
End RpcTheorems.
