(* ===== verification/RpcCodec.v ===== *)
(** * [libp2p/src/rpc]: protocol names, codecs and upgrades

    codec.rs, protocol.rs and the texts of methods.rs and mod.rs.  The CBOR of
    [serde_cbor], the text of a CID and the futures of [tokio] are parameters;
    what a codec does to its buffer is the source's. *)

From Stdlib Require Import ZArith Lia String.
From stdpp Require Import base numbers list sets countable.
From S2P Require Import Prelude Decimal RpcHandler.

Local Open Scope Z_scope.

Abbreviation buffer := (list Z).

(** [serde_cbor::to_vec] and [from_slice] for a type. *)
Class SerdeCbor (ext_error A : Type) := {
  cbor_to_vec : A -> outcome ext_error buffer;
  cbor_from_slice : buffer -> outcome ext_error A;
}.
(** Documented: what was written is read back, an empty slice is at its end too
    early, and a slice with more than one value has trailing data. *)
Class SerdeCborLaws {ext_error A} (S : SerdeCbor ext_error A) : Prop := {
  cbor_reads x bs : cbor_to_vec x = Ok bs -> cbor_from_slice bs = Ok x;
  cbor_eof : exists e, cbor_from_slice [] = Err e;
  cbor_trailing x bs y : cbor_to_vec x = Ok bs -> y <> [] -> exists e, cbor_from_slice (bs ++ y) = Err e;
}.

Module Codec.
Section Codec.
Context {Cid ext_error : Type} `{SerdeCbor ext_error (RPCRequest Cid)} `{SerdeCbor ext_error (RPCErrorResponse Cid)}.

(** ** [codec.rs]

    The buffer is borrowed: each function returns it as it leaves it. *)
Definition encode_to {T} `{SerdeCbor ext_error T} (item : T) (dst : buffer) : outcome ext_error unit * buffer :=
  match cbor_to_vec item with
  | Ok encoded => (Ok tt, encoded)   (* [clear], then [extend_from_slice] *)
  | Err e => (Err e, dst)
  | Panic => (Panic, dst)
  | OutOfFuel => (OutOfFuel, dst)
  end.

Definition codec_encode {T} `{SerdeCbor ext_error T} (item : T) (dst : buffer)
  : outcome (RPCError ext_error) unit * buffer :=
  let '(r, dst) := encode_to item dst in (map_err CborDecodeError r, dst).
Definition codec_decode {T} `{SerdeCbor ext_error T} (src : buffer)
  : outcome (RPCError ext_error) (option T) * buffer :=
  (value <- map_err CborDecodeError (cbor_from_slice src) ;; Ok (Some value), src).

Definition inbound_encode (item : RPCErrorResponse Cid) := codec_encode item.
Definition inbound_decode : buffer -> outcome (RPCError ext_error) (option (RPCRequest Cid)) * buffer := codec_decode.
Definition outbound_encode (item : RPCRequest Cid) := codec_encode item.
Definition outbound_decode : buffer -> outcome (RPCError ext_error) (option (RPCErrorResponse Cid)) * buffer := codec_decode.
End Codec.
End Codec.
Export Codec.

(** ** [protocol.rs] *)
Module Protocol.
Definition MAX_RPC_SIZE : Z := 4194304.
Definition PROTOCOL_PREFIX : list Z := str "/fil/plum/req".
Definition TTFB_TIMEOUT : Z := 5.
Definition REQUEST_TIMEOUT : Z := 15.
Definition RPC_STATUS : list Z := str "status".
Definition RPC_GOODBYE : list Z := str "goodbye".
Definition RPC_BLOCK_SYNC_REQUEST : list Z := str "plum_block_sync_request".
Definition CBOR : list Z := str "cbor".

Record ProtocolId := mkProtocolId { message_name : list Z; version : list Z; encoding : list Z; protocol_id : list Z }.

Definition protocol_new (message_name version encoding : list Z) : ProtocolId :=
  mkProtocolId message_name version encoding
    (PROTOCOL_PREFIX ++ str "/" ++ message_name ++ str "/" ++ version ++ str "/" ++ encoding).
Definition protocol_name (p : ProtocolId) : list Z := protocol_id p.

(** [RPCProtocol], what the node accepts. *)
Definition protocol_info : list ProtocolId :=
  [protocol_new RPC_STATUS (str "1") CBOR; protocol_new RPC_GOODBYE (str "1") CBOR;
   protocol_new RPC_BLOCK_SYNC_REQUEST (str "1") CBOR].

Section Upgrades.
Context {Cid ext_error : Type}.

(** What a request offers. *)
Definition supported_protocols (r : RPCRequest Cid) : list ProtocolId :=
  match r with
  | Status _ => [protocol_new RPC_STATUS (str "1") CBOR]
  | Goodbye _ => [protocol_new RPC_GOODBYE (str "1") CBOR]
  | BlockSyncRequest _ => [protocol_new RPC_BLOCK_SYNC_REQUEST (str "1") CBOR]
  end.

(** [tokio::timer::timeout::Error]: the deadline passed, the timer failed, or the
    future under it did. *)
Inductive timeout_error := Elapsed | TimerError | Inner (e : RPCError ext_error).
Definition error_of_timeout (e : timeout_error) : RPCError ext_error :=
  match e with Elapsed => StreamTimeout | _ => Custom (str "Stream timer failed") end.
Definition error_of_unit : RPCError ext_error := Custom [].

(** What [upgrade_inbound] makes of the first item of the framed socket, or of the
    end of the stream. *)
Definition upgrade_inbound {Framed} (first : (option (RPCRequest Cid) * Framed) + timeout_error)
  : outcome (RPCError ext_error) (RPCRequest Cid * Framed) :=
  match first with
  | inr e => Err (error_of_timeout e)
  | inl (Some req, stream) => Ok (req, stream)
  | inl (None, _) => Err (Custom (str "Stream terminated early"))
  end.

(** What [Framed::into_future] yields once [src] has arrived: the decoder is asked
    about what there is, also when the peer closed without sending a byte. *)
Definition first_item `{SerdeCbor ext_error (RPCRequest Cid)} (src : buffer)
  : (option (RPCRequest Cid) * buffer) + timeout_error :=
  match inbound_decode src with
  | (Ok item, rest) => inl (item, rest)
  | (Err e, _) => inr (Inner e)
  | _ => inr TimerError
  end.

(** [Framed::new(socket, OutboundCodec).send(self)]: what goes to the socket. *)
Definition upgrade_outbound `{SerdeCbor ext_error (RPCRequest Cid)} (r : RPCRequest Cid)
  : outcome (RPCError ext_error) buffer :=
  let '(res, dst) := outbound_encode r [] in _ <- res ;; Ok dst.

(** The [Display] texts; [show] is that of an error below, [show_debug] its [Debug]. *)
Context (cid_display cid_debug : Cid -> list Z) (show show_debug : ext_error -> list Z).

Fixpoint debug_cids (l : list Cid) : list Z :=
  match l with
  | [] => []
  | [c] => cid_debug c
  | c :: l' => cid_debug c ++ str ", " ++ debug_cids l'
  end.
Definition debug_vec (l : list Cid) : list Z := str "[" ++ debug_cids l ++ str "]".

Definition rpc_error_display (e : RPCError ext_error) : list Z :=
  match e with
  | ReadError err => str "Error while reading from socket: " ++ show err
  | CborDecodeError err => str "Error while decoding cbor: " ++ show_debug err
  | InvalidProtocol err => str "Invalid Protocol: " ++ err
  | IoError err => str "IO Error: " ++ show err
  | RPCErrorResponse_ => str "RPC Response Error"
  | StreamTimeout => str "Stream Timeout"
  | Custom err => err
  end.
Definition error_source (e : RPCError ext_error) : option ext_error :=
  match e with ReadError err => Some err | IoError err => Some err | _ => None end.

Definition status_display (s : StatusMessage Cid) : list Z :=
  str "Status Message: heaviest_tip_set: " ++ debug_vec (heaviest_tip_set s) ++
  str ", heaviest_tip_set_weight: " ++ to_decimal (heaviest_tip_set_weight s) ++
  str ", genesis_hash: " ++ cid_display (genesis_hash s).
Definition goodbye_display (r : GoodbyeReason) : list Z :=
  match r with
  | ClientShutdown => str "Client Shutdown"
  | IrrelevantNetwork => str "Irrelevant Network"
  | Fault => str "Fault"
  | UnknownReason => str "Unknown Reason"
  end.
Definition block_sync_display (b : BlockSync Cid) : list Z :=
  str "Start: " ++ debug_vec (start b) ++ str ", Length: " ++ to_decimal (bs_length b) ++
  str ", Options: " ++ to_decimal (options b).
Definition request_display (r : RPCRequest Cid) : list Z :=
  match r with
  | Status status => str "Status Message: " ++ status_display status
  | Goodbye reason => str "Goodbye: " ++ goodbye_display reason
  | BlockSyncRequest req => str "Block sync request: " ++ block_sync_display req
  end.
End Upgrades.
End Protocol.
Export Protocol.

(** ** Reading *)
Section Reading.
Context {ext_error T : Type} `{SerdeCborLaws ext_error T}.

(** [Framed] decodes the buffer until nothing comes: the items of [n] polls. *)
Fixpoint decode_polls (n : nat) (src : buffer) : list (outcome (RPCError ext_error) (option T)) :=
  match n with
  | O => []
  | S n => let '(r, src) := codec_decode src in r :: decode_polls n src
  end.

Lemma decode_keeps_buffer src : (codec_decode (T := T) src).2 = src.
Proof. done. Qed.

Lemma decode_encoded x bs dst :
  codec_encode x dst = (Ok tt, bs) -> codec_decode bs = (Ok (Some x), bs) /\ cbor_to_vec x = Ok bs.
Proof.
  unfold codec_encode, encode_to, codec_decode. destruct (cbor_to_vec x) as [y| | |] eqn:Hx; cbn; [|done..].
  intros [= <-]. by rewrite (cbor_reads x y Hx).
Qed.

Lemma decode_polls_same n x bs :
  codec_decode bs = (Ok (Some x), bs) -> decode_polls n bs = replicate n (Ok (Some x)).
Proof. intros Hd. induction n as [|n IH]; cbn [decode_polls replicate]; [done|]. rewrite Hd. by f_equal. Qed.
End Reading.

(** C29: A message that was encoded alone into the buffer is decoded as itself, and
    the encoder throws away whatever the buffer still held.  But the decoder does
    not take what it reads out of the buffer, so every later poll yields the same
    message again; it reports an error instead of waiting for more on an empty
    buffer; and two messages that arrived together are both lost. *)
Theorem rpc_codec_frames {ext_error T : Type} `{SerdeCborLaws ext_error T} (x y : T) (dst bs bs' : buffer) (n : nat) :
  codec_encode x dst = (Ok tt, bs) -> codec_encode y bs = (Ok tt, bs') ->
  decode_polls n bs = replicate n (Ok (Some x)) /\
  decode_polls n bs' = replicate n (Ok (Some y)) /\
  (exists e, codec_decode (T := T) [] = (Err (CborDecodeError e), [])) /\
  exists e, codec_decode (T := T) (bs ++ bs') = (Err (CborDecodeError e), bs ++ bs').
Proof.
  intros Hx Hy. destruct (decode_encoded x bs dst Hx) as [Hdx Ex], (decode_encoded y bs' bs Hy) as [Hdy Ey].
  destruct cbor_eof as [e He]. split; [by apply decode_polls_same|]. split; [by apply decode_polls_same|]. split.
  - exists e. unfold codec_decode. by rewrite He.
  - destruct (cbor_trailing x bs bs' Ex) as [e' He'].
    + intros ->. pose proof (cbor_reads y [] Ey) as Hr. by rewrite He in Hr.
    + exists e'. unfold codec_decode. by rewrite He'.
Qed.

(** The node accepts exactly the protocols its requests offer, each request
    offering one and different kinds of requests different ones.  A request that
    arrives whole is taken; one that does not decode is reported as a failed
    timer, whatever the decoder said, and so is a stream that ends without a
    byte. *)
Theorem rpc_upgrades {Cid ext_error : Type} `{SerdeCborLaws ext_error (RPCRequest Cid)} (r r' : RPCRequest Cid) (bs src : buffer)
    (e : ext_error) :
  upgrade_outbound r = Ok bs -> cbor_from_slice (A := RPCRequest Cid) src = Err e ->
  (exists p, supported_protocols r = [p] /\ p ∈ protocol_info) /\
  (supported_protocols r = supported_protocols r' <->
   match r, r' with
   | Status _, Status _ | Goodbye _, Goodbye _ | BlockSyncRequest _, BlockSyncRequest _ => True
   | _, _ => False
   end) /\
  upgrade_inbound (first_item bs) = Ok (r, bs) /\
  upgrade_inbound (Cid := Cid) (first_item src) = Err (Custom (str "Stream timer failed")) /\
  upgrade_inbound (Cid := Cid) (first_item []) = Err (Custom (str "Stream timer failed")).
Proof.
  intros Hr Hsrc. split; [|split; [|split; [|split]]].
  - destruct r; eexists; (split; [reflexivity|]); unfold protocol_info; set_solver.
  - destruct r, r'; cbn; (split; [done|try done]).
  - unfold upgrade_outbound, outbound_encode in Hr. destruct (codec_encode r []) as [res dst] eqn:He.
    destruct res as [[]| | |]; [|done..]. cbn in Hr. injection Hr as <-.
    destruct (decode_encoded r dst [] He) as [Hd Hv]. unfold first_item, inbound_decode. by rewrite Hd.
  - unfold first_item, inbound_decode, codec_decode. by rewrite Hsrc.
  - destruct cbor_eof as [e' He']. unfold first_item, inbound_decode, codec_decode. by rewrite He'.
Qed.

(** ** A reference for [serde_cbor]

    A value is one number, its code. *)
Module CborItem.
Section CborItem.
Context {A : Type} `{Countable A}.

Definition item_vec (x : A) : buffer := [Zpos (encode x)].
Definition item_slice (bs : buffer) : outcome unit A :=
  match bs with
  | [Zpos p] => match decode p with Some x => Ok x | None => Err tt end
  | _ => Err tt
  end.
Definition cbor_item : SerdeCbor unit A := {| cbor_to_vec x := Ok (item_vec x); cbor_from_slice := item_slice |}.

Lemma cbor_item_laws : SerdeCborLaws cbor_item.
Proof.
  split.
  - intros x bs [= <-]. cbn. by rewrite decode_encode.
  - by exists tt.
  - intros x bs y [= <-] Hy. exists tt. destruct y; [done|]. done.
Qed.
End CborItem.
End CborItem.

(** Requests whose CIDs are numbers. *)
Definition request_code (r : RPCRequest Z) : (list Z * Z * Z) + Z + (list Z * Z * Z) :=
  match r with
  | Status s => inl (inl (heaviest_tip_set s, heaviest_tip_set_weight s, genesis_hash s))
  | Goodbye g => inl (inr (u64_of_goodbye g))
  | BlockSyncRequest b => inr (start b, bs_length b, options b)
  end.
Definition request_of_code (c : (list Z * Z * Z) + Z + (list Z * Z * Z)) : RPCRequest Z :=
  match c with
  | inl (inl (a, b, c)) => Status (mkStatus a b c)
  | inl (inr g) => Goodbye (goodbye_of_u64 g)
  | inr (a, b, c) => BlockSyncRequest (mkBlockSync a b c)
  end.
Lemma request_of_request_code r : request_of_code (request_code r) = r.
Proof. by destruct r as [[]|[]|[]]. Qed.

#[local] Instance request_eq_dec : EqDecision (RPCRequest Z).
Proof. intros x y. destruct (decide (request_code x = request_code y)) as [He|He]; [left|right; congruence].
  by rewrite <- (request_of_request_code x), <- (request_of_request_code y), He.
Defined.
#[local] Instance request_countable : Countable (RPCRequest Z) :=
  inj_countable' request_code request_of_code request_of_request_code.

Lemma rpc_codec_frames_witness :
  decode_polls (S0 := CborItem.cbor_item) 3 (CborItem.item_vec (Goodbye (Cid := Z) Fault))
  = replicate 3 (Ok (Some (Goodbye (Cid := Z) Fault))).
Proof.
  apply (rpc_codec_frames (H := CborItem.cbor_item_laws) (Goodbye (Cid := Z) Fault) (Goodbye (Cid := Z) ClientShutdown)
    [1; 2; 3] _ (CborItem.item_vec (Goodbye (Cid := Z) ClientShutdown)) 3); reflexivity.
Defined.

Lemma rpc_upgrades_witness :
  upgrade_inbound (first_item (H := CborItem.cbor_item) [0]) = Err (Custom (ext_error := unit) (str "Stream timer failed")).
Proof.
  apply (rpc_upgrades (H := CborItem.cbor_item_laws) (Goodbye (Cid := Z) Fault) (Goodbye (Cid := Z) Fault)
    (CborItem.item_vec (Goodbye (Cid := Z) Fault)) [0] tt); reflexivity.
Defined.
