(* ===== verification/Network.v ===== *)
(** * [libp2p] and [network]: from the swarm to the message handler and back

    libp2p/src/rpc/mod.rs (the queue of the RPC behaviour), behaviour.rs (the
    node's behaviour), service.rs (the stream of events), config.rs, and
    network/src (the task that moves messages between the swarm and the message
    handler, and the handler).  The swarm itself, discovery and gossip are
    libp2p's: an interface. *)

From Stdlib Require Import ZArith Lia String.
From stdpp Require Import base numbers list relations.
From S2P Require Import Prelude RpcHandler.

Local Open Scope Z_scope.

(** ** [config.rs] *)
Definition GENESIS : list Z := str "filecoin plum".
Definition HELLO_TOPIC : list Z := str "/fil/hello".
Definition BLOCKS_TOPIC : list Z := str "/fil/blocks".
Definition MESSAGES_TOPIC : list Z := str "/fil/messages".

(** [Sha2_256::digest] under a version 1 CID, and [TopicHash::from_raw]. *)
Class NetLib (Cid TopicHash : Type) := {
  dag_pb_sha256 : list Z -> Cid;
  topic_from_raw : list Z -> TopicHash;
  topic_eq_dec :: EqDecision TopicHash;
}.
Module Network.
Section Network.
Context {PeerId Cid ext_error MessageId TopicHash : Type} `{NetLib Cid TopicHash}.

Abbreviation RPCEvent := (RPCEvent Cid ext_error).

Definition net_genesis_hash : Cid := dag_pb_sha256 GENESIS.

(** ** [rpc/mod.rs]: the RPC behaviour *)
Inductive RPCMessage := RPCMsg (p : PeerId) (e : RPCEvent) | PeerDialed (p : PeerId) | PeerDisconnected (p : PeerId).
Inductive Action := SendEvent (p : PeerId) (e : RPCEvent) | GenerateEvent (m : RPCMessage).
Record RPC := mkRPC { rpc_events : list Action }.
Inductive ConnectedPoint := Dialer | Listener.

Definition rpc_new : RPC := mkRPC [].
Definition rpc_send (p : PeerId) (e : RPCEvent) (r : RPC) : RPC := mkRPC (rpc_events r ++ [SendEvent p e]).
Definition inject_connected (p : PeerId) (c : ConnectedPoint) (r : RPC) : RPC :=
  match c with
  | Dialer => mkRPC (rpc_events r ++ [GenerateEvent (PeerDialed p)])
  | Listener => r
  end.
Definition inject_disconnected (p : PeerId) (r : RPC) : RPC :=
  mkRPC (rpc_events r ++ [GenerateEvent (PeerDisconnected p)]).
Definition inject_node_event (source : PeerId) (e : RPCEvent) (r : RPC) : RPC :=
  mkRPC (rpc_events r ++ [GenerateEvent (RPCMsg source e)]).
(** [None] is [NotReady]. *)
Definition rpc_poll (r : RPC) : option Action * RPC :=
  match rpc_events r with
  | [] => (None, r)
  | a :: l => (Some a, mkRPC l)
  end.

(** ** [behaviour.rs] *)
Inductive BehaviourEvent :=
| EvRPC (p : PeerId) (e : RPCEvent)
| EvHelloSubscribed (p : PeerId)
| EvDiscoveredPeer (p : PeerId)
| EvExpiredPeer (p : PeerId)
| EvGossipMessage (id : MessageId) (source : PeerId) (topics : list TopicHash) (data : list Z).

Record Behaviour := mkBehaviour { b_rpc : RPC; b_events : list BehaviourEvent }.
Definition behaviour_new : Behaviour := mkBehaviour rpc_new [].
Definition push_event (e : BehaviourEvent) (b : Behaviour) : Behaviour := mkBehaviour (b_rpc b) (b_events b ++ [e]).

Definition inject_rpc_message (m : RPCMessage) (b : Behaviour) : Behaviour :=
  match m with
  | PeerDialed _ => b
  | PeerDisconnected _ => b
  | RPCMsg p e => push_event (EvRPC p e) b
  end.

(** [has_node] asks mDNS. *)
Inductive MdnsEvent := Discovered (l : list PeerId) | Expired (l : list PeerId).
Definition inject_mdns (has_node : PeerId -> bool) (m : MdnsEvent) (b : Behaviour) : Behaviour :=
  match m with
  | Discovered l => fold_left (fun b p => push_event (EvDiscoveredPeer p) b) l b
  | Expired l => fold_left (fun b p => if negb (has_node p) then push_event (EvExpiredPeer p) b else b) l b
  end.

Inductive GossipsubEvent :=
| GossipMessage (source : PeerId) (id : MessageId) (topics : list TopicHash) (data : list Z)
| Subscribed (p : PeerId) (topic : TopicHash)
| Unsubscribed (p : PeerId) (topic : TopicHash).
Definition inject_gossipsub (e : GossipsubEvent) (b : Behaviour) : Behaviour :=
  match e with
  | GossipMessage source id topics data => push_event (EvGossipMessage id source topics data) b
  | Subscribed p topic =>
      if decide (topic = topic_from_raw HELLO_TOPIC) then push_event (EvHelloSubscribed p) b else b
  | Unsubscribed _ _ => b
  end.

Definition behaviour_poll (b : Behaviour) : option BehaviourEvent * Behaviour :=
  match b_events b with
  | [] => (None, b)
  | e :: l => (Some e, mkBehaviour (b_rpc b) l)
  end.
Definition behaviour_send_rpc (p : PeerId) (e : RPCEvent) (b : Behaviour) : Behaviour :=
  mkBehaviour (rpc_send p e (b_rpc b)) (b_events b).

(** ** The swarm

    [swarm_poll] drives the connections and the behaviours, and yields what the
    behaviour's [poll] does. *)
Inductive SwarmPoll := SReady (e : BehaviourEvent) | SEnd | SNotReady | SError.
Class Swarm (W : Type) := {
  behaviour : W -> Behaviour;
  set_behaviour : Behaviour -> W -> W;
  swarm_poll : W -> SwarmPoll * W;
  swarm_dial : PeerId -> W -> W;
  swarm_publish : TopicHash -> list Z -> W -> W;
}.

Section Service.
Context {W : Type} `{Swarm W}.

Definition swarm_send_rpc (p : PeerId) (e : RPCEvent) (w : W) : W :=
  set_behaviour (behaviour_send_rpc p e (behaviour w)) w.

(** ** [service.rs] *)
Inductive Libp2pEvent :=
| LPubsubMessage (id : MessageId) (source : PeerId) (topics : list TopicHash) (data : list Z)
| LHelloSubscribed (p : PeerId)
| LRPC (p : PeerId) (e : RPCEvent).

(** [Libp2pService::poll]: [None] is [NotReady]. *)
Fixpoint service_poll (fuel : nat) (w : W) : outcome unit (option Libp2pEvent) * W :=
  match fuel with
  | O => (OutOfFuel, w)
  | S fuel =>
      match swarm_poll w with
      | (SReady event, w) =>
          match event with
          | EvDiscoveredPeer peer => service_poll fuel (swarm_dial peer w)
          | EvHelloSubscribed peer => (Ok (Some (LHelloSubscribed peer)), w)
          | EvRPC peer rpc_event => (Ok (Some (LRPC peer rpc_event)), w)
          | EvExpiredPeer _ => service_poll fuel w
          | EvGossipMessage id source topics data => (Ok (Some (LPubsubMessage id source topics data)), w)
          end
      | (SEnd, w) => (Ok None, w)
      | (SNotReady, w) => (Ok None, w)
      | (SError, w) => (Ok None, w)
      end
  end.

(** ** [network/src/service.rs]

    The two channels are the lists of the messages not yet received; a channel
    is closed once the task that reads it has ended. *)
Inductive NetworkMessage := NPubsubMessage (topic : TopicHash) (message : list Z) | NRPC (p : PeerId) (e : RPCEvent).
Inductive HandlerMessage :=
| SayHello (p : PeerId)
| HRPC (p : PeerId) (e : RPCEvent)
| HPubsubMessage (id : MessageId) (source : PeerId) (topics : list TopicHash) (data : list Z).

Record Node := mkNode {
  swarm : W;
  network_recv : list NetworkMessage;
  service_running : bool;
  handler_recv : list HandlerMessage;
  handler_running : bool;
}.
Definition node_new (w : W) : Node := mkNode w [] true [] true.

Definition network_send (m : NetworkMessage) (n : Node) : Node :=
  if service_running n then mkNode (swarm n) (network_recv n ++ [m]) true (handler_recv n) (handler_running n) else n.
Definition handler_send (m : HandlerMessage) (n : Node) : Node :=
  if handler_running n then mkNode (swarm n) (network_recv n) (service_running n) (handler_recv n ++ [m]) true else n.

(** The first loop of [network_service]. *)
Definition perform (m : NetworkMessage) (w : W) : W :=
  match m with
  | NRPC p e => swarm_send_rpc p e w
  | NPubsubMessage topic message => swarm_publish topic message w
  end.
Definition perform_all (l : list NetworkMessage) (w : W) : W := fold_left (fun w m => perform m w) l w.

Definition handler_message (e : Libp2pEvent) : HandlerMessage :=
  match e with
  | LPubsubMessage id source topics data => HPubsubMessage id source topics data
  | LRPC p rpc_event => HRPC p rpc_event
  | LHelloSubscribed p => SayHello p
  end.

(** The second loop: [Ready(None)] would be [unreachable!]. *)
Fixpoint forward_events (fuel : nat) (n : Node) : outcome unit unit * Node :=
  match fuel with
  | O => (OutOfFuel, n)
  | S fuel =>
      let '(r, w) := service_poll fuel (swarm n) in
      let n := mkNode w (network_recv n) (service_running n) (handler_recv n) (handler_running n) in
      match r with
      | Ok (Some event) => forward_events fuel (handler_send (handler_message event) n)
      | Ok None => (Ok tt, n)
      | Err e => (Err e, n)
      | Panic => (Panic, n)
      | OutOfFuel => (OutOfFuel, n)
      end
  end.

(** One run of the closure of [network_service]. *)
Definition service_turn (fuel : nat) (n : Node) : outcome unit unit * Node :=
  if service_running n then
    forward_events fuel
      (mkNode (perform_all (network_recv n) (swarm n)) [] true (handler_recv n) (handler_running n))
  else (Ok tt, n).

(** The [exit_tx] of [spawn_service] ends the service. *)
Definition service_exit (n : Node) : Node := mkNode (swarm n) [] false (handler_recv n) (handler_running n).

(** ** [network/src/message_handler.rs] *)
Definition dummy_status_msg : StatusMessage Cid := mkStatus [] 8888 net_genesis_hash.
Definition dummy_request : RPCRequest Cid := BlockSyncRequest (mkBlockSync [] 777 111).

Definition on_say_hello (p : PeerId) (n : Node) : Node :=
  network_send (NRPC p (Request 0 (Status dummy_status_msg))) n.
Definition process_hello_message (source : PeerId) (n : Node) : Node :=
  network_send (NRPC source (Request 0 dummy_request)) n.

Definition process_blocks_message (n : Node) : outcome unit unit * Node := (Panic, n).     (* [unimplemented!()] *)
Definition process_messages_message (n : Node) : outcome unit unit * Node := (Panic, n).   (* [unimplemented!()] *)

Fixpoint on_pubsub_message (source : PeerId) (topics : list TopicHash) (n : Node) : outcome unit unit * Node :=
  match topics with
  | [] => (Ok tt, n)
  | topic :: topics' =>
      if decide (topic = topic_from_raw HELLO_TOPIC) then
        on_pubsub_message source topics' (process_hello_message source n)
      else if decide (topic = topic_from_raw BLOCKS_TOPIC) then
        match process_blocks_message n with
        | (Ok _, n) => on_pubsub_message source topics' n
        | stop => stop
        end
      else if decide (topic = topic_from_raw MESSAGES_TOPIC) then
        match process_messages_message n with
        | (Ok _, n) => on_pubsub_message source topics' n
        | stop => stop
        end
      else on_pubsub_message source topics' n
  end.

(** Requests and responses are only logged. *)
Definition process_request (p : PeerId) (request : RPCRequest Cid) (n : Node) : Node :=
  match request with
  | Status _ => n
  | Goodbye _ => n
  | BlockSyncRequest _ => n
  end.
Definition on_rpc (p : PeerId) (event : RPCEvent) (n : Node) : Node :=
  match event with
  | Request _ request => process_request p request n
  | Response _ _ => n
  | Error _ _ => n
  end.

Definition handle_message (m : HandlerMessage) (n : Node) : outcome unit unit * Node :=
  match m with
  | SayHello p => (Ok tt, on_say_hello p n)
  | HRPC p e => (Ok tt, on_rpc p e n)
  | HPubsubMessage id source topics data => on_pubsub_message source topics n
  end.

(** The handler's task takes one message; a panic ends it and closes its channel. *)
Definition handler_turn (n : Node) : Node :=
  if handler_running n then
    match handler_recv n with
    | [] => n
    | m :: l =>
        let '(r, n) := handle_message m (mkNode (swarm n) (network_recv n) (service_running n) l true) in
        match r with
        | Ok _ => n
        | _ => mkNode (swarm n) (network_recv n) (service_running n) [] false
        end
    end
  else n.
End Service.
End Network.

Arguments Swarm PeerId Cid ext_error MessageId TopicHash W : clear implicits.
Arguments Node PeerId Cid ext_error MessageId TopicHash W : clear implicits.
Arguments HandlerMessage PeerId Cid ext_error MessageId TopicHash : clear implicits.
Arguments NetworkMessage PeerId Cid ext_error TopicHash : clear implicits.
Arguments BehaviourEvent PeerId Cid ext_error MessageId TopicHash : clear implicits.
Arguments Behaviour PeerId Cid ext_error MessageId TopicHash : clear implicits.
End Network.
Export Network.
