(* ===== verification/NetworkTheorems.v ===== *)
(** * What a node does with the events of its swarm

    A turn of the network service moves all that is queued, in order; the
    message handler answers hellos until a gossip message makes it panic. *)

From Stdlib Require Import ZArith Lia String.
From stdpp Require Import base numbers list relations.
From S2P Require Import Prelude RpcHandler Network.

Local Open Scope Z_scope.

Section Node.
Context {PeerId Cid ext_error MessageId TopicHash : Type} `{NetLib Cid TopicHash} {W : Type}
  `{Swarm PeerId Cid ext_error MessageId TopicHash W}.

Abbreviation Event := (BehaviourEvent PeerId Cid ext_error MessageId TopicHash).
Abbreviation HMessage := (HandlerMessage PeerId Cid ext_error MessageId TopicHash).
Abbreviation NMessage := (NetworkMessage PeerId Cid ext_error TopicHash).
Abbreviation TNode := (Node PeerId Cid ext_error MessageId TopicHash W).

(** ** The events of a swarm

    [drains w es w']: polled until it is not ready, the swarm yields [es]; the
    service dials each discovered peer on the way. *)
Definition after_event (e : Event) (w : W) : W := match e with EvDiscoveredPeer p => swarm_dial p w | _ => w end.

Inductive drains : W -> list Event -> W -> Prop :=
| drains_done w w' : swarm_poll w = (SNotReady, w') -> drains w [] w'
| drains_event w e w1 es w' : swarm_poll w = (SReady e, w1) -> drains (after_event e w1) es w' -> drains w (e :: es) w'.

Definition event_message (e : Event) : option HMessage :=
  match e with
  | EvRPC p e => Some (HRPC p e)
  | EvHelloSubscribed p => Some (SayHello p)
  | EvGossipMessage id source topics data => Some (HPubsubMessage id source topics data)
  | EvDiscoveredPeer _ | EvExpiredPeer _ => None
  end.

Lemma service_poll_drains w es w' fuel :
  drains w es w' -> (length es < fuel)%nat ->
  (service_poll fuel w = (Ok None, w') /\ omap event_message es = []) \/
  exists le es2 w2, service_poll fuel w = (Ok (Some le), w2) /\ drains w2 es2 w' /\ (length es2 < length es)%nat /\
    omap event_message es = handler_message le :: omap event_message es2.
Proof.
  intros Hd. revert fuel. induction Hd as [w w' Hp|w e w1 es w' Hp Hd IH]; intros fuel Hf; cbn in Hf;
    destruct fuel as [|fuel]; try lia; cbn [service_poll]; rewrite Hp; [by left|].
  destruct e as [p ev|p|p|p|id source topics data]; cbn [after_event] in *.
  - right. exists (LRPC p ev), es, w1. repeat split; [done|cbn; lia].
  - right. exists (LHelloSubscribed p), es, w1. repeat split; [done|cbn; lia].
  - destruct (IH fuel) as [[Hs Hm]|(le & es2 & w2 & Hs & Hd2 & Hl & Hm)]; [lia|by left|].
    right. exists le, es2, w2. repeat split; [done|done|cbn; lia|done].
  - destruct (IH fuel) as [[Hs Hm]|(le & es2 & w2 & Hs & Hd2 & Hl & Hm)]; [lia|by left|].
    right. exists le, es2, w2. repeat split; [done|done|cbn; lia|done].
  - right. exists (LPubsubMessage id source topics data), es, w1. repeat split; [done|cbn; lia].
Qed.

(** What the handler's channel takes. *)
Definition received (n : TNode) (l : list HMessage) : list HMessage := if handler_running n then handler_recv n ++ l else handler_recv n.

Lemma forward_events_drains fuel es w' n :
  drains (swarm n) es w' -> (length es + 1 < fuel)%nat ->
  forward_events fuel n
  = (Ok tt, mkNode w' (network_recv n) (service_running n) (received n (omap event_message es)) (handler_running n)).
Proof.
  revert n es. induction fuel as [|fuel IH]; intros n es Hd Hf; [lia|]. cbn [forward_events].
  destruct (service_poll_drains (swarm n) es w' fuel Hd) as [[-> Hm]|(le & es2 & w2 & -> & Hd2 & Hl & Hm)]; [lia| |].
  - rewrite Hm. unfold received. rewrite app_nil_r. by destruct (handler_running n).
  - rewrite (IH _ es2); [|by unfold handler_send; cbn; destruct (handler_running n)|lia].
    rewrite Hm. unfold received, handler_send. cbn. destruct (handler_running n); cbn; [|done]. by rewrite <- app_assoc.
Qed.

Lemma service_turn_drains fuel es w' n :
  service_running n = true -> drains (perform_all (network_recv n) (swarm n)) es w' -> (length es + 1 < fuel)%nat ->
  service_turn fuel n = (Ok tt, mkNode w' [] true (received n (omap event_message es)) (handler_running n)).
Proof.
  intros Hr Hd Hf. unfold service_turn. rewrite Hr. by rewrite (forward_events_drains fuel es w').
Qed.

(** ** The handler *)
Definition panics_on (t : TopicHash) : Prop :=
  t <> topic_from_raw HELLO_TOPIC /\ (t = topic_from_raw BLOCKS_TOPIC \/ t = topic_from_raw MESSAGES_TOPIC).
#[local] Instance panics_on_dec t : Decision (panics_on t).
Proof. unfold panics_on. apply _. Defined.

(** The requests a message is answered with, if none of its topics panics. *)
Definition answers (m : HMessage) : list NMessage :=
  match m with
  | SayHello p => [NRPC p (Request 0 (Status dummy_status_msg))]
  | HRPC _ _ => []
  | HPubsubMessage _ source topics _ =>
      omap (fun t => if decide (t = topic_from_raw HELLO_TOPIC) then Some (NRPC source (Request 0 dummy_request)) else None) topics
  end.
Definition safe (m : HMessage) : Prop :=
  match m with HPubsubMessage _ _ topics _ => Forall (fun t => ~ panics_on t) topics | _ => True end.

Definition sending (n : TNode) (l : list NMessage) : TNode :=
  mkNode (swarm n) (network_recv n ++ l) (service_running n) (handler_recv n) (handler_running n).

Lemma sending_nil n : sending n [] = n.
Proof. unfold sending. rewrite app_nil_r. by destruct n. Qed.
Lemma sending_app n l l' : sending (sending n l) l' = sending n (l ++ l').
Proof. unfold sending. cbn. by rewrite app_assoc. Qed.
Lemma network_send_running n m : service_running n = true -> network_send m n = sending n [m].
Proof. intros Hr. unfold network_send, sending. by rewrite Hr. Qed.

Lemma on_pubsub_safe (source : PeerId) (topics : list TopicHash) (n : TNode) :
  service_running n = true -> Forall (fun t => ~ panics_on t) topics ->
  on_pubsub_message source topics n
  = (Ok tt, sending n (omap (fun t => if decide (t = topic_from_raw HELLO_TOPIC)
                                     then Some (NRPC source (Request 0 dummy_request)) else None) topics)).
Proof.
  intros Hr Ht. revert n Hr. induction Ht as [|t topics Ht _ IH]; intros n Hr; cbn [on_pubsub_message].
  - by rewrite sending_nil.
  - cbn [omap list_omap]. destruct (decide (t = topic_from_raw HELLO_TOPIC)) as [->|Hne].
    + unfold process_hello_message. rewrite network_send_running by done. rewrite IH by done. by rewrite sending_app.
    + rewrite !decide_False by (intros ->; apply Ht; split; auto). by apply IH.
Qed.

Lemma handle_safe m n : service_running n = true -> safe m -> handle_message m n = (Ok tt, sending n (answers m)).
Proof.
  intros Hr Hs. destruct m as [p|p e|id source topics data]; cbn.
  - unfold on_say_hello. by rewrite network_send_running.
  - rewrite sending_nil. by destruct e as [? []| |].
  - by apply on_pubsub_safe.
Qed.

Lemma handler_drains (l : list HMessage) (w : W) (recv : list NMessage) :
  Forall safe l ->
  Nat.iter (length l) (handler_turn (W := W)) (mkNode w recv true l true)
  = mkNode w (recv ++ concat (map answers l)) true [] true.
Proof.
  intros Hl. revert recv. induction Hl as [|m l Hm _ IH]; intros recv; cbn [length map concat].
  - cbn. by rewrite app_nil_r.
  - rewrite Nat.iter_succ_r. unfold handler_turn at 2. cbn [handler_running handler_recv]. rewrite handle_safe by done.
    unfold sending. cbn. rewrite IH. by rewrite <- app_assoc.
Qed.

(** A panic: the sends before it stay. *)
Lemma on_pubsub_panics (source : PeerId) (topics : list TopicHash) (n : TNode) :
  Exists panics_on topics -> exists n', on_pubsub_message source topics n = (Panic, n').
Proof.
  intros He. revert n. induction topics as [|t topics IH]; intros n; [by apply Exists_nil in He|]. cbn [on_pubsub_message].
  destruct (decide (t = topic_from_raw HELLO_TOPIC)) as [->|Hne].
  - apply IH. apply Exists_cons in He as [[? _]|He]; done.
  - destruct (decide _); [by eexists|]. destruct (decide _); [by eexists|]. apply IH.
    apply Exists_cons in He as [[_ [?|?]]|He]; done.
Qed.

(** ** Steps of a node *)
Inductive node_step : TNode -> TNode -> Prop :=
| step_service fuel n : node_step n (service_turn fuel n).2
| step_handler n : node_step n (handler_turn n)
| step_user m n : node_step n (network_send m n)
| step_exit n : node_step n (service_exit n).

Definition deaf (n : TNode) : Prop := handler_running n = false /\ handler_recv n = [].

Lemma forward_events_deaf fuel n : deaf n -> deaf (forward_events fuel n).2.
Proof.
  revert n. induction fuel as [|fuel IH]; intros n [H1 H2]; cbn [forward_events]; [done|].
  destruct (service_poll fuel (swarm n)) as [[[le|]| | |] w]; try done.
  apply IH. unfold handler_send. cbn. by rewrite H1.
Qed.

Lemma deaf_step n n' : deaf n -> node_step n n' -> deaf n'.
Proof.
  intros [H1 H2] Hs. destruct Hs as [fuel n|n|m n|n].
  - unfold service_turn. destruct (service_running n); [|done]. by apply forward_events_deaf.
  - unfold handler_turn. by rewrite H1.
  - unfold network_send. by destruct (service_running n).
  - done.
Qed.

Lemma deaf_forever n n' : deaf n -> rtc node_step n n' -> deaf n'.
Proof. intros Hd Hr. induction Hr as [|x y z Hxy _ IH]; [done|]. apply IH. by eapply deaf_step. Qed.

(** ** What a turn puts into the queue of the RPC behaviour *)
Class SwarmLaws : Prop := behaviour_set (b : Behaviour PeerId Cid ext_error MessageId TopicHash) (w : W) : behaviour (set_behaviour b w) = b.
Context `{!SwarmLaws}.

Definition rpc_queue (w : W) := rpc_events (b_rpc (behaviour w)).

Lemma perform_rpcs (l : list (PeerId * RPCEvent Cid ext_error)) (w : W) :
  rpc_queue (perform_all (map (fun e => NRPC e.1 e.2) l) w) = rpc_queue w ++ map (fun e => SendEvent e.1 e.2) l.
Proof.
  revert w. induction l as [|[p e] l IH]; intros w; cbn.
  - by rewrite app_nil_r.
  - unfold perform_all in *. rewrite IH. unfold rpc_queue, swarm_send_rpc, behaviour_send_rpc, rpc_send. rewrite behaviour_set.
    cbn. by rewrite <- app_assoc.
Qed.

(** The requests of an event, with their peers. *)
Definition requests (m : HMessage) : list (PeerId * RPCEvent Cid ext_error) :=
  match m with
  | SayHello p => [(p, Request 0 (Status dummy_status_msg))]
  | HRPC _ _ => []
  | HPubsubMessage _ source topics _ =>
      omap (fun t => if decide (t = topic_from_raw HELLO_TOPIC) then Some (source, Request 0 dummy_request) else None) topics
  end.

Lemma answers_requests m : answers m = map (fun e => NRPC e.1 e.2) (requests m).
Proof.
  destruct m as [p|p e|id source topics data]; try done. cbn. induction topics as [|t topics IH]; [done|].
  cbn. by destruct (decide _); cbn; rewrite IH.
Qed.
Lemma all_answers_requests l : concat (map answers l) = map (fun e => NRPC e.1 e.2) (concat (map requests l)).
Proof. induction l as [|m l IH]; [done|]. cbn. by rewrite IH, answers_requests, map_app. Qed.

(** C28: While the handler runs and no gossip message is about blocks or messages, a
    turn of the service followed by the handler's turns answers every event of the
    swarm, in order: a hello with a status request to that peer, each hello topic
    of a gossip message with a block request to its source, anything else with
    nothing; discovered peers are dialed.  The next turn puts exactly these
    requests into the queue of the RPC behaviour. *)
Theorem network_answers_events (n : TNode) (es : list Event) (w' : W) (fuel : nat) :
  service_running n = true -> handler_running n = true -> handler_recv n = [] ->
  drains (perform_all (network_recv n) (swarm n)) es w' -> (length es + 1 < fuel)%nat ->
  Forall safe (omap event_message es) ->
  let ms := omap event_message es in
  exists n1 n2,
    service_turn fuel n = (Ok tt, n1) /\ handler_recv n1 = ms /\
    Nat.iter (length ms) (handler_turn (W := W)) n1 = n2 /\ handler_running n2 = true /\ swarm n2 = w' /\
    rpc_queue (perform_all (network_recv n2) (swarm n2))
    = rpc_queue w' ++ map (fun e => SendEvent e.1 e.2) (concat (map requests ms)).
Proof.
  intros Hs Hh Hq Hd Hf Hsafe ms. eexists _, _.
  rewrite (service_turn_drains fuel es w') by done. unfold received. rewrite Hh, Hq. cbn [app].
  split; [done|]. split; [done|]. cbn [handler_recv]. split; [by apply handler_drains|].
  cbn [handler_running swarm network_recv app]. split; [done|]. split; [done|]. rewrite all_answers_requests. by rewrite perform_rpcs.
Qed.

(** A gossip message about blocks or messages, which any peer can publish,
    kills the message handler: its code for them is unimplemented.  Its queue is
    dropped, and whatever happens later the handler never runs or receives
    anything again, so that no hello is answered any more. *)
Theorem network_gossip_kills_handler (n n' : TNode) (id : MessageId) (source : PeerId) (topics : list TopicHash)
    (data : list Z) (l : list HMessage) :
  handler_running n = true -> handler_recv n = HPubsubMessage id source topics data :: l -> Exists panics_on topics ->
  rtc node_step (handler_turn n) n' ->
  handler_running n' = false /\ handler_recv n' = [] /\ handler_turn n' = n'.
Proof.
  intros Hh Hq Ht Hr. assert (Hd : deaf n').
  { apply (deaf_forever (handler_turn n)); [|done]. unfold handler_turn. rewrite Hh, Hq.
    destruct (on_pubsub_panics source topics (mkNode (swarm n) (network_recv n) (service_running n) l true) Ht) as [x Hx].
    cbn [handle_message]. rewrite Hx. done. }
  destruct Hd as [Hoff Hnil]. repeat split; [done|done|]. unfold handler_turn. by rewrite Hoff.
Qed.
End Node.

Arguments SwarmLaws PeerId Cid ext_error MessageId TopicHash W {_}.

(** ** A reference swarm

    It only polls its behaviour, and keeps the peers it dialed. *)
Module RefNet.
Abbreviation RefBehaviour := (Behaviour Z Z unit Z (list Z)).
Record RefSwarm := mkRefSwarm { rs_behaviour : RefBehaviour; rs_dialed : list Z; rs_published : list (list Z * list Z) }.

#[export] Instance ref_net_lib : NetLib Z (list Z) := {|
  dag_pb_sha256 l := fold_left Z.add l 0;
  topic_from_raw s := s;
|}.

#[export] Instance ref_swarm : Swarm Z Z unit Z (list Z) RefSwarm := {|
  behaviour := rs_behaviour;
  set_behaviour b s := mkRefSwarm b (rs_dialed s) (rs_published s);
  swarm_poll s :=
    match behaviour_poll (rs_behaviour s) with
    | (Some e, b) => (SReady e, mkRefSwarm b (rs_dialed s) (rs_published s))
    | (None, b) => (SNotReady, mkRefSwarm b (rs_dialed s) (rs_published s))
    end;
  swarm_dial p s := mkRefSwarm (rs_behaviour s) (rs_dialed s ++ [p]) (rs_published s);
  swarm_publish t m s := mkRefSwarm (rs_behaviour s) (rs_dialed s) (rs_published s ++ [(t, m)]);
|}.
#[export] Instance ref_swarm_laws : SwarmLaws Z Z unit Z (list Z) RefSwarm.
Proof. done. Qed.

(** Peer 4 is discovered, peer 5 subscribes to hellos, peer 6 says hello. *)
Definition greeted : RefSwarm :=
  mkRefSwarm (inject_gossipsub (GossipMessage 6 1 [HELLO_TOPIC; str "other"] [])
    (inject_gossipsub (Subscribed 5 HELLO_TOPIC) (inject_mdns (fun _ => false) (Discovered [4]) behaviour_new))) [] [].
Definition greeted_done : RefSwarm := mkRefSwarm behaviour_new [4] [].
End RefNet.
Import RefNet.

Lemma network_answers_events_witness :
  exists n1 n2, service_turn 5 (node_new greeted) = (Ok tt, n1) /\ length (handler_recv n1) = 2%nat /\
    Nat.iter 2 (handler_turn (W := RefSwarm)) n1 = n2 /\
    rpc_queue (perform_all (network_recv n2) (swarm n2))
    = [SendEvent 5 (Request 0 (Status dummy_status_msg)); SendEvent 6 (Request 0 dummy_request)].
Proof.
  destruct (network_answers_events (node_new greeted)
    [EvDiscoveredPeer 4; EvHelloSubscribed 5; EvGossipMessage 1 6 [HELLO_TOPIC; str "other"] []] greeted_done 5)
    as (n1 & n2 & Ha & Hb & Hc & _ & _ & Hd).
  - reflexivity.
  - reflexivity.
  - reflexivity.
  - repeat (eapply drains_event; [reflexivity|]). apply drains_done. reflexivity.
  - cbn. lia.
  - repeat constructor; intros [Hx [Hy|Hy]]; (by apply Hx) || discriminate Hy.
  - exists n1, n2. split; [exact Ha|]. rewrite Hb. split; [reflexivity|]. split; [exact Hc|exact Hd].
Defined.

(** Peer 6 publishes a block before peer 5 says hello. *)
Definition block_first : Node Z Z unit Z (list Z) RefSwarm :=
  mkNode greeted_done [] true [HPubsubMessage 1 6 [BLOCKS_TOPIC] []; SayHello 5] true.

Lemma network_gossip_kills_handler_witness :
  handler_running (handler_turn block_first) = false /\ handler_recv (handler_turn block_first) = [] /\
  handler_turn (handler_turn block_first) = handler_turn block_first.
Proof.
  apply (network_gossip_kills_handler block_first (handler_turn block_first) 1 6 [BLOCKS_TOPIC] [] [SayHello 5]).
  - reflexivity.
  - reflexivity.
  - apply Exists_cons_hd. split; [|by left]. intros Hx. discriminate Hx.
  - apply rtc_refl.
Defined.
