(* ===== verification/Startup.v ===== *)
(** * Starting a node

    [Libp2pConfig] (libp2p/src/config.rs), [Behaviour::new] and
    [Libp2pService::new] (libp2p/src/behaviour.rs, service.rs),
    [Service::spawn] (network/src/service.rs) and [run_lp2p] (cli/src/lib.rs).
    The swarm and the transport are libp2p's: [SwarmStart] is what the code calls
    and [SwarmStartLaws] what the calls do to the part of the swarm that can be
    observed, its [SwarmView]. *)

From Stdlib Require Import ZArith Lia String.
From stdpp Require Import base numbers list relations.
From S2P Require Import Prelude RpcHandler Network NetworkTheorems.

Local Open Scope Z_scope.

(** ** [multiaddr] *)
Class Multiaddrs := {
  Maddr : Type;
  maddr_parse : list Z -> option Maddr;
  maddr_to_string : Maddr -> list Z;
}.
Definition DEFAULT_LISTEN : list Z := str "/ip4/0.0.0.0/tcp/0".
Class MultiaddrsLaws (M : Multiaddrs) : Prop := {
  maddr_parses a : maddr_parse (maddr_to_string a) = Some a;
  maddr_default : exists a, maddr_parse DEFAULT_LISTEN = Some a;
}.

Module Startup.
Section Startup.
Context {PeerId Cid ext_error MessageId TopicHash : Type} `{NetLib Cid TopicHash} {W : Type}
  `{Swarm PeerId Cid ext_error MessageId TopicHash W} `{Multiaddrs}.

Abbreviation SBehaviour := (Behaviour PeerId Cid ext_error MessageId TopicHash).
Abbreviation SNode := (Node PeerId Cid ext_error MessageId TopicHash W).

(** ** [config.rs] *)
Record Libp2pConfig := mkConfig {
  listen_address : Maddr;
  bootnodes : list Maddr;
  pubsub_topics : list (list Z);
}.

Definition config_default : outcome unit Libp2pConfig :=
  a <- of_option tt (maddr_parse DEFAULT_LISTEN) ;;
  Ok (mkConfig a [] [HELLO_TOPIC; BLOCKS_TOPIC; MESSAGES_TOPIC]).

(** ** What the service asks of libp2p *)
Class SwarmStart := {
  Keypair : Type;
  keypair_peer_id : Keypair -> PeerId;
  swarm_new : Keypair -> SBehaviour -> W;              (* [Swarm::new] over [build_transport] *)
  swarm_dial_addr : Maddr -> W -> bool * W;            (* whether it is [Ok] *)
  swarm_listen_on : Maddr -> W -> bool * W;
  kad_add_address : PeerId -> Maddr -> W -> W;
  gossip_subscribe : list Z -> W -> bool * W;
}.
Context `{SwarmStart}.

(** [Behaviour::new]; [mdns] is whether [Mdns::new()] succeeds. *)
Definition Behaviour_new (mdns : bool) : outcome unit SBehaviour :=
  if mdns then Ok behaviour_new else Panic.

(** ** [service.rs] *)
Definition dial_addr (w : W) (a : Maddr) : W := (swarm_dial_addr a w).2.
Definition subscribe (w : W) (topic : list Z) : W := (gossip_subscribe topic w).2.

Definition Libp2pService_new (net_keypair : Keypair) (mdns : bool) (config : Libp2pConfig) : outcome unit W :=
  let peer_id := keypair_peer_id net_keypair in
  behaviour <- Behaviour_new mdns ;;
  let swarm := swarm_new net_keypair behaviour in
  let swarm := fold_left dial_addr (bootnodes config) swarm in
  let '(listening, swarm) := swarm_listen_on (listen_address config) swarm in
  if listening then
    let swarm := kad_add_address peer_id (listen_address config) swarm in
    Ok (fold_left subscribe (pubsub_topics config) swarm)
  else Panic.

(** [Service::spawn]: the handler's channel is there before the service. *)
Definition Service_spawn (net_keypair : Keypair) (mdns : bool) (config : Libp2pConfig) : outcome unit SNode :=
  w <- Libp2pService_new net_keypair mdns config ;; Ok (node_new w).

(** [run_lp2p] up to [block_on(exit)], which waits for a signal that is only
    fired after it: the node runs until the process is killed. *)
Definition run_lp2p (net_keypair : Keypair) (mdns : bool) (peer_ip : option Maddr) : outcome unit SNode :=
  network_config <- expect config_default ;;
  let network_config :=
    match peer_ip with
    | Some peer => mkConfig (listen_address network_config) (bootnodes network_config ++ [peer]) (pubsub_topics network_config)
    | None => network_config
    end in
  Service_spawn net_keypair mdns network_config.

(** ** What the calls do *)
Record SwarmView := mkView {
  v_dialing : list Maddr;                (* in order *)
  v_listening : list Maddr;
  v_routes : list (PeerId * Maddr);      (* offered to Kademlia *)
  v_topics : list (list Z);              (* subscribed, each once *)
}.

Definition add_topic (t : list Z) (l : list (list Z)) : list (list Z) := if decide (t ∈ l) then l else l ++ [t].

Class SwarmStartLaws := {
  view : W -> SwarmView;
  transport_supports : Maddr -> bool;    (* the formats that [build_transport] takes *)
  view_new k b : view (swarm_new k b) = mkView [] [] [] [];
  view_dial a w : (swarm_dial_addr a w).1 = transport_supports a /\
    view (swarm_dial_addr a w).2
    = mkView (v_dialing (view w) ++ (if transport_supports a then [a] else [])) (v_listening (view w))
        (v_routes (view w)) (v_topics (view w));
  view_listen a w : (swarm_listen_on a w).1 = transport_supports a /\
    view (swarm_listen_on a w).2
    = mkView (v_dialing (view w)) (v_listening (view w) ++ (if transport_supports a then [a] else []))
        (v_routes (view w)) (v_topics (view w));
  view_route p a w : view (kad_add_address p a w)
    = mkView (v_dialing (view w)) (v_listening (view w)) (v_routes (view w) ++ [(p, a)]) (v_topics (view w));
  view_subscribe t w : view (gossip_subscribe t w).2
    = mkView (v_dialing (view w)) (v_listening (view w)) (v_routes (view w)) (add_topic t (v_topics (view w)));
}.
Context `{!SwarmStartLaws}.

Lemma view_dial_all l w :
  view (fold_left dial_addr l w)
  = mkView (v_dialing (view w) ++ filter (fun a => transport_supports a = true) l) (v_listening (view w))
      (v_routes (view w)) (v_topics (view w)).
Proof.
  revert w. induction l as [|a l IH]; intros w; cbn [fold_left].
  - rewrite filter_nil, app_nil_r. by destruct (view w).
  - rewrite IH. unfold dial_addr. destruct (view_dial a w) as [_ ->].
    cbn [v_dialing v_listening v_routes v_topics]. rewrite filter_cons, <- app_assoc.
    destruct (transport_supports a); cbn; [by rewrite decide_True|by rewrite decide_False].
Qed.

Lemma view_subscribe_all l w :
  view (fold_left subscribe l w)
  = mkView (v_dialing (view w)) (v_listening (view w)) (v_routes (view w)) (fold_left (fun ts t => add_topic t ts) l (v_topics (view w))).
Proof.
  revert w. induction l as [|t l IH]; intros w; cbn [fold_left]; [by destruct (view w)|].
  rewrite IH. unfold subscribe. by rewrite view_subscribe.
Qed.

Definition started (k : Keypair) (c : Libp2pConfig) : SwarmView :=
  mkView (filter (fun a => transport_supports a = true) (bootnodes c)) [listen_address c]
    [(keypair_peer_id k, listen_address c)] (fold_left (fun ts t => add_topic t ts) (pubsub_topics c) []).

Lemma Libp2pService_new_spec k mdns c :
  if mdns && transport_supports (listen_address c)
  then exists w, Libp2pService_new k mdns c = Ok w /\ view w = started k c
  else Libp2pService_new k mdns c = Panic.
Proof.
  unfold Libp2pService_new, Behaviour_new. destruct mdns; [|done]. cbn [bind andb].
  set (w1 := fold_left dial_addr _ _).
  destruct (view_listen (listen_address c) w1) as [Hl Hv].
  destruct (swarm_listen_on (listen_address c) w1) as [b w2]. cbn in Hl, Hv. subst b.
  destruct (transport_supports (listen_address c)) eqn:Hs; [|done]. eexists. split; [done|].
  rewrite view_subscribe_all, view_route, Hv. unfold w1. by rewrite view_dial_all, view_new.
Qed.
End Startup.
Arguments SwarmStart PeerId Cid ext_error MessageId TopicHash W {_}.
Arguments SwarmStartLaws PeerId Cid ext_error MessageId TopicHash W {_ _}.
Arguments Libp2pConfig {_}.
End Startup.
Export Startup.
