(* ===== verification/Cli.v ===== *)
(** * [cli]: the command line (cli/src/cmd.rs, cli/src/lib.rs)

    The commands, what executing them does, and the log lines; the [main] of
    src/bin/main.rs, which does not call [cli::run].  [structopt] reads
    the arguments: [Clap] is the parser its derive makes, and its law that a
    command line spelled with the names of the attributes gives its command.
    [ansi_term] gives the codes of a style. *)

From Stdlib Require Import ZArith Lia String.
From stdpp Require Import base numbers list relations.
From S2P Require Import Prelude Decimal RpcHandler Network NetworkTheorems Startup.

Local Open Scope Z_scope.

Module Cli.

(** ** [cmd.rs] *)
Inductive Auth := CreateToken.
Inductive Chain := ChainHead | GetBlock | GetMessage.
Inductive Client := ClientImport | Local | Deal | Find | Retrive | QueryAsk | ListDeals.
Inductive Miner := MinerCreate | Unregister.
Inductive MessagePool := Pending | Subscribe.
Inductive NetworkCmd `{Multiaddrs} := Peers | Listen | Connect (peer : Maddr) | NetId.
Inductive Voucher := VoucherCreate | VoucherCheck | VoucherAdd | VoucherList | BestSpendable | VoucherSubmit.
Inductive PaymentChannel := PaychGet | PaychList | PaychVoucher (v : Voucher).
Inductive State := Power | Proving | Replay | PledgeCollateral | ListMiners | ListActors | GetActor | Lookup.
Inductive SyncCmd := SyncStatus.
Arguments Peers {_}. Arguments Listen {_}. Arguments Connect {_}. Arguments NetId {_}.

Inductive Command `{Multiaddrs} :=
| CAuth (c : Auth) | CChain (c : Chain) | CClient (c : Client) | CMiner (c : Miner) | CMessagePool (c : MessagePool)
| CNetwork (c : NetworkCmd) | CSync (c : SyncCmd) | CPaymentChannel (c : PaymentChannel) | CState (c : State)
| Transfer (target : list Z) (value : Z)
| FetchParam (only_verify_keys : bool).
Arguments CAuth {_}. Arguments CChain {_}. Arguments CClient {_}. Arguments CMiner {_}. Arguments CMessagePool {_}.
Arguments CNetwork {_}. Arguments CSync {_}. Arguments CPaymentChannel {_}. Arguments CState {_}. Arguments Transfer {_}.
Arguments FetchParam {_}.

(** The names of the [structopt] attributes. *)
Definition auth_word (c : Auth) : string := match c with CreateToken => "create-token" end.
Definition chain_word (c : Chain) : string :=
  match c with ChainHead => "head" | GetBlock => "get-block" | GetMessage => "get-message" end.
Definition client_word (c : Client) : string :=
  match c with
  | ClientImport => "import" | Local => "local" | Deal => "deal" | Find => "find" | Retrive => "retrieve"
  | QueryAsk => "query-ask" | ListDeals => "list-deals"
  end.
Definition miner_word (c : Miner) : string := match c with MinerCreate => "create" | Unregister => "unregister" end.
Definition mpool_word (c : MessagePool) : string := match c with Pending => "pending" | Subscribe => "subscribe" end.
Definition voucher_word (c : Voucher) : string :=
  match c with
  | VoucherCreate => "create" | VoucherCheck => "check" | VoucherAdd => "add" | VoucherList => "list"
  | BestSpendable => "best-spendable" | VoucherSubmit => "submit"
  end.
Definition paych_words (c : PaymentChannel) : list string :=
  match c with PaychGet => ["get"] | PaychList => ["list"] | PaychVoucher v => ["voucher"; voucher_word v] end%string.
Definition state_word (c : State) : string :=
  match c with
  | Power => "power" | Proving => "proving" | Replay => "replay" | PledgeCollateral => "pledge-collateral"
  | ListMiners => "list-miners" | ListActors => "list-actors" | GetActor => "get-actor" | Lookup => "lookup"
  end.
Definition sync_word (c : SyncCmd) : string := match c with SyncStatus => "status" end.

Section Commands.
Context `{Multiaddrs}.

Definition network_words (c : NetworkCmd) : list (list Z) :=
  match c with
  | Peers => [str "peers"]
  | Listen => [str "listen"]
  | Connect peer => [str "connect"; str "--peer"; maddr_to_string peer]
  | NetId => [str "id"]
  end.

(** The command line of a command, after the name of the program. *)
Definition command_words (c : Command) : list (list Z) :=
  match c with
  | CAuth c => [str "auth"; str (auth_word c)]
  | CChain c => [str "chain"; str (chain_word c)]
  | CClient c => [str "client"; str (client_word c)]
  | CMiner c => [str "miner"; str (miner_word c)]
  | CMessagePool c => [str "mpool"; str (mpool_word c)]
  | CNetwork c => str "network" :: network_words c
  | CSync c => [str "sync"; str (sync_word c)]
  | CPaymentChannel c => str "paych" :: map str (paych_words c)
  | CState c => [str "state"; str (state_word c)]
  | Transfer target value => [str "transfer"; target; to_decimal value]
  | FetchParam only => str "fetch-param" :: (if only then [str "--only-verify-keys"] else [])
  end.

Definition try_parse_multiaddr (peer_str : list Z) : outcome string Maddr :=
  of_option "Invalid Multiaddr"%string (maddr_parse peer_str).

(** [Plum] *)
Record Plum := mkPlum { log : option (list Z); cmd : Command }.

(** The derived parser; [None] when it prints help or an error and exits. *)
Class Clap := { from_iter : list (list Z) -> option Plum }.

(** A transfer whose target is not taken for an option and whose value is a [u64]. *)
Definition spellable (c : Command) : Prop :=
  match c with
  | Transfer target value => head target <> Some 45 /\ target <> [] /\ 0 <= value < 2 ^ 64
  | _ => True
  end.
Class ClapLaws (C : Clap) : Prop :=
  clap_command prog c : spellable c -> from_iter (prog :: command_words c) = Some (mkPlum None c).
End Commands.

(** ** Executing a command *)
Section Run.
Context {PeerId Cid ext_error MessageId TopicHash : Type} `{NetLib Cid TopicHash} {W : Type}
  `{Swarm PeerId Cid ext_error MessageId TopicHash W} `{Multiaddrs} `{!SwarmStart PeerId Cid ext_error MessageId TopicHash W}.
Context (k : Keypair) (mdns : bool).
Abbreviation RNode := (Node PeerId Cid ext_error MessageId TopicHash W).

Definition network_execute (c : NetworkCmd) : outcome unit RNode :=
  match c with
  | Connect peer => run_lp2p k mdns (Some peer)
  | _ => Panic   (* [unimplemented!()] *)
  end.

Definition plum_execute (p : Plum) : outcome unit RNode :=
  match cmd p with
  | CNetwork network => network_execute network
  | _ => Panic   (* [unimplemented!()] *)
  end.

(** ** The logger's filters *)
Inductive LevelFilter := Off | Error | Warn | Info | Debug | Trace.
Inductive directive := Filter (module : option (list Z)) (level : LevelFilter) | ParseFilters (filters : list Z).

Definition logger_directives (rust_log custom_log : option (list Z)) : list directive :=
  [Filter (Some (str "ws")) Off; Filter (Some (str "hyper")) Warn; Filter None Info]
  ++ match rust_log with Some lvl => [ParseFilters lvl] | None => [] end
  ++ [ParseFilters (default [] custom_log)].

(** [run]: the logger's directives and the node it leaves running; [None] when
    the parser exits. *)
Definition run `{!Clap} (rust_log : option (list Z)) (args : list (list Z))
  : outcome unit (option (list directive * RNode)) :=
  if decide (length args = 1%nat) then
    n <- run_lp2p k mdns None ;; Ok (Some (logger_directives rust_log None, n))
  else
    match from_iter args with
    | None => Ok None
    | Some plum => n <- plum_execute plum ;; Ok (Some (logger_directives rust_log (log plum), n))
    end.
End Run.

(** The program: [main] of src/bin/main.rs, where the call of [run] is commented out. *)
Definition main (args : list (list Z)) : outcome unit unit := Panic.   (* [todo!()] *)

(** ** Log lines *)
Definition ESC : Z := 27.

(** The regular expression [\x1b\[[^m]+m] at the start of a text: the length of
    the match. *)
Fixpoint to_m (s : list Z) : option nat :=
  match s with
  | [] => None
  | c :: s' => if c =? 109 then Some 1%nat else S <$> to_m s'
  end.
Definition color_match (s : list Z) : option nat :=
  match s with
  | e :: b :: c :: s' =>
      if (e =? ESC) && (b =? 91) && negb (c =? 109) then (fun n => 3 + n)%nat <$> to_m s' else None
  | _ => None
  end.

(** [RE.replace_all(s, "")], from the left, [skip] characters into a match. *)
Fixpoint kill_from (skip : nat) (s : list Z) : list Z :=
  match s with
  | [] => []
  | c :: s' =>
      match skip with
      | S skip' => kill_from skip' s'
      | O => match color_match s with Some n => kill_from (n - 1) s' | None => c :: kill_from 0 s' end
      end
  end.
Definition kill_color (s : list Z) : list Z := kill_from 0 s.

(** [ansi_term]: a style's codes, and a painted text. *)
Inductive Style := RGB96 | Yellow | BlueBold.
Class AnsiTerm := { style_codes : Style -> list Z }.
Class AnsiTermLaws (A : AnsiTerm) : Prop := { codes_some st : style_codes st <> []; codes_no_m st : 109 ∉ style_codes st }.
Definition sequence (codes : list Z) : list Z := [ESC; 91] ++ codes ++ [109].
Definition paint `{AnsiTerm} (st : Style) (s : list Z) : list Z := sequence (style_codes st) ++ s ++ sequence [48].

Definition level_of (l : LevelFilter) : Z :=
  match l with Off => 0 | Error => 1 | Warn => 2 | Info => 3 | Debug => 4 | Trace => 5 end.
Definition level_text (l : LevelFilter) : list Z :=
  match l with
  | Off => str "OFF" | Error => str "ERROR" | Warn => str "WARN" | Info => str "INFO" | Debug => str "DEBUG" | Trace => str "TRACE"
  end.

(** What [log] and [time] hand to the formatter. *)
Record LogRecord := mkRecord {
  level : LevelFilter; target : list Z; args : list Z;
  timestamp : list Z; millis : list Z; thread : option (list Z);
}.
Definition SP : list Z := [32].

(** The closure of [builder.format], with [paint] as a parameter. *)
Definition format_record (paint : Style -> list Z -> list Z) (custom_log : option (list Z)) (max_level : LevelFilter)
    (r : LogRecord) : list Z :=
  match custom_log with
  | None => paint RGB96 (timestamp r) ++ SP ++ args r
  | Some _ =>
      if level_of max_level <=? level_of Info then
        paint RGB96 (timestamp r) ++ SP ++ paint Yellow (level_text (level r)) ++ SP ++ target r ++ SP ++ args r
      else
        let name := match thread r with Some x => paint BlueBold x | None => [] end in
        paint RGB96 (timestamp r ++ str "." ++ millis r) ++ SP ++ name ++ SP
        ++ paint Yellow (level_text (level r)) ++ SP ++ target r ++ str "  " ++ args r
  end.

(** What it prints to the standard output, and the line it writes. *)
Definition log_line `{AnsiTerm} (custom_log : option (list Z)) (max_level : LevelFilter) (isatty stdout_tty : bool)
    (r : LogRecord) : option (list Z) * list Z :=
  let output := format_record paint custom_log max_level r in
  let stdout := if negb isatty && (level_of (level r) <=? level_of Info) && stdout_tty then Some output else None in
  let output := if negb isatty then kill_color output else output in
  (stdout, output).

(** ** Colours are removed *)
Lemma kill_skip n s : kill_from n s = kill_from 0 (drop n s).
Proof.
  revert n. induction s as [|c s IH]; intros n; [by rewrite drop_nil|].
  destruct n as [|n]; [done|]. cbn [kill_from drop]. apply IH.
Qed.

Lemma kill_match s n : color_match s = Some n -> kill_color s = kill_color (drop n s).
Proof.
  intros Hm. unfold kill_color. destruct s as [|e s]; [done|]. cbn [kill_from]. rewrite Hm, kill_skip.
  assert (Hn : (3 <= n)%nat).
  { destruct s as [|b [|c s]]; try done. cbn in Hm. destruct (_ && _); [|done].
    destruct (to_m s); [|done]. injection Hm as <-. lia. }
  destruct n as [|n]; [lia|]. cbn [drop]. do 2 f_equal. lia.
Qed.

Lemma kill_plain c s : c <> ESC -> kill_color (c :: s) = c :: kill_color s.
Proof.
  intros Hc. unfold kill_color. cbn [kill_from].
  assert (Hm : color_match (c :: s) = None).
  { destruct s as [|b [|d s]]; try done. cbn. by rewrite (proj2 (Z.eqb_neq _ _)). }
  by rewrite Hm.
Qed.

Lemma kill_plain_app s t : ESC ∉ s -> kill_color (s ++ t) = s ++ kill_color t.
Proof.
  induction s as [|c s IH]; [done|]. intros Hs. cbn [app].
  rewrite kill_plain by (intros ->; apply Hs; constructor). f_equal. apply IH. intros Hi. apply Hs. by constructor.
Qed.

Lemma kill_nil : kill_color [] = [].
Proof. done. Qed.

Lemma to_m_app codes t : 109 ∉ codes -> to_m (codes ++ 109 :: t) = Some (S (length codes)).
Proof.
  induction codes as [|c codes IH]; intros Hc; [done|]. cbn.
  rewrite (proj2 (Z.eqb_neq _ _)) by (intros ->; apply Hc; constructor).
  rewrite IH; [done|]. intros Hi. apply Hc. by constructor.
Qed.

Lemma kill_sequence codes t : codes <> [] -> 109 ∉ codes -> kill_color (sequence codes ++ t) = kill_color t.
Proof.
  intros Hn Hc. destruct codes as [|c codes]; [done|].
  assert (Hm : color_match (sequence (c :: codes) ++ t) = Some (S (S (S (S (length codes)))))).
  { unfold sequence. cbn. rewrite (proj2 (Z.eqb_neq _ _)) by (intros ->; apply Hc; constructor). cbn.
    rewrite <- app_assoc. cbn. rewrite to_m_app; [done|]. intros Hi. apply Hc. by constructor. }
  rewrite (kill_match _ _ Hm). f_equal. unfold sequence. cbn [app drop].
  apply drop_app_length'. rewrite length_app. cbn. lia.
Qed.

Lemma kill_paint `{AnsiTermLaws} st s t : ESC ∉ s -> kill_color (paint st s ++ t) = s ++ kill_color t.
Proof.
  intros Hs. unfold paint. rewrite <- !app_assoc, kill_sequence by (apply codes_some || apply codes_no_m).
  by rewrite kill_plain_app.
Qed.

Lemma kill_paint_end `{AnsiTermLaws} st s : ESC ∉ s -> kill_color (paint st s) = s.
Proof. intros Hs. rewrite <- (app_nil_r (paint st s)), kill_paint by done. by rewrite kill_nil, app_nil_r. Qed.

(** No part of the record has an escape character. *)
Definition plain_record (r : LogRecord) : Prop :=
  (ESC ∉ target r) /\ (ESC ∉ args r) /\ (ESC ∉ timestamp r) /\ (ESC ∉ millis r) /\ match thread r with Some x => ESC ∉ x | None => True end.

Lemma level_plain l : ESC ∉ level_text l.
Proof. destruct l; apply (bool_decide_unpack _); vm_compute; exact I. Qed.

Lemma sp_plain : (ESC ∉ SP) /\ (ESC ∉ str ".") /\ (ESC ∉ str "  ").
Proof. repeat split; apply (bool_decide_unpack _); vm_compute; exact I. Qed.

(** Written where there is no terminal, a log line is exactly the line without
    colours: the escape sequences of every painted part are removed and nothing
    else, in each of the three formats, as long as no part has an escape
    character of its own. *)
Theorem log_line_plain `{AnsiTermLaws} (custom_log : option (list Z)) (max_level : LevelFilter) (stdout_tty : bool)
    (r : LogRecord) :
  plain_record r ->
  (log_line custom_log max_level false stdout_tty r).2 = format_record (fun _ s => s) custom_log max_level r /\
  (log_line custom_log max_level true stdout_tty r).1 = None.
Proof.
  intros (Ht & Ha & Hs & Hm & Hn). split; [|done]. cbn [log_line snd negb].
  pose proof sp_plain as (Hsp & Hdot & Hsp2). pose proof (level_plain (level r)) as Hl.
  assert (Hp : ESC ∉ timestamp r ++ str "." ++ millis r) by (rewrite !elem_of_app; tauto).
  assert (Hend : forall s, ESC ∉ s -> kill_color s = s).
  { intros s Hp'. rewrite <- (app_nil_r s) at 1. by rewrite kill_plain_app, kill_nil, app_nil_r. }
  unfold format_record. destruct custom_log; [destruct (_ <=? _); [|destruct (thread r); [|cbn [app]]]|];
    repeat first [rewrite kill_paint by done | rewrite kill_plain_app by done | rewrite (Hend (args r)) by done]; done.
Qed.

(** An escape character of the record's own can put a sequence together again:
    removing the inner one leaves another. *)
Example kill_color_once :
  kill_color ([ESC] ++ sequence (str "1") ++ str "[31mred") = [ESC] ++ str "[31mred" /\
  kill_color (kill_color ([ESC] ++ sequence (str "1") ++ str "[31mred")) = str "red" /\
  kill_color ([ESC] ++ str "[m") = [ESC] ++ str "[m".
Proof. repeat split. Qed.

#[export] Instance ansi_ref : AnsiTerm := {|
  style_codes st := match st with RGB96 => str "38;2;96;96;96" | Yellow => str "33" | BlueBold => str "1;34" end;
|}.
#[export] Instance ansi_ref_laws : AnsiTermLaws ansi_ref.
Proof. split; intros []; try done; apply (bool_decide_unpack _); vm_compute; exact I. Qed.

Definition sample_record : LogRecord :=
  mkRecord Info (str "plum") (str "Local peer id") (str "2020-06-01 12:00:00") (str "007") (Some (str "main")).

Lemma log_line_plain_witness :
  (log_line (Some (str "trace")) Trace false true sample_record).2
    = str "2020-06-01 12:00:00.007 main INFO plum  Local peer id" /\
  (log_line (Some (str "trace")) Trace true true sample_record).1 = None.
Proof.
  change (str "2020-06-01 12:00:00.007 main INFO plum  Local peer id")
    with (format_record (fun _ s => s) (Some (str "trace")) Trace sample_record).
  apply (log_line_plain (Some (str "trace")) Trace true sample_record).
  repeat split; apply (bool_decide_unpack _); vm_compute; exact I.
Defined.

(** ** The command lines *)
Section Words.
Context `{MultiaddrsLaws}.

(** The commands without arguments. *)
Definition plain_commands : list Command :=
  [CAuth CreateToken; CChain ChainHead; CChain GetBlock; CChain GetMessage;
   CClient ClientImport; CClient Local; CClient Deal; CClient Find; CClient Retrive; CClient QueryAsk; CClient ListDeals;
   CMiner MinerCreate; CMiner Unregister; CMessagePool Pending; CMessagePool Subscribe;
   CNetwork Peers; CNetwork Listen; CNetwork NetId; CSync SyncStatus; CPaymentChannel PaychGet; CPaymentChannel PaychList]
  ++ map (fun v => CPaymentChannel (PaychVoucher v))
       [VoucherCreate; VoucherCheck; VoucherAdd; VoucherList; BestSpendable; VoucherSubmit]
  ++ map CState [Power; Proving; Replay; PledgeCollateral; ListMiners; ListActors; GetActor; Lookup]
  ++ [FetchParam false; FetchParam true].

(** A reader of command lines, against which the names are judged. *)
Definition read_words (ws : list (list Z)) : option Command :=
  match ws with
  | [w; x; y] =>
      if decide (w = str "transfer") then Transfer x <$> parse_u64 y
      else find (fun c => bool_decide (command_words c = ws)) plain_commands
  | [_; _; _; y] => (fun a => CNetwork (Connect a)) <$> maddr_parse y
  | _ => find (fun c => bool_decide (command_words c = ws)) plain_commands
  end.

Lemma read_words_spelled c : spellable c -> read_words (command_words c) = Some c.
Proof.
  intros Hs.
  destruct c as [[]|[]|[]|[]|[]|[| |peer|]|[]|[| |[]]|[]|target value|[]]; try reflexivity.
  - cbn [command_words network_words read_words]. by rewrite maddr_parses.
  - destruct Hs as (_ & _ & Hv). cbn [command_words read_words]. rewrite decide_True by done. by rewrite parse_to_decimal.
Qed.
End Words.

(** No two commands share a command line: the names of the subcommands and
    the arguments tell every command apart. *)
Theorem cli_commands_distinct `{MultiaddrsLaws} (c c' : Command) :
  spellable c -> spellable c' -> command_words c = command_words c' -> c = c'.
Proof. intros Hc Hc' He. apply read_words_spelled in Hc, Hc'. congruence. Qed.

(** ** What the program does *)
Section Program.
Context {PeerId Cid ext_error MessageId TopicHash : Type} `{NetLib Cid TopicHash} {W : Type}
  `{Swarm PeerId Cid ext_error MessageId TopicHash W} `{MultiaddrsLaws}
  `{!SwarmStart PeerId Cid ext_error MessageId TopicHash W} `{!SwarmStartLaws PeerId Cid ext_error MessageId TopicHash W}.
Context `{!Clap} `{!ClapLaws _}.

Definition TOPICS : list (list Z) := [HELLO_TOPIC; BLOCKS_TOPIC; MESSAGES_TOPIC].

(** What is seen of the swarm once the node runs. *)
Definition running_view (k : Keypair) (a : Maddr) (peers : list Maddr) : SwarmView :=
  mkView (filter (fun a => transport_supports a = true) peers) [a] [(keypair_peer_id k, a)] TOPICS.

Lemma config_default_ok : exists a, maddr_parse DEFAULT_LISTEN = Some a /\ config_default = Ok (mkConfig a [] TOPICS).
Proof. destruct maddr_default as [a Ha]. exists a. split; [done|]. unfold config_default. by rewrite Ha. Qed.

Lemma run_lp2p_spec k mdns a peer :
  maddr_parse DEFAULT_LISTEN = Some a ->
  if mdns && transport_supports a
  then exists w, run_lp2p k mdns peer = Ok (node_new w) /\ view w = running_view k a (option_list peer)
  else run_lp2p k mdns peer = Panic.
Proof.
  intros Ha. unfold run_lp2p, Service_spawn, config_default. rewrite Ha. cbn [of_option bind expect listen_address bootnodes pubsub_topics app].
  pose proof (Libp2pService_new_spec k mdns
    match peer with Some p => mkConfig a [p] TOPICS | None => mkConfig a [] TOPICS end) as Hs.
  destruct peer as [p|]; cbn [listen_address] in Hs; change [HELLO_TOPIC; BLOCKS_TOPIC; MESSAGES_TOPIC] with TOPICS;
    destruct (mdns && transport_supports a); try (by rewrite Hs);
    destruct Hs as (w & -> & Hv); exists w; (split; [done|]); rewrite Hv; done.
Qed.

(** C39: [cli::run] has two ways to run a node: with no arguments, and with
    [network connect --peer].  If mDNS comes up and the transport takes the default
    address, both leave a node that listens on it, is subscribed to the three
    topics, and dials the given peer if the transport takes that address; a node
    that has no mDNS or can not listen panics.  Every other command of the command
    line panics, unimplemented.  The program itself does not get there: its [main]
    does not call [cli::run] but panics on any arguments. *)
Theorem cli_runs (k : Keypair) (mdns : bool) (a : Maddr) (env : option (list Z)) (prog : list Z) (c : Command) :
  maddr_parse DEFAULT_LISTEN = Some a -> spellable c ->
  let runs args peers :=
    if mdns && transport_supports a then
      exists w, run k mdns env args = Ok (Some (logger_directives env None, node_new w)) /\ view w = running_view k a peers
    else run k mdns env args = Panic in
  runs [prog] [] /\
  match c with
  | CNetwork (Connect peer) => runs (prog :: command_words c) [peer]
  | _ => run k mdns env (prog :: command_words c) = Panic
  end /\
  main (prog :: command_words c) = Panic.
Proof.
  intros Ha Hc runs.
  assert (Hnode : forall args peer,
    run k mdns env args = (n <- run_lp2p k mdns peer ;; Ok (Some (logger_directives env None, n))) ->
    runs args (option_list peer)).
  { intros args peer Hr. unfold runs. rewrite Hr. pose proof (run_lp2p_spec k mdns a peer Ha) as Hs.
    destruct (mdns && transport_supports a); [|by rewrite Hs]. destruct Hs as (w & -> & Hv). by exists w. }
  assert (Hrun : run k mdns env (prog :: command_words c)
    = (n <- plum_execute k mdns (mkPlum None c) ;; Ok (Some (logger_directives env None, n)))).
  { unfold run. rewrite decide_False by (destruct c as [| | | | | | | | |? ?|[]]; done). by rewrite clap_command. }
  split; [apply (Hnode [prog] None); unfold run; by rewrite decide_True|]. split; [|done].
  destruct c as [| | | | |[| |peer|]| | | | |]; try (rewrite Hrun; done). by apply (Hnode _ (Some peer)).
Qed.

(** C40: A node that the command line started is silenced by the first message
    that the network gossips on a topic it subscribed to other than hellos: the
    service hands the message on, the handler's task panics, and whatever happens
    afterwards no message is handled any more. *)
Theorem cli_node_is_silenced (k : Keypair) (mdns : bool) (env : option (list Z)) (args : list (list Z)) (ds : list directive)
    (n n' : Node PeerId Cid ext_error MessageId TopicHash W) (t : list Z) (id : MessageId) (source : PeerId) (data : list Z)
    (w' : W) (fuel : nat) :
  run k mdns env args = Ok (Some (ds, n)) ->
  t ∈ v_topics (view (swarm n)) -> topic_from_raw t <> topic_from_raw HELLO_TOPIC ->
  drains (swarm n) [EvGossipMessage id source [topic_from_raw t] data] w' -> (2 < fuel)%nat ->
  rtc node_step (handler_turn (service_turn fuel n).2) n' ->
  handler_running n' = false /\ handler_recv n' = [] /\ handler_turn n' = n'.
Proof.
  intros Hrun Ht Hne Hd Hf Hr. destruct maddr_default as [a Ha].
  assert (Hn : exists w peers, n = node_new w /\ view w = running_view k a peers).
  { assert (Hl : forall peer m, run_lp2p k mdns peer = Ok m -> exists w peers, m = node_new w /\ view w = running_view k a peers).
    { intros peer m Hm. pose proof (run_lp2p_spec k mdns a peer Ha) as Hs. rewrite Hm in Hs.
      destruct (mdns && transport_supports a); [|done]. destruct Hs as (w & [= ->] & Hv). by exists w, (option_list peer). }
    unfold run in Hrun. destruct (decide _).
    - apply bind_ok in Hrun as (m & Hm & [= _ <-]). by eapply Hl.
    - destruct (from_iter args) as [[lg c]|]; [|done]. apply bind_ok in Hrun as (m & Hm & [= _ <-]).
      unfold plum_execute, network_execute in Hm. cbn [cmd] in Hm.
      destruct c as [| | | | |[| |peer|]| | | | |]; try done. by eapply Hl. }
  destruct Hn as (w & peers & -> & Hv). cbn [swarm node_new] in Ht, Hd. rewrite Hv in Ht. cbn [v_topics running_view] in Ht.
  assert (Hp : panics_on (topic_from_raw t)).
  { split; [done|]. unfold TOPICS in Ht. rewrite !elem_of_cons in Ht. destruct Ht as [->|[->|[->|Ht]]]; auto; [done|].
    by apply not_elem_of_nil in Ht. }
  rewrite (service_turn_drains fuel [EvGossipMessage id source [topic_from_raw t] data] w' (node_new w)) in Hr; [|done..].
  assert (Hdeaf : deaf n').
  { eapply deaf_forever; [|exact Hr]. cbn. rewrite decide_False by done. destruct Hp as [_ Hp].
    destruct (decide _); [done|]. destruct (decide _); [done|]. by destruct Hp. }
  destruct Hdeaf as [Hoff Hnil]. repeat split; [done|done|]. unfold handler_turn. by rewrite Hoff.
Qed.
End Program.

(** ** Instances

    An address is its text, and the transport takes the ones that start with a
    slash; the swarm polls its behaviour and keeps what it was asked for, and its
    first neighbour, peer 6, gossips a block. *)
Module CliRef.
Import RefNet.

#[export] Instance maddr_ref : Multiaddrs := {| Maddr := list Z; maddr_parse s := Some s; maddr_to_string s := s |}.
#[export] Instance maddr_ref_laws : MultiaddrsLaws maddr_ref.
Proof. split; [done|]. by exists DEFAULT_LISTEN. Qed.

#[export] Instance clap_ref : Clap := {|
  from_iter ws := match ws with _ :: ws => mkPlum None <$> read_words ws | [] => None end;
|}.
#[export] Instance clap_ref_laws : ClapLaws clap_ref.
Proof. intros prog c Hc. cbn [from_iter clap_ref]. by rewrite read_words_spelled. Qed.

Definition W : Type := RefSwarm * SwarmView (PeerId := Z).
Definition on_view (f : SwarmView -> SwarmView) (w : W) : W := (w.1, f w.2).

#[export] Instance view_swarm : Swarm Z Z unit Z (list Z) W := {|
  behaviour w := behaviour w.1;
  set_behaviour b w := (set_behaviour b w.1, w.2);
  swarm_poll w := let '(r, s) := swarm_poll w.1 in (r, (s, w.2));
  swarm_dial p w := (swarm_dial p w.1, w.2);
  swarm_publish t m w := (swarm_publish t m w.1, w.2);
|}.

Definition supports (a : list Z) : bool := bool_decide (head a = Some 47).

#[export] Instance start_ref : SwarmStart Z Z unit Z (list Z) W := {|
  Keypair := Z;
  keypair_peer_id k := k;
  swarm_new k b := (mkRefSwarm (push_event (EvGossipMessage 1 6 [BLOCKS_TOPIC] []) b) [] [], mkView [] [] [] []);
  swarm_dial_addr a w := (supports a, on_view (fun v =>
    mkView (v_dialing v ++ (if supports a then [a] else [])) (v_listening v) (v_routes v) (v_topics v)) w);
  swarm_listen_on a w := (supports a, on_view (fun v =>
    mkView (v_dialing v) (v_listening v ++ (if supports a then [a] else [])) (v_routes v) (v_topics v)) w);
  kad_add_address p a w := on_view (fun v => mkView (v_dialing v) (v_listening v) (v_routes v ++ [(p, a)]) (v_topics v)) w;
  gossip_subscribe t w := (bool_decide (t ∉ v_topics w.2), on_view (fun v =>
    mkView (v_dialing v) (v_listening v) (v_routes v) (add_topic t (v_topics v))) w);
|}.
#[export] Instance start_ref_laws : SwarmStartLaws Z Z unit Z (list Z) W.
Proof. by refine {| view := snd; transport_supports := supports |}. Defined.
End CliRef.
Import CliRef RefNet.

Lemma cli_commands_distinct_witness :
  command_words (Transfer (str "t01") 5) = [str "transfer"; str "t01"; str "5"] /\
  forall c, spellable c -> command_words c = [str "transfer"; str "t01"; str "5"] -> c = Transfer (str "t01") 5.
Proof.
  split; [reflexivity|]. intros c Hc He. apply (cli_commands_distinct c (Transfer (str "t01") 5)); [exact Hc| |exact He].
  repeat split; try done; lia.
Defined.

Definition default_addr : Maddr (Multiaddrs := maddr_ref) := DEFAULT_LISTEN.
Definition node_key : Keypair (PeerId := Z) (W := W) := 7.
Definition bootnode : Maddr (Multiaddrs := maddr_ref) := str "/ip4/1.2.3.4/tcp/4001".

Lemma cli_runs_witness :
  (exists w, run node_key true None [str "plum"] = Ok (Some (logger_directives None None, node_new w)) /\
     view w = running_view node_key default_addr []) /\
  (exists w, run node_key true None [str "plum"; str "network"; str "connect"; str "--peer"; bootnode]
     = Ok (Some (logger_directives None None, node_new w)) /\ view w = running_view node_key default_addr [bootnode]) /\
  run node_key false None [str "plum"] = Panic /\
  run node_key true None [str "plum"; str "chain"; str "head"] = Panic.
Proof.
  destruct (cli_runs node_key true default_addr None (str "plum") (CNetwork (Connect bootnode)) eq_refl I) as (H1 & H2 & _).
  destruct (cli_runs node_key false default_addr None (str "plum") (CChain ChainHead) eq_refl I) as (H3 & _).
  destruct (cli_runs node_key true default_addr None (str "plum") (CChain ChainHead) eq_refl I) as (_ & H4 & _).
  split; [exact H1|]. split; [exact H2|]. split; [exact H3|exact H4].
Defined.

Lemma cli_node_is_silenced_witness :
  exists ds n, run node_key true None [str "plum"] = Ok (Some (ds, n)) /\
    handler_running n = true /\ handler_running (handler_turn (service_turn 3 n).2) = false.
Proof.
  eexists _, _. split; [reflexivity|]. split; [reflexivity|].
  apply (cli_node_is_silenced node_key true None [str "plum"] (logger_directives None None)
    (node_new (mkRefSwarm (push_event (EvGossipMessage 1 6 [BLOCKS_TOPIC] []) behaviour_new) [] [], running_view node_key default_addr []))
    _ BLOCKS_TOPIC 1 6 [] (mkRefSwarm behaviour_new [] [], running_view node_key default_addr []) 3).
  - reflexivity.
  - apply (bool_decide_unpack _). vm_compute. exact I.
  - discriminate.
  - eapply drains_event; [reflexivity|]. apply drains_done. reflexivity.
  - lia.
  - apply rtc_refl.
Defined.
End Cli.
