(* ===== verification/JsonRpc.v ===== *)
(** * [api-client/jsonrpc-client]: JSON-RPC messages and transports

    types/*.rs (error codes, parameters, requests, responses, with the
    (de)serializers their derives stand for), transports/mod.rs (single calls
    and batches over any transport), http.rs, and the WebSocket transport of
    ws.rs: the table of the calls that wait for a response, the table of
    subscriptions, and the task that handles incoming messages. *)

From Stdlib Require Import ZArith Lia String.
From stdpp Require Import base numbers list gmap.
From S2P Require Import Prelude Decimal F64 Json Serde.

Local Open Scope Z_scope.

(** ** [version.rs] *)
Inductive Version := V2.
Definition version_serialize (v : Version) : json := match v with V2 => JStr (str "2.0") end.
Definition version_deserialize (j : json) : de Version :=
  match j with
  | JStr s => if decide (s = str "2.0") then Ok V2 else Err (CustomError (str "invalid version"))
  | _ => Err ForeignError
  end.

(** ** [error.rs] *)
Inductive ErrorCode :=
| ParseError | InvalidRequest | MethodNotFound | InvalidParams | InternalError | ServerError (code : Z).

Definition code (c : ErrorCode) : Z :=
  match c with
  | ParseError => -32700
  | InvalidRequest => -32600
  | MethodNotFound => -32601
  | InvalidParams => -32602
  | InternalError => -32603
  | ServerError code => code
  end.

Definition description (c : ErrorCode) : text :=
  match c with
  | ParseError => str "Parse error"
  | InvalidRequest => str "Invalid request"
  | MethodNotFound => str "Method not found"
  | InvalidParams => str "Invalid params"
  | InternalError => str "Internal error"
  | ServerError _ => str "Server error"
  end.

Definition code_from (n : Z) : ErrorCode :=
  if n =? -32700 then ParseError
  else if n =? -32600 then InvalidRequest
  else if n =? -32601 then MethodNotFound
  else if n =? -32602 then InvalidParams
  else if n =? -32603 then InternalError
  else ServerError n.

Definition code_serialize (c : ErrorCode) : json := JInt (code c).
Definition code_deserialize (j : json) : de ErrorCode := n <- de_i64 j ;; Ok (code_from n).

Record Error := mkError { err_code : ErrorCode; message : text; data : option Value }.

Definition error_new (c : ErrorCode) : Error := mkError c (description c) None.
Definition parse_error : Error := error_new ParseError.
Definition invalid_request : Error := error_new InvalidRequest.
Definition method_not_found : Error := error_new MethodNotFound.
Definition invalid_params (m : text) : Error := mkError InvalidParams m None.
(** [details] is the [Debug] text of the argument. *)
Definition invalid_params_with_details (m details : text) : Error :=
  mkError InvalidParams (str "Invalid parameters: " ++ m) (Some (JStr details)).
Definition internal_error : Error := error_new InternalError.
Definition invalid_version : Error :=
  mkError InvalidRequest (str "Unsupported JSON-RPC protocol version") None.
Definition error_display (e : Error) : text := description (err_code e) ++ str ": " ++ message e.

Definition error_serialize (e : Error) : json :=
  JObj ([(str "code", code_serialize (err_code e)); (str "message", JStr (message e))] ++
        match data e with Some d => [(str "data", d)] | None => [] end).
Definition error_deserialize (j : json) : de Error :=
  l <- struct_slots false [str "code"; str "message"; str "data"] j ;;
  match l with
  | [a; b; c] =>
      code <- required code_deserialize a ;;
      message <- required de_string b ;;
      data <- optional de_value c ;;
      Ok (mkError code message data)
  | _ => Err ForeignError
  end.

(** ** [params.rs] *)
Inductive Params := PNone | PArray (l : list Value) | PMap (l : list (text * Value)).

Definition params_value (p : Params) : Value :=
  match p with PArray l => JArr l | PMap m => JObj m | PNone => JNull end.
Definition params_deserialize (j : json) : de Params :=
  match to_value j with
  | JNull => Ok PNone
  | JArr l => Ok (PArray l)
  | JObj l => Ok (PMap l)
  | _ => Err ForeignError
  end.

(** [parse]: [from_value] is the target type's deserializer, [show] the text of
    its error. *)
Definition params_parse {D} (from_value : Value -> de D) (show : de_error -> text) (p : Params) : outcome Error D :=
  map_err (fun e => invalid_params (str "Invalid params: " ++ show e ++ str ".")) (from_value (params_value p)).
Definition expect_no_params (debug : Params -> text) (p : Params) : outcome Error unit :=
  match p with
  | PNone => Ok tt
  | PArray [] => Ok tt
  | p => Err (invalid_params_with_details (str "No parameters were expected") (debug p))
  end.

(** ** [request.rs] *)
Record MethodCall := mkCall { mc_jsonrpc : option Version; mc_method : text; mc_params : Params; mc_id : Z }.
Record Notification := mkNotification { n_jsonrpc : option Version; n_method : text; n_params : Params }.
Inductive Call := CMethodCall (c : MethodCall) | CNotification (n : Notification).
Inductive Request := RSingle (c : Call) | RBatch (l : list Call).

Definition option_json (o : option json) : json := match o with Some j => j | None => JNull end.

Definition call_serialize (c : Call) : json :=
  match c with
  | CMethodCall c => JObj [(str "jsonrpc", option_json (version_serialize <$> mc_jsonrpc c));
      (str "method", JStr (mc_method c)); (str "params", params_value (mc_params c)); (str "id", JInt (mc_id c))]
  | CNotification n => JObj [(str "jsonrpc", option_json (version_serialize <$> n_jsonrpc n));
      (str "method", JStr (n_method n)); (str "params", params_value (n_params n))]
  end.
Definition request_serialize (r : Request) : json :=
  match r with RSingle c => call_serialize c | RBatch l => JArr (map call_serialize l) end.

Definition notification_deserialize (j : json) : de Notification :=
  l <- struct_slots true [str "jsonrpc"; str "method"; str "params"] j ;;
  match l with
  | [a; b; c] =>
      v <- optional version_deserialize a ;;
      m <- required de_string b ;;
      p <- defaulted PNone params_deserialize c ;;
      Ok (mkNotification v m p)
  | _ => Err ForeignError
  end.

(** ** [response.rs] *)
Record SuccessResponse := mkSuccess { s_jsonrpc : option Version; s_id : Z; s_result : Value; s_error : option Error }.
Record FailureResponse := mkFailure { f_jsonrpc : option Version; f_id : Z; f_result : option Value; f_error : Error }.
Inductive ResponseOutput := Success (s : SuccessResponse) | Failure (f : FailureResponse).
Inductive Response := Single (o : ResponseOutput) | Batch (l : list ResponseOutput).

Definition output_from (v : option Version) (id : Z) (r : Value + Error) : ResponseOutput :=
  match r with
  | inl result => Success (mkSuccess v id result None)
  | inr error => Failure (mkFailure v id None error)
  end.
Definition output_invalid_request (v : option Version) (id : Z) : ResponseOutput :=
  Failure (mkFailure v id None (error_new InvalidRequest)).
Definition output_version (o : ResponseOutput) : option Version :=
  match o with Success s => s_jsonrpc s | Failure f => f_jsonrpc f end.
Definition output_id (o : ResponseOutput) : Z := match o with Success s => s_id s | Failure f => f_id f end.
Definition output_result (o : ResponseOutput) : Value + Error :=
  match o with Success s => inl (s_result s) | Failure f => inr (f_error f) end.

Definition version_field (v : option Version) : list (text * json) :=
  match v with Some v => [(str "jsonrpc", version_serialize v)] | None => [] end.
Definition output_serialize (o : ResponseOutput) : json :=
  match o with
  | Success s => JObj (version_field (s_jsonrpc s) ++ [(str "id", JInt (s_id s)); (str "result", s_result s);
      (str "error", option_json (error_serialize <$> s_error s))])
  | Failure f => JObj (version_field (f_jsonrpc f) ++ [(str "id", JInt (f_id f)); (str "result", option_json (f_result f));
      (str "error", error_serialize (f_error f))])
  end.

Definition response_fields : list text := [str "jsonrpc"; str "id"; str "result"; str "error"].
Definition success_deserialize (j : json) : de SuccessResponse :=
  l <- struct_slots true response_fields j ;;
  match l with
  | [a; b; c; d] =>
      v <- optional version_deserialize a ;;
      id <- required de_usize b ;;
      r <- required de_value c ;;
      e <- optional error_deserialize d ;;
      Ok (mkSuccess v id r e)
  | _ => Err ForeignError
  end.
Definition failure_deserialize (j : json) : de FailureResponse :=
  l <- struct_slots true response_fields j ;;
  match l with
  | [a; b; c; d] =>
      v <- optional version_deserialize a ;;
      id <- required de_usize b ;;
      r <- optional de_value c ;;
      e <- required error_deserialize d ;;
      Ok (mkFailure v id r e)
  | _ => Err ForeignError
  end.

(** [#[serde(untagged)]]: the first variant that can be read. *)
Definition output_deserialize (j : json) : de ResponseOutput :=
  match success_deserialize j with
  | Ok s => Ok (Success s)
  | _ => f <- failure_deserialize j ;; Ok (Failure f)
  end.
Fixpoint outputs_deserialize (l : list json) : de (list ResponseOutput) :=
  match l with
  | [] => Ok []
  | j :: l' => o <- output_deserialize j ;; r <- outputs_deserialize l' ;; Ok (o :: r)
  end.
Definition response_deserialize (j : json) : de Response :=
  match output_deserialize j with
  | Ok o => Ok (Single o)
  | _ => match j with JArr l => r <- outputs_deserialize l ;; Ok (Batch r) | _ => Err ForeignError end
  end.

(** ** [transports/mod.rs] *)
Inductive RpcError := JsonError (e : de_error) | HttpError | WebSocketError | RpcResponse (e : Error).

Class Transport (S : Type) := {
  prepare : text -> Params -> S -> Z * Call * S;
  execute : Z -> Request -> S -> outcome RpcError Response * S;
}.

Section Send.
Context {S : Type} `{Transport S}.

(** [from_value] is the deserializer of the result type. *)
Definition send {T} (from_value : Value -> de T) (method : text) (params : Params) (s : S) : outcome RpcError T * S :=
  let '(id, call, s) := prepare method params s in
  let '(r, s) := execute id (RSingle call) s in
  (response <- r ;;
   match response with
   | Single (Success success) => map_err JsonError (from_value (s_result success))
   | Single (Failure failure) => Err (RpcResponse (f_error failure))
   | Batch _ => Panic
   end, s).

Definition execute_batch (requests : list (Z * Call)) (s : S) : outcome RpcError Response * S :=
  match requests with
  | [] => execute 0 (RBatch []) s
  | (id, first) :: rest => execute id (RBatch (first :: map snd rest)) s
  end.

(** The lazy [map] of the iterator, as [collect] runs it. *)
Fixpoint prepare_all (l : list (text * Params)) (s : S) : list (Z * Call) * S :=
  match l with
  | [] => ([], s)
  | (m, p) :: l' =>
      let '(id, call, s) := prepare m p s in
      let '(r, s) := prepare_all l' s in
      ((id, call) :: r, s)
  end.

Definition batch_result (o : ResponseOutput) : outcome RpcError Value :=
  match o with
  | Success success => Ok (s_result success)
  | Failure failure => Err (RpcResponse (f_error failure))
  end.

Definition send_batch (l : list (text * Params)) (s : S) : outcome RpcError (list (outcome RpcError Value)) * S :=
  let '(requests, s) := prepare_all l s in
  let '(r, s) := execute_batch requests s in
  (response <- r ;;
   match response with
   | Single _ => Panic
   | Batch outputs => Ok (map batch_result outputs)
   end, s).

(** The loop of [send_batch_same]. *)
Fixpoint collect_results {T} (from_value : Value -> de T) (l : list ResponseOutput) : outcome RpcError (list T) :=
  match l with
  | [] => Ok []
  | Success success :: l' =>
      result <- expect (from_value (s_result success)) ;;
      rest <- collect_results from_value l' ;;
      Ok (result :: rest)
  | Failure failure :: _ => Err (RpcResponse (f_error failure))
  end.

Definition send_batch_same {T} (from_value : Value -> de T) (method : text) (batch_params : list Params) (s : S)
  : outcome RpcError (list T) * S :=
  let '(requests, s) := prepare_all (map (fun p => (method, p)) batch_params) s in
  let '(r, s) := execute_batch requests s in
  (response <- r ;;
   match response with
   | Single _ => Panic
   | Batch outputs => collect_results from_value outputs
   end, s).
End Send.

(** [self.id.fetch_add(1)] and the call with that id, in both transports. *)
Definition next_call (id : Z) (method : text) (params : Params) : Z * Call * Z :=
  (id, CMethodCall (mkCall (Some V2) method params id), trunc 64 (id + 1)).

(** ** [http.rs] *)
Record HttpTransport := mkHttp { http_id : Z; url : text; bearer_auth_token : option text }.
Definition http_new (u : text) : HttpTransport := mkHttp 0 u None.
Definition http_new_with_bearer_auth (u t : text) : HttpTransport := mkHttp 0 u (Some t).

(** [reqwest]: what the server answers to a posted body, with its [Authorization]. *)
Class HttpPost := post : text -> option text -> json -> outcome RpcError json.

Definition http_send_request `{HttpPost} (h : HttpTransport) (r : Request) : outcome RpcError Response :=
  body <- post (url h) (bearer_auth_token h) (request_serialize r) ;;
  match response_deserialize body with Ok x => Ok x | _ => Err HttpError end.

#[export] Instance http_transport `{HttpPost} : Transport HttpTransport := {|
  prepare m p h :=
    let '(id, c, n) := next_call (http_id h) m p in (id, c, mkHttp n (url h) (bearer_auth_token h));
  execute _ r h := (http_send_request h r, h);
|}.

(** ** [ws.rs]

    The oneshot channel of a call and the channel of a subscription are numbers
    (their position in the order of creation); the sets tell which of their
    receivers were dropped.  [replies] and [notified] are what was sent through
    them, [sent] what went to the writer, oldest first.  [running] is false once
    the task has ended. *)
Inductive Message := Text (j : option json) | Binary (b : text) | Close (b : text) | Ping (b : text) | Pong (b : text).

Record WebSocketTransport := mkWs {
  ws_id : Z;
  pendings : gmap Z nat;
  subscriptions : gmap Z nat;
  sent : list Message;
  replies : list (nat * (outcome RpcError Response));
  notified : list (nat * Value);
  channels : nat;
  dropped : gset nat;
  running : bool;
}.

Definition ws_new : WebSocketTransport := mkWs 1 ∅ ∅ [] [] [] 0 ∅ true.

(** [serde_json::from_str]: a text is the tree it parses to, if it does. *)
Definition from_str {A} (f : json -> de A) (msg : option json) : de A :=
  match msg with Some j => f j | None => Err ForeignError end.

(** The calls that touch the state through its locks and channels. *)
Definition ws_send_message (m : Message) (w : WebSocketTransport) : outcome RpcError unit * WebSocketTransport :=
  if running w then
    (Ok tt, mkWs (ws_id w) (pendings w) (subscriptions w) (sent w ++ [m]) (replies w) (notified w) (channels w)
              (dropped w) (running w))
  else (Panic, w).

(** [send_request] up to the [await]: the channel the response will come
    through.  A sender that is replaced is dropped, and its receiver's [unwrap]
    panics. *)
Definition send_request (id : Z) (r : Request) (w : WebSocketTransport) : outcome RpcError nat * WebSocketTransport :=
  let c := channels w in
  let orphan := match pendings w !! id with Some old => [(old, Panic)] | None => [] end in
  let w := mkWs (ws_id w) (<[id := c]> (pendings w)) (subscriptions w) (sent w) (replies w ++ orphan) (notified w) (S c)
             (dropped w) (running w) in
  let '(r, w) := ws_send_message (Text (Some (request_serialize r))) w in
  (_ <- r ;; Ok c, w).

Definition handle_subscription (msg : option json) (w : WebSocketTransport) : outcome RpcError unit * WebSocketTransport :=
  match from_str notification_deserialize msg with
  | Ok notification =>
      match n_params notification with
      | PArray params =>
          match params !! 0%nat, params !! 1%nat with
          | Some (JInt id), Some result =>
              if id <? 0 then (Panic, w)  (* [as_u64().unwrap()] *)
              else match subscriptions w !! id with
                | Some stream =>
                    if bool_decide (stream ∈ dropped w) then (Panic, w)
                    else (Ok tt, mkWs (ws_id w) (pendings w) (subscriptions w) (sent w) (replies w)
                                   (notified w ++ [(stream, result)]) (channels w) (dropped w) (running w))
                | None => (Ok tt, w)
                end
          | Some (JFloat _), Some _ => (Panic, w)
          | _, _ => (Ok tt, w)
          end
      | _ => (Ok tt, w)
      end
  | _ => (Ok tt, w)
  end.

Definition response_id (r : de Response) : Z :=
  match r with
  | Ok (Single output) => output_id output
  | Ok (Batch (output :: _)) => output_id output
  | Ok (Batch []) => 0
  | _ => 0
  end.

Definition handle_pending_response (msg : option json) (w : WebSocketTransport) : WebSocketTransport :=
  let response := from_str response_deserialize msg in
  let id := response_id response in
  match pendings w !! id with
  | Some request =>
      mkWs (ws_id w) (delete id (pendings w)) (subscriptions w) (sent w)
        (if bool_decide (request ∈ dropped w) then replies w
         else replies w ++ [(request, map_err JsonError response)])
        (notified w) (channels w) (dropped w) (running w)
  | None => w
  end.

Definition handle_incoming_msg (msg : Message) (w : WebSocketTransport) : outcome RpcError unit * WebSocketTransport :=
  match msg with
  | Text msg =>
      let '(r, w) := handle_subscription msg w in
      match r with
      | Ok _ => (Ok tt, handle_pending_response msg w)
      | r => (r, w)
      end
  | Binary _ => (Ok tt, w)
  | Close msg => ws_send_message (Close msg) w
  | Ping msg => ws_send_message (Pong msg) w
  | Pong _ => (Ok tt, w)
  end.

Definition ws_stop (w : WebSocketTransport) : WebSocketTransport :=
  mkWs (ws_id w) (pendings w) (subscriptions w) (sent w) (replies w) (notified w) (channels w) (dropped w) false.

(** One turn of [ws_task]'s reader: a panic ends the task. *)
Definition ws_receive (msg : Message) (w : WebSocketTransport) : WebSocketTransport :=
  if running w then
    let '(r, w) := handle_incoming_msg msg w in
    match r with Ok _ => w | _ => ws_stop w end
  else w.

Definition ws_subscribe (id : Z) (w : WebSocketTransport) : nat * WebSocketTransport :=
  let c := channels w in
  (c, mkWs (ws_id w) (pendings w) (<[id := c]> (subscriptions w)) (sent w) (replies w) (notified w) (S c)
        (dropped w) (running w)).
Definition ws_unsubscribe (id : Z) (w : WebSocketTransport) : WebSocketTransport :=
  mkWs (ws_id w) (pendings w) (delete id (subscriptions w)) (sent w) (replies w) (notified w) (channels w)
    (dropped w) (running w).
(** The caller drops its future, or its stream. *)
Definition ws_drop (c : nat) (w : WebSocketTransport) : WebSocketTransport :=
  mkWs (ws_id w) (pendings w) (subscriptions w) (sent w) (replies w) (notified w) (channels w)
    ({[c]} ∪ dropped w) (running w).

Definition ws_prepare (m : text) (p : Params) (w : WebSocketTransport) : Z * Call * WebSocketTransport :=
  let '(id, c, n) := next_call (ws_id w) m p in
  (id, c, mkWs n (pendings w) (subscriptions w) (sent w) (replies w) (notified w) (channels w) (dropped w) (running w)).

(** ** Waiting for the response *)

(** What the receiver of channel [c] yields, if anything came. *)
Definition reply_of (c : nat) (w : WebSocketTransport) : option (outcome RpcError Response) :=
  match list_find (fun e => e.1 = c) (replies w) with Some (_, e) => Some e.2 | None => None end.

(** [rx.await.unwrap()] while the messages come in: [OutOfFuel] where the call
    still waits when there are no more. *)
Fixpoint await (c : nat) (msgs : list Message) (w : WebSocketTransport)
  : outcome RpcError Response * (WebSocketTransport * list Message) :=
  match reply_of c w with
  | Some r => (r, (w, msgs))
  | None =>
      match msgs with
      | [] => (OutOfFuel, (w, []))
      | m :: msgs' => await c msgs' (ws_receive m w)
      end
  end.

#[export] Instance ws_transport : Transport (WebSocketTransport * list Message) := {|
  prepare m p s := let '(id, c, w) := ws_prepare m p s.1 in (id, c, (w, s.2));
  execute id r s :=
    let '(c, w) := send_request id r s.1 in
    match c with
    | Ok c => await c s.2 w
    | Err e => (Err e, (w, s.2))
    | Panic => (Panic, (w, s.2))
    | OutOfFuel => (OutOfFuel, (w, s.2))
    end;
|}.

(** ** [api-client/src/client.rs] *)
Section RpcClient.
Context {S : Type} `{Transport S}.

(** [RpcClient::request], the same for both transports. *)
Definition request {T} (from_value : Value -> de T) (method : text) (params : list Value) (s : S)
  : outcome RpcError T * S :=
  send from_value (str "Filecoin." ++ method) (PArray params) s.
End RpcClient.

(** [RpcClient::subscribe] and [unsubscribe]: HTTP does not have them. *)
Definition http_client_subscribe (method : text) (params : list Value) : outcome RpcError (Z * nat) := Panic.
Definition http_client_unsubscribe (id : Z) : outcome RpcError unit := Panic.

Definition ws_client_subscribe (method : text) (params : list Value) (s : WebSocketTransport * list Message)
  : outcome RpcError (Z * nat) * (WebSocketTransport * list Message) :=
  let '(r, s) := send de_usize (str "Filecoin." ++ method) (PArray params) s in
  match r with
  | Ok id => let '(c, w) := ws_subscribe id s.1 in (Ok (id, c), (w, s.2))
  | Err e => (Err e, s)
  | Panic => (Panic, s)
  | OutOfFuel => (OutOfFuel, s)
  end.
Definition ws_client_unsubscribe (id : Z) (s : WebSocketTransport * list Message) : WebSocketTransport * list Message :=
  (ws_unsubscribe id s.1, s.2).
