(* ===== verification/JsonRpcTheorems.v ===== *)
(** * What the JSON-RPC client guarantees

    Error codes and responses on the wire, which response reaches which call
    over a WebSocket, and what happens to a call whose response cannot be read
    or never comes. *)

From Stdlib Require Import ZArith Lia String.
From stdpp Require Import base numbers list gmap.
From S2P Require Import Prelude Decimal F64 Json Serde JsonRpc.

Local Open Scope Z_scope.

(** ** Error codes *)
Lemma code_from_code n : code (code_from n) = n.
Proof.
  unfold code_from. repeat (match goal with |- context [n =? ?c] => destruct (Z.eqb_spec n c) as [->|_]; [done|] end).
  done.
Qed.

(** ** Responses on the wire *)
Definition error_ok (e : Error) : Prop :=
  code_from (code (err_code e)) = err_code e /\ - 2 ^ 63 <= code (err_code e) < 2 ^ 63 /\
  match data e with Some d => plain d /\ d <> JNull | None => True end.

Lemma error_reads_back e : error_ok e -> error_deserialize (error_serialize e) = Ok e.
Proof.
  intros (Hc & Hr & Hd). destruct e as [c m d]. unfold error_deserialize, error_serialize. cbn [err_code message data] in *.
  assert (Hcode : code_deserialize (code_serialize c) = Ok c).
  { unfold code_deserialize, code_serialize, de_i64.
    rewrite (proj2 (Z.leb_le _ _)), (proj2 (Z.ltb_lt _ _)) by lia. cbn. by rewrite Hc. }
  destruct d as [d|].
  - destruct Hd as [Hp Hn].
    change (struct_slots _ _ _) with (@Ok de_error _ [Given (code_serialize c); Given (JStr m); Given d]).
    cbn [bind required]. rewrite Hcode. cbn. unfold de_value, plain in *. destruct d; try done; cbn in *; by rewrite Hp.
  - change (struct_slots _ _ _) with (@Ok de_error _ [Given (code_serialize c); Given (JStr m); Absent]).
    cbn [bind required]. by rewrite Hcode.
Qed.

Lemma version_reads_back v :
  optional version_deserialize (match v with Some v => Given (version_serialize v) | None => Absent end) = Ok v.
Proof. by destruct v as [[]|]. Qed.

Definition id_ok (n : Z) : Prop := 0 <= n < 2 ^ 64.

Lemma id_reads_back n : id_ok n -> de_usize (JInt n) = Ok n.
Proof. intros Hn. unfold de_usize. by rewrite (proj2 (Z.leb_le _ _)), (proj2 (Z.ltb_lt _ _)) by (unfold id_ok in Hn; lia). Qed.

(** The four fields of a response object. *)
Lemma response_slots v id r e :
  struct_slots true response_fields (JObj (version_field v ++ [(str "id", id); (str "result", r); (str "error", e)]))
  = Ok [match v with Some v => Given (version_serialize v) | None => Absent end; Given id; Given r; Given e].
Proof. by destruct v as [[]|]. Qed.

(** A success is read back as it was written, but a failure is not: the
    serializer writes its absent result as [null], and the reader, which tries
    the success first, takes that for the result and returns a success that
    carries the error along.  A failure object without the field is read
    properly. *)
Theorem response_roundtrip (v : option Version) (id : Z) (x : Value) (e : Error) :
  id_ok id -> plain x -> error_ok e ->
  let success := Success (mkSuccess v id x None) in
  output_deserialize (output_serialize success) = Ok success /\
  output_deserialize (output_serialize (Failure (mkFailure v id None e))) = Ok (Success (mkSuccess v id JNull (Some e))) /\
  output_deserialize (JObj (version_field v ++ [(str "id", JInt id); (str "error", error_serialize e)]))
    = Ok (Failure (mkFailure v id None e)).
Proof.
  intros Hid Hx He success. split; [|split].
  - unfold success, output_deserialize, success_deserialize, output_serialize. rewrite response_slots. cbn [bind required s_id s_jsonrpc s_result].
    rewrite version_reads_back. cbn [bind]. rewrite id_reads_back by done. cbn [bind]. unfold de_value. by rewrite Hx.
  - unfold output_deserialize, success_deserialize, output_serialize. rewrite response_slots. cbn [bind required f_id f_jsonrpc f_result].
    rewrite version_reads_back. cbn [bind]. rewrite id_reads_back by done. cbn [bind option_json].
    unfold optional at 1. pose proof (error_reads_back e He) as Hr. unfold error_serialize in *. cbn [f_error] in *.
    cbn [app] in *. rewrite Hr. done.
  - assert (Hs : struct_slots true response_fields (JObj (version_field v ++ [(str "id", JInt id); (str "error", error_serialize e)]))
      = Ok [match v with Some v => Given (version_serialize v) | None => Absent end; Given (JInt id); Absent; Given (error_serialize e)])
      by (by destruct v as [[]|]).
    unfold output_deserialize, success_deserialize, failure_deserialize. rewrite Hs. cbn [bind required].
    rewrite version_reads_back. cbn [bind]. rewrite id_reads_back by done. cbn [bind optional].
    by rewrite error_reads_back.
Qed.

Lemma response_roundtrip_witness :
  let e := mkError MethodNotFound (str "no such method") None in
  output_deserialize (output_serialize (Failure (mkFailure (Some V2) 7 None e)))
  = Ok (Success (mkSuccess (Some V2) 7 JNull (Some e))).
Proof.
  intros e. apply (response_roundtrip (Some V2) 7 JNull e); [unfold id_ok; lia|done|].
  split; [done|]. split; [cbn; lia|done].
Defined.

(** ** Runs of a WebSocket transport

    [free] are the ids handed out by [prepare] whose request has not been sent
    yet, [owner] tells which id the channel of a call was registered under. *)
Record run_state := mkRun { ws : WebSocketTransport; free : gset Z; owner : gmap nat Z }.

Definition run_init : run_state := mkRun ws_new ∅ ∅.

Inductive ws_step : run_state -> run_state -> Prop :=
| step_prepare m p st :
    ws_id (ws st) + 1 < 2 ^ 64 ->
    ws_step st (mkRun (ws_prepare m p (ws st)).2 ({[ws_id (ws st)]} ∪ free st) (owner st))
| step_send id r st :
    id ∈ free st \/ id = 0 ->   (* the empty batch has id 0 *)
    ws_step st (mkRun (send_request id r (ws st)).2 (free st ∖ {[id]}) (<[channels (ws st) := id]> (owner st)))
| step_receive m st : ws_step st (mkRun (ws_receive m (ws st)) (free st) (owner st))
| step_subscribe id st : ws_step st (mkRun (ws_subscribe id (ws st)).2 (free st) (owner st))
| step_unsubscribe id st : ws_step st (mkRun (ws_unsubscribe id (ws st)) (free st) (owner st))
| step_drop c st : ws_step st (mkRun (ws_drop c (ws st)) (free st) (owner st))
| step_stop st : ws_step st (mkRun (ws_stop (ws st)) (free st) (owner st)).

(** The id a reply answers: a response its own, an error none (that is, 0). *)
Definition answers (r : outcome RpcError Response) (id : Z) : Prop :=
  match r with
  | Ok resp => response_id (Ok resp) = id
  | _ => id = 0
  end.

Record ws_inv (st : run_state) : Prop := {
  inv_free id : id ∈ free st -> 1 <= id < ws_id (ws st) /\ pendings (ws st) !! id = None;
  inv_pos : 1 <= ws_id (ws st);
  inv_pending id c : pendings (ws st) !! id = Some c ->
    0 <= id < ws_id (ws st) /\ (c < channels (ws st))%nat /\ owner st !! c = Some id /\ c ∉ (replies (ws st)).*1;
  inv_replies c r : (c, r) ∈ replies (ws st) -> (c < channels (ws st))%nat /\ exists id, owner st !! c = Some id /\ answers r id;
  inv_once : NoDup (replies (ws st)).*1;
}.

(** A step that leaves calls and replies alone. *)
Lemma ws_inv_frame st w :
  ws_inv st -> ws_id w = ws_id (ws st) -> pendings w = pendings (ws st) -> replies w = replies (ws st) ->
  (channels (ws st) <= channels w)%nat -> ws_inv (mkRun w (free st) (owner st)).
Proof.
  intros [H1 H2 H3 H4 H5] Hi Hp Hr Hc. split; cbn; rewrite ?Hi, ?Hp, ?Hr.
  - exact H1.
  - exact H2.
  - intros id c Hc'. destruct (H3 id c Hc') as (? & ? & ? & ?). repeat split; try done; lia.
  - intros c r Hr'. destruct (H4 c r Hr') as [? ?]. split; [lia|done].
  - exact H5.
Qed.

Lemma handle_subscription_frame msg w :
  let w' := (handle_subscription msg w).2 in
  ws_id w' = ws_id w /\ pendings w' = pendings w /\ replies w' = replies w /\ channels w' = channels w.
Proof. unfold handle_subscription. repeat case_match; done. Qed.

Lemma ws_inv_response st msg :
  ws_inv st -> ws_inv (mkRun (handle_pending_response msg (ws st)) (free st) (owner st)).
Proof.
  intros Hi. unfold handle_pending_response. set (resp := from_str response_deserialize msg). set (id := response_id resp).
  destruct (pendings (ws st) !! id) as [c|] eqn:Hp; [|by destruct st].
  destruct Hi as [H1 H2 H3 H4 H5]. destruct (H3 id c Hp) as (Hid & Hc & Ho & Hnr).
  assert (Hans : answers (map_err JsonError resp) id) by (unfold id; by destruct resp as [[|[]]| | |]).
  split; cbn.
  - intros i Hf. destruct (H1 i Hf) as [? Hn]. split; [done|]. destruct (decide (i = id)) as [->|]; [by rewrite lookup_delete_eq|by rewrite lookup_delete_ne].
  - exact H2.
  - intros i c' Hc'. apply lookup_delete_Some in Hc' as [Hne Hc']. destruct (H3 i c' Hc') as (? & ? & Ho' & Hn').
    split; [done|]. split; [done|]. split; [done|]. case_bool_decide; [done|]. rewrite fmap_app, elem_of_app. cbn.
    intros [?|Hin]; [done|]. apply list_elem_of_singleton in Hin as ->. congruence.
  - intros c' r. case_bool_decide; [apply H4|]. rewrite elem_of_app, list_elem_of_singleton. intros [?|[= -> ->]]; [by apply H4|].
    split; [done|]. by exists id.
  - case_bool_decide; [done|]. rewrite fmap_app. apply NoDup_app. split; [done|]. split; [|apply NoDup_singleton].
    intros x Hx ->%list_elem_of_singleton. done.
Qed.

Lemma ws_inv_receive st m : ws_inv st -> ws_inv (mkRun (ws_receive m (ws st)) (free st) (owner st)).
Proof.
  intros Hi. unfold ws_receive. destruct (running (ws st)); [|by destruct st].
  assert (Hstop : forall w, ws_inv (mkRun w (free st) (owner st)) -> ws_inv (mkRun (ws_stop w) (free st) (owner st))).
  { intros w Hw. by apply (ws_inv_frame (mkRun w (free st) (owner st))). }
  unfold handle_incoming_msg. destruct m as [msg|b|b|b|b].
  - pose proof (handle_subscription_frame msg (ws st)) as (Ha & Hb & Hc & Hd).
    destruct (handle_subscription msg (ws st)) as [r w']. cbn in Ha, Hb, Hc, Hd.
    assert (Hw : ws_inv (mkRun w' (free st) (owner st))) by (apply ws_inv_frame; try done; lia).
    destruct r; [apply (ws_inv_response _ msg Hw)|by apply Hstop..].
  - by destruct st.
  - unfold ws_send_message. destruct (running (ws st)); [by apply ws_inv_frame|]. apply Hstop. by destruct st.
  - unfold ws_send_message. destruct (running (ws st)); [by apply ws_inv_frame|]. apply Hstop. by destruct st.
  - by destruct st.
Qed.

Lemma send_request_state id r w :
  ws_id (send_request id r w).2 = ws_id w /\ pendings (send_request id r w).2 = <[id := channels w]> (pendings w) /\
  replies (send_request id r w).2 = replies w ++ match pendings w !! id with Some old => [(old, Panic)] | None => [] end /\
  channels (send_request id r w).2 = S (channels w).
Proof. unfold send_request, ws_send_message. cbn. by destruct (running w). Qed.

Lemma ws_inv_send st id r :
  ws_inv st -> id ∈ free st \/ id = 0 ->
  ws_inv (mkRun (send_request id r (ws st)).2 (free st ∖ {[id]}) (<[channels (ws st) := id]> (owner st))).
Proof.
  intros [H1 H2 H3 H4 H5] Hid. destruct (send_request_state id r (ws st)) as (Ei & Ep & Er & Ec).
  set (c := channels (ws st)) in *. split; cbn; rewrite ?Ei, ?Ep, ?Er, ?Ec.
  - intros i [Hf Hne]%elem_of_difference. destruct (H1 i Hf) as [? ?]. split; [done|].
    rewrite lookup_insert_ne by set_solver. done.
  - exact H2.
  - intros i c' Hc'. apply lookup_insert_Some in Hc' as [[<- <-]|[Hne Hc']].
    + split; [destruct Hid as [Hf| ->]; [destruct (H1 _ Hf); lia|lia]|]. split; [lia|]. split; [apply lookup_insert_eq|].
      rewrite fmap_app, elem_of_app. intros [Hin|Hin].
      * apply list_elem_of_fmap in Hin as ([x y] & Hx & Hin). cbn in Hx. subst x. destruct (H4 _ _ Hin). lia.
      * destruct (pendings (ws st) !! id) as [old|] eqn:Ho; cbn in Hin; [|by apply elem_of_nil in Hin].
        apply list_elem_of_singleton in Hin. destruct (H3 _ _ Ho) as (_ & ? & _). lia.
    + destruct (H3 _ _ Hc') as (? & ? & Ho & Hn). split; [done|]. split; [lia|].
      split; [rewrite lookup_insert_ne by lia; done|]. rewrite fmap_app, elem_of_app. intros [Hin|Hin]; [done|].
      destruct (pendings (ws st) !! id) as [old|] eqn:Hold; cbn in Hin; [|by apply elem_of_nil in Hin].
      apply list_elem_of_singleton in Hin as ->. destruct (H3 _ _ Hold) as (_ & _ & Ho' & _). congruence.
  - intros c' x. rewrite elem_of_app. intros [Hin|Hin].
    + destruct (H4 _ _ Hin) as [? (i & ? & ?)]. split; [lia|]. exists i. by rewrite lookup_insert_ne by lia.
    + destruct (pendings (ws st) !! id) as [old|] eqn:Hold; [|by apply elem_of_nil in Hin].
      apply list_elem_of_singleton in Hin as [= -> ->]. destruct (H3 _ _ Hold) as (_ & ? & ? & _). split; [lia|].
      exists id. rewrite lookup_insert_ne by lia. split; [done|]. cbn.
      destruct Hid as [Hf| ->]; [|done]. destruct (H1 _ Hf). congruence.
  - destruct (pendings (ws st) !! id) as [old|] eqn:Hold; [|by rewrite app_nil_r].
    rewrite fmap_app. apply NoDup_app. split; [done|]. split; [|apply NoDup_singleton].
    intros x Hx ->%list_elem_of_singleton. by destruct (H3 _ _ Hold) as (_ & _ & _ & ?).
Qed.

Lemma ws_inv_step st st' : ws_inv st -> ws_step st st' -> ws_inv st'.
Proof.
  intros Hi Hs. destruct Hs as [m p st Hb|id r st Hid|m st|id st|id st|c st|st].
  - destruct Hi as [H1 H2 H3 H4 H5]. unfold ws_prepare, next_call, trunc. split; cbn -[Z.modulo].
    + intros id Hid. rewrite Z.mod_small by lia. apply elem_of_union in Hid as [->%elem_of_singleton|Hid].
      * split; [lia|]. destruct (pendings (ws st) !! ws_id (ws st)) eqn:Hp; [|done]. destruct (H3 _ _ Hp). lia.
      * destruct (H1 _ Hid). split; [lia|done].
    + rewrite Z.mod_small by lia. lia.
    + intros id c Hc. rewrite Z.mod_small by lia. destruct (H3 _ _ Hc) as (? & ? & ? & ?). repeat split; (done || lia).
    + exact H4.
    + exact H5.
  - by apply ws_inv_send.
  - by apply ws_inv_receive.
  - apply ws_inv_frame; try done. cbn. lia.
  - by apply ws_inv_frame.
  - by apply ws_inv_frame.
  - by apply ws_inv_frame.
Qed.

Lemma ws_inv_init : ws_inv run_init.
Proof.
  split; cbn.
  - intros id Hid. by apply elem_of_empty in Hid.
  - lia.
  - intros id c. by rewrite lookup_empty.
  - intros c r Hr. by apply elem_of_nil in Hr.
  - constructor.
Qed.

Lemma ws_inv_reachable st : rtc ws_step run_init st -> ws_inv st.
Proof.
  intros Hr. remember run_init as st0 eqn:He. assert (Hi : ws_inv st0) by (subst; apply ws_inv_init). clear He.
  induction Hr as [|x y z Hxy _ IH]; [done|]. apply IH. by eapply ws_inv_step.
Qed.

(** C10: Over a WebSocket, whatever calls, batches, subscriptions and messages
    interleave, every call gets at most one reply, and the reply it gets carries
    its own id.  Only a call registered under id 0, which an empty batch alone
    is, can get a reply that could not be parsed or lose its channel to another
    call; a call that still waits has had no reply. *)
Theorem ws_replies_match (st : run_state) :
  rtc ws_step run_init st ->
  NoDup (replies (ws st)).*1 /\
  (forall c r, (c, r) ∈ replies (ws st) -> exists id, owner st !! c = Some id /\
     match r with Ok resp => response_id (Ok resp) = id | _ => id = 0 end) /\
  (forall id c, pendings (ws st) !! id = Some c -> owner st !! c = Some id /\ c ∉ (replies (ws st)).*1).
Proof.
  intros [H1 H2 H3 H4 H5]%ws_inv_reachable. split; [done|]. split.
  - intros c r Hr. by destruct (H4 c r Hr).
  - intros id c Hc. by destruct (H3 id c Hc) as (_ & _ & ? & ?).
Qed.

(** A call with id 1, a garbled message, and the response. *)
Definition ok_response (id : Z) (v : Value) : Message :=
  Text (Some (output_serialize (Success (mkSuccess (Some V2) id v None)))).

Definition run_one : run_state :=
  let w := (ws_prepare (str "Filecoin.Version") (PArray []) ws_new).2 in
  let w := (send_request 1 (RSingle (CMethodCall (mkCall (Some V2) (str "Filecoin.Version") (PArray []) 1))) w).2 in
  mkRun (ws_receive (ok_response 1 (JBool true)) (ws_receive (Text None) w)) (({[1]} ∪ ∅) ∖ {[1]}) (<[0%nat := 1]> ∅).

Lemma ws_replies_match_witness :
  NoDup (replies (ws run_one)).*1 /\
  (forall c r, (c, r) ∈ replies (ws run_one) -> exists id, owner run_one !! c = Some id /\
     match r with Ok resp => response_id (Ok resp) = id | _ => id = 0 end) /\
  (forall id c, pendings (ws run_one) !! id = Some c -> owner run_one !! c = Some id /\ c ∉ (replies (ws run_one)).*1).
Proof.
  apply (ws_replies_match run_one).
  eapply rtc_l; [apply (step_prepare (str "Filecoin.Version") (PArray []) run_init); cbn; lia|].
  eapply rtc_l; [apply (step_send 1 (RSingle (CMethodCall (mkCall (Some V2) (str "Filecoin.Version") (PArray []) 1)))); left; cbn; set_solver|].
  eapply rtc_l; [apply (step_receive (Text None))|].
  eapply rtc_l; [apply (step_receive (ok_response 1 (JBool true)))|]. apply rtc_refl.
Defined.

(** The call of the run got its response. *)
Example run_one_replied : length (replies (ws run_one)) = 1%nat.
Proof. vm_compute. reflexivity. Qed.

(** ** Waiting *)
Definition not_notification (msg : option json) : Prop := is_ok (from_str notification_deserialize msg) = false.

(** A message that is neither a notification nor the response to [id]. *)
Definition other (id : Z) (m : Message) : Prop :=
  match m with
  | Text msg => not_notification msg /\ response_id (from_str response_deserialize msg) <> id
  | _ => True
  end.

Record waiting (id : Z) (c : nat) (w : WebSocketTransport) : Prop := {
  wait_running : running w = true;
  wait_pending : pendings w !! id = Some c;
  wait_alive : c ∉ dropped w;
  wait_no_reply : c ∉ (replies w).*1;
  wait_unique i : pendings w !! i = Some c -> i = id;
}.

Lemma reply_of_none c w : c ∉ (replies w).*1 -> reply_of c w = None.
Proof.
  intros Hc. unfold reply_of. destruct (list_find _ _) as [[i e]|] eqn:Hf; [|done].
  apply list_find_Some in Hf as (Hi & He & _). destruct Hc. apply list_elem_of_fmap. exists e. split; [done|].
  by eapply list_elem_of_lookup_2.
Qed.

Lemma no_subscription msg w : not_notification msg -> handle_subscription msg w = (Ok tt, w).
Proof. unfold not_notification, handle_subscription. by destruct (from_str notification_deserialize msg). Qed.

Lemma receive_text msg w :
  running w = true -> not_notification msg -> ws_receive (Text msg) w = handle_pending_response msg w.
Proof. intros Hr Hn. unfold ws_receive, handle_incoming_msg. rewrite Hr, no_subscription by done. done. Qed.

(** A call keeps waiting through other messages. *)
Lemma waiting_other id c m w : waiting id c w -> other id m -> waiting id c (ws_receive m w).
Proof.
  intros Hw Ho. destruct m as [msg|b|b|b|b].
  - destruct Ho as [Hn Hid]. rewrite receive_text by (done || apply Hw). destruct Hw as [H1 H2 H3 H4 H5].
    unfold handle_pending_response. set (i := response_id _) in *.
    destruct (pendings w !! i) as [c'|] eqn:Hp; [|by split].
    assert (c' <> c) by (intros ->; by rewrite (H5 i Hp) in Hid).
    split; cbn; [done|by rewrite lookup_delete_ne|done| |].
    + case_bool_decide; [done|]. rewrite fmap_app, elem_of_app. cbn. intros [?|Hin]; [done|].
      by apply list_elem_of_singleton in Hin.
    + intros j Hj. apply lookup_delete_Some in Hj as [_ Hj]. by apply H5.
  - unfold ws_receive. rewrite (wait_running _ _ _ Hw). done.
  - unfold ws_receive, handle_incoming_msg, ws_send_message. rewrite (wait_running _ _ _ Hw). destruct Hw. by split.
  - unfold ws_receive, handle_incoming_msg, ws_send_message. rewrite (wait_running _ _ _ Hw). destruct Hw. by split.
  - unfold ws_receive. rewrite (wait_running _ _ _ Hw). done.
Qed.

Lemma await_other id c pre msgs w :
  waiting id c w -> Forall (other id) pre -> exists w', waiting id c w' /\ await c (pre ++ msgs) w = await c msgs w'.
Proof.
  intros Hw Hpre. revert w Hw. induction Hpre as [|m pre Hm _ IH]; intros w Hw; [by exists w|]. cbn [app await].
  rewrite reply_of_none by apply Hw. apply IH. by apply waiting_other.
Qed.

(** Its response ends the wait. *)
Lemma await_response id c j resp post w :
  waiting id c w -> not_notification (Some j) -> response_deserialize j = Ok resp -> response_id (Ok resp) = id ->
  exists w', await c (Text (Some j) :: post) w = (Ok resp, (w', post)).
Proof.
  intros Hw Hn Hj Hid. cbn [await]. rewrite reply_of_none by apply Hw.
  rewrite receive_text by (done || apply Hw). unfold handle_pending_response. cbn [from_str]. rewrite Hj, Hid.
  rewrite (wait_pending _ _ _ Hw). rewrite bool_decide_false by apply Hw. set (w' := mkWs _ _ _ _ _ _ _ _ _).
  assert (Hr : reply_of c w' = Some (Ok resp)).
  { unfold reply_of, w'. cbn. rewrite list_find_app_r.
    - cbn. by rewrite decide_True.
    - destruct (list_find _ (replies w)) as [[i e]|] eqn:Hf; [|done].
      apply list_find_Some in Hf as (Hi & He & _). destruct (wait_no_reply _ _ _ Hw). apply list_elem_of_fmap. exists e.
      split; [done|]. by eapply list_elem_of_lookup_2. }
  exists w'. destruct post; cbn [await]; by rewrite Hr.
Qed.

(** A transport that can take a new call. *)
Record ready (w : WebSocketTransport) : Prop := {
  ready_running : running w = true;
  ready_id : 1 <= ws_id w < 2 ^ 64 - 1;
  ready_fresh i c : pendings w !! i = Some c -> i <> ws_id w /\ c <> channels w;
  ready_alive : channels w ∉ dropped w;
  ready_no_reply : channels w ∉ (replies w).*1;
}.

Lemma call_waits m p w :
  ready w -> exists w', fst (ws_prepare m p w).1 = ws_id w /\
    send_request (ws_id w) (RSingle (snd (ws_prepare m p w).1)) (ws_prepare m p w).2 = (Ok (channels w), w') /\
    waiting (ws_id w) (channels w) w'.
Proof.
  intros [H1 H2 H3 H4 H5]. unfold ws_prepare, next_call, send_request, ws_send_message. cbn. rewrite H1. cbn.
  destruct (pendings w !! ws_id w) as [c|] eqn:Hp; [by destruct (H3 _ _ Hp)|].
  eexists. split; [done|]. split; [done|]. rewrite app_nil_r. split; cbn; [done|apply lookup_insert_eq|done|done|].
  intros i Hi. apply lookup_insert_Some in Hi as [[-> _]|[_ Hi]]; [done|]. by destruct (H3 _ _ Hi).
Qed.

Lemma ws_send_response {T} (from_value : Value -> de T) (method : text) (params : Params)
    (w : WebSocketTransport) (pre post : list Message) (j : json) (o : ResponseOutput) :
  ready w -> Forall (other (ws_id w)) pre ->
  not_notification (Some j) -> response_deserialize j = Ok (Single o) -> output_id o = ws_id w ->
  (exists s', send from_value method params (w, pre ++ Text (Some j) :: post)
    = (match o with
       | Success s => map_err JsonError (from_value (s_result s))
       | Failure f => Err (RpcResponse (f_error f))
       end, (s', post))) /\
  (send from_value method params (w, pre)).1 = OutOfFuel.
Proof.
  intros Hw Hpre Hn Hj Ho. destruct (call_waits method params w Hw) as (w1 & Hid & Hs & Hwait).
  unfold send. cbn [prepare ws_transport]. destruct (ws_prepare method params w) as [[id call] w0] eqn:Hp.
  cbn [fst snd] in *. subst id. cbn [execute ws_transport fst snd]. rewrite Hp. cbn [fst snd]. rewrite Hs. split.
  - destruct (await_other _ _ pre (Text (Some j) :: post) w1 Hwait Hpre) as (w2 & Hw2 & ->).
    destruct (await_response _ _ j (Single o) post w2 Hw2 Hn Hj Ho) as (w3 & ->).
    exists w3. by destruct o.
  - destruct (await_other _ _ pre [] w1 Hwait Hpre) as (w2 & Hw2 & Hawait). rewrite app_nil_r in Hawait. rewrite Hawait.
    cbn [await]. by rewrite reply_of_none by apply Hw2.
Qed.

(** C11: A call over a WebSocket returns the result, or the error, of the response
    that carries its id, through any other responses, pings, closes and garbled
    texts that come before it; as long as only such other messages come, it
    waits. *)
Theorem ws_send_gets_response {T} (from_value : Value -> de T) (method : text) (params : Params)
    (w : WebSocketTransport) (pre post : list Message) (j : json) (o : ResponseOutput) :
  ready w -> Forall (other (ws_id w)) pre ->
  not_notification (Some j) -> response_deserialize j = Ok (Single o) -> output_id o = ws_id w ->
  (exists s', send from_value method params (w, pre ++ Text (Some j) :: post)
    = (match o with
       | Success s => map_err JsonError (from_value (s_result s))
       | Failure f => Err (RpcResponse (f_error f))
       end, (s', post))) /\
  (send from_value method params (w, pre)).1 = OutOfFuel.
Proof. apply ws_send_response. Qed.

(** A garbled text and a ping come before the response of the first call. *)
Definition version_response : json := output_serialize (Success (mkSuccess (Some V2) 1 (JStr (str "0.2.7")) None)).

Lemma ws_new_ready : ready ws_new.
Proof. split; cbn; try done; try lia; set_solver. Qed.

Lemma ws_send_gets_response_witness :
  exists s', send de_string (str "Filecoin.Version") (PArray []) (ws_new, [Text None; Ping []] ++ [Text (Some version_response)])
    = (Ok (str "0.2.7"), (s', [])).
Proof.
  apply (ws_send_gets_response de_string (str "Filecoin.Version") (PArray []) ws_new [Text None; Ping []] []
    version_response (Success (mkSuccess (Some V2) 1 (JStr (str "0.2.7")) None)) ws_new_ready).
  - repeat constructor; cbn; done.
  - vm_compute. reflexivity.
  - vm_compute. reflexivity.
  - reflexivity.
Defined.

(** ** A reader that panics

    A notification whose subscription id is negative, or whose stream the caller
    has dropped. *)
Definition reader_panics (j : json) (w : WebSocketTransport) : Prop :=
  exists n id result rest, notification_deserialize j = Ok n /\ n_params n = PArray (JInt id :: result :: rest) /\
    (id < 0 \/ exists stream, subscriptions w !! id = Some stream /\ stream ∈ dropped w).

Lemma reader_panics_stops j w : running w = true -> reader_panics j w -> ws_receive (Text (Some j)) w = ws_stop w.
Proof.
  intros Hr (n & id & result & rest & Hn & Hp & Hid). unfold ws_receive, handle_incoming_msg, handle_subscription.
  rewrite Hr. cbn [from_str]. rewrite Hn, Hp. cbn [lookup list_lookup].
  destruct (Z.ltb_spec id 0); [done|]. destruct Hid as [?|(stream & Hs & Hd)]; [lia|]. rewrite Hs.
  by rewrite bool_decide_true.
Qed.

Lemma await_stopped c msgs w : running w = false -> c ∉ (replies w).*1 -> (await c msgs w).1 = OutOfFuel.
Proof.
  intros Hr Hc. induction msgs as [|m msgs IH]; cbn [await]; rewrite reply_of_none by done; [done|].
  unfold ws_receive. by rewrite Hr.
Qed.

(** C32: One notification can take the whole connection down: if its subscription
    id is negative, or the stream of its subscription was dropped by the caller,
    the reader task panics.  A call that had no reply yet then waits for ever,
    whatever else the server sends, and every later call panics. *)
Theorem ws_reader_panic_strands_calls (j : json) (w : WebSocketTransport) (c : nat) :
  running w = true -> reader_panics j w -> c ∉ (replies w).*1 ->
  (forall msgs, (await c (Text (Some j) :: msgs) w).1 = OutOfFuel) /\
  (forall T (from_value : Value -> de T) method params msgs,
     (send from_value method params (ws_receive (Text (Some j)) w, msgs)).1 = Panic).
Proof.
  intros Hr Hj Hc. pose proof (reader_panics_stops j w Hr Hj) as Hs. split.
  - intros msgs. cbn [await]. rewrite reply_of_none, Hs by done. by apply await_stopped.
  - intros T f m p msgs. by rewrite Hs.
Qed.

(** What a server sends on a subscription. *)
Definition notification (method : text) (id : Z) (v : Value) : json :=
  JObj [(str "jsonrpc", JStr (str "2.0")); (str "method", JStr method); (str "params", JArr [JInt id; v])].

(** A subscription whose stream was dropped, while call 1 waits. *)
Definition dropped_stream : WebSocketTransport :=
  ws_drop 1 (ws_subscribe 5 (send_request 1 (RBatch []) ws_new).2).2.

Lemma ws_reader_panic_strands_calls_witness :
  (await 0 [Text (Some (notification (str "xrpc.ch.val") 5 JNull)); ok_response 1 JNull] dropped_stream).1 = OutOfFuel.
Proof.
  apply (ws_reader_panic_strands_calls (notification (str "xrpc.ch.val") 5 JNull) dropped_stream 0%nat).
  - reflexivity.
  - exists (mkNotification (Some V2) (str "xrpc.ch.val") (PArray [JInt 5; JNull])), 5, JNull, [].
    split; [vm_compute; reflexivity|]. split; [reflexivity|]. right. exists 1%nat.
    split; [vm_compute; reflexivity|]. cbn. set_solver.
  - cbn. set_solver.
Defined.
