(* ===== verification/JsonRpcBatch.v ===== *)
(** * Subscriptions and batches of the JSON-RPC client

    Which notifications a stream yields, and which result of a batch goes with
    which call. *)

From Stdlib Require Import ZArith Lia String.
From stdpp Require Import base numbers list gmap.
From S2P Require Import Prelude Decimal F64 Json Serde JsonRpc JsonRpcTheorems.

Local Open Scope Z_scope.

(** ** Streams of notifications *)
Definition receive_all (msgs : list Message) (w : WebSocketTransport) : WebSocketTransport :=
  fold_left (fun w m => ws_receive m w) msgs w.

Definition sub_id_ok (id : Z) : Prop := 0 <= id < 2 ^ 64.

Lemma json_int_usize id : sub_id_ok id -> json_int id = inl id.
Proof. intros [? ?]. unfold json_int. by rewrite (proj2 (Z.leb_le _ _)), (proj2 (Z.ltb_lt _ _)) by lia. Qed.

Lemma notification_reads m id v :
  sub_id_ok id -> plain v ->
  notification_deserialize (notification m id v) = Ok (mkNotification (Some V2) m (PArray [JInt id; v])).
Proof.
  intros Hid Hv. unfold notification_deserialize, notification.
  change (struct_slots _ _ _)
    with (@Ok de_error _ [Given (JStr (str "2.0")); Given (JStr m); Given (JArr [JInt id; v])]).
  cbn [bind optional required defaulted de_string].
  change (version_deserialize (JStr (str "2.0"))) with (@Ok de_error _ V2). cbn [bind].
  unfold params_deserialize. cbn [to_value map]. by rewrite json_int_usize, Hv.
Qed.

Lemma notification_is_no_response m id v : response_deserialize (notification m id v) = Err ForeignError.
Proof. reflexivity. Qed.

(** A notification is also looked at as a response, of id 0. *)
Lemma receive_notification m id v w :
  running w = true -> pendings w !! 0 = None -> sub_id_ok id -> plain v ->
  ws_receive (Text (Some (notification m id v))) w =
  match subscriptions w !! id with
  | Some c => if bool_decide (c ∈ dropped w) then ws_stop w
      else mkWs (ws_id w) (pendings w) (subscriptions w) (sent w) (replies w) (notified w ++ [(c, v)]) (channels w)
             (dropped w) (running w)
  | None => w
  end.
Proof.
  intros Hr Hp Hid Hv. unfold ws_receive, handle_incoming_msg, handle_subscription. rewrite Hr. cbn [from_str].
  rewrite notification_reads by done. cbn [n_params lookup list_lookup].
  rewrite (proj2 (Z.ltb_ge _ _)) by (destruct Hid; lia). unfold handle_pending_response. cbn [from_str].
  rewrite notification_is_no_response. cbn [response_id].
  destruct (subscriptions w !! id) as [c|]; [|by rewrite Hp]. case_bool_decide; [done|]. cbn. by rewrite Hp.
Qed.

Definition notifications (m : text) (id : Z) (vs : list Value) : list Message :=
  map (fun v => Text (Some (notification m id v))) vs.

Lemma receive_unsubscribed m id vs w :
  running w = true -> pendings w !! 0 = None -> sub_id_ok id -> Forall plain vs -> subscriptions w !! id = None ->
  receive_all (notifications m id vs) w = w.
Proof.
  intros Hr Hp Hid Hvs Hs. induction Hvs as [|v vs Hv _ IH]; [done|]. unfold receive_all in *. cbn.
  rewrite receive_notification, Hs by done. exact IH.
Qed.

Lemma receive_subscribed m id vs w c :
  running w = true -> pendings w !! 0 = None -> sub_id_ok id -> Forall plain vs -> subscriptions w !! id = Some c ->
  c ∉ dropped w -> notified (receive_all (notifications m id vs) w) = notified w ++ map (pair c) vs.
Proof.
  intros Hr Hp Hid Hvs Hs Hd. revert w Hr Hp Hs Hd. induction Hvs as [|v vs Hv _ IH]; intros w Hr Hp Hs Hd.
  - by rewrite app_nil_r.
  - unfold receive_all in *. cbn. rewrite receive_notification, Hs, bool_decide_false by done. rewrite IH by done.
    cbn. by rewrite <- app_assoc.
Qed.

(** C33: A subscription's stream yields exactly the notifications that arrive
    after [subscribe] registered it, all of them and in order.  Those that arrive
    between the response with the subscription's id and the registration, which
    are two steps of the client, are dropped. *)
Theorem ws_stream_yields_later_notifications (m : text) (id : Z) (early late : list Value) (w : WebSocketTransport) :
  running w = true -> pendings w !! 0 = None -> subscriptions w !! id = None -> channels w ∉ dropped w ->
  sub_id_ok id -> Forall plain early -> Forall plain late ->
  let '(c, w') := ws_subscribe id (receive_all (notifications m id early) w) in
  notified (receive_all (notifications m id late) w') = notified w ++ map (pair c) late.
Proof.
  intros Hr Hp Hs Hd Hid He Hl. rewrite receive_unsubscribed by done. cbn [ws_subscribe].
  by rewrite (receive_subscribed m id late _ (channels w)) by (cbn; done || apply lookup_insert_eq).
Qed.

Lemma ws_stream_yields_later_notifications_witness :
  let '(c, w') := ws_subscribe 5 (receive_all (notifications (str "xrpc.ch.val") 5 [JInt 1]) ws_new) in
  notified (receive_all (notifications (str "xrpc.ch.val") 5 [JInt 2; JInt 3]) w') = [] ++ map (pair c) [JInt 2; JInt 3].
Proof.
  apply (ws_stream_yields_later_notifications (str "xrpc.ch.val") 5 [JInt 1] [JInt 2; JInt 3] ws_new);
    try reflexivity; [cbn; set_solver|unfold sub_id_ok; lia|repeat constructor..].
Defined.

(** ** Batches *)

(** The calls of a batch, numbered from [id]. *)
Fixpoint batch_calls (id : Z) (l : list (text * Params)) : list (Z * Call) :=
  match l with
  | [] => []
  | (m, p) :: l' => (id, CMethodCall (mkCall (Some V2) m p id)) :: batch_calls (trunc 64 (id + 1)) l'
  end.

Fixpoint advance (id : Z) (n : nat) : Z := match n with O => id | S n => advance (trunc 64 (id + 1)) n end.

Lemma advance_small id n : 0 <= id -> id + Z.of_nat n < 2 ^ 64 -> advance id n = id + Z.of_nat n.
Proof.
  revert id. induction n as [|n IH]; intros id H0 Hn; cbn [advance]; [lia|].
  unfold trunc. rewrite Z.mod_small by lia. rewrite IH; lia.
Qed.

Lemma http_prepare_all `{HttpPost} l h :
  prepare_all l h = (batch_calls (http_id h) l, mkHttp (advance (http_id h) (length l)) (url h) (bearer_auth_token h)).
Proof.
  revert h. induction l as [|[m p] l IH]; intros h; [by destruct h|]. cbn. by rewrite IH.
Qed.

Definition with_id (n : Z) (w : WebSocketTransport) : WebSocketTransport :=
  mkWs n (pendings w) (subscriptions w) (sent w) (replies w) (notified w) (channels w) (dropped w) (running w).

Lemma ws_prepare_all l w msgs :
  prepare_all l (w, msgs) = (batch_calls (ws_id w) l, (with_id (advance (ws_id w) (length l)) w, msgs)).
Proof.
  revert w. induction l as [|[m p] l IH]; intros w; [by destruct w|]. cbn. by rewrite IH.
Qed.

(** The request a batch becomes, and the id it is registered under. *)
Definition batch_request (id : Z) (l : list (text * Params)) : Z * Request :=
  (match l with [] => 0 | _ => id end, RBatch (map snd (batch_calls id l))).

Lemma execute_batch_request {S} `{Transport S} id l s :
  execute_batch (batch_calls id l) s = execute (batch_request id l).1 (batch_request id l).2 s.
Proof. by destruct l as [|[m p] l]. Qed.

(** Over HTTP a batch of calls is posted with ids in sequence, and its results
    are those of the server's answer in the server's order, with as many entries
    as the server sends: the ids of the outputs are not looked at. *)
Theorem http_batch_in_server_order `{HttpPost} (l : list (text * Params)) (h : HttpTransport) (body : json)
    (outputs : list ResponseOutput) :
  post (url h) (bearer_auth_token h) (request_serialize (batch_request (http_id h) l).2) = Ok body ->
  response_deserialize body = Ok (Batch outputs) ->
  send_batch l h
  = (Ok (map batch_result outputs), mkHttp (advance (http_id h) (length l)) (url h) (bearer_auth_token h)).
Proof.
  intros Hb Ho. unfold send_batch. rewrite http_prepare_all, execute_batch_request. cbn [execute http_transport].
  unfold http_send_request. cbn [url bearer_auth_token]. by rewrite Hb; cbn [bind]; rewrite Ho.
Qed.

(** A server that answers the two calls of a batch in reverse. *)
Definition answer (id : Z) (v : text) : ResponseOutput := Success (mkSuccess (Some V2) id (JStr v) None).
Definition reversing_server : HttpPost :=
  fun _ _ _ => Ok (JArr (map output_serialize [answer 1 (str "second"); answer 0 (str "first")])).

Lemma http_batch_in_server_order_witness :
  (send_batch (H := http_transport (H := reversing_server)) [(str "First", PArray []); (str "Second", PArray [])]
     (http_new (str "http://127.0.0.1"))).1
  = Ok [Ok (JStr (str "second")); Ok (JStr (str "first"))].
Proof.
  rewrite (http_batch_in_server_order (H := reversing_server) [(str "First", PArray []); (str "Second", PArray [])]
    (http_new (str "http://127.0.0.1")) _ [answer 1 (str "second"); answer 0 (str "first")] eq_refl); [reflexivity|].
  vm_compute. reflexivity.
Defined.

(** A batch over a WebSocket is registered under the id of its first call. *)
Lemma batch_waits l w :
  ready w -> l <> [] -> ws_id w + Z.of_nat (length l) < 2 ^ 64 ->
  exists w', send_request (batch_request (ws_id w) l).1 (batch_request (ws_id w) l).2
               (with_id (advance (ws_id w) (length l)) w) = (Ok (channels w), w') /\ waiting (ws_id w) (channels w) w'.
Proof.
  intros [H1 H2 H3 H4 H5] Hl Hn. destruct l as [|x l]; [done|]. cbn [batch_request fst].
  unfold send_request, ws_send_message. cbn. rewrite H1. cbn.
  destruct (pendings w !! ws_id w) as [c|] eqn:Hp; [by destruct (H3 _ _ Hp)|].
  eexists. split; [done|]. rewrite app_nil_r. split; cbn; [done|apply lookup_insert_eq|done|done|].
  intros i Hi. apply lookup_insert_Some in Hi as [[-> _]|[_ Hi]]; [done|]. by destruct (H3 _ _ Hi).
Qed.

(** Over a WebSocket the answer to a batch is recognised by the id of its first
    output alone.  When that is the id of the batch's first call the results are
    the outputs in the server's order; a server that answers the calls in an
    order that starts with another one leaves the caller waiting. *)
Theorem ws_batch_first_id (l : list (text * Params)) (w : WebSocketTransport) (j : json) (o : ResponseOutput)
    (outputs : list ResponseOutput) :
  ready w -> l <> [] -> ws_id w + Z.of_nat (length l) < 2 ^ 64 ->
  not_notification (Some j) -> response_deserialize j = Ok (Batch (o :: outputs)) ->
  (send_batch l (w, [Text (Some j)])).1
  = if decide (output_id o = ws_id w) then Ok (map batch_result (o :: outputs)) else OutOfFuel.
Proof.
  intros Hw Hl Hn Hj Ho. destruct (batch_waits l w Hw Hl Hn) as (w' & Hs & Hwait).
  unfold send_batch. rewrite ws_prepare_all, execute_batch_request. cbn [execute ws_transport fst snd] in *. rewrite Hs.
  destruct (decide _) as [Hid|Hid].
  - destruct (await_response _ _ j (Batch (o :: outputs)) [] w' Hwait Hj Ho Hid) as (w2 & ->). done.
  - destruct (await_other _ _ [Text (Some j)] [] w' Hwait) as (w2 & Hw2 & Ha).
    + constructor; [|constructor]. cbn. rewrite Ho. done.
    + cbn [app] in Ha. rewrite Ha. cbn [await]. by rewrite reply_of_none by apply Hw2.
Qed.

Lemma ws_batch_first_id_witness :
  (send_batch [(str "First", PArray []); (str "Second", PArray [])]
     (ws_new, [Text (Some (JArr (map output_serialize [answer 2 (str "second"); answer 1 (str "first")])))])).1 = OutOfFuel.
Proof.
  rewrite (ws_batch_first_id [(str "First", PArray []); (str "Second", PArray [])] ws_new
    (JArr (map output_serialize [answer 2 (str "second"); answer 1 (str "first")])) (answer 2 (str "second"))
    [answer 1 (str "first")] ws_new_ready); [reflexivity|done|cbn; lia|vm_compute; reflexivity..].
Defined.
