(* ===== verification/Api.v ===== *)
(** * [api-client]: the remote methods of a node

    The [RpcClient] trait of client.rs with its HTTP and WebSocket impls,
    helper.rs, and one definition per method of the traits of interface/: which
    method it names, how it writes its parameters, how it reads the result. *)

From Stdlib Require Import ZArith Lia String.
From stdpp Require Import base numbers list gmap.
From S2P Require Import Prelude Decimal F64 Json Serde SerdeLaws Rle Cbor Address Wrappers BitField Piece Sector.
From S2P Require Import Crypto Message Block Tipset Wallet PrimJson Actors ApiTypes JsonRpc.

Local Open Scope Z_scope.

Module Api.
Import PrimJson.PrimJson Actors.Actors ApiTypes.ApiTypes.

(** ** client.rs *)
Class RpcClient (S : Type) := {
  client_request {T : Type} : (Value -> de T) -> text -> list Value -> S -> outcome RpcError T * S;
  client_subscribe : text -> list Value -> S -> outcome RpcError (Z * nat) * S;
  client_unsubscribe : Z -> S -> outcome RpcError unit * S;
}.
#[export] Instance http_client `{HttpPost} : RpcClient HttpTransport := {|
  client_request _ f m p s := request f m p s;
  client_subscribe m p s := (http_client_subscribe m p, s);
  client_unsubscribe id s := (http_client_unsubscribe id, s);
|}.
#[export] Instance ws_client : RpcClient (WebSocketTransport * list JsonRpc.Message) := {|
  client_request _ f m p s := request f m p s;
  client_subscribe := ws_client_subscribe;
  client_unsubscribe id s := (Ok tt, ws_client_unsubscribe id s);
|}.

(** ** helper.rs *)
Definition serialize {A} (c : codec A) (x : A) : outcome RpcError Value :=
  match enc c x with Ok j => Ok (to_value j) | _ => Panic end.

(** The [vec!] of a call: its elements are evaluated in order. *)
Fixpoint serialize_all (l : list (outcome RpcError Value)) : outcome RpcError (list Value) :=
  match l with
  | [] => Ok []
  | x :: l' => v <- x ;; r <- serialize_all l' ;; Ok (v :: r)
  end.

Section Api.
Context `{CidLib} `{!JsonLib} `{PeerIdLib} `{AddressDeps} `{MultiaddrLib} (net : Network) (ck : bool).
Context {S : Type} `{RpcClient S}.

#[local] Abbreviation call T := (S -> outcome RpcError T * S).

Definition request_with {T} (f : Value -> de T) (method : string) (params : list (outcome RpcError Value)) : call T :=
  fun s => match serialize_all params with
    | Ok params => client_request f (str method) params s
    | Err e => (Err e, s)
    | Panic => (Panic, s)
    | OutOfFuel => (OutOfFuel, s)
    end.
Definition subscribe_with (method : string) (params : list (outcome RpcError Value)) : call (Z * nat) :=
  fun s => match serialize_all params with
    | Ok params => client_subscribe (str method) params s
    | Err e => (Err e, s)
    | Panic => (Panic, s)
    | OutOfFuel => (OutOfFuel, s)
    end.

#[local] Abbreviation address_codec := (address_codec net).
#[local] Abbreviation bitfield_codec := (bitfield_codec ck).
#[local] Abbreviation unsigned_message_codec := (unsigned_message_codec net).
#[local] Abbreviation signed_message_codec := (signed_message_codec net).
#[local] Abbreviation block_header_codec := (block_header_codec net).
#[local] Abbreviation block_msg_codec := (block_msg_codec net).
#[local] Abbreviation tipset_codec := (tipset_codec net).
#[local] Abbreviation miner_info_codec := (miner_info_codec net).
#[local] Abbreviation deadlines_codec := (deadlines_codec ck).
#[local] Abbreviation signed_voucher_codec := (signed_voucher_codec net).
#[local] Abbreviation query_offer_codec := (query_offer_codec net).
#[local] Abbreviation retrieval_order_codec := (retrieval_order_codec net).
#[local] Abbreviation channel_info_codec := (channel_info_codec net).
#[local] Abbreviation paych_status_codec := (paych_status_codec net).
#[local] Abbreviation payment_info_codec := (payment_info_codec net).
#[local] Abbreviation voucher_spec_codec := (voucher_spec_codec net).
#[local] Abbreviation mining_base_info_codec := (mining_base_info_codec net).
#[local] Abbreviation block_template_codec := (block_template_codec net).
#[local] Abbreviation head_change_codec := (head_change_codec net).
#[local] Abbreviation block_messages_codec := (block_messages_codec net).
#[local] Abbreviation parent_message_codec := (parent_message_codec net).
#[local] Abbreviation sync_state_codec := (sync_state_codec net).
#[local] Abbreviation fault_codec := (fault_codec net).
#[local] Abbreviation msg_lookup_codec := (msg_lookup_codec net).
#[local] Abbreviation market_deal_codec := (market_deal_codec net).
#[local] Abbreviation invoc_result_codec := (invoc_result_codec net).
#[local] Abbreviation compute_state_output_codec := (compute_state_output_codec net).

(** ** interface/common/mod.rs *)
Definition auth_verify (token : text) : call (list Permission) :=
  request_with (dec (list_codec permission_codec)) "AuthVerify" [serialize text_codec token].
Definition auth_new (permissions : list Permission) : call (list Z) :=
  request_with (dec bytes_codec) "AuthNew" [serialize (list_codec permission_codec) permissions].
Definition net_connectedness (peer_id : PeerId) : call Connectedness :=
  request_with (dec connectedness_codec) "NetConnectedness" [serialize peer_id_codec peer_id].
Definition net_peers : call (list PeerAddrInfo) :=
  request_with (dec (list_codec peer_addr_info_codec)) "NetPeers" [].
Definition net_connect (addr_info : PeerAddrInfo) : call unit :=
  request_with (dec unit_codec) "NetConnect" [serialize peer_addr_info_codec addr_info].
Definition net_addrs_listen : call PeerAddrInfo :=
  request_with (dec peer_addr_info_codec) "NetAddrsListen" [].
Definition net_disconnect (peer_id : PeerId) : call unit :=
  request_with (dec unit_codec) "NetDisconnect" [serialize peer_id_codec peer_id].
Definition net_find_peer (peer_id : PeerId) : call PeerAddrInfo :=
  request_with (dec peer_addr_info_codec) "NetFindPeer" [serialize peer_id_codec peer_id].
Definition id : call PeerId :=
  request_with (dec peer_id_codec) "ID" [].
Definition version : call Version :=
  request_with (dec version_codec) "Version" [].
Definition log_list : call (list text) :=
  request_with (dec (list_codec text_codec)) "LogList" [].
Definition log_set_level (subsystem : text) (level : text) : call unit :=
  request_with (dec unit_codec) "LogSetLevel" [serialize text_codec subsystem; serialize text_codec level].
Definition shutdown : call unit :=
  request_with (dec unit_codec) "Shutdown" [].

(** ** interface/full/sync.rs *)
Definition sync_state : call SyncState :=
  request_with (dec sync_state_codec) "SyncState" [].
Definition sync_submit_block (block : Block.Block.BlockMsg) : call unit :=
  request_with (dec unit_codec) "SyncSubmitBlock" [serialize block_msg_codec block].
Definition sync_incoming_blocks : call (Z * nat) :=
  subscribe_with "SyncIncomingBlocks" [].
Definition sync_mark_bad (bad_cid : Cid) : call unit :=
  request_with (dec unit_codec) "SyncMarkBad" [serialize cid_codec bad_cid].
Definition sync_check_bad (bad_cid : Cid) : call text :=
  request_with (dec text_codec) "SyncCheckBad" [serialize cid_codec bad_cid].

(** ** interface/full/wallet.rs *)
Definition wallet_new (sig_type : Crypto.Crypto.SignatureType) : call Address :=
  request_with (dec address_codec) "WalletNew" [serialize signature_type_codec sig_type].
Definition wallet_has (addr : Address) : call bool :=
  request_with (dec bool_codec) "WalletHas" [serialize address_codec addr].
Definition wallet_list : call (list Address) :=
  request_with (dec (list_codec address_codec)) "WalletList" [].
Definition wallet_balance (addr : Address) : call Z :=
  request_with (dec bigint_codec) "WalletBalance" [serialize address_codec addr].
Definition wallet_sign (addr : Address) (msg : list Z) : call Crypto.Crypto.Signature :=
  request_with (dec signature_codec) "WalletSign" [serialize address_codec addr; serialize bytes_codec msg].
Definition wallet_sign_message (addr : Address) (msg : Message.Message.UnsignedMessage)
    : call Message.Message.SignedMessage :=
  request_with (dec signed_message_codec) "WalletSignMessage" [serialize address_codec addr;
    serialize unsigned_message_codec msg].
Definition wallet_verify (addr : Address) (msg : list Z) (signature : Crypto.Crypto.Signature) : call bool :=
  request_with (dec bool_codec) "WalletVerify" [serialize address_codec addr; serialize bytes_codec msg;
    serialize signature_codec signature].
Definition wallet_default_address : call Address :=
  request_with (dec address_codec) "WalletDefaultAddress" [].
Definition wallet_set_default (addr : Address) : call unit :=
  request_with (dec unit_codec) "WalletSetDefault" [serialize address_codec addr].
Definition wallet_export (addr : Address) : call Wallet.Wallet.KeyInfo :=
  request_with (dec key_info_codec) "WalletExport" [serialize address_codec addr].
Definition wallet_import (info : Wallet.Wallet.KeyInfo) : call Address :=
  request_with (dec address_codec) "WalletImport" [serialize key_info_codec info].

(** ** interface/full/state.rs *)
Definition state_call (msg : Message.Message.UnsignedMessage) (key : Tipset.Tipset.TipsetKey) : call InvocResult :=
  request_with (dec invoc_result_codec) "StateCall" [serialize unsigned_message_codec msg;
    serialize tipset_key_codec key].
Definition state_replay (key : Tipset.Tipset.TipsetKey) (cid : Cid) : call InvocResult :=
  request_with (dec invoc_result_codec) "StateReplay" [serialize tipset_key_codec key; serialize cid_codec cid].
Definition state_get_actor (addr : Address) (key : Tipset.Tipset.TipsetKey) : call Sector.Actor :=
  request_with (dec actor_codec) "StateGetActor" [serialize address_codec addr; serialize tipset_key_codec key].
Definition state_list_messages (msg : Message.Message.UnsignedMessage) (key : Tipset.Tipset.TipsetKey) (height : Z)
    : call (list Cid) :=
  request_with (dec (list_codec cid_codec)) "StateListMessages" [serialize unsigned_message_codec msg;
    serialize tipset_key_codec key; serialize i64_codec height].
Definition state_network_name : call text :=
  request_with (dec text_codec) "StateNetworkName" [].
Definition state_miner_sectors (addr : Address) (filter : list Z) (filter_out : bool)
    (key : Tipset.Tipset.TipsetKey) : call (list ChainSectorInfo) :=
  request_with (dec (list_codec chain_sector_info_codec)) "StateMinerSectors" [serialize address_codec addr;
    serialize bitfield_codec filter; serialize bool_codec filter_out; serialize tipset_key_codec key].
Definition state_miner_proving_set (addr : Address) (key : Tipset.Tipset.TipsetKey) : call (list ChainSectorInfo) :=
  request_with (dec (list_codec chain_sector_info_codec)) "StateMinerProvingSet" [serialize address_codec addr;
    serialize tipset_key_codec key].
Definition state_miner_proving_deadline (addr : Address) (key : Tipset.Tipset.TipsetKey) : call DeadlineInfo :=
  request_with (dec deadline_info_codec) "StateMinerProvingDeadline" [serialize address_codec addr;
    serialize tipset_key_codec key].
Definition state_miner_power (addr : Address) (key : Tipset.Tipset.TipsetKey) : call MinerPower :=
  request_with (dec miner_power_codec) "StateMinerPower" [serialize address_codec addr;
    serialize tipset_key_codec key].
Definition state_miner_info (addr : Address) (key : Tipset.Tipset.TipsetKey) : call (option MinerInfo) :=
  request_with (dec (option_codec miner_info_codec)) "StateMinerInfo" [serialize address_codec addr;
    serialize tipset_key_codec key].
Definition state_miner_deadlines (addr : Address) (key : Tipset.Tipset.TipsetKey) : call Deadlines :=
  request_with (dec deadlines_codec) "StateMinerDeadlines" [serialize address_codec addr;
    serialize tipset_key_codec key].
Definition state_miner_faults (addr : Address) (key : Tipset.Tipset.TipsetKey) : call (list Z) :=
  request_with (dec bitfield_codec) "StateMinerFaults" [serialize address_codec addr;
    serialize tipset_key_codec key].
Definition state_all_miner_faults (lookback : Z) (key : Tipset.Tipset.TipsetKey) : call (list Fault) :=
  request_with (dec (list_codec fault_codec)) "StateAllMinerFaults" [serialize i64_codec lookback;
    serialize tipset_key_codec key].
Definition state_miner_recoveries (addr : Address) (key : Tipset.Tipset.TipsetKey) : call (list Z) :=
  request_with (dec bitfield_codec) "StateMinerRecoveries" [serialize address_codec addr;
    serialize tipset_key_codec key].
Definition state_miner_initial_pledge_collateral (addr : Address) (sector_number : Z)
    (key : Tipset.Tipset.TipsetKey) : call Z :=
  request_with (dec bigint_codec) "StateMinerInitialPledgeCollateral" [serialize address_codec addr;
    serialize u64_codec sector_number; serialize tipset_key_codec key].
Definition state_miner_available_balance (addr : Address) (key : Tipset.Tipset.TipsetKey) : call Z :=
  request_with (dec bigint_codec) "StateMinerAvailableBalance" [serialize address_codec addr;
    serialize tipset_key_codec key].
Definition state_sector_pre_commit_info (addr : Address) (sector_number : Z) (key : Tipset.Tipset.TipsetKey)
    : call SectorPreCommitOnChainInfo :=
  request_with (dec sector_pre_commit_on_chain_info_codec) "StateSectorPreCommitInfo" [serialize address_codec addr;
    serialize u64_codec sector_number; serialize tipset_key_codec key].
Definition state_pledge_collateral (key : Tipset.Tipset.TipsetKey) : call Z :=
  request_with (dec bigint_codec) "StatePledgeCollateral" [serialize tipset_key_codec key].
Definition state_wait_msg (cid : Cid) : call MsgLookup :=
  request_with (dec msg_lookup_codec) "StateWaitMsg" [serialize cid_codec cid].
Definition state_search_msg (cid : Cid) : call MsgLookup :=
  request_with (dec msg_lookup_codec) "StateSearchMsg" [serialize cid_codec cid].
Definition state_list_miners (key : Tipset.Tipset.TipsetKey) : call (list Address) :=
  request_with (dec (list_codec address_codec)) "StateListMiners" [serialize tipset_key_codec key].
Definition state_list_actors (key : Tipset.Tipset.TipsetKey) : call (list Address) :=
  request_with (dec (list_codec address_codec)) "StateListActors" [serialize tipset_key_codec key].
Definition state_market_balance (addr : Address) (key : Tipset.Tipset.TipsetKey) : call MarketBalance :=
  request_with (dec market_balance_codec) "StateMarketBalance" [serialize address_codec addr;
    serialize tipset_key_codec key].
Definition state_market_participants (key : Tipset.Tipset.TipsetKey) : call (list (text * MarketBalance)) :=
  request_with (dec_map market_balance_codec) "StateMarketParticipants" [serialize tipset_key_codec key].
Definition state_market_deals (key : Tipset.Tipset.TipsetKey) : call (list (text * MarketDeal)) :=
  request_with (dec_map market_deal_codec) "StateMarketDeals" [serialize tipset_key_codec key].
Definition state_market_storage_deal (deal_id : Z) (key : Tipset.Tipset.TipsetKey) : call MarketDeal :=
  request_with (dec market_deal_codec) "StateMarketStorageDeal" [serialize u64_codec deal_id;
    serialize tipset_key_codec key].
Definition state_lookup_id (addr : Address) (key : Tipset.Tipset.TipsetKey) : call Address :=
  request_with (dec address_codec) "StateLookupID" [serialize address_codec addr; serialize tipset_key_codec key].
Definition state_account_key (addr : Address) (key : Tipset.Tipset.TipsetKey) : call Address :=
  request_with (dec address_codec) "StateAccountKey" [serialize address_codec addr; serialize tipset_key_codec key].
Definition state_changed_actors (old : Cid) (new : Cid) : call (list (text * Sector.Actor)) :=
  request_with (dec_map actor_codec) "StateChangedActors" [serialize cid_codec old; serialize cid_codec new].
Definition state_get_receipt (cid : Cid) (key : Tipset.Tipset.TipsetKey) : call Message.Message.MessageReceipt :=
  request_with (dec message_receipt_codec) "StateGetReceipt" [serialize cid_codec cid;
    serialize tipset_key_codec key].
Definition state_miner_sector_count (addr : Address) (key : Tipset.Tipset.TipsetKey) : call MinerSectors :=
  request_with (dec miner_sectors_codec) "StateMinerSectorCount" [serialize address_codec addr;
    serialize tipset_key_codec key].
Definition state_compute (height : Z) (msgs : list Message.Message.UnsignedMessage) (key : Tipset.Tipset.TipsetKey)
    : call ComputeStateOutput :=
  request_with (dec compute_state_output_codec) "StateCompute" [serialize i64_codec height;
    serialize (list_codec unsigned_message_codec) msgs; serialize tipset_key_codec key].

(** ** interface/full/mpool.rs *)
Definition mpool_pending (key : Tipset.Tipset.TipsetKey) : call (list Message.Message.SignedMessage) :=
  request_with (dec (list_codec signed_message_codec)) "MpoolPending" [serialize tipset_key_codec key].
Definition mpool_push (signed_msg : Message.Message.SignedMessage) : call Cid :=
  request_with (dec cid_codec) "MpoolPush" [serialize signed_message_codec signed_msg].
Definition mpool_push_message (msg : Message.Message.UnsignedMessage) : call Message.Message.SignedMessage :=
  request_with (dec signed_message_codec) "MpoolPushMessage" [serialize unsigned_message_codec msg].
Definition mpool_get_nonce (addr : Address) : call Z :=
  request_with (dec u64_codec) "MpoolGetNonce" [serialize address_codec addr].
Definition mpool_sub : call (Z * nat) :=
  subscribe_with "MpoolSub" [].
Definition mpool_estimate_gas_price (nblocksincl : Z) (addr : Address) (gas_limit : Z)
    (key : Tipset.Tipset.TipsetKey) : call Z :=
  request_with (dec bigint_codec) "MpoolEstimateGasPrice" [serialize u64_codec nblocksincl;
    serialize address_codec addr; serialize i64_codec gas_limit; serialize tipset_key_codec key].

(** ** interface/full/market.rs *)
Definition market_ensure_available (addr : Address) (wallet : Address) (amt : Z) : call Cid :=
  request_with (dec cid_codec) "MarketEnsureAvailable" [serialize address_codec addr;
    serialize address_codec wallet; serialize bigint_codec amt].

(** ** interface/full/chain.rs *)
Definition chain_notify : call (Z * nat) :=
  subscribe_with "ChainNotify" [].
Definition chain_head : call Tipset.Tipset.Tipset :=
  request_with (dec tipset_codec) "ChainHead" [].
Definition chain_get_randomness (key : Tipset.Tipset.TipsetKey)
    (personalization : Crypto.Crypto.DomainSeparationTag) (rand_epoch : Z) (entropy : list Z) : call (list Z) :=
  request_with (dec h256_codec) "ChainGetRandomness" [serialize tipset_key_codec key;
    serialize domain_tag_codec personalization; serialize i64_codec rand_epoch; serialize bytes_codec entropy].
Definition chain_get_block (cid : Cid) : call Block.Block.BlockHeader :=
  request_with (dec block_header_codec) "ChainGetBlock" [serialize cid_codec cid].
Definition chain_get_tipset (key : Tipset.Tipset.TipsetKey) : call Tipset.Tipset.Tipset :=
  request_with (dec tipset_codec) "ChainGetTipSet" [serialize tipset_key_codec key].
Definition chain_get_block_messages (cid : Cid) : call BlockMessages :=
  request_with (dec block_messages_codec) "ChainGetBlockMessages" [serialize cid_codec cid].
Definition chain_get_parent_receipts (cid : Cid) : call (list Message.Message.MessageReceipt) :=
  request_with (dec (list_codec message_receipt_codec)) "ChainGetParentReceipts" [serialize cid_codec cid].
Definition chain_get_parent_messages (cid : Cid) : call (list ParentMessage) :=
  request_with (dec (list_codec parent_message_codec)) "ChainGetParentMessages" [serialize cid_codec cid].
Definition chain_get_tipset_by_height (height : Z) (key : Tipset.Tipset.TipsetKey) : call Tipset.Tipset.Tipset :=
  request_with (dec tipset_codec) "ChainGetTipSetByHeight" [serialize i64_codec height;
    serialize tipset_key_codec key].
Definition chain_read_obj (cid : Cid) : call (list Z) :=
  request_with (dec bytes_codec) "ChainReadObj" [serialize cid_codec cid].
Definition chain_has_obj (cid : Cid) : call bool :=
  request_with (dec bool_codec) "ChainHasObj" [serialize cid_codec cid].
Definition chain_stat_obj (obj : Cid) (base : Cid) : call ObjStat :=
  request_with (dec obj_stat_codec) "ChainHasObj" [serialize cid_codec obj; serialize cid_codec base].
Definition chain_set_head (key : Tipset.Tipset.TipsetKey) : call unit :=
  request_with (dec unit_codec) "ChainSetHead" [serialize tipset_key_codec key].
Definition chain_get_genesis : call Tipset.Tipset.Tipset :=
  request_with (dec tipset_codec) "ChainGetGenesis" [].
Definition chain_tipset_weight (key : Tipset.Tipset.TipsetKey) : call Z :=
  request_with (dec bigint_codec) "ChainTipSetWeight" [serialize tipset_key_codec key].
Definition chain_get_message (cid : Cid) : call Message.Message.UnsignedMessage :=
  request_with (dec unsigned_message_codec) "ChainGetMessage" [serialize cid_codec cid].
Definition chain_get_path (from_ : Tipset.Tipset.TipsetKey) (to_ : Tipset.Tipset.TipsetKey)
    : call (list HeadChange) :=
  request_with (dec (list_codec head_change_codec)) "ChainGetPath" [serialize tipset_key_codec from_;
    serialize tipset_key_codec to_].
Definition chain_export (key : Tipset.Tipset.TipsetKey) : call (Z * nat) :=
  subscribe_with "ChainExport" [serialize tipset_key_codec key].

(** ** interface/full/multisig.rs *)
Definition msig_get_available_balance (addr : Address) (key : Tipset.Tipset.TipsetKey) : call Z :=
  request_with (dec bigint_codec) "MsigGetAvailableBalance" [serialize address_codec addr;
    serialize tipset_key_codec key].
Definition msig_create (req : Z) (addrs : list Address) (val : Z) (src : Address) (gp : Z) : call Cid :=
  request_with (dec cid_codec) "MsigCreate" [serialize i64_codec req; serialize (list_codec address_codec) addrs;
    serialize bigint_codec val; serialize address_codec src; serialize bigint_codec gp].
Definition msig_propose (msig : Address) (to_ : Address) (amt : Z) (src : Address) (method : Z) (params : list Z)
    : call Cid :=
  request_with (dec cid_codec) "MsigPropose" [serialize address_codec msig; serialize address_codec to_;
    serialize bigint_codec amt; serialize address_codec src; serialize u64_codec method;
    serialize bytes_codec params].
Definition msig_approve (msig : Address) (txid : Z) (proposer : Address) (to_ : Address) (amt : Z) (src : Address)
    (method : Z) (params : list Z) : call Cid :=
  request_with (dec cid_codec) "MsigApprove" [serialize address_codec msig; serialize u64_codec txid;
    serialize address_codec proposer; serialize address_codec to_; serialize bigint_codec amt;
    serialize address_codec src; serialize u64_codec method; serialize bytes_codec params].
Definition msig_cancel (msig : Address) (txid : Z) (proposer : Address) (to_ : Address) (amt : Z) (src : Address)
    (method : Z) (params : list Z) : call Cid :=
  request_with (dec cid_codec) "MsigCancel" [serialize address_codec msig; serialize u64_codec txid;
    serialize address_codec proposer; serialize address_codec to_; serialize bigint_codec amt;
    serialize address_codec src; serialize u64_codec method; serialize bytes_codec params].

(** ** interface/full/paych.rs *)
Definition paych_get (from_ : Address) (to_ : Address) (ensure_funds : Z) : call ChannelInfo :=
  request_with (dec channel_info_codec) "PaychGet" [serialize address_codec from_; serialize address_codec to_;
    serialize bigint_codec ensure_funds].
Definition paych_list : call (list Address) :=
  request_with (dec (list_codec address_codec)) "PaychList" [].
Definition paych_status (addr : Address) : call PaychStatus :=
  request_with (dec paych_status_codec) "PaychStatus" [serialize address_codec addr].
Definition paych_close (addr : Address) : call Cid :=
  request_with (dec cid_codec) "PaychClose" [serialize address_codec addr].
Definition paych_allocate_lane (addr : Address) : call Z :=
  request_with (dec u64_codec) "PaychAllocateLane" [serialize address_codec addr].
Definition paych_new_payment (from_ : Address) (to_ : Address) (vouchers : list VoucherSpec) : call PaymentInfo :=
  request_with (dec payment_info_codec) "PaychNewPayment" [serialize address_codec from_;
    serialize address_codec to_; serialize (list_codec voucher_spec_codec) vouchers].
Definition paych_voucher_check_valid (addr : Address) (sign_vouch : SignedVoucher) : call unit :=
  request_with (dec unit_codec) "PaychVoucherCheckValid" [serialize address_codec addr;
    serialize signed_voucher_codec sign_vouch].
Definition paych_voucher_check_spendable (addr : Address) (sign_vouch : SignedVoucher) (secret : list Z)
    (proof : list Z) : call bool :=
  request_with (dec bool_codec) "PaychVoucherCheckSpendable" [serialize address_codec addr;
    serialize signed_voucher_codec sign_vouch; serialize bytes_codec secret; serialize bytes_codec proof].
Definition paych_voucher_create (addr : Address) (amt : Z) (lane : Z) : call SignedVoucher :=
  request_with (dec signed_voucher_codec) "PaychVoucherCreate" [serialize address_codec addr;
    serialize bigint_codec amt; serialize u64_codec lane].
Definition paych_voucher_add (addr : Address) (signed_voucher : SignedVoucher) (proof : list Z) (min_delta : Z)
    : call Z :=
  request_with (dec bigint_codec) "PaychVoucherAdd" [serialize address_codec addr;
    serialize signed_voucher_codec signed_voucher; serialize bytes_codec proof; serialize bigint_codec min_delta].
Definition paych_voucher_list (addr : Address) : call (list SignedVoucher) :=
  request_with (dec (list_codec signed_voucher_codec)) "PayChVoucherList" [serialize address_codec addr].
Definition paych_voucher_submit (addr : Address) (signed_vouch : SignedVoucher) : call Cid :=
  request_with (dec cid_codec) "PaychVoucherSubmit" [serialize address_codec addr;
    serialize signed_voucher_codec signed_vouch].

(** ** interface/full/miner.rs *)
Definition miner_get_base_info (addr : Address) (height : Z) (key : Tipset.Tipset.TipsetKey)
    : call (option MiningBaseInfo) :=
  request_with (dec (option_codec mining_base_info_codec)) "MinerGetBaseInfo" [serialize address_codec addr;
    serialize i64_codec height; serialize tipset_key_codec key].
Definition miner_create_block (template : BlockTemplate) : call Block.Block.BlockMsg :=
  request_with (dec block_msg_codec) "MinerCreateBlock" [serialize block_template_codec template].

(** ** interface/full/client.rs *)
Definition client_import (ref_ : FileRef) : call Cid :=
  request_with (dec cid_codec) "ClientImport" [serialize file_ref_codec ref_].
Definition client_has_local (root : Cid) : call bool :=
  request_with (dec bool_codec) "ClientHasLocal" [serialize cid_codec root].
Definition client_find_data (root : Cid) : call (list QueryOffer) :=
  request_with (dec (list_codec query_offer_codec)) "ClientFindData" [serialize cid_codec root].
Definition client_retrieve (order : RetrievalOrder) (ref_ : FileRef) : call unit :=
  request_with (dec unit_codec) "ClientFindData" [serialize retrieval_order_codec order;
    serialize file_ref_codec ref_].
Definition client_calc_comm_p (inpath : text) (miner : Address) : call CommPRet :=
  request_with (dec comm_p_ret_codec) "ClientCalcCommP" [serialize text_codec inpath;
    serialize address_codec miner].
Definition client_gen_car (ref_ : FileRef) (outpath : text) : call unit :=
  request_with (dec unit_codec) "ClientCalcCommP" [serialize file_ref_codec ref_; serialize text_codec outpath].

(** ** interface/storage/mod.rs *)
Definition actor_address : call Address :=
  request_with (dec address_codec) "ActorAddress" [].
Definition actor_sector_size (addr : Address) : call Z :=
  request_with (dec u64_codec) "ActorSectorSize" [serialize address_codec addr].
Definition mining_base : call Tipset.Tipset.Tipset :=
  request_with (dec tipset_codec) "MiningBase" [].
Definition pledge_sector : call unit :=
  request_with (dec unit_codec) "PledgeSector" [].
Definition sectors_status (number : Z) : call ApiSectorInfo :=
  request_with (dec api_sector_info_codec) "SectorsStatus" [serialize u64_codec number].
Definition sectors_list : call (list Z) :=
  request_with (dec (list_codec u64_codec)) "SectorsList" [].
Definition sectors_refs : call (list (text * (list SealedRef))) :=
  request_with (dec_map (list_codec sealed_ref_codec)) "SectorsRefs" [].
Definition sectors_update (number : Z) (state : text) : call unit :=
  request_with (dec unit_codec) "SectorsUpdate" [serialize u64_codec number; serialize text_codec state].
Definition worker_connect (s : text) : call unit :=
  request_with (dec unit_codec) "WorkerConnect" [serialize text_codec s].
Definition market_import_deal_data (prop_cid : Cid) (path : text) : call unit :=
  request_with (dec unit_codec) "MarketImportDealData" [serialize cid_codec prop_cid; serialize text_codec path].
Definition market_set_price (price : Z) : call unit :=
  request_with (dec unit_codec) "MarketSetPrice" [serialize bigint_codec price].
Definition deals_import_data (deal_prop_cid : Cid) (file : text) : call unit :=
  request_with (dec unit_codec) "DealsImportData" [serialize cid_codec deal_prop_cid; serialize text_codec file].
Definition storage_add_local (path : text) : call unit :=
  request_with (dec unit_codec) "StorageAddLocal" [serialize text_codec path].

End Api.
End Api.
