(* ===== verification/ApiRequests.v ===== *)
(** * What the remote methods send

    The 124 methods of [Api] as one type of calls, and the request that each of
    them sends: the name that the interface files give it and its arguments.  No
    two calls send the same request. *)

From Stdlib Require Import ZArith Lia String Ascii.
From stdpp Require Import base numbers list gmap.
From S2P Require Import Prelude Decimal F64 Json Serde SerdeLaws Rle Cbor CborRef Address AddressRef Wrappers BitField Piece Sector.
From S2P Require Import Crypto Message Block Tipset Wallet PrimJson Actors JsonRef ApiTypes JsonRpc Api.

Local Open Scope Z_scope.

Module ApiRequests.
Import PrimJson.PrimJson Actors.Actors ApiTypes.ApiTypes Api.Api.

(** ** Names

    The Rust name of a method in camel case, the way the node's API spells
    [TipSet] and [ID]. *)
Definition upper (c : ascii) : ascii :=
  let n := nat_of_ascii c in if (97 <=? n)%nat && (n <=? 122)%nat then ascii_of_nat (n - 32) else c.
Definition capital (w : string) : string :=
  if String.eqb w "tipset" then "TipSet" else if String.eqb w "id" then "ID"
  else match w with String c w => String (upper c) w | EmptyString => w end.
Fixpoint camel (word : string) (s : string) : string :=
  match s with
  | EmptyString => capital word
  | String c s =>
      if Ascii.eqb c "_" then capital word ++ camel EmptyString s
      else camel (word ++ String c EmptyString) s
  end.
(** The four methods that are sent under another name. *)
Definition exceptions : list (string * string) :=
  [("chain_stat_obj", "ChainHasObj"); ("paych_voucher_list", "PayChVoucherList");
   ("client_retrieve", "ClientFindData"); ("client_gen_car", "ClientCalcCommP")]%string.
Definition wire_name (name : string) : string :=
  match find (fun e => String.eqb e.1 name) exceptions with Some e => e.2 | None => camel EmptyString name end.

Lemma str_inj s s' : str s = str s' -> s = s'.
Proof.
  revert s'. induction s as [|c s IH]; intros [|c' s']; cbn; try done. intros [= Hc Hs].
  f_equal; [|by apply IH]. rewrite <- (ascii_N_embedding c), <- (ascii_N_embedding c'). by f_equal; apply N2Z.inj.
Qed.

(** ** Calls *)
Section Calls.
Context `{CidLib} `{!JsonLib} `{PeerIdLib} `{AddressDeps} `{MultiaddrLib} (net : Network) (ck : bool).
#[local] Abbreviation address_codec := (address_codec net).
#[local] Abbreviation bitfield_codec := (bitfield_codec ck).
#[local] Abbreviation unsigned_message_codec := (unsigned_message_codec net).
#[local] Abbreviation signed_message_codec := (signed_message_codec net).
#[local] Abbreviation block_msg_codec := (block_msg_codec net).
#[local] Abbreviation signed_voucher_codec := (signed_voucher_codec net).
#[local] Abbreviation retrieval_order_codec := (retrieval_order_codec net).
#[local] Abbreviation voucher_spec_codec := (voucher_spec_codec net).
#[local] Abbreviation block_template_codec := (block_template_codec net).

Inductive ApiCall : Type :=
(* interface/common/mod.rs *)
| Call_auth_verify (token : text)
| Call_auth_new (permissions : list Permission)
| Call_net_connectedness (peer_id : PeerId)
| Call_net_peers
| Call_net_connect (addr_info : PeerAddrInfo)
| Call_net_addrs_listen
| Call_net_disconnect (peer_id : PeerId)
| Call_net_find_peer (peer_id : PeerId)
| Call_id
| Call_version
| Call_log_list
| Call_log_set_level (subsystem : text) (level : text)
| Call_shutdown
(* interface/full/sync.rs *)
| Call_sync_state
| Call_sync_submit_block (block : Block.Block.BlockMsg)
| Call_sync_incoming_blocks
| Call_sync_mark_bad (bad_cid : Cid)
| Call_sync_check_bad (bad_cid : Cid)
(* interface/full/wallet.rs *)
| Call_wallet_new (sig_type : Crypto.Crypto.SignatureType)
| Call_wallet_has (addr : Address)
| Call_wallet_list
| Call_wallet_balance (addr : Address)
| Call_wallet_sign (addr : Address) (msg : list Z)
| Call_wallet_sign_message (addr : Address) (msg : Message.Message.UnsignedMessage)
| Call_wallet_verify (addr : Address) (msg : list Z) (signature : Crypto.Crypto.Signature)
| Call_wallet_default_address
| Call_wallet_set_default (addr : Address)
| Call_wallet_export (addr : Address)
| Call_wallet_import (info : Wallet.Wallet.KeyInfo)
(* interface/full/state.rs *)
| Call_state_call (msg : Message.Message.UnsignedMessage) (key : Tipset.Tipset.TipsetKey)
| Call_state_replay (key : Tipset.Tipset.TipsetKey) (cid : Cid)
| Call_state_get_actor (addr : Address) (key : Tipset.Tipset.TipsetKey)
| Call_state_list_messages (msg : Message.Message.UnsignedMessage) (key : Tipset.Tipset.TipsetKey) (height : Z)
| Call_state_network_name
| Call_state_miner_sectors (addr : Address) (filter : list Z) (filter_out : bool) (key : Tipset.Tipset.TipsetKey)
| Call_state_miner_proving_set (addr : Address) (key : Tipset.Tipset.TipsetKey)
| Call_state_miner_proving_deadline (addr : Address) (key : Tipset.Tipset.TipsetKey)
| Call_state_miner_power (addr : Address) (key : Tipset.Tipset.TipsetKey)
| Call_state_miner_info (addr : Address) (key : Tipset.Tipset.TipsetKey)
| Call_state_miner_deadlines (addr : Address) (key : Tipset.Tipset.TipsetKey)
| Call_state_miner_faults (addr : Address) (key : Tipset.Tipset.TipsetKey)
| Call_state_all_miner_faults (lookback : Z) (key : Tipset.Tipset.TipsetKey)
| Call_state_miner_recoveries (addr : Address) (key : Tipset.Tipset.TipsetKey)
| Call_state_miner_initial_pledge_collateral (addr : Address) (sector_number : Z) (key : Tipset.Tipset.TipsetKey)
| Call_state_miner_available_balance (addr : Address) (key : Tipset.Tipset.TipsetKey)
| Call_state_sector_pre_commit_info (addr : Address) (sector_number : Z) (key : Tipset.Tipset.TipsetKey)
| Call_state_pledge_collateral (key : Tipset.Tipset.TipsetKey)
| Call_state_wait_msg (cid : Cid)
| Call_state_search_msg (cid : Cid)
| Call_state_list_miners (key : Tipset.Tipset.TipsetKey)
| Call_state_list_actors (key : Tipset.Tipset.TipsetKey)
| Call_state_market_balance (addr : Address) (key : Tipset.Tipset.TipsetKey)
| Call_state_market_participants (key : Tipset.Tipset.TipsetKey)
| Call_state_market_deals (key : Tipset.Tipset.TipsetKey)
| Call_state_market_storage_deal (deal_id : Z) (key : Tipset.Tipset.TipsetKey)
| Call_state_lookup_id (addr : Address) (key : Tipset.Tipset.TipsetKey)
| Call_state_account_key (addr : Address) (key : Tipset.Tipset.TipsetKey)
| Call_state_changed_actors (old : Cid) (new : Cid)
| Call_state_get_receipt (cid : Cid) (key : Tipset.Tipset.TipsetKey)
| Call_state_miner_sector_count (addr : Address) (key : Tipset.Tipset.TipsetKey)
| Call_state_compute (height : Z) (msgs : list Message.Message.UnsignedMessage) (key : Tipset.Tipset.TipsetKey)
(* interface/full/mpool.rs *)
| Call_mpool_pending (key : Tipset.Tipset.TipsetKey)
| Call_mpool_push (signed_msg : Message.Message.SignedMessage)
| Call_mpool_push_message (msg : Message.Message.UnsignedMessage)
| Call_mpool_get_nonce (addr : Address)
| Call_mpool_sub
| Call_mpool_estimate_gas_price (nblocksincl : Z) (addr : Address) (gas_limit : Z) (key : Tipset.Tipset.TipsetKey)
(* interface/full/market.rs *)
| Call_market_ensure_available (addr : Address) (wallet : Address) (amt : Z)
(* interface/full/chain.rs *)
| Call_chain_notify
| Call_chain_head
| Call_chain_get_randomness (key : Tipset.Tipset.TipsetKey) (personalization : Crypto.Crypto.DomainSeparationTag) (rand_epoch : Z) (entropy : list Z)
| Call_chain_get_block (cid : Cid)
| Call_chain_get_tipset (key : Tipset.Tipset.TipsetKey)
| Call_chain_get_block_messages (cid : Cid)
| Call_chain_get_parent_receipts (cid : Cid)
| Call_chain_get_parent_messages (cid : Cid)
| Call_chain_get_tipset_by_height (height : Z) (key : Tipset.Tipset.TipsetKey)
| Call_chain_read_obj (cid : Cid)
| Call_chain_has_obj (cid : Cid)
| Call_chain_stat_obj (obj : Cid) (base : Cid)
| Call_chain_set_head (key : Tipset.Tipset.TipsetKey)
| Call_chain_get_genesis
| Call_chain_tipset_weight (key : Tipset.Tipset.TipsetKey)
| Call_chain_get_message (cid : Cid)
| Call_chain_get_path (from_ : Tipset.Tipset.TipsetKey) (to_ : Tipset.Tipset.TipsetKey)
| Call_chain_export (key : Tipset.Tipset.TipsetKey)
(* interface/full/multisig.rs *)
| Call_msig_get_available_balance (addr : Address) (key : Tipset.Tipset.TipsetKey)
| Call_msig_create (req : Z) (addrs : list Address) (val : Z) (src : Address) (gp : Z)
| Call_msig_propose (msig : Address) (to_ : Address) (amt : Z) (src : Address) (method : Z) (params : list Z)
| Call_msig_approve (msig : Address) (txid : Z) (proposer : Address) (to_ : Address) (amt : Z) (src : Address) (method : Z) (params : list Z)
| Call_msig_cancel (msig : Address) (txid : Z) (proposer : Address) (to_ : Address) (amt : Z) (src : Address) (method : Z) (params : list Z)
(* interface/full/paych.rs *)
| Call_paych_get (from_ : Address) (to_ : Address) (ensure_funds : Z)
| Call_paych_list
| Call_paych_status (addr : Address)
| Call_paych_close (addr : Address)
| Call_paych_allocate_lane (addr : Address)
| Call_paych_new_payment (from_ : Address) (to_ : Address) (vouchers : list VoucherSpec)
| Call_paych_voucher_check_valid (addr : Address) (sign_vouch : SignedVoucher)
| Call_paych_voucher_check_spendable (addr : Address) (sign_vouch : SignedVoucher) (secret : list Z) (proof : list Z)
| Call_paych_voucher_create (addr : Address) (amt : Z) (lane : Z)
| Call_paych_voucher_add (addr : Address) (signed_voucher : SignedVoucher) (proof : list Z) (min_delta : Z)
| Call_paych_voucher_list (addr : Address)
| Call_paych_voucher_submit (addr : Address) (signed_vouch : SignedVoucher)
(* interface/full/miner.rs *)
| Call_miner_get_base_info (addr : Address) (height : Z) (key : Tipset.Tipset.TipsetKey)
| Call_miner_create_block (template : BlockTemplate)
(* interface/full/client.rs *)
| Call_client_import (ref_ : FileRef)
| Call_client_has_local (root : Cid)
| Call_client_find_data (root : Cid)
| Call_client_retrieve (order : RetrievalOrder) (ref_ : FileRef)
| Call_client_calc_comm_p (inpath : text) (miner : Address)
| Call_client_gen_car (ref_ : FileRef) (outpath : text)
(* interface/storage/mod.rs *)
| Call_actor_address
| Call_actor_sector_size (addr : Address)
| Call_mining_base
| Call_pledge_sector
| Call_sectors_status (number : Z)
| Call_sectors_list
| Call_sectors_refs
| Call_sectors_update (number : Z) (state : text)
| Call_worker_connect (s : text)
| Call_market_import_deal_data (prop_cid : Cid) (path : text)
| Call_market_set_price (price : Z)
| Call_deals_import_data (deal_prop_cid : Cid) (file : text)
| Call_storage_add_local (path : text).

(** The name of the called method. *)
Definition method_name (c : ApiCall) : string :=
  match c with
  | Call_auth_verify _ => "auth_verify"
  | Call_auth_new _ => "auth_new"
  | Call_net_connectedness _ => "net_connectedness"
  | Call_net_peers => "net_peers"
  | Call_net_connect _ => "net_connect"
  | Call_net_addrs_listen => "net_addrs_listen"
  | Call_net_disconnect _ => "net_disconnect"
  | Call_net_find_peer _ => "net_find_peer"
  | Call_id => "id"
  | Call_version => "version"
  | Call_log_list => "log_list"
  | Call_log_set_level _ _ => "log_set_level"
  | Call_shutdown => "shutdown"
  | Call_sync_state => "sync_state"
  | Call_sync_submit_block _ => "sync_submit_block"
  | Call_sync_incoming_blocks => "sync_incoming_blocks"
  | Call_sync_mark_bad _ => "sync_mark_bad"
  | Call_sync_check_bad _ => "sync_check_bad"
  | Call_wallet_new _ => "wallet_new"
  | Call_wallet_has _ => "wallet_has"
  | Call_wallet_list => "wallet_list"
  | Call_wallet_balance _ => "wallet_balance"
  | Call_wallet_sign _ _ => "wallet_sign"
  | Call_wallet_sign_message _ _ => "wallet_sign_message"
  | Call_wallet_verify _ _ _ => "wallet_verify"
  | Call_wallet_default_address => "wallet_default_address"
  | Call_wallet_set_default _ => "wallet_set_default"
  | Call_wallet_export _ => "wallet_export"
  | Call_wallet_import _ => "wallet_import"
  | Call_state_call _ _ => "state_call"
  | Call_state_replay _ _ => "state_replay"
  | Call_state_get_actor _ _ => "state_get_actor"
  | Call_state_list_messages _ _ _ => "state_list_messages"
  | Call_state_network_name => "state_network_name"
  | Call_state_miner_sectors _ _ _ _ => "state_miner_sectors"
  | Call_state_miner_proving_set _ _ => "state_miner_proving_set"
  | Call_state_miner_proving_deadline _ _ => "state_miner_proving_deadline"
  | Call_state_miner_power _ _ => "state_miner_power"
  | Call_state_miner_info _ _ => "state_miner_info"
  | Call_state_miner_deadlines _ _ => "state_miner_deadlines"
  | Call_state_miner_faults _ _ => "state_miner_faults"
  | Call_state_all_miner_faults _ _ => "state_all_miner_faults"
  | Call_state_miner_recoveries _ _ => "state_miner_recoveries"
  | Call_state_miner_initial_pledge_collateral _ _ _ => "state_miner_initial_pledge_collateral"
  | Call_state_miner_available_balance _ _ => "state_miner_available_balance"
  | Call_state_sector_pre_commit_info _ _ _ => "state_sector_pre_commit_info"
  | Call_state_pledge_collateral _ => "state_pledge_collateral"
  | Call_state_wait_msg _ => "state_wait_msg"
  | Call_state_search_msg _ => "state_search_msg"
  | Call_state_list_miners _ => "state_list_miners"
  | Call_state_list_actors _ => "state_list_actors"
  | Call_state_market_balance _ _ => "state_market_balance"
  | Call_state_market_participants _ => "state_market_participants"
  | Call_state_market_deals _ => "state_market_deals"
  | Call_state_market_storage_deal _ _ => "state_market_storage_deal"
  | Call_state_lookup_id _ _ => "state_lookup_id"
  | Call_state_account_key _ _ => "state_account_key"
  | Call_state_changed_actors _ _ => "state_changed_actors"
  | Call_state_get_receipt _ _ => "state_get_receipt"
  | Call_state_miner_sector_count _ _ => "state_miner_sector_count"
  | Call_state_compute _ _ _ => "state_compute"
  | Call_mpool_pending _ => "mpool_pending"
  | Call_mpool_push _ => "mpool_push"
  | Call_mpool_push_message _ => "mpool_push_message"
  | Call_mpool_get_nonce _ => "mpool_get_nonce"
  | Call_mpool_sub => "mpool_sub"
  | Call_mpool_estimate_gas_price _ _ _ _ => "mpool_estimate_gas_price"
  | Call_market_ensure_available _ _ _ => "market_ensure_available"
  | Call_chain_notify => "chain_notify"
  | Call_chain_head => "chain_head"
  | Call_chain_get_randomness _ _ _ _ => "chain_get_randomness"
  | Call_chain_get_block _ => "chain_get_block"
  | Call_chain_get_tipset _ => "chain_get_tipset"
  | Call_chain_get_block_messages _ => "chain_get_block_messages"
  | Call_chain_get_parent_receipts _ => "chain_get_parent_receipts"
  | Call_chain_get_parent_messages _ => "chain_get_parent_messages"
  | Call_chain_get_tipset_by_height _ _ => "chain_get_tipset_by_height"
  | Call_chain_read_obj _ => "chain_read_obj"
  | Call_chain_has_obj _ => "chain_has_obj"
  | Call_chain_stat_obj _ _ => "chain_stat_obj"
  | Call_chain_set_head _ => "chain_set_head"
  | Call_chain_get_genesis => "chain_get_genesis"
  | Call_chain_tipset_weight _ => "chain_tipset_weight"
  | Call_chain_get_message _ => "chain_get_message"
  | Call_chain_get_path _ _ => "chain_get_path"
  | Call_chain_export _ => "chain_export"
  | Call_msig_get_available_balance _ _ => "msig_get_available_balance"
  | Call_msig_create _ _ _ _ _ => "msig_create"
  | Call_msig_propose _ _ _ _ _ _ => "msig_propose"
  | Call_msig_approve _ _ _ _ _ _ _ _ => "msig_approve"
  | Call_msig_cancel _ _ _ _ _ _ _ _ => "msig_cancel"
  | Call_paych_get _ _ _ => "paych_get"
  | Call_paych_list => "paych_list"
  | Call_paych_status _ => "paych_status"
  | Call_paych_close _ => "paych_close"
  | Call_paych_allocate_lane _ => "paych_allocate_lane"
  | Call_paych_new_payment _ _ _ => "paych_new_payment"
  | Call_paych_voucher_check_valid _ _ => "paych_voucher_check_valid"
  | Call_paych_voucher_check_spendable _ _ _ _ => "paych_voucher_check_spendable"
  | Call_paych_voucher_create _ _ _ => "paych_voucher_create"
  | Call_paych_voucher_add _ _ _ _ => "paych_voucher_add"
  | Call_paych_voucher_list _ => "paych_voucher_list"
  | Call_paych_voucher_submit _ _ => "paych_voucher_submit"
  | Call_miner_get_base_info _ _ _ => "miner_get_base_info"
  | Call_miner_create_block _ => "miner_create_block"
  | Call_client_import _ => "client_import"
  | Call_client_has_local _ => "client_has_local"
  | Call_client_find_data _ => "client_find_data"
  | Call_client_retrieve _ _ => "client_retrieve"
  | Call_client_calc_comm_p _ _ => "client_calc_comm_p"
  | Call_client_gen_car _ _ => "client_gen_car"
  | Call_actor_address => "actor_address"
  | Call_actor_sector_size _ => "actor_sector_size"
  | Call_mining_base => "mining_base"
  | Call_pledge_sector => "pledge_sector"
  | Call_sectors_status _ => "sectors_status"
  | Call_sectors_list => "sectors_list"
  | Call_sectors_refs => "sectors_refs"
  | Call_sectors_update _ _ => "sectors_update"
  | Call_worker_connect _ => "worker_connect"
  | Call_market_import_deal_data _ _ => "market_import_deal_data"
  | Call_market_set_price _ => "market_set_price"
  | Call_deals_import_data _ _ => "deals_import_data"
  | Call_storage_add_local _ => "storage_add_local"
  end%string.

(** Its arguments as JSON, in the order of the signature. *)
Definition arguments (c : ApiCall) : list (outcome RpcError Value) :=
  match c with
  | Call_auth_verify token => [serialize text_codec token]
  | Call_auth_new permissions => [serialize (list_codec permission_codec) permissions]
  | Call_net_connectedness peer_id => [serialize peer_id_codec peer_id]
  | Call_net_connect addr_info => [serialize peer_addr_info_codec addr_info]
  | Call_net_disconnect peer_id => [serialize peer_id_codec peer_id]
  | Call_net_find_peer peer_id => [serialize peer_id_codec peer_id]
  | Call_log_set_level subsystem level => [serialize text_codec subsystem; serialize text_codec level]
  | Call_sync_submit_block block => [serialize block_msg_codec block]
  | Call_sync_mark_bad bad_cid => [serialize cid_codec bad_cid]
  | Call_sync_check_bad bad_cid => [serialize cid_codec bad_cid]
  | Call_wallet_new sig_type => [serialize signature_type_codec sig_type]
  | Call_wallet_has addr => [serialize address_codec addr]
  | Call_wallet_balance addr => [serialize address_codec addr]
  | Call_wallet_sign addr msg => [serialize address_codec addr; serialize bytes_codec msg]
  | Call_wallet_sign_message addr msg => [serialize address_codec addr; serialize unsigned_message_codec msg]
  | Call_wallet_verify addr msg signature =>
      [serialize address_codec addr; serialize bytes_codec msg; serialize signature_codec signature]
  | Call_wallet_set_default addr => [serialize address_codec addr]
  | Call_wallet_export addr => [serialize address_codec addr]
  | Call_wallet_import info => [serialize key_info_codec info]
  | Call_state_call msg key => [serialize unsigned_message_codec msg; serialize tipset_key_codec key]
  | Call_state_replay key cid => [serialize tipset_key_codec key; serialize cid_codec cid]
  | Call_state_get_actor addr key => [serialize address_codec addr; serialize tipset_key_codec key]
  | Call_state_list_messages msg key height =>
      [serialize unsigned_message_codec msg; serialize tipset_key_codec key; serialize i64_codec height]
  | Call_state_miner_sectors addr filter filter_out key =>
      [serialize address_codec addr; serialize bitfield_codec filter; serialize bool_codec filter_out;
       serialize tipset_key_codec key]
  | Call_state_miner_proving_set addr key => [serialize address_codec addr; serialize tipset_key_codec key]
  | Call_state_miner_proving_deadline addr key => [serialize address_codec addr; serialize tipset_key_codec key]
  | Call_state_miner_power addr key => [serialize address_codec addr; serialize tipset_key_codec key]
  | Call_state_miner_info addr key => [serialize address_codec addr; serialize tipset_key_codec key]
  | Call_state_miner_deadlines addr key => [serialize address_codec addr; serialize tipset_key_codec key]
  | Call_state_miner_faults addr key => [serialize address_codec addr; serialize tipset_key_codec key]
  | Call_state_all_miner_faults lookback key => [serialize i64_codec lookback; serialize tipset_key_codec key]
  | Call_state_miner_recoveries addr key => [serialize address_codec addr; serialize tipset_key_codec key]
  | Call_state_miner_initial_pledge_collateral addr sector_number key =>
      [serialize address_codec addr; serialize u64_codec sector_number; serialize tipset_key_codec key]
  | Call_state_miner_available_balance addr key => [serialize address_codec addr; serialize tipset_key_codec key]
  | Call_state_sector_pre_commit_info addr sector_number key =>
      [serialize address_codec addr; serialize u64_codec sector_number; serialize tipset_key_codec key]
  | Call_state_pledge_collateral key => [serialize tipset_key_codec key]
  | Call_state_wait_msg cid => [serialize cid_codec cid]
  | Call_state_search_msg cid => [serialize cid_codec cid]
  | Call_state_list_miners key => [serialize tipset_key_codec key]
  | Call_state_list_actors key => [serialize tipset_key_codec key]
  | Call_state_market_balance addr key => [serialize address_codec addr; serialize tipset_key_codec key]
  | Call_state_market_participants key => [serialize tipset_key_codec key]
  | Call_state_market_deals key => [serialize tipset_key_codec key]
  | Call_state_market_storage_deal deal_id key => [serialize u64_codec deal_id; serialize tipset_key_codec key]
  | Call_state_lookup_id addr key => [serialize address_codec addr; serialize tipset_key_codec key]
  | Call_state_account_key addr key => [serialize address_codec addr; serialize tipset_key_codec key]
  | Call_state_changed_actors old new => [serialize cid_codec old; serialize cid_codec new]
  | Call_state_get_receipt cid key => [serialize cid_codec cid; serialize tipset_key_codec key]
  | Call_state_miner_sector_count addr key => [serialize address_codec addr; serialize tipset_key_codec key]
  | Call_state_compute height msgs key =>
      [serialize i64_codec height; serialize (list_codec unsigned_message_codec) msgs; serialize tipset_key_codec key]
  | Call_mpool_pending key => [serialize tipset_key_codec key]
  | Call_mpool_push signed_msg => [serialize signed_message_codec signed_msg]
  | Call_mpool_push_message msg => [serialize unsigned_message_codec msg]
  | Call_mpool_get_nonce addr => [serialize address_codec addr]
  | Call_mpool_estimate_gas_price nblocksincl addr gas_limit key =>
      [serialize u64_codec nblocksincl; serialize address_codec addr; serialize i64_codec gas_limit;
       serialize tipset_key_codec key]
  | Call_market_ensure_available addr wallet amt =>
      [serialize address_codec addr; serialize address_codec wallet; serialize bigint_codec amt]
  | Call_chain_get_randomness key personalization rand_epoch entropy =>
      [serialize tipset_key_codec key; serialize domain_tag_codec personalization; serialize i64_codec rand_epoch;
       serialize bytes_codec entropy]
  | Call_chain_get_block cid => [serialize cid_codec cid]
  | Call_chain_get_tipset key => [serialize tipset_key_codec key]
  | Call_chain_get_block_messages cid => [serialize cid_codec cid]
  | Call_chain_get_parent_receipts cid => [serialize cid_codec cid]
  | Call_chain_get_parent_messages cid => [serialize cid_codec cid]
  | Call_chain_get_tipset_by_height height key => [serialize i64_codec height; serialize tipset_key_codec key]
  | Call_chain_read_obj cid => [serialize cid_codec cid]
  | Call_chain_has_obj cid => [serialize cid_codec cid]
  | Call_chain_stat_obj obj base => [serialize cid_codec obj; serialize cid_codec base]
  | Call_chain_set_head key => [serialize tipset_key_codec key]
  | Call_chain_tipset_weight key => [serialize tipset_key_codec key]
  | Call_chain_get_message cid => [serialize cid_codec cid]
  | Call_chain_get_path from_ to_ => [serialize tipset_key_codec from_; serialize tipset_key_codec to_]
  | Call_chain_export key => [serialize tipset_key_codec key]
  | Call_msig_get_available_balance addr key => [serialize address_codec addr; serialize tipset_key_codec key]
  | Call_msig_create req addrs val src gp =>
      [serialize i64_codec req; serialize (list_codec address_codec) addrs; serialize bigint_codec val;
       serialize address_codec src; serialize bigint_codec gp]
  | Call_msig_propose msig to_ amt src method params =>
      [serialize address_codec msig; serialize address_codec to_; serialize bigint_codec amt;
       serialize address_codec src; serialize u64_codec method; serialize bytes_codec params]
  | Call_msig_approve msig txid proposer to_ amt src method params =>
      [serialize address_codec msig; serialize u64_codec txid; serialize address_codec proposer;
       serialize address_codec to_; serialize bigint_codec amt; serialize address_codec src; serialize u64_codec method; serialize bytes_codec params]
  | Call_msig_cancel msig txid proposer to_ amt src method params =>
      [serialize address_codec msig; serialize u64_codec txid; serialize address_codec proposer;
       serialize address_codec to_; serialize bigint_codec amt; serialize address_codec src; serialize u64_codec method; serialize bytes_codec params]
  | Call_paych_get from_ to_ ensure_funds =>
      [serialize address_codec from_; serialize address_codec to_; serialize bigint_codec ensure_funds]
  | Call_paych_status addr => [serialize address_codec addr]
  | Call_paych_close addr => [serialize address_codec addr]
  | Call_paych_allocate_lane addr => [serialize address_codec addr]
  | Call_paych_new_payment from_ to_ vouchers =>
      [serialize address_codec from_; serialize address_codec to_; serialize (list_codec voucher_spec_codec) vouchers]
  | Call_paych_voucher_check_valid addr sign_vouch =>
      [serialize address_codec addr; serialize signed_voucher_codec sign_vouch]
  | Call_paych_voucher_check_spendable addr sign_vouch secret proof =>
      [serialize address_codec addr; serialize signed_voucher_codec sign_vouch; serialize bytes_codec secret;
       serialize bytes_codec proof]
  | Call_paych_voucher_create addr amt lane =>
      [serialize address_codec addr; serialize bigint_codec amt; serialize u64_codec lane]
  | Call_paych_voucher_add addr signed_voucher proof min_delta =>
      [serialize address_codec addr; serialize signed_voucher_codec signed_voucher; serialize bytes_codec proof;
       serialize bigint_codec min_delta]
  | Call_paych_voucher_list addr => [serialize address_codec addr]
  | Call_paych_voucher_submit addr signed_vouch =>
      [serialize address_codec addr; serialize signed_voucher_codec signed_vouch]
  | Call_miner_get_base_info addr height key =>
      [serialize address_codec addr; serialize i64_codec height; serialize tipset_key_codec key]
  | Call_miner_create_block template => [serialize block_template_codec template]
  | Call_client_import ref_ => [serialize file_ref_codec ref_]
  | Call_client_has_local root => [serialize cid_codec root]
  | Call_client_find_data root => [serialize cid_codec root]
  | Call_client_retrieve order ref_ => [serialize retrieval_order_codec order; serialize file_ref_codec ref_]
  | Call_client_calc_comm_p inpath miner => [serialize text_codec inpath; serialize address_codec miner]
  | Call_client_gen_car ref_ outpath => [serialize file_ref_codec ref_; serialize text_codec outpath]
  | Call_actor_sector_size addr => [serialize address_codec addr]
  | Call_sectors_status number => [serialize u64_codec number]
  | Call_sectors_update number state => [serialize u64_codec number; serialize text_codec state]
  | Call_worker_connect s => [serialize text_codec s]
  | Call_market_import_deal_data prop_cid path => [serialize cid_codec prop_cid; serialize text_codec path]
  | Call_market_set_price price => [serialize bigint_codec price]
  | Call_deals_import_data deal_prop_cid file => [serialize cid_codec deal_prop_cid; serialize text_codec file]
  | Call_storage_add_local path => [serialize text_codec path]
  | _ => []
  end.

(** Addresses as the four protocols make them, integers and bytes in the range of
    their type, and records of such values. *)
Definition typed (c : ApiCall) : Prop :=
  match c with
  | Call_sync_submit_block block => block_msg_ok block
  | Call_wallet_has addr => valid_addr addr
  | Call_wallet_balance addr => valid_addr addr
  | Call_wallet_sign addr msg => valid_addr addr /\ bytes_ok msg
  | Call_wallet_sign_message addr msg => valid_addr addr /\ unsigned_message_ok msg
  | Call_wallet_verify addr msg signature => valid_addr addr /\ bytes_ok msg /\ signature_ok signature
  | Call_wallet_set_default addr => valid_addr addr
  | Call_wallet_export addr => valid_addr addr
  | Call_wallet_import info => key_info_ok info
  | Call_state_call msg _ => unsigned_message_ok msg
  | Call_state_get_actor addr _ => valid_addr addr
  | Call_state_list_messages msg _ height => unsigned_message_ok msg /\ i64_ok height
  | Call_state_miner_sectors addr filter _ _ => valid_addr addr /\ bitfield_ok filter
  | Call_state_miner_proving_set addr _ => valid_addr addr
  | Call_state_miner_proving_deadline addr _ => valid_addr addr
  | Call_state_miner_power addr _ => valid_addr addr
  | Call_state_miner_info addr _ => valid_addr addr
  | Call_state_miner_deadlines addr _ => valid_addr addr
  | Call_state_miner_faults addr _ => valid_addr addr
  | Call_state_all_miner_faults lookback _ => i64_ok lookback
  | Call_state_miner_recoveries addr _ => valid_addr addr
  | Call_state_miner_initial_pledge_collateral addr sector_number _ => valid_addr addr /\ u64_ok sector_number
  | Call_state_miner_available_balance addr _ => valid_addr addr
  | Call_state_sector_pre_commit_info addr sector_number _ => valid_addr addr /\ u64_ok sector_number
  | Call_state_market_balance addr _ => valid_addr addr
  | Call_state_market_storage_deal deal_id _ => u64_ok deal_id
  | Call_state_lookup_id addr _ => valid_addr addr
  | Call_state_account_key addr _ => valid_addr addr
  | Call_state_miner_sector_count addr _ => valid_addr addr
  | Call_state_compute height msgs _ => i64_ok height /\ Forall unsigned_message_ok msgs
  | Call_mpool_push signed_msg => signed_message_ok signed_msg
  | Call_mpool_push_message msg => unsigned_message_ok msg
  | Call_mpool_get_nonce addr => valid_addr addr
  | Call_mpool_estimate_gas_price nblocksincl addr gas_limit _ =>
      u64_ok nblocksincl /\ valid_addr addr /\ i64_ok gas_limit
  | Call_market_ensure_available addr wallet _ => valid_addr addr /\ valid_addr wallet
  | Call_chain_get_randomness _ _ rand_epoch entropy => i64_ok rand_epoch /\ bytes_ok entropy
  | Call_chain_get_tipset_by_height height _ => i64_ok height
  | Call_msig_get_available_balance addr _ => valid_addr addr
  | Call_msig_create req addrs _ src _ => i64_ok req /\ Forall valid_addr addrs /\ valid_addr src
  | Call_msig_propose msig to_ _ src method params =>
      valid_addr msig /\ valid_addr to_ /\ valid_addr src /\ u64_ok method /\ bytes_ok params
  | Call_msig_approve msig txid proposer to_ _ src method params =>
      valid_addr msig /\ u64_ok txid /\ valid_addr proposer /\ valid_addr to_ /\ valid_addr src /\ u64_ok method /\
      bytes_ok params
  | Call_msig_cancel msig txid proposer to_ _ src method params =>
      valid_addr msig /\ u64_ok txid /\ valid_addr proposer /\ valid_addr to_ /\ valid_addr src /\ u64_ok method /\
      bytes_ok params
  | Call_paych_get from_ to_ _ => valid_addr from_ /\ valid_addr to_
  | Call_paych_status addr => valid_addr addr
  | Call_paych_close addr => valid_addr addr
  | Call_paych_allocate_lane addr => valid_addr addr
  | Call_paych_new_payment from_ to_ vouchers => valid_addr from_ /\ valid_addr to_ /\ Forall voucher_spec_ok vouchers
  | Call_paych_voucher_check_valid addr sign_vouch => valid_addr addr /\ signed_voucher_ok sign_vouch
  | Call_paych_voucher_check_spendable addr sign_vouch secret proof =>
      valid_addr addr /\ signed_voucher_ok sign_vouch /\ bytes_ok secret /\ bytes_ok proof
  | Call_paych_voucher_create addr _ lane => valid_addr addr /\ u64_ok lane
  | Call_paych_voucher_add addr signed_voucher proof _ =>
      valid_addr addr /\ signed_voucher_ok signed_voucher /\ bytes_ok proof
  | Call_paych_voucher_list addr => valid_addr addr
  | Call_paych_voucher_submit addr signed_vouch => valid_addr addr /\ signed_voucher_ok signed_vouch
  | Call_miner_get_base_info addr height _ => valid_addr addr /\ i64_ok height
  | Call_miner_create_block template => block_template_ok template
  | Call_client_retrieve order _ => retrieval_order_ok order
  | Call_client_calc_comm_p _ miner => valid_addr miner
  | Call_actor_sector_size addr => valid_addr addr
  | Call_sectors_status number => u64_ok number
  | Call_sectors_update number _ => u64_ok number
  | _ => True
  end.

(** A call of a method through a client [S], with the type of its result. *)
Record method_call (S : Type) := mkMethod { returns : Type; call : S -> outcome RpcError returns * S }.
Abbreviation Method f := (mkMethod _ _ f).
Definition invoke {S : Type} `{RpcClient S} (c : ApiCall) : method_call S :=
  match c with
  | Call_auth_verify token => Method (auth_verify token)
  | Call_auth_new permissions => Method (auth_new permissions)
  | Call_net_connectedness peer_id => Method (net_connectedness peer_id)
  | Call_net_peers => Method net_peers
  | Call_net_connect addr_info => Method (net_connect addr_info)
  | Call_net_addrs_listen => Method net_addrs_listen
  | Call_net_disconnect peer_id => Method (net_disconnect peer_id)
  | Call_net_find_peer peer_id => Method (net_find_peer peer_id)
  | Call_id => Method id
  | Call_version => Method version
  | Call_log_list => Method log_list
  | Call_log_set_level subsystem level => Method (log_set_level subsystem level)
  | Call_shutdown => Method shutdown
  | Call_sync_state => Method (sync_state net)
  | Call_sync_submit_block block => Method (sync_submit_block net block)
  | Call_sync_incoming_blocks => Method sync_incoming_blocks
  | Call_sync_mark_bad bad_cid => Method (sync_mark_bad bad_cid)
  | Call_sync_check_bad bad_cid => Method (sync_check_bad bad_cid)
  | Call_wallet_new sig_type => Method (wallet_new net sig_type)
  | Call_wallet_has addr => Method (wallet_has net addr)
  | Call_wallet_list => Method (wallet_list net)
  | Call_wallet_balance addr => Method (wallet_balance net addr)
  | Call_wallet_sign addr msg => Method (wallet_sign net addr msg)
  | Call_wallet_sign_message addr msg => Method (wallet_sign_message net addr msg)
  | Call_wallet_verify addr msg signature => Method (wallet_verify net addr msg signature)
  | Call_wallet_default_address => Method (wallet_default_address net)
  | Call_wallet_set_default addr => Method (wallet_set_default net addr)
  | Call_wallet_export addr => Method (wallet_export net addr)
  | Call_wallet_import info => Method (wallet_import net info)
  | Call_state_call msg key => Method (state_call net msg key)
  | Call_state_replay key cid => Method (state_replay net key cid)
  | Call_state_get_actor addr key => Method (state_get_actor net addr key)
  | Call_state_list_messages msg key height => Method (state_list_messages net msg key height)
  | Call_state_network_name => Method state_network_name
  | Call_state_miner_sectors addr filter filter_out key => Method (state_miner_sectors net ck addr filter filter_out key)
  | Call_state_miner_proving_set addr key => Method (state_miner_proving_set net addr key)
  | Call_state_miner_proving_deadline addr key => Method (state_miner_proving_deadline net addr key)
  | Call_state_miner_power addr key => Method (state_miner_power net addr key)
  | Call_state_miner_info addr key => Method (state_miner_info net addr key)
  | Call_state_miner_deadlines addr key => Method (state_miner_deadlines net ck addr key)
  | Call_state_miner_faults addr key => Method (state_miner_faults net ck addr key)
  | Call_state_all_miner_faults lookback key => Method (state_all_miner_faults net lookback key)
  | Call_state_miner_recoveries addr key => Method (state_miner_recoveries net ck addr key)
  | Call_state_miner_initial_pledge_collateral addr sector_number key => Method (state_miner_initial_pledge_collateral net addr sector_number key)
  | Call_state_miner_available_balance addr key => Method (state_miner_available_balance net addr key)
  | Call_state_sector_pre_commit_info addr sector_number key => Method (state_sector_pre_commit_info net addr sector_number key)
  | Call_state_pledge_collateral key => Method (state_pledge_collateral key)
  | Call_state_wait_msg cid => Method (state_wait_msg net cid)
  | Call_state_search_msg cid => Method (state_search_msg net cid)
  | Call_state_list_miners key => Method (state_list_miners net key)
  | Call_state_list_actors key => Method (state_list_actors net key)
  | Call_state_market_balance addr key => Method (state_market_balance net addr key)
  | Call_state_market_participants key => Method (state_market_participants key)
  | Call_state_market_deals key => Method (state_market_deals net key)
  | Call_state_market_storage_deal deal_id key => Method (state_market_storage_deal net deal_id key)
  | Call_state_lookup_id addr key => Method (state_lookup_id net addr key)
  | Call_state_account_key addr key => Method (state_account_key net addr key)
  | Call_state_changed_actors old new => Method (state_changed_actors old new)
  | Call_state_get_receipt cid key => Method (state_get_receipt cid key)
  | Call_state_miner_sector_count addr key => Method (state_miner_sector_count net addr key)
  | Call_state_compute height msgs key => Method (state_compute net height msgs key)
  | Call_mpool_pending key => Method (mpool_pending net key)
  | Call_mpool_push signed_msg => Method (mpool_push net signed_msg)
  | Call_mpool_push_message msg => Method (mpool_push_message net msg)
  | Call_mpool_get_nonce addr => Method (mpool_get_nonce net addr)
  | Call_mpool_sub => Method mpool_sub
  | Call_mpool_estimate_gas_price nblocksincl addr gas_limit key => Method (mpool_estimate_gas_price net nblocksincl addr gas_limit key)
  | Call_market_ensure_available addr wallet amt => Method (market_ensure_available net addr wallet amt)
  | Call_chain_notify => Method chain_notify
  | Call_chain_head => Method (chain_head net)
  | Call_chain_get_randomness key personalization rand_epoch entropy => Method (chain_get_randomness key personalization rand_epoch entropy)
  | Call_chain_get_block cid => Method (chain_get_block net cid)
  | Call_chain_get_tipset key => Method (chain_get_tipset net key)
  | Call_chain_get_block_messages cid => Method (chain_get_block_messages net cid)
  | Call_chain_get_parent_receipts cid => Method (chain_get_parent_receipts cid)
  | Call_chain_get_parent_messages cid => Method (chain_get_parent_messages net cid)
  | Call_chain_get_tipset_by_height height key => Method (chain_get_tipset_by_height net height key)
  | Call_chain_read_obj cid => Method (chain_read_obj cid)
  | Call_chain_has_obj cid => Method (chain_has_obj cid)
  | Call_chain_stat_obj obj base => Method (chain_stat_obj obj base)
  | Call_chain_set_head key => Method (chain_set_head key)
  | Call_chain_get_genesis => Method (chain_get_genesis net)
  | Call_chain_tipset_weight key => Method (chain_tipset_weight key)
  | Call_chain_get_message cid => Method (chain_get_message net cid)
  | Call_chain_get_path from_ to_ => Method (chain_get_path net from_ to_)
  | Call_chain_export key => Method (chain_export key)
  | Call_msig_get_available_balance addr key => Method (msig_get_available_balance net addr key)
  | Call_msig_create req addrs val src gp => Method (msig_create net req addrs val src gp)
  | Call_msig_propose msig to_ amt src method params => Method (msig_propose net msig to_ amt src method params)
  | Call_msig_approve msig txid proposer to_ amt src method params => Method (msig_approve net msig txid proposer to_ amt src method params)
  | Call_msig_cancel msig txid proposer to_ amt src method params => Method (msig_cancel net msig txid proposer to_ amt src method params)
  | Call_paych_get from_ to_ ensure_funds => Method (paych_get net from_ to_ ensure_funds)
  | Call_paych_list => Method (paych_list net)
  | Call_paych_status addr => Method (paych_status net addr)
  | Call_paych_close addr => Method (paych_close net addr)
  | Call_paych_allocate_lane addr => Method (paych_allocate_lane net addr)
  | Call_paych_new_payment from_ to_ vouchers => Method (paych_new_payment net from_ to_ vouchers)
  | Call_paych_voucher_check_valid addr sign_vouch => Method (paych_voucher_check_valid net addr sign_vouch)
  | Call_paych_voucher_check_spendable addr sign_vouch secret proof => Method (paych_voucher_check_spendable net addr sign_vouch secret proof)
  | Call_paych_voucher_create addr amt lane => Method (paych_voucher_create net addr amt lane)
  | Call_paych_voucher_add addr signed_voucher proof min_delta => Method (paych_voucher_add net addr signed_voucher proof min_delta)
  | Call_paych_voucher_list addr => Method (paych_voucher_list net addr)
  | Call_paych_voucher_submit addr signed_vouch => Method (paych_voucher_submit net addr signed_vouch)
  | Call_miner_get_base_info addr height key => Method (miner_get_base_info net addr height key)
  | Call_miner_create_block template => Method (miner_create_block net template)
  | Call_client_import ref_ => Method (client_import ref_)
  | Call_client_has_local root => Method (client_has_local root)
  | Call_client_find_data root => Method (client_find_data net root)
  | Call_client_retrieve order ref_ => Method (client_retrieve net order ref_)
  | Call_client_calc_comm_p inpath miner => Method (client_calc_comm_p net inpath miner)
  | Call_client_gen_car ref_ outpath => Method (client_gen_car ref_ outpath)
  | Call_actor_address => Method (actor_address net)
  | Call_actor_sector_size addr => Method (actor_sector_size net addr)
  | Call_mining_base => Method (mining_base net)
  | Call_pledge_sector => Method pledge_sector
  | Call_sectors_status number => Method (sectors_status number)
  | Call_sectors_list => Method sectors_list
  | Call_sectors_refs => Method sectors_refs
  | Call_sectors_update number state => Method (sectors_update number state)
  | Call_worker_connect s => Method (worker_connect s)
  | Call_market_import_deal_data prop_cid path => Method (market_import_deal_data prop_cid path)
  | Call_market_set_price price => Method (market_set_price price)
  | Call_deals_import_data deal_prop_cid file => Method (deals_import_data deal_prop_cid file)
  | Call_storage_add_local path => Method (storage_add_local path)
  end.

(** [f] sends one request, and nothing else, through whatever client it runs on. *)
Inductive sends {S : Type} `{RpcClient S} (method : text) (params : list Value) : method_call S -> Prop :=
| sends_request {T} (read : Value -> de T) (f : S -> outcome RpcError T * S) :
    (forall s, f s = client_request read method params s) -> sends method params (Method f)
| sends_subscribe (f : S -> outcome RpcError (Z * nat) * S) :
    (forall s, f s = client_subscribe method params s) -> sends method params (Method f).

Lemma request_sends {S : Type} `{RpcClient S} {T} (f : Value -> de T) m args ps s :
  serialize_all args = Ok ps -> request_with f m args s = client_request f (str m) ps s.
Proof. intros Ha. unfold request_with. by rewrite Ha. Qed.
Lemma subscribe_sends {S : Type} `{RpcClient S} m args ps s :
  serialize_all args = Ok ps -> subscribe_with m args s = client_subscribe (str m) ps s.
Proof. intros Ha. unfold subscribe_with. by rewrite Ha. Qed.

Lemma invoke_sends {S : Type} `{RpcClient S} c ps :
  serialize_all (arguments c) = Ok ps -> sends (str (wire_name (method_name c))) ps (invoke c).
Proof.
  destruct c; cbn [arguments method_name invoke]; intros Ha;
    first [ apply sends_subscribe; intros st; refine (subscribe_sends _ _ _ _ Ha)
          | eapply sends_request; intros st; refine (request_sends _ _ _ _ _ Ha) ].
Qed.

(** ** A reader of requests, against which the calls are told apart *)
Definition argument {A B} (c : codec A) (k : A -> list Value -> option B) (ps : list Value) : option B :=
  match ps with
  | p :: ps => match dec c p with Ok x => k x ps | _ => None end
  | [] => None
  end.
Definition finish {B} (b : B) (ps : list Value) : option B := match ps with [] => Some b | _ => None end.

Definition readers : list (string * (list Value -> option ApiCall)) := [
  ("auth_verify", argument text_codec (fun token => finish (Call_auth_verify token)));
  ("auth_new", argument (list_codec permission_codec) (fun permissions => finish (Call_auth_new permissions)));
  ("net_connectedness", argument peer_id_codec (fun peer_id => finish (Call_net_connectedness peer_id)));
  ("net_peers", finish Call_net_peers);
  ("net_connect", argument peer_addr_info_codec (fun addr_info => finish (Call_net_connect addr_info)));
  ("net_addrs_listen", finish Call_net_addrs_listen);
  ("net_disconnect", argument peer_id_codec (fun peer_id => finish (Call_net_disconnect peer_id)));
  ("net_find_peer", argument peer_id_codec (fun peer_id => finish (Call_net_find_peer peer_id)));
  ("id", finish Call_id);
  ("version", finish Call_version);
  ("log_list", finish Call_log_list);
  ("log_set_level", argument text_codec (fun subsystem =>
     argument text_codec (fun level => finish (Call_log_set_level subsystem level))));
  ("shutdown", finish Call_shutdown);
  ("sync_state", finish Call_sync_state);
  ("sync_submit_block", argument block_msg_codec (fun block => finish (Call_sync_submit_block block)));
  ("sync_incoming_blocks", finish Call_sync_incoming_blocks);
  ("sync_mark_bad", argument cid_codec (fun bad_cid => finish (Call_sync_mark_bad bad_cid)));
  ("sync_check_bad", argument cid_codec (fun bad_cid => finish (Call_sync_check_bad bad_cid)));
  ("wallet_new", argument signature_type_codec (fun sig_type => finish (Call_wallet_new sig_type)));
  ("wallet_has", argument address_codec (fun addr => finish (Call_wallet_has addr)));
  ("wallet_list", finish Call_wallet_list);
  ("wallet_balance", argument address_codec (fun addr => finish (Call_wallet_balance addr)));
  ("wallet_sign", argument address_codec (fun addr =>
     argument bytes_codec (fun msg => finish (Call_wallet_sign addr msg))));
  ("wallet_sign_message", argument address_codec (fun addr =>
     argument unsigned_message_codec (fun msg => finish (Call_wallet_sign_message addr msg))));
  ("wallet_verify", argument address_codec (fun addr =>
     argument bytes_codec (fun msg => argument signature_codec (fun signature => finish (Call_wallet_verify addr msg signature)))));
  ("wallet_default_address", finish Call_wallet_default_address);
  ("wallet_set_default", argument address_codec (fun addr => finish (Call_wallet_set_default addr)));
  ("wallet_export", argument address_codec (fun addr => finish (Call_wallet_export addr)));
  ("wallet_import", argument key_info_codec (fun info => finish (Call_wallet_import info)));
  ("state_call", argument unsigned_message_codec (fun msg =>
     argument tipset_key_codec (fun key => finish (Call_state_call msg key))));
  ("state_replay", argument tipset_key_codec (fun key =>
     argument cid_codec (fun cid => finish (Call_state_replay key cid))));
  ("state_get_actor", argument address_codec (fun addr =>
     argument tipset_key_codec (fun key => finish (Call_state_get_actor addr key))));
  ("state_list_messages", argument unsigned_message_codec (fun msg =>
     argument tipset_key_codec (fun key => argument i64_codec (fun height => finish (Call_state_list_messages msg key height)))));
  ("state_network_name", finish Call_state_network_name);
  ("state_miner_sectors", argument address_codec (fun addr =>
     argument bitfield_codec (fun filter => argument bool_codec (fun filter_out => argument tipset_key_codec (fun key => finish (Call_state_miner_sectors addr filter filter_out key))))));
  ("state_miner_proving_set", argument address_codec (fun addr =>
     argument tipset_key_codec (fun key => finish (Call_state_miner_proving_set addr key))));
  ("state_miner_proving_deadline", argument address_codec (fun addr =>
     argument tipset_key_codec (fun key => finish (Call_state_miner_proving_deadline addr key))));
  ("state_miner_power", argument address_codec (fun addr =>
     argument tipset_key_codec (fun key => finish (Call_state_miner_power addr key))));
  ("state_miner_info", argument address_codec (fun addr =>
     argument tipset_key_codec (fun key => finish (Call_state_miner_info addr key))));
  ("state_miner_deadlines", argument address_codec (fun addr =>
     argument tipset_key_codec (fun key => finish (Call_state_miner_deadlines addr key))));
  ("state_miner_faults", argument address_codec (fun addr =>
     argument tipset_key_codec (fun key => finish (Call_state_miner_faults addr key))));
  ("state_all_miner_faults", argument i64_codec (fun lookback =>
     argument tipset_key_codec (fun key => finish (Call_state_all_miner_faults lookback key))));
  ("state_miner_recoveries", argument address_codec (fun addr =>
     argument tipset_key_codec (fun key => finish (Call_state_miner_recoveries addr key))));
  ("state_miner_initial_pledge_collateral", argument address_codec (fun addr =>
     argument u64_codec (fun sector_number => argument tipset_key_codec (fun key => finish (Call_state_miner_initial_pledge_collateral addr sector_number key)))));
  ("state_miner_available_balance", argument address_codec (fun addr =>
     argument tipset_key_codec (fun key => finish (Call_state_miner_available_balance addr key))));
  ("state_sector_pre_commit_info", argument address_codec (fun addr =>
     argument u64_codec (fun sector_number => argument tipset_key_codec (fun key => finish (Call_state_sector_pre_commit_info addr sector_number key)))));
  ("state_pledge_collateral", argument tipset_key_codec (fun key => finish (Call_state_pledge_collateral key)));
  ("state_wait_msg", argument cid_codec (fun cid => finish (Call_state_wait_msg cid)));
  ("state_search_msg", argument cid_codec (fun cid => finish (Call_state_search_msg cid)));
  ("state_list_miners", argument tipset_key_codec (fun key => finish (Call_state_list_miners key)));
  ("state_list_actors", argument tipset_key_codec (fun key => finish (Call_state_list_actors key)));
  ("state_market_balance", argument address_codec (fun addr =>
     argument tipset_key_codec (fun key => finish (Call_state_market_balance addr key))));
  ("state_market_participants", argument tipset_key_codec (fun key => finish (Call_state_market_participants key)));
  ("state_market_deals", argument tipset_key_codec (fun key => finish (Call_state_market_deals key)));
  ("state_market_storage_deal", argument u64_codec (fun deal_id =>
     argument tipset_key_codec (fun key => finish (Call_state_market_storage_deal deal_id key))));
  ("state_lookup_id", argument address_codec (fun addr =>
     argument tipset_key_codec (fun key => finish (Call_state_lookup_id addr key))));
  ("state_account_key", argument address_codec (fun addr =>
     argument tipset_key_codec (fun key => finish (Call_state_account_key addr key))));
  ("state_changed_actors", argument cid_codec (fun old =>
     argument cid_codec (fun new => finish (Call_state_changed_actors old new))));
  ("state_get_receipt", argument cid_codec (fun cid =>
     argument tipset_key_codec (fun key => finish (Call_state_get_receipt cid key))));
  ("state_miner_sector_count", argument address_codec (fun addr =>
     argument tipset_key_codec (fun key => finish (Call_state_miner_sector_count addr key))));
  ("state_compute", argument i64_codec (fun height =>
     argument (list_codec unsigned_message_codec) (fun msgs => argument tipset_key_codec (fun key => finish (Call_state_compute height msgs key)))));
  ("mpool_pending", argument tipset_key_codec (fun key => finish (Call_mpool_pending key)));
  ("mpool_push", argument signed_message_codec (fun signed_msg => finish (Call_mpool_push signed_msg)));
  ("mpool_push_message", argument unsigned_message_codec (fun msg => finish (Call_mpool_push_message msg)));
  ("mpool_get_nonce", argument address_codec (fun addr => finish (Call_mpool_get_nonce addr)));
  ("mpool_sub", finish Call_mpool_sub);
  ("mpool_estimate_gas_price", argument u64_codec (fun nblocksincl =>
     argument address_codec (fun addr => argument i64_codec (fun gas_limit => argument tipset_key_codec (fun key => finish (Call_mpool_estimate_gas_price nblocksincl addr gas_limit key))))));
  ("market_ensure_available", argument address_codec (fun addr =>
     argument address_codec (fun wallet => argument bigint_codec (fun amt => finish (Call_market_ensure_available addr wallet amt)))));
  ("chain_notify", finish Call_chain_notify);
  ("chain_head", finish Call_chain_head);
  ("chain_get_randomness", argument tipset_key_codec (fun key =>
     argument domain_tag_codec (fun personalization => argument i64_codec (fun rand_epoch => argument bytes_codec (fun entropy => finish (Call_chain_get_randomness key personalization rand_epoch entropy))))));
  ("chain_get_block", argument cid_codec (fun cid => finish (Call_chain_get_block cid)));
  ("chain_get_tipset", argument tipset_key_codec (fun key => finish (Call_chain_get_tipset key)));
  ("chain_get_block_messages", argument cid_codec (fun cid => finish (Call_chain_get_block_messages cid)));
  ("chain_get_parent_receipts", argument cid_codec (fun cid => finish (Call_chain_get_parent_receipts cid)));
  ("chain_get_parent_messages", argument cid_codec (fun cid => finish (Call_chain_get_parent_messages cid)));
  ("chain_get_tipset_by_height", argument i64_codec (fun height =>
     argument tipset_key_codec (fun key => finish (Call_chain_get_tipset_by_height height key))));
  ("chain_read_obj", argument cid_codec (fun cid => finish (Call_chain_read_obj cid)));
  ("chain_has_obj", argument cid_codec (fun cid => finish (Call_chain_has_obj cid)));
  ("chain_stat_obj", argument cid_codec (fun obj =>
     argument cid_codec (fun base => finish (Call_chain_stat_obj obj base))));
  ("chain_set_head", argument tipset_key_codec (fun key => finish (Call_chain_set_head key)));
  ("chain_get_genesis", finish Call_chain_get_genesis);
  ("chain_tipset_weight", argument tipset_key_codec (fun key => finish (Call_chain_tipset_weight key)));
  ("chain_get_message", argument cid_codec (fun cid => finish (Call_chain_get_message cid)));
  ("chain_get_path", argument tipset_key_codec (fun from_ =>
     argument tipset_key_codec (fun to_ => finish (Call_chain_get_path from_ to_))));
  ("chain_export", argument tipset_key_codec (fun key => finish (Call_chain_export key)));
  ("msig_get_available_balance", argument address_codec (fun addr =>
     argument tipset_key_codec (fun key => finish (Call_msig_get_available_balance addr key))));
  ("msig_create", argument i64_codec (fun req =>
     argument (list_codec address_codec) (fun addrs => argument bigint_codec (fun val => argument address_codec (fun src => argument bigint_codec (fun gp => finish (Call_msig_create req addrs val src gp)))))));
  ("msig_propose", argument address_codec (fun msig =>
     argument address_codec (fun to_ => argument bigint_codec (fun amt => argument address_codec (fun src => argument u64_codec (fun method => argument bytes_codec (fun params => finish (Call_msig_propose msig to_ amt src method params))))))));
  ("msig_approve", argument address_codec (fun msig =>
     argument u64_codec (fun txid => argument address_codec (fun proposer => argument address_codec (fun to_ => argument bigint_codec (fun amt => argument address_codec (fun src => argument u64_codec (fun method => argument bytes_codec (fun params => finish (Call_msig_approve msig txid proposer to_ amt src method params))))))))));
  ("msig_cancel", argument address_codec (fun msig => argument u64_codec (fun txid =>
     argument address_codec (fun proposer => argument address_codec (fun to_ => argument bigint_codec (fun amt => argument address_codec (fun src => argument u64_codec (fun method => argument bytes_codec (fun params => finish (Call_msig_cancel msig txid proposer to_ amt src method params))))))))));
  ("paych_get", argument address_codec (fun from_ =>
     argument address_codec (fun to_ => argument bigint_codec (fun ensure_funds => finish (Call_paych_get from_ to_ ensure_funds)))));
  ("paych_list", finish Call_paych_list);
  ("paych_status", argument address_codec (fun addr => finish (Call_paych_status addr)));
  ("paych_close", argument address_codec (fun addr => finish (Call_paych_close addr)));
  ("paych_allocate_lane", argument address_codec (fun addr => finish (Call_paych_allocate_lane addr)));
  ("paych_new_payment", argument address_codec (fun from_ =>
     argument address_codec (fun to_ => argument (list_codec voucher_spec_codec) (fun vouchers => finish (Call_paych_new_payment from_ to_ vouchers)))));
  ("paych_voucher_check_valid", argument address_codec (fun addr =>
     argument signed_voucher_codec (fun sign_vouch => finish (Call_paych_voucher_check_valid addr sign_vouch))));
  ("paych_voucher_check_spendable", argument address_codec (fun addr =>
     argument signed_voucher_codec (fun sign_vouch => argument bytes_codec (fun secret => argument bytes_codec (fun proof => finish (Call_paych_voucher_check_spendable addr sign_vouch secret proof))))));
  ("paych_voucher_create", argument address_codec (fun addr =>
     argument bigint_codec (fun amt => argument u64_codec (fun lane => finish (Call_paych_voucher_create addr amt lane)))));
  ("paych_voucher_add", argument address_codec (fun addr =>
     argument signed_voucher_codec (fun signed_voucher => argument bytes_codec (fun proof => argument bigint_codec (fun min_delta => finish (Call_paych_voucher_add addr signed_voucher proof min_delta))))));
  ("paych_voucher_list", argument address_codec (fun addr => finish (Call_paych_voucher_list addr)));
  ("paych_voucher_submit", argument address_codec (fun addr =>
     argument signed_voucher_codec (fun signed_vouch => finish (Call_paych_voucher_submit addr signed_vouch))));
  ("miner_get_base_info", argument address_codec (fun addr =>
     argument i64_codec (fun height => argument tipset_key_codec (fun key => finish (Call_miner_get_base_info addr height key)))));
  ("miner_create_block", argument block_template_codec (fun template => finish (Call_miner_create_block template)));
  ("client_import", argument file_ref_codec (fun ref_ => finish (Call_client_import ref_)));
  ("client_has_local", argument cid_codec (fun root => finish (Call_client_has_local root)));
  ("client_find_data", argument cid_codec (fun root => finish (Call_client_find_data root)));
  ("client_retrieve", argument retrieval_order_codec (fun order =>
     argument file_ref_codec (fun ref_ => finish (Call_client_retrieve order ref_))));
  ("client_calc_comm_p", argument text_codec (fun inpath =>
     argument address_codec (fun miner => finish (Call_client_calc_comm_p inpath miner))));
  ("client_gen_car", argument file_ref_codec (fun ref_ =>
     argument text_codec (fun outpath => finish (Call_client_gen_car ref_ outpath))));
  ("actor_address", finish Call_actor_address);
  ("actor_sector_size", argument address_codec (fun addr => finish (Call_actor_sector_size addr)));
  ("mining_base", finish Call_mining_base);
  ("pledge_sector", finish Call_pledge_sector);
  ("sectors_status", argument u64_codec (fun number => finish (Call_sectors_status number)));
  ("sectors_list", finish Call_sectors_list);
  ("sectors_refs", finish Call_sectors_refs);
  ("sectors_update", argument u64_codec (fun number =>
     argument text_codec (fun state => finish (Call_sectors_update number state))));
  ("worker_connect", argument text_codec (fun s => finish (Call_worker_connect s)));
  ("market_import_deal_data", argument cid_codec (fun prop_cid =>
     argument text_codec (fun path => finish (Call_market_import_deal_data prop_cid path))));
  ("market_set_price", argument bigint_codec (fun price => finish (Call_market_set_price price)));
  ("deals_import_data", argument cid_codec (fun deal_prop_cid =>
     argument text_codec (fun file => finish (Call_deals_import_data deal_prop_cid file))));
  ("storage_add_local", argument text_codec (fun path => finish (Call_storage_add_local path)))
]%string.

Fixpoint first_of {B} (rs : list (list Value -> option B)) (ps : list Value) : option B :=
  match rs with
  | [] => None
  | r :: rs => match r ps with Some b => Some b | None => first_of rs ps end
  end.
Definition wire_names : list string := Eval vm_compute in map (fun e => wire_name e.1) readers.
Fixpoint positions (method : string) (i : nat) (names : list string) : list nat :=
  match names with
  | [] => []
  | n :: names => if String.eqb n method then i :: positions method (S i) names else positions method (S i) names
  end.
Definition readers_of (method : string) : list (list Value -> option ApiCall) :=
  map (fun i => snd (nth i readers (EmptyString, fun _ => None))) (positions method 0 wire_names).
Definition read_call (method : string) : list Value -> option ApiCall := first_of (readers_of method).

Definition reads {B} (args : list (outcome RpcError Value)) (r : list Value -> option B) (b : B) : Prop :=
  exists ps, serialize_all args = Ok ps /\ r ps = Some b.

Lemma reads_finish {B} (b : B) : reads [] (finish b) b.
Proof. by exists []. Qed.

Lemma reads_argument {A B} (c : codec A) ok x (k : A -> list Value -> option B) args b :
  lawful c ok -> ok x -> reads args (k x) b -> reads (serialize c x :: args) (argument c k) b.
Proof.
  intros Hc Hx (ps & Ha & Hk). destruct (Hc x Hx) as (j & He & Hp & _ & Hd). exists (j :: ps).
  cbn [serialize_all argument]. unfold serialize. rewrite He, Hp, Hd. cbn [bind]. by rewrite Ha.
Qed.

Lemma reads_first {B} args r rs (b : B) : reads args r b -> reads args (first_of (r :: rs)) b.
Proof. intros (ps & Ha & Hr). exists ps. split; [done|]. cbn [first_of]. by rewrite Hr. Qed.

(** The second of two methods with one name: the first one's reader refuses. *)
Lemma reads_second {B} args r r' (b : B) :
  (forall ps, serialize_all args = Ok ps -> r ps = None) -> reads args r' b -> reads args (first_of [r; r']) b.
Proof. intros Hn (ps & Ha & Hr). exists ps. split; [done|]. cbn [first_of]. by rewrite Hn, Hr. Qed.

Lemma serialize_all_cons x l ps :
  serialize_all (x :: l) = Ok ps -> exists v ps', x = Ok v /\ serialize_all l = Ok ps' /\ ps = v :: ps'.
Proof. cbn. intros (v & -> & (ps' & -> & [= <-])%bind_ok)%bind_ok. eauto. Qed.

Lemma serialize_all_length l ps : serialize_all l = Ok ps -> length ps = length l.
Proof.
  revert ps. induction l as [|x l IH]; intros ps; [by intros [= <-]|].
  intros (v & ps' & _ & Hl & ->)%serialize_all_cons. cbn. f_equal. by apply IH.
Qed.

(** One argument is not two. *)
Lemma one_not_two {A B} (c : codec A) (k : A -> B) x y ps :
  serialize_all [x; y] = Ok ps -> argument c (fun a => finish (k a)) ps = None.
Proof.
  intros (u & ps1 & _ & (v & ps2 & _ & _ & ->)%serialize_all_cons & ->)%serialize_all_cons. cbn. by destruct (dec c u).
Qed.

Context `{!JsonLibLaws _} `{!PeerIdLaws _} `{!AddressDepsLaws _} `{!MultiaddrLaws _}.
#[local] Hint Resolve multiaddr_lawful : codec.

(** The readers of one name. *)
Ltac find_readers :=
  lazymatch goal with |- reads _ (first_of (readers_of ?m)) _ =>
    let l := eval vm_compute in (positions m 0 wire_names) in
    let r := eval lazy [map nth readers snd] in (map (fun i => snd (nth i readers (EmptyString, fun _ => None))) l) in
    assert (readers_of m = r) as -> by (unfold readers_of; replace (positions m 0 wire_names) with l by (vm_compute; reflexivity); reflexivity) end.
Ltac read_back :=
  repeat (eapply reads_argument; [typeclasses eauto with codec typeclass_instances|done || by apply Forall_true|]); apply reads_finish.

Lemma read_call_back c : typed c -> reads (arguments c) (read_call (wire_name (method_name c))) c.
Proof.
  intros Hc. destruct c; cbn [arguments method_name typed] in *; unfold read_call; find_readers.
  all: destruct_and? Hc.
  all: try (apply reads_first; read_back).
  - apply reads_second; [|read_back]. intros ps. apply (one_not_two cid_codec).
  - apply reads_second; [|read_back]. intros ps. apply (one_not_two cid_codec).
  - apply reads_second; [|read_back]. by intros ps (v & ps' & [= <-] & _ & ->)%serialize_all_cons.
Qed.

(** What a call puts into its message. *)
Definition request_of (c : ApiCall) : outcome RpcError (text * list Value) :=
  ps <- serialize_all (arguments c) ;; Ok (str (wire_name (method_name c)), ps).

Lemma request_of_inv c m ps :
  request_of c = Ok (m, ps) -> m = str (wire_name (method_name c)) /\ serialize_all (arguments c) = Ok ps.
Proof. unfold request_of. intros (qs & -> & [= <- <-])%bind_ok. done. Qed.

End Calls.

(** ** Two calls *)
#[local] Instance multiaddr_text : MultiaddrLib := {| Multiaddr := text; multiaddr_codec := text_codec |}.
#[local] Instance multiaddr_text_laws : MultiaddrLaws multiaddr_text.
Proof. exact text_lawful. Qed.

End ApiRequests.
