(* ===== verification/ApiTheorems.v ===== *)
(** * Requests over HTTP, and the version numbers of the API

    A node as a table of handlers of JSON parameters, and what the client gets from
    it over HTTP. *)

From Stdlib Require Import ZArith Lia String.
From stdpp Require Import base numbers list gmap.
From S2P Require Import Prelude Decimal F64 Json Serde SerdeLaws Rle Cbor CborRef Address AddressRef Wrappers.
From S2P Require Import BitField Piece Sector Crypto Message Block Tipset Wallet PrimJson Actors JsonRef ApiTypes.
From S2P Require Import JsonRpc JsonRpcTheorems Api.

Local Open Scope Z_scope.

Module ApiTheorems.
Import PrimJson.PrimJson Actors.Actors ApiTypes.ApiTypes Api.Api.

(** ** Handlers: parameters to a result or an error *)
Definition handler : Type := list Value -> Value + Error.

(** ** The node's answer to a posted body *)
Definition find_handler (table : list (text * handler)) (m : text) : handler :=
  match list_find (fun e => e.1 = m) table with Some (_, e) => e.2 | None => fun _ => inr method_not_found end.

Definition answer_json (id : json) (r : Value + Error) : json :=
  JObj [(str "jsonrpc", JStr (str "2.0")); (str "id", id);
        match r with inl v => (str "result", v) | inr e => (str "error", error_serialize e) end].

Definition node (table : list (text * handler)) : HttpPost := fun _ _ body =>
  match body with
  | JObj l =>
      match occurrences (str "method") l, occurrences (str "params") l, occurrences (str "id") l with
      | [JStr m], [JArr ps], [id] => Ok (answer_json id (find_handler table m ps))
      | _, _, _ => Err HttpError
      end
  | _ => Err HttpError
  end.

Definition next_http (h : HttpTransport) : HttpTransport :=
  mkHttp (trunc 64 (http_id h + 1)) (url h) (bearer_auth_token h).

(** What comes back of an answer. *)
Definition received {T} (f : Value -> de T) (r : Value + Error) : outcome RpcError T :=
  match r with inl v => map_err JsonError (f v) | inr e => Err (RpcResponse e) end.

Definition answer_ok (r : Value + Error) : Prop := match r with inl v => plain v | inr e => error_ok e end.

Lemma answer_received {T} (f : Value -> de T) id r :
  id_ok id -> answer_ok r ->
  response_deserialize (answer_json (JInt id) r) =
  Ok (Single match r with inl v => Success (mkSuccess (Some V2) id v None) | inr e => Failure (mkFailure (Some V2) id None e) end).
Proof.
  intros Hid Hr. unfold response_deserialize, output_deserialize, success_deserialize, failure_deserialize.
  destruct r as [v|e].
  - change (struct_slots true response_fields (answer_json (JInt id) (inl v)))
      with (@Ok de_error _ [Given (version_serialize V2); Given (JInt id); Given v; Absent]).
    cbn -[de_usize de_value optional]. rewrite id_reads_back by done. cbn. unfold de_value. by rewrite Hr.
  - change (struct_slots true response_fields (answer_json (JInt id) (inr e)))
      with (@Ok de_error _ [Given (version_serialize V2); Given (JInt id); Absent; Given (error_serialize e)]).
    cbn -[de_usize error_serialize error_deserialize]. rewrite id_reads_back by done.
    cbn -[error_serialize error_deserialize]. by rewrite error_reads_back.
Qed.

Section Calls.
Context (table : list (text * handler)).
#[local] Instance node_http : HttpPost := node table.

Lemma node_client_request {T} (f : Value -> de T) (method : text) ps h :
  id_ok (http_id h) -> answer_ok (find_handler table (str "Filecoin." ++ method) ps) ->
  client_request f method ps h = (received f (find_handler table (str "Filecoin." ++ method) ps), next_http h).
Proof.
  intros Hid Hr. cbn [client_request http_client]. unfold request, send.
  cbn [prepare execute http_transport next_call http_id url bearer_auth_token]. unfold http_send_request.
  cbn [url bearer_auth_token]. set (m := str "Filecoin." ++ method) in *.
  change (post (url h) (bearer_auth_token h) (request_serialize (RSingle (CMethodCall (mkCall (Some V2) m (PArray ps) (http_id h))))))
    with (@Ok RpcError _ (answer_json (JInt (http_id h)) (find_handler table m ps))).
  cbn [bind]. rewrite (answer_received f) by done. unfold next_http. by destruct (find_handler table m ps).
Qed.
End Calls.

(** ** API versions *)
Lemma lor_shiftl a b n : 0 <= n -> 0 <= b < 2 ^ n -> Z.lor (Z.shiftl a n) b = a * 2 ^ n + b.
Proof.
  intros Hn Hb. assert (Hl : Z.land (Z.shiftl a n) b = 0).
  { apply Z.bits_inj'. intros i Hi. rewrite Z.land_spec, Z.bits_0, Z.shiftl_spec by lia. destruct (Z.ltb_spec i n).
    - by rewrite Z.testbit_neg_r by lia.
    - rewrite <- (Z.mod_small b (2 ^ n)), Z.mod_pow2_bits_high by lia. apply andb_false_r. }
  by rewrite <- Z.lxor_lor, <- Z.add_nocarry_lxor, Z.shiftl_mul_pow2 by done.
Qed.

Lemma build_version_number x y z :
  0 <= y < 256 -> 0 <= z < 256 -> bv (build_version_new (x, y, z)) = x * 65536 + y * 256 + z.
Proof.
  intros Hy Hz. cbn -[Z.shiftl]. rewrite <- Z.lor_assoc, (lor_shiftl y), (lor_shiftl x) by lia. lia.
Qed.

(** Making a version number from three bytes and taking it apart gives back the
    minor and the patch number; the major number that comes back is the patch
    number, since the mask is shifted instead of the masked number.  The number
    itself fits 32 bits and tells all three apart. *)
Theorem build_version_semver (x y z x' y' z' : Z) :
  0 <= x < 256 -> 0 <= y < 256 -> 0 <= z < 256 -> 0 <= x' < 256 -> 0 <= y' < 256 -> 0 <= z' < 256 ->
  semver (build_version_new (x, y, z)) = (z, y, z) /\
  0 <= bv (build_version_new (x, y, z)) < 2 ^ 32 /\
  (build_version_new (x, y, z) = build_version_new (x', y', z') -> (x, y, z) = (x', y', z')).
Proof.
  intros Hx Hy Hz Hx' Hy' Hz'. assert (Hn := build_version_number x y z Hy Hz). split; [|split].
  - unfold semver, major, minor, patch, trunc. rewrite Hn. change (Z.shiftr MAJOR_ONLY_MASK 16) with (Z.ones 8).
    change PATCH_ONLY_MASK with (Z.ones 8). change MINOR_ONLY_MASK with (Z.shiftl (Z.ones 8) 8).
    rewrite Z.shiftr_land, Z.shiftr_shiftl_l by lia. change (Z.shiftl (Z.ones 8) (8 - 8)) with (Z.ones 8).
    rewrite !Z.land_ones, Z.shiftr_div_pow2 by lia. change (2 ^ 8) with 256. f_equal; [f_equal|]; Z.to_euclidean_division_equations; lia.
  - lia.
  - intros He%(f_equal bv). rewrite !build_version_number in He by done.
    assert (x = x' /\ y = y' /\ z = z') as (-> & -> & ->) by lia. done.
Qed.

Lemma build_version_semver_witness :
  semver (build_version_new (1, 2, 3)) = (3, 2, 3) /\ build_version_display (build_version_new (1, 2, 3)) = str "3.2.3".
Proof.
  split; [|reflexivity].
  apply (build_version_semver 1 2 3 4 5 6); lia.
Defined.
End ApiTheorems.
