(* ===== verification/ApiSessions.v ===== *)
(** * Sessions: the same calls over HTTP and over a WebSocket

    A node answers the texts that its client sends, over either transport; a
    session is a sequence of calls, each awaited before the next.  Over a
    WebSocket other messages may come in before each answer. *)

From Stdlib Require Import ZArith Lia String.
From stdpp Require Import base numbers list gmap.
From S2P Require Import Prelude Decimal F64 Json Serde SerdeLaws JsonRpc JsonRpcTheorems Api ApiTheorems.

Local Open Scope Z_scope.

Module ApiSessions.
Import Api.Api ApiTheorems.ApiTheorems.

(** ** A transport between two calls *)
Record tidy (w : WebSocketTransport) : Prop := {
  tidy_running : running w = true;
  tidy_id : 1 <= ws_id w;
  tidy_pending i c : pendings w !! i = Some c -> i < ws_id w /\ (c < channels w)%nat;
  tidy_dropped c : c ∈ dropped w -> (c < channels w)%nat;
  tidy_replies c : c ∈ (replies w).*1 -> (c < channels w)%nat;
}.

Lemma tidy_ready w : tidy w -> ws_id w < 2 ^ 64 - 1 -> ready w.
Proof.
  intros [H1 H2 H3 H4 H5] Hid. split; [done|lia|..].
  - intros i c Hc. destruct (H3 i c Hc). split; lia.
  - intros Hc. specialize (H4 _ Hc). lia.
  - intros Hc. specialize (H5 _ Hc). lia.
Qed.

Lemma tidy_new : tidy ws_new.
Proof. split; cbn; [done|lia|..]; set_solver. Qed.

Lemma handle_pending_tidy msg w : tidy w -> tidy (handle_pending_response msg w).
Proof.
  intros Hw. unfold handle_pending_response. destruct (pendings w !! _) as [c|] eqn:Hc; [|done].
  destruct Hw as [H1 H2 H3 H4 H5]. split; cbn; [done|done| |done|].
  - intros i c' Hi. apply lookup_delete_Some in Hi as [_ Hi]. by apply H3.
  - intros c'. case_bool_decide; [apply H5|]. rewrite fmap_app, elem_of_app. intros [?|Hc']; [by apply H5|].
    apply list_elem_of_singleton in Hc' as ->. by apply (H3 _ _ Hc).
Qed.

(** A message that is no notification. *)
Definition quiet (m : Message) : Prop := match m with Text msg => not_notification msg | _ => True end.

Lemma other_quiet id m : other id m -> quiet m.
Proof. destruct m; [by intros []|done..]. Qed.

Lemma receive_tidy m w : tidy w -> quiet m -> tidy (ws_receive m w) /\ ws_id (ws_receive m w) = ws_id w.
Proof.
  intros Hw Hm. destruct m as [msg|b|b|b|b].
  - rewrite receive_text by (done || apply Hw). split; [by apply handle_pending_tidy|].
    unfold handle_pending_response. by destruct (pendings w !! _).
  - unfold ws_receive. by rewrite (tidy_running _ Hw).
  - unfold ws_receive, handle_incoming_msg, ws_send_message. rewrite (tidy_running _ Hw). split; [|done]. destruct Hw. by split.
  - unfold ws_receive, handle_incoming_msg, ws_send_message. rewrite (tidy_running _ Hw). split; [|done]. destruct Hw. by split.
  - unfold ws_receive. by rewrite (tidy_running _ Hw).
Qed.

Lemma await_tidy c msgs w r w' rest :
  Forall quiet msgs -> tidy w -> await c msgs w = (r, (w', rest)) -> tidy w' /\ ws_id w' = ws_id w.
Proof.
  intros Hq. revert w. induction Hq as [|m msgs Hm _ IH]; intros w Hw; cbn [await]; destruct (reply_of c w); try by intros [= _ <- _].
  intros Ha. destruct (receive_tidy m w Hw Hm) as [Hw1 <-]. by apply IH.
Qed.

Lemma prepare_send_tidy m p w r w1 c :
  tidy w -> ws_id w < 2 ^ 64 - 1 -> send_request (ws_id w) r (ws_prepare m p w).2 = (Ok c, w1) ->
  tidy w1 /\ ws_id w1 = ws_id w + 1.
Proof.
  intros [H1 H2 H3 H4 H5] Hid. unfold ws_prepare, next_call, send_request, ws_send_message. cbn. rewrite H1.
  assert (Ht : trunc 64 (ws_id w + 1) = ws_id w + 1) by (apply Z.mod_small; lia).
  destruct (pendings w !! ws_id w) as [c'|] eqn:Hp; [destruct (H3 _ _ Hp); lia|].
  cbn. intros [= _ <-]. split; [|exact Ht]. rewrite app_nil_r, Ht. split; cbn; [done|lia|..].
  - intros i c0 Hi. apply lookup_insert_Some in Hi as [[<- <-]|[_ Hi]]; [lia|]. destruct (H3 _ _ Hi). lia.
  - intros c0 Hc. specialize (H4 _ Hc). lia.
  - intros c0 Hc. specialize (H5 _ Hc). lia.
Qed.

Lemma send_tidy {T} (f : Value -> de T) m p w msgs r w' rest :
  tidy w -> ws_id w < 2 ^ 64 - 1 -> Forall quiet msgs -> send f m p (w, msgs) = (r, (w', rest)) ->
  tidy w' /\ ws_id w' = ws_id w + 1.
Proof.
  intros Hw Hid Hq. destruct (call_waits m p w (tidy_ready w Hw Hid)) as (w1 & Hfst & Hs & _).
  destruct (prepare_send_tidy _ _ _ _ _ _ Hw Hid Hs) as [Hw1 Hid1].
  unfold send. cbn [prepare ws_transport]. destruct (ws_prepare m p w) as [[id call] w0] eqn:Hp.
  cbn [fst snd] in *. subst id. cbn [execute ws_transport fst snd]. rewrite Hp. cbn [fst snd]. rewrite Hs.
  destruct (await (channels w) msgs w1) as [r0 [w2 rest2]] eqn:Ha. intros [= _ <- _].
  destruct (await_tidy _ _ _ _ _ _ Hq Hw1 Ha) as [? ->]. done.
Qed.

(** ** The node at the other end *)
Section Sessions.
Context (table : list (text * handler)).
#[local] Instance session_http : HttpPost := node table.

(** What a WebSocket call sends, and what the node sends back. *)
Definition outgoing (method : text) (params : list Value) (w : WebSocketTransport) : Message :=
  let '(id, call, _) := ws_prepare (str "Filecoin." ++ method) (PArray params) w in
  Text (Some (request_serialize (RSingle call))).
Definition ws_node (m : Message) : list Message :=
  match m with
  | Text (Some body) => match node table [] None body with Ok j => [Text (Some j)] | _ => [] end
  | _ => []
  end.

(** ** Sessions *)
Fixpoint http_session (calls : list (text * list Value)) (h : HttpTransport) : list (outcome RpcError Value) * HttpTransport :=
  match calls with
  | [] => ([], h)
  | (m, ps) :: calls =>
      let '(r, h) := client_request de_value m ps h in
      let '(l, h) := http_session calls h in (r :: l, h)
  end.
(** Before each answer the messages of [noise] for that call come in. *)
Fixpoint ws_session (noise : nat -> list Message) (calls : list (text * list Value)) (w : WebSocketTransport)
  : list (outcome RpcError Value) * WebSocketTransport :=
  match calls with
  | [] => ([], w)
  | (m, ps) :: calls =>
      let '(r, (w, _)) := client_request de_value m ps (w, noise (length calls) ++ ws_node (outgoing m ps w)) in
      let '(l, w) := ws_session noise calls w in (r :: l, w)
  end.

Definition answerable (c : text * list Value) : Prop := answer_ok (find_handler table (str "Filecoin." ++ c.1) c.2).

Lemma answer_quiet id r : not_notification (Some (answer_json id r)).
Proof. by destruct r. Qed.

Lemma node_answers m ps w :
  ws_node (outgoing m ps w) = [Text (Some (answer_json (JInt (ws_id w)) (find_handler table (str "Filecoin." ++ m) ps)))].
Proof. done. Qed.

Lemma ws_call m ps noise w :
  tidy w -> ws_id w < 2 ^ 64 - 1 -> Forall (other (ws_id w)) noise -> answerable (m, ps) ->
  exists w', client_request de_value m ps (w, noise ++ ws_node (outgoing m ps w))
      = (received de_value (find_handler table (str "Filecoin." ++ m) ps), (w', [])) /\
    tidy w' /\ ws_id w' = ws_id w + 1.
Proof.
  intros Hw Hid Hn Ha. rewrite node_answers. cbn [client_request ws_client]. unfold request.
  set (v := find_handler table (str "Filecoin." ++ m) ps) in *. set (j := answer_json _ v).
  assert (Hq : Forall quiet (noise ++ [Text (Some j)])).
  { apply Forall_app. split; [eapply Forall_impl; [exact Hn|apply other_quiet]|]. apply Forall_singleton, answer_quiet. }
  assert (Hok : id_ok (ws_id w)) by (pose proof (tidy_id _ Hw); unfold id_ok; lia).
  destruct (ws_send_response de_value (str "Filecoin." ++ m) (PArray ps) w noise [] j
    match v with inl x => Success (mkSuccess (Some V2) (ws_id w) x None) | inr e => Failure (mkFailure (Some V2) (ws_id w) None e) end)
    as [(w' & Hs) _].
  - by apply tidy_ready.
  - done.
  - apply answer_quiet.
  - by apply (answer_received (T := Value) de_value).
  - by destruct v.
  - exists w'. split; [rewrite Hs; by destruct v|]. by apply (send_tidy _ _ _ _ _ _ _ _ Hw Hid Hq Hs).
Qed.

(** C15: A session gets the same answers over HTTP and over a WebSocket: against the
    same node, whatever the calls and their parameters, the two clients return the
    same list of results and errors, call by call, although over the WebSocket
    any messages that are no notifications and answer other calls (closes, pings,
    garbled texts, late responses) come in before each answer; and the WebSocket
    is left ready for more calls.  Every call takes one id. *)
Theorem transports_agree (noise : nat -> list Message) (calls : list (text * list Value)) (h : HttpTransport)
    (w : WebSocketTransport) :
  tidy w -> ws_id w + Z.of_nat (length calls) < 2 ^ 64 -> 0 <= http_id h -> http_id h + Z.of_nat (length calls) < 2 ^ 64 ->
  (forall n id, ws_id w <= id -> Forall (other id) (noise n)) -> Forall answerable calls ->
  (ws_session noise calls w).1 = (http_session calls h).1 /\
  tidy (ws_session noise calls w).2 /\
  ws_id (ws_session noise calls w).2 = ws_id w + Z.of_nat (length calls) /\
  http_id (http_session calls h).2 = http_id h + Z.of_nat (length calls).
Proof.
  intros Hw Hid Hh0 Hh Hn Hcs. revert h w Hw Hid Hh0 Hh Hn.
  induction Hcs as [|[m ps] calls Hc _ IH]; intros h w Hw Hid Hh0 Hh Hn; cbn [http_session ws_session].
  { cbn. split; [done|]. split; [done|]. lia. }
  cbn [length] in *. destruct (ws_call m ps (noise (length calls)) w) as (w' & -> & Hw' & Hid'); [done|lia|by apply Hn|done|].
  rewrite (node_client_request table) by (done || unfold id_ok; lia).
  assert (Hnext : http_id (next_http h) = http_id h + 1) by (apply Z.mod_small; lia).
  destruct (IH (next_http h) w') as (Heq & Ht & Hi1 & Hi2); [done|lia|lia|lia| |].
  { intros n id Hle. apply Hn. lia. }
  destruct (ws_session noise calls w') as [l1 w2], (http_session calls (next_http h)) as [l2 h2]. cbn in *.
  rewrite Heq. split; [done|]. split; [done|]. lia.
Qed.
End Sessions.

Definition small_table : list (text * handler) :=
  [(str "Filecoin.Version", fun _ => inl (JStr (str "0.2.7"))); (str "Filecoin.NetPeers", fun _ => inl (JArr []))].

Lemma transports_agree_witness :
  let calls := [(str "Version", []); (str "NoSuchMethod", [JBool true]); (str "NetPeers", [])] in
  let noise (_ : nat) := [Ping [1]; Text None; Close []] in
  (ws_session small_table noise calls ws_new).1 = (http_session small_table calls (http_new (str "http://localhost"))).1 /\
  tidy (ws_session small_table noise calls ws_new).2 /\
  ws_id (ws_session small_table noise calls ws_new).2 = 4 /\
  http_id (http_session small_table calls (http_new (str "http://localhost"))).2 = 3.
Proof.
  intros calls noise. apply (transports_agree small_table noise calls (http_new (str "http://localhost")) ws_new).
  - exact tidy_new.
  - done.
  - done.
  - done.
  - intros n id Hid. cbn in Hid. apply Forall_cons. split; [done|]. apply Forall_cons. split; [|by apply Forall_singleton].
    split; [done|]. cbn. lia.
  - apply Forall_cons. split; [done|]. apply Forall_cons. split; [|by apply Forall_singleton].
    split; [done|]. split; [cbn; lia|exact I].
Defined.
End ApiSessions.
